(** * GACUA agent execution core: a shallow embedding and its properties

    The development follows the backend sources:
    - [services/computer-use/screen.ts]   (module [ScreenTs]): tiling of a
      screenshot and de-normalisation of grounding boxes;
    - [repository/session.ts]             (module [Repository]): the
      line-oriented message log;
    - [services/computer-use/interface.ts] (module [Interface]): conversion
      between persisted blocks and LLM parts, history recovery;
    - [services/computer-use/tool-computer/index.ts] (module [ToolCatalog]);
    - [services/computer-use/agent.ts]    (module [Agent]): element
      detection, the context manager and the turn loop [runAgent].

    JavaScript numbers that the code only uses as integers (pixel counts,
    normalised coordinates, indices) are modelled as [Z]; the numbers of
    JSON values, which come from the models and from files, are doubles
    ([Js.StringToNumber], [Js.Number_toString]). *)

From Stdlib Require Import ZArith Lia List Bool Ascii String Floats DecimalString.
Import ListNotations.

Local Open Scope Z_scope.

(* ================================================================== *)
(** * screen.ts *)
(* ================================================================== *)

Module ScreenTs.

Record Resolution := { width : Z; height : Z }.
Record Coordinate := { cx : Z; cy : Z }.

(** Boxes arrive from the grounding model as [ymin, xmin, ymax, xmax]. *)
Record Box := { ymin : Z; xmin : Z; ymax : Z; xmax : Z }.

Inductive CropDirection := vertical | horizontal.

Record Screen := {
  resolution : Resolution;
  cropDirection : CropDirection;
  cropSquareSideLength : Z;
  squareStartingPoints : list Coordinate
}.

(** [Math.round (s * 0.5)] for an integer [s]: halving is exact in binary
    floating point and [Math.round] rounds a tie towards plus infinity. *)
Definition Math_round_half (s : Z) : Z := (s + 1) / 2.

(** The loop
    [let x = cropStep; while (x + side < limit) { push x; x += cropStep }]
    of [setCropConfiguration].  It returns the pushed offsets, or [None]
    when the fuel is used up before the loop condition fails (the
    JavaScript loop would not have stopped within that many rounds). *)
Fixpoint cropLoop (fuel : nat) (cropStep side limit x : Z) : option (list Z) :=
  if x + side <? limit then
    match fuel with
    | O => None
    | S fuel' =>
        match cropLoop fuel' cropStep side limit (x + cropStep) with
        | Some rest => Some (x :: rest)
        | None => None
        end
    end
  else Some [].

(** The final push: [if (final > points[points.length - 1]) push final]. *)
Definition capPoints (points : list Z) (final : Z) : list Z :=
  if last points 0 <? final then points ++ [final] else points.

(** Offsets along the long axis: the origin, the stepped offsets, the cap. *)
Definition axisOffsets (side limit : Z) : option (list Z) :=
  let cropStep := Math_round_half side in
  match cropLoop (Z.to_nat limit) cropStep side limit cropStep with
  | Some stepped => Some (capPoints (0 :: stepped) (limit - side))
  | None => None
  end.

(** [new Screen(resolution)], that is [setCropConfiguration]. *)
Definition newScreen (r : Resolution) : option Screen :=
  let direction := if height r <? width r then vertical else horizontal in
  let side := Z.min (width r) (height r) in
  match direction with
  | vertical =>
      match axisOffsets side (width r) with
      | Some xs => Some {| resolution := r; cropDirection := vertical;
                           cropSquareSideLength := side;
                           squareStartingPoints :=
                             map (fun x => {| cx := x; cy := 0 |}) xs |}
      | None => None
      end
  | horizontal =>
      match axisOffsets side (height r) with
      | Some ys => Some {| resolution := r; cropDirection := horizontal;
                           cropSquareSideLength := side;
                           squareStartingPoints :=
                             map (fun y => {| cx := 0; cy := y |}) ys |}
      | None => None
      end
  end.

(** [Screen.getBoxCenter]: [Math.floor ((min + max) / 2)] on each axis. *)
Definition getBoxCenter (b : Box) : Coordinate :=
  {| cx := (xmin b + xmax b) / 2; cy := (ymin b + ymax b) / 2 |}.

(** ** Double-precision arithmetic

    The numbers of the code are doubles.  Those it handles as integers
    are far below [2^53], where doubles hold integers exactly, and are
    modelled by [Z]; the one computation that leaves the integers is the
    product [(c / 1000) * side] of [toScreenCoordinate], which is carried
    out in binary64 as the code does. *)

(** The double nearest to an integer. *)
Definition f64_of_Z (z : Z) : float :=
  SF2Prim (binary_normalize prec emax z 0 false).

(** [Math.round] of a double, as an exact integer: the nearest integer, a
    tie going towards plus infinity.  [None] for NaN and the infinities,
    which [Math.round] returns as they are. *)
Definition Math_round (f : float) : option Z :=
  match Prim2SF f with
  | S754_zero _ => Some 0
  | S754_finite sg m e =>
      let n := if sg then Z.neg m else Z.pos m in
      if 0 <=? e then Some (n * 2 ^ e)
      else Some ((2 * n + 2 ^ (- e)) / (2 * 2 ^ (- e)))
  | _ => None
  end.

(** [Math.round ((c / 1000) * side)]. *)
Definition unnormalize (side c : Z) : option Z :=
  Math_round
    (PrimFloat.mul (PrimFloat.div (f64_of_Z c) (f64_of_Z 1000)) (f64_of_Z side)).

(** The same over the rationals: the nearest integer to [c * side / 1000],
    a tie going up. *)
Definition nearest (side c : Z) : Z := (2 * c * side + 1000) / 2000.

(** Whether, on tiles of side [side], the double-precision computation
    gives the exact nearest integer for every normalised coordinate from
    0 to 1000.  It does for the sides 768 and 1080 of the usual
    screenshots; on some sides the computed product falls just below a tie
    that the exact product hits (on side 900 at the coordinate 565, where
    [0.565 * 900] is computed as 508.49999999999994). *)
Definition roundsExactly (side : Z) : bool :=
  forallb (fun c => match unnormalize side (Z.of_nat c) with
                    | Some v => v =? nearest side (Z.of_nat c)
                    | None => false
                    end) (seq 0 1001).

Inductive BoxOrCoordinate :=
| OfBox (b : Box)
| OfCoordinate (c : Coordinate).

(** [Screen.toScreenCoordinate].  [None] stands for the [TypeError] raised
    when [squareStartingPoints[index]] is [undefined], and for a
    coordinate that is not a number, which takes operands beyond the
    range of the doubles. *)
Definition toScreenCoordinate (scr : Screen) (index : nat)
    (boxOrCoordinate : BoxOrCoordinate) : option Coordinate :=
  let center := match boxOrCoordinate with
                | OfBox b => getBoxCenter b
                | OfCoordinate c => c
                end in
  match unnormalize (cropSquareSideLength scr) (cx center),
        unnormalize (cropSquareSideLength scr) (cy center),
        nth_error (squareStartingPoints scr) index with
  | Some unnormalizedX, Some unnormalizedY, Some startPoint =>
      Some {| cx := cx startPoint + unnormalizedX;
              cy := cy startPoint + unnormalizedY |}
  | _, _, _ => None
  end.

Record Rectangle := { left : Z; top : Z; rectWidth : Z; rectHeight : Z }.

(** [Screen.toScreenRectangle]: both corners go through
    [toScreenCoordinate] as plain coordinates. *)
Definition toScreenRectangle (scr : Screen) (index : nat) (box : Box)
    : option Rectangle :=
  match toScreenCoordinate scr index
          (OfCoordinate {| cx := xmin box; cy := ymin box |}),
        toScreenCoordinate scr index
          (OfCoordinate {| cx := xmax box; cy := ymax box |}) with
  | Some lt, Some rb =>
      Some {| left := cx lt; top := cy lt;
              rectWidth := cx rb - cx lt; rectHeight := cy rb - cy lt |}
  | _, _ => None
  end.

(** The arithmetic floor of the midpoint of a de-normalised rectangle. *)
Definition rectangleMidpoint (r : Rectangle) : Coordinate :=
  {| cx := (left r + (left r + rectWidth r)) / 2;
     cy := (top r + (top r + rectHeight r)) / 2 |}.

End ScreenTs.

(* ================================================================== *)
(** * Host values: strings, JSON values, exceptions *)
(* ================================================================== *)

Local Open Scope string_scope.

Module Js.

(** A thrown exception: the constructor name and the message.  Messages of
    errors raised by the engine itself are those of V8. *)
Record Exn := { exn_name : string; exn_message : string }.

Definition Error (msg : string) : Exn :=
  {| exn_name := "Error"; exn_message := msg |}.
Definition TypeError (msg : string) : Exn :=
  {| exn_name := "TypeError"; exn_message := msg |}.
Definition SyntaxError (msg : string) : Exn :=
  {| exn_name := "SyntaxError"; exn_message := msg |}.

(** [String(e)] for an error object, as in a template literal. *)
Definition Exn_toString (e : Exn) : string :=
  exn_name e ++ ": " ++ exn_message e.

(** The outcome of evaluating code that may throw. *)
Inductive Result (A : Type) :=
| Ok (a : A)
| Throw (e : Exn).
Arguments Ok {A} a.
Arguments Throw {A} e.

Definition bind {A B} (r : Result A) (k : A -> Result B) : Result B :=
  match r with
  | Ok a => k a
  | Throw e => Throw e
  end.

(** [xs.map(f)] where [f] may throw: the first exception aborts the map. *)
Fixpoint mapM {A B} (f : A -> Result B) (xs : list A) : Result (list B) :=
  match xs with
  | [] => Ok []
  | x :: rest =>
      bind (f x) (fun y => bind (mapM f rest) (fun ys => Ok (y :: ys)))
  end.

(** [xs.filter(p)] where [p] may throw. *)
Fixpoint filterM {A} (p : A -> Result bool) (xs : list A) : Result (list A) :=
  match xs with
  | [] => Ok []
  | x :: rest =>
      bind (p x) (fun keep =>
      bind (filterM p rest) (fun ys => Ok (if keep then x :: ys else ys)))
  end.

(** ** Characters and strings

    Strings are sequences of bytes: the UTF-8 text of a file, or of a
    JavaScript string. *)

Definition code (c : ascii) : N := N_of_ascii c.
Definition chr (n : N) : ascii := ascii_of_N n.

Definition quote : ascii := chr 34.
Definition newline : ascii := chr 10.
Definition backslash : ascii := chr 92.

Definition str1 (c : ascii) : string := String c EmptyString.

Definition is_empty (s : string) : bool :=
  match s with
  | EmptyString => true
  | String _ _ => false
  end.

Definition is_digit (c : ascii) : bool :=
  ((48 <=? code c) && (code c <=? 57))%N.

(** [str.split(sep)] for a one-character separator: the pieces between
    its occurrences; never an empty list. *)
Fixpoint split (sep : ascii) (s : string) : list string :=
  match s with
  | EmptyString => [EmptyString]
  | String c rest =>
      if Ascii.eqb c sep then EmptyString :: split sep rest
      else match split sep rest with
           | piece :: pieces => String c piece :: pieces
           | [] => [str1 c]
           end
  end.

(** [str.startsWith(prefix)]. *)
Definition startsWith (prefix s : string) : bool := String.prefix prefix s.

(** [str.slice(n)] for [n] within the string. *)
Definition slice (n : nat) (s : string) : string :=
  substring n (length s - n) s.

(** One white-space or line-terminator character of ECMAScript at the head
    of [s], in UTF-8: TAB, LF, VT, FF, CR, SP, U+00A0, U+1680,
    U+2000..U+200A, U+2028, U+2029, U+202F, U+205F, U+3000, U+FEFF.
    Returns what follows it. *)
Definition strip_whitespace_char (s : string) : option string :=
  match s with
  | EmptyString => None
  | String c1 r1 =>
      let n1 := code c1 in
      if ((9 <=? n1) && (n1 <=? 13) || (n1 =? 32))%N then Some r1
      else match r1 with
      | EmptyString => None
      | String c2 r2 =>
          let n2 := code c2 in
          if ((n1 =? 194) && (n2 =? 160))%N then Some r2
          else match r2 with
          | EmptyString => None
          | String c3 r3 =>
              let n3 := code c3 in
              if ((n1 =? 225) && (n2 =? 154) && (n3 =? 128)
                  || (n1 =? 226) && (n2 =? 128)
                     && ((128 <=? n3) && (n3 <=? 138)
                         || (n3 =? 168) || (n3 =? 169) || (n3 =? 175))
                  || (n1 =? 226) && (n2 =? 129) && (n3 =? 159)
                  || (n1 =? 227) && (n2 =? 128) && (n3 =? 128)
                  || (n1 =? 239) && (n2 =? 187) && (n3 =? 191))%N
              then Some r3 else None
          end
      end
  end.

(** [str.trimStart()].  The fuel is the length of the string, which bounds
    the number of characters that can be stripped. *)
Fixpoint trimStart_fuel (fuel : nat) (s : string) : string :=
  match fuel with
  | O => s
  | S fuel' =>
      match strip_whitespace_char s with
      | Some rest => trimStart_fuel fuel' rest
      | None => s
      end
  end.

Definition trimStart (s : string) : string := trimStart_fuel (length s) s.

(** [str.trim() === '']: trimming either end of a string made of white
    space only leaves nothing, so trimming the start decides it. *)
Definition trim_is_empty (s : string) : bool := is_empty (trimStart s).

(** [str.trimEnd()] and [str.trim()]. *)
Fixpoint trimEnd (s : string) : string :=
  match s with
  | EmptyString => EmptyString
  | String c rest =>
      if trim_is_empty s then EmptyString else String c (trimEnd rest)
  end.

Definition trim (s : string) : string := trimEnd (trimStart s).

(** ** JSON values

    The values [JSON.parse] builds.  A number is carried by a numeral:
    the literal that was read, or the text [String(n)] prints.  The
    numeral stands for the double nearest to it ([StringToNumber] below),
    and what the code does with a number goes through that double. *)
#[warnings="-register-all"]
Inductive json :=
| JNull
| JBool (b : bool)
| JNumber (numeral : string)
| JString (s : string)
| JArray (items : list json)
| JObject (members : list (string * json)).

(** [obj[key]] on an object built by [JSON.parse] or an object literal:
    a later member with the same key overrides an earlier one. *)
Fixpoint lookup (key : string) (members : list (string * json)) : option json :=
  match members with
  | [] => None
  | (k, v) :: rest =>
      match lookup key rest with
      | Some v' => Some v'
      | None => if String.eqb k key then Some v else None
      end
  end.

(** Decimal numeral of a natural number, as [String(n)] prints it. *)
Definition decimal (n : N) : string :=
  DecimalString.NilZero.string_of_uint (N.to_uint n).

(** [parts.join(sep)]. *)
Definition join (sep : string) (parts : list string) : string :=
  String.concat sep parts.

(** Value of a digit in radix 10 or 16. *)
Definition digit_value (radix : N) (c : ascii) : option N :=
  let n := code c in
  if ((48 <=? n) && (n <=? 57))%N then Some (n - 48)%N
  else if (radix =? 16)%N then
    if ((97 <=? n) && (n <=? 102))%N then Some (n - 87)%N
    else if ((65 <=? n) && (n <=? 70))%N then Some (n - 55)%N
    else None
  else None.

(** The longest prefix of digits, accumulated left to right. *)
Fixpoint digits_prefix (radix : N) (s : string) (acc : option N) : option N :=
  match s with
  | EmptyString => acc
  | String c rest =>
      match digit_value radix c with
      | Some d =>
          digits_prefix radix rest
            (Some (match acc with Some a => a * radix + d | None => d end)%N)
      | None => acc
      end
  end.

(** The longest run of decimal digits at the head of [s]. *)
Fixpoint take_digits (s : string) : string * string :=
  match s with
  | String c rest =>
      if is_digit c then let (ds, r) := take_digits rest in (String c ds, r)
      else (EmptyString, s)
  | EmptyString => (EmptyString, s)
  end.

Definition digits_value (ds : string) : N :=
  match digits_prefix 10 ds None with
  | Some n => n
  | None => 0%N
  end.

(** The numeral of an integer that the code computes. *)
Definition numeral_of_N (n : N) : string := decimal n.

Definition numeral_of_Z (z : Z) : string :=
  if (z <? 0)%Z then "-" ++ decimal (Z.to_N (- z)) else decimal (Z.to_N z).

(** ** Numbers

    The numbers of JavaScript are the doubles of IEEE 754: the
    [spec_float]s of the Standard Library with 53 digits ([prec]) and
    exponents below 1024 ([emax]). *)

(** The double nearest to [m * 10 ^ e], a tie going to the even one.
    Beyond [10 ^ 310] the result is an infinity and below [10 ^ -330] a
    zero, whatever the digits; in between, the quotient and its rounding
    are those of the division of doubles, on integers of any size. *)
Definition double_of_decimal (negative : bool) (m : N) (e : Z) : spec_float :=
  match m with
  | N0 => S754_zero negative
  | Npos p =>
      let magnitude := (Z.of_nat (length (decimal m)) + e)%Z in
      if (310 <? magnitude)%Z then S754_infinity negative
      else if (magnitude <? -330)%Z then S754_zero negative
      else if (0 <=? e)%Z then
        binary_round prec emax negative (p * Z.to_pos (10 ^ e)) 0
      else
        let '(q, e', l) :=
          SFdiv_core_binary prec emax (Zpos p) 0 (10 ^ (- e)) 0 in
        binary_round_aux prec emax negative q e' l
  end.

(** The double nearest to an integer. *)
Definition double_of_Z (z : Z) : spec_float :=
  binary_normalize prec emax z 0 false.

(** The same double, sign of zero included. *)
Definition double_eqb (x y : spec_float) : bool :=
  match x, y with
  | S754_zero s1, S754_zero s2 => Bool.eqb s1 s2
  | S754_infinity s1, S754_infinity s2 => Bool.eqb s1 s2
  | S754_nan, S754_nan => true
  | S754_finite s1 m1 e1, S754_finite s2 m2 e2 =>
      Bool.eqb s1 s2 && Pos.eqb m1 m2 && Z.eqb e1 e2
  | _, _ => false
  end.

(** The digits of a non-decimal integer literal: all of [s]. *)
Fixpoint radix_digits (radix : N) (s : string) (acc : N) : option N :=
  match s with
  | EmptyString => Some acc
  | String c rest =>
      match digit_value 16 c with
      | Some d =>
          if (d <? radix)%N then radix_digits radix rest (acc * radix + d)%N
          else None
      | None => None
      end
  end.

(** A literal [0x], [0o] or [0b] followed by at least one digit. *)
Definition nonDecimalLiteral (s : string) : option N :=
  match s with
  | String z (String x (String c rest)) =>
      if Ascii.eqb z "0" then
        if Ascii.eqb x "x" || Ascii.eqb x "X"
        then radix_digits 16 (String c rest) 0
        else if Ascii.eqb x "o" || Ascii.eqb x "O"
        then radix_digits 8 (String c rest) 0
        else if Ascii.eqb x "b" || Ascii.eqb x "B"
        then radix_digits 2 (String c rest) 0
        else None
      else None
  | _ => None
  end.

(** The exponent part of a decimal literal: nothing, or the letter e, an
    optional sign and digits.  Returns the exponent and what follows. *)
Definition exponentPart (s : string) : option (Z * string) :=
  match s with
  | String c rest =>
      if Ascii.eqb c "e" || Ascii.eqb c "E" then
        let (negative, r1) :=
          match rest with
          | String d r =>
              if Ascii.eqb d "-" then (true, r)
              else if Ascii.eqb d "+" then (false, r)
              else (false, rest)
          | EmptyString => (false, rest)
          end in
        let (ds, r2) := take_digits r1 in
        if is_empty ds then None
        else Some (if negative then (- Z.of_N (digits_value ds))%Z
                   else Z.of_N (digits_value ds), r2)
      else Some (0%Z, s)
  | EmptyString => Some (0%Z, s)
  end.

(** [StringToNumber(str)], the conversion of [Number(str)]: white space
    around the literal is dropped; nothing is zero; a literal is a
    non-decimal integer, or an optional sign and [Infinity] or decimal
    digits with an optional fraction and exponent; anything else is
    [NaN].  It reads the literals of JSON and the texts [String(n)]
    prints. *)
Definition StringToNumber (str : string) : spec_float :=
  let s := trim str in
  if is_empty s then S754_zero false else
  match nonDecimalLiteral s with
  | Some n => double_of_decimal false n 0
  | None =>
      let (negative, s1) :=
        match s with
        | String c rest =>
            if Ascii.eqb c "-" then (true, rest)
            else if Ascii.eqb c "+" then (false, rest)
            else (false, s)
        | EmptyString => (false, s)
        end in
      if String.eqb s1 "Infinity" then S754_infinity negative else
      let (int, s2) := take_digits s1 in
      let (frac, s3) :=
        match s2 with
        | String c rest =>
            if Ascii.eqb c "." then take_digits rest else (EmptyString, s2)
        | EmptyString => (EmptyString, s2)
        end in
      if is_empty int && is_empty frac then S754_nan else
      match exponentPart s3 with
      | Some (ex, EmptyString) =>
          double_of_decimal negative (digits_value (int ++ frac))
            (ex - Z.of_nat (length frac))
      | _ => S754_nan
      end
  end.

(** Whether [num / den < 10 ^ n]. *)
Definition below (num den n : Z) : bool :=
  if (0 <=? n)%Z then (num <? 10 ^ n * den)%Z
  else (num * 10 ^ (- n) <? den)%Z.

(** The [n] with [10 ^ (n - 1) <= num / den < 10 ^ n], looked for around
    the estimate that the binary logarithms of [num] and [den] give. *)
Definition decimalExponent (num den : Z) : Z :=
  let estimate := ((Z.log2 num - Z.log2 den) * 30103 / 100000)%Z in
  match find (below num den)
             (map (fun i => (estimate - 2 + Z.of_nat i)%Z) (seq 0 6)) with
  | Some n => n
  | None => (estimate + 4)%Z
  end.

(** The digits of [Number::toString]: the least number [k] of digits, the
    integer [s] of [k] digits and the exponent [n] for which
    [s * 10 ^ (n - k)] is read as the double [d], which is [num / den];
    of two such [s], the one nearest to [d].  Seventeen digits identify
    any double. *)
Fixpoint shortestDigits (fuel : nat) (d : spec_float) (num den n k : Z)
    : Z * Z * Z :=
  let scale := (k - n)%Z in
  let xn := if (0 <=? scale)%Z then (num * 10 ^ scale)%Z else num in
  let xd := if (0 <=? scale)%Z then den else (den * 10 ^ (- scale))%Z in
  let lo := (xn / xd)%Z in
  let hi := (lo + 1)%Z in
  let reads (s : Z) :=
    double_eqb (double_of_decimal false (Z.to_N s) (n - k)) d in
  let pick (s : Z) :=
    if (s =? 10 ^ k)%Z then (1, 1, n + 1)%Z else (s, k, n) in
  match reads lo, reads hi with
  | true, true =>
      match (2 * xn ?= (2 * lo + 1) * xd)%Z with
      | Lt => pick lo
      | Gt => pick hi
      | Eq => if Z.even lo then pick lo else pick hi
      end
  | true, false => pick lo
  | false, true => pick hi
  | false, false =>
      match fuel with
      | S fuel' => shortestDigits fuel' d num den n (k + 1)
      | O => pick lo
      end
  end.

Fixpoint zeros (n : nat) : string :=
  match n with
  | O => EmptyString
  | S n' => String "0" (zeros n')
  end.

(** [Number::toString(x)] in radix 10: the shortest digits that read back
    as [x], written plainly for an exponent from -6 to 21 and with an
    exponent part beyond. *)
Definition Number_toString (x : spec_float) : string :=
  match x with
  | S754_nan => "NaN"
  | S754_zero _ => "0"
  | S754_infinity negative => if negative then "-Infinity" else "Infinity"
  | S754_finite negative m e =>
      let num := if (0 <=? e)%Z then (Zpos m * 2 ^ e)%Z else Zpos m in
      let den := if (0 <=? e)%Z then 1%Z else (2 ^ (- e))%Z in
      let '(s, k, n) :=
        shortestDigits 16 (S754_finite false m e) num den
          (decimalExponent num den) 1 in
      let digits := decimal (Z.to_N s) in
      let text :=
        if ((k <=? n) && (n <=? 21))%Z
        then digits ++ zeros (Z.to_nat (n - k))
        else if ((0 <? n) && (n <=? 21))%Z then
          substring 0 (Z.to_nat n) digits ++ "."
          ++ substring (Z.to_nat n) (Z.to_nat (k - n)) digits
        else if ((-6 <? n) && (n <=? 0))%Z then
          "0." ++ zeros (Z.to_nat (- n)) ++ digits
        else
          let exponent :=
            (if (0 <=? n - 1)%Z then "+" else "-")
            ++ decimal (Z.to_N (Z.abs (n - 1))) in
          if (k =? 1)%Z then digits ++ "e" ++ exponent
          else substring 0 1 digits ++ "."
               ++ substring 1 (Z.to_nat (k - 1)) digits ++ "e" ++ exponent
      in
      if negative then "-" ++ text else text
  end.

(** [String(v)]: the abstract operation ToString; a number prints the
    digits of its double; an array prints its items separated by commas,
    [null] items as nothing. *)
Fixpoint toString (v : json) : string :=
  match v with
  | JNull => "null"
  | JBool true => "true"
  | JBool false => "false"
  | JNumber numeral => Number_toString (StringToNumber numeral)
  | JString s => s
  | JArray items =>
      join "," (map (fun item => match item with
                                 | JNull => EmptyString
                                 | _ => toString item
                                 end) items)
  | JObject _ => "[object Object]"
  end.

(** [String(v)] where [v] may be [undefined], written [None]. *)
Definition String_ (v : option json) : string :=
  match v with
  | None => "undefined"
  | Some v => toString v
  end.

(** [parseInt(str)] without a radix argument: leading white space is
    skipped, a sign is read, a [0x] or [0X] prefix selects radix 16, and
    the longest run of digits is the value; [None] is [NaN].  The result
    is exact here, where JavaScript rounds values beyond 2^53; the code
    only compares it with 0 and 1000. *)
Definition parseInt (str : string) : option Z :=
  let s := trimStart str in
  let (negative, s1) :=
    match s with
    | String c rest =>
        if Ascii.eqb c "-" then (true, rest)
        else if Ascii.eqb c "+" then (false, rest)
        else (false, s)
    | EmptyString => (false, s)
    end in
  let (radix, s2) :=
    match s1 with
    | String c1 (String c2 rest) =>
        if Ascii.eqb c1 "0" && (Ascii.eqb c2 "x" || Ascii.eqb c2 "X")
        then (16%N, rest) else (10%N, s1)
    | _ => (10%N, s1)
    end in
  match digits_prefix radix s2 None with
  | Some n => Some (if negative then - Z.of_N n else Z.of_N n)
  | None => None
  end.

(** [Number(v)], the abstract operation ToNumber; [None] is [undefined].
    An array or an object is converted through its string. *)
Definition ToNumber (v : option json) : spec_float :=
  match v with
  | None => S754_nan
  | Some JNull => S754_zero false
  | Some (JBool true) => double_of_Z 1
  | Some (JBool false) => S754_zero false
  | Some (JNumber numeral) => StringToNumber numeral
  | Some (JString s) => StringToNumber s
  | Some (JArray items) => StringToNumber (toString (JArray items))
  | Some (JObject _) => S754_nan
  end.

(** [x >= y], [x > y] and [x === y] on numbers: false when either is
    [NaN]; the two zeros are equal. *)
Definition Number_ge (x y : spec_float) : bool := SFleb y x.
Definition Number_gt (x y : spec_float) : bool := SFltb y x.
Definition Number_eq (x y : spec_float) : bool := SFeqb x y.

(** [Number.isFinite(x)]. *)
Definition isFinite (x : spec_float) : bool :=
  match x with
  | S754_zero _ | S754_finite _ _ _ => true
  | S754_infinity _ | S754_nan => false
  end.

(** Truth of a value in a condition; [None] is [undefined].  The numbers
    that are false are the zeros and [NaN]. *)
Definition truthy_value (v : option json) : bool :=
  match v with
  | None => false
  | Some JNull => false
  | Some (JBool b) => b
  | Some (JNumber numeral) =>
      match StringToNumber numeral with
      | S754_zero _ | S754_nan => false
      | _ => true
      end
  | Some (JString s) => negb (is_empty s)
  | Some (JArray _) => true
  | Some (JObject _) => true
  end.

(** The numeral that carries a double: what [String(n)] prints, and [-0]
    for the negative zero, which prints as [0]. *)
Definition numeralOf (d : spec_float) : string :=
  match d with
  | S754_zero true => "-0"
  | _ => Number_toString d
  end.

(** ** Property keys

    An array index is the canonical numeral of an integer below
    [2^32 - 1]. *)
Definition arrayIndex (name : string) : option N :=
  let n := digits_value name in
  if String.eqb (decimal n) name && (n <? 4294967295)%N then Some n else None.

(** An object lists its own properties with the array indices first, in
    ascending order, and the other keys after them in the order of their
    creation.  [comesBefore key existing]: a new property [key] is listed
    before the property [existing]. *)
Definition comesBefore (key existing : string) : bool :=
  match arrayIndex key, arrayIndex existing with
  | Some i, Some j => (i <? j)%N
  | Some _, None => true
  | None, _ => false
  end.

Section Properties.
Context {A : Type}.

(** A new property takes its place in the list. *)
Fixpoint insertProperty (key : string) (v : A) (o : list (string * A))
    : list (string * A) :=
  match o with
  | [] => [(key, v)]
  | (k, v') :: rest =>
      if comesBefore key k then (key, v) :: o
      else (k, v') :: insertProperty key v rest
  end.

(** The value of an existing property is replaced where it stands. *)
Fixpoint replaceProperty (key : string) (v : A) (o : list (string * A))
    : list (string * A) :=
  match o with
  | [] => []
  | (k, v') :: rest =>
      if String.eqb k key then (k, v) :: rest
      else (k, v') :: replaceProperty key v rest
  end.

(** The definition of a property ([CreateDataProperty]). *)
Definition defineProperty (key : string) (v : A) (o : list (string * A))
    : list (string * A) :=
  if existsb (String.eqb key) (map fst o) then replaceProperty key v o
  else insertProperty key v o.

(** The object built by defining the properties one after the other. *)
Definition definedInOrder (properties : list (string * A))
    : list (string * A) :=
  fold_left (fun o p => defineProperty (fst p) (snd p) o) properties [].

End Properties.

End Js.

(* ================================================================== *)
(** * JSON.parse and JSON.stringify *)
(* ================================================================== *)

Module Json.
Import Js.

(** JSON white space: space, TAB, LF, CR. *)
Definition is_ws (c : ascii) : bool :=
  let n := code c in ((n =? 32) || (n =? 9) || (n =? 10) || (n =? 13))%N.

Fixpoint skip_ws (s : string) : string :=
  match s with
  | String c rest => if is_ws c then skip_ws rest else s
  | EmptyString => s
  end.

(** [expect lit s]: what follows [lit] at the head of [s]. *)
Fixpoint expect (lit s : string) : option string :=
  match lit, s with
  | EmptyString, _ => Some s
  | String a lit', String b s' => if Ascii.eqb a b then expect lit' s' else None
  | String _ _, EmptyString => None
  end.

Definition hex_value (c : ascii) : option N := digit_value 16 c.

(** UTF-8 bytes of one UTF-16 code unit given by a [\uXXXX] escape. *)
Definition utf8_of_unit (u : N) : string :=
  if (u <? 128)%N then str1 (chr u)
  else if (u <? 2048)%N then
    String (chr (192 + u / 64)) (str1 (chr (128 + u mod 64)))
  else
    String (chr (224 + u / 4096))
      (String (chr (128 + (u / 64) mod 64)) (str1 (chr (128 + u mod 64)))).

(** The characters of a string literal after its opening quote, up to and
    including the closing quote.  Returns the decoded text and the rest. *)
Fixpoint parse_string_tail (s : string) : option (string * string) :=
  match s with
  | EmptyString => None
  | String c rest =>
      if Ascii.eqb c quote then Some (EmptyString, rest)
      else if Ascii.eqb c backslash then
        match rest with
        | String e rest1 =>
            let simple (d : ascii) :=
              match parse_string_tail rest1 with
              | Some (t, r) => Some (String d t, r)
              | None => None
              end in
            if Ascii.eqb e quote then simple quote
            else if Ascii.eqb e backslash then simple backslash
            else if Ascii.eqb e "/" then simple "/"%char
            else if Ascii.eqb e "b" then simple (chr 8)
            else if Ascii.eqb e "f" then simple (chr 12)
            else if Ascii.eqb e "n" then simple (chr 10)
            else if Ascii.eqb e "r" then simple (chr 13)
            else if Ascii.eqb e "t" then simple (chr 9)
            else if Ascii.eqb e "u" then
              match rest1 with
              | String h1 (String h2 (String h3 (String h4 rest2))) =>
                  match hex_value h1, hex_value h2, hex_value h3, hex_value h4,
                        parse_string_tail rest2 with
                  | Some a, Some b, Some c', Some d, Some (t, r) =>
                      Some (utf8_of_unit (((a * 16 + b) * 16 + c') * 16 + d)%N
                              ++ t, r)
                  | _, _, _, _, _ => None
                  end
              | _ => None
              end
            else None
        | EmptyString => None
        end
      else if (code c <? 32)%N then None
      else match parse_string_tail rest with
           | Some (t, r) => Some (String c t, r)
           | None => None
           end
  end.

(** The optional fraction of a number literal: a dot and at least one
    digit.  Returns its text and the rest. *)
Definition parse_fraction (s : string) : option (string * string) :=
  match s with
  | String c rest =>
      if Ascii.eqb c "." then
        let (ds, r) := take_digits rest in
        if is_empty ds then None else Some ("." ++ ds, r)
      else Some (EmptyString, s)
  | EmptyString => Some (EmptyString, s)
  end.

(** The optional exponent: the letter e in either case, an optional sign
    and at least one digit. *)
Definition parse_exponent (s : string) : option (string * string) :=
  match s with
  | String c rest =>
      if Ascii.eqb c "e" || Ascii.eqb c "E" then
        let (esign, r1) :=
          match rest with
          | String d r =>
              if Ascii.eqb d "+" || Ascii.eqb d "-" then (str1 d, r)
              else (EmptyString, rest)
          | EmptyString => (EmptyString, rest)
          end in
        let (ds, r2) := take_digits r1 in
        if is_empty ds then None else Some (str1 c ++ esign ++ ds, r2)
      else Some (EmptyString, s)
  | EmptyString => Some (EmptyString, s)
  end.

(** The integer part: the digit 0 alone, or digits that start with a
    digit from 1 to 9. *)
Definition integer_part_ok (int : string) : bool :=
  match int with
  | EmptyString => false
  | String c EmptyString => true
  | String c _ => negb (Ascii.eqb c "0")
  end.

(** A number literal: an optional minus sign, the integer part, the
    optional fraction, the optional exponent.  Returns its text and the
    rest; [parse_value] makes the number of the text. *)
Definition parse_number (s : string) : option (string * string) :=
  let (sign, s1) :=
    match s with
    | String c rest => if Ascii.eqb c "-" then ("-", rest) else (EmptyString, s)
    | EmptyString => (EmptyString, s)
    end in
  let (int, s2) := take_digits s1 in
  if negb (integer_part_ok int) then None else
  match parse_fraction s2 with
  | None => None
  | Some (frac, s3) =>
      match parse_exponent s3 with
      | None => None
      | Some (ex, s4) => Some (sign ++ int ++ frac ++ ex, s4)
      end
  end.

(** Recursive descent over the JSON grammar.  Every call consumes a
    character before it recurses twice, so a fuel of twice the length of
    the text is never used up; [JSON_parse] provides it.  The values are
    built as the engine holds them: a number literal gives the double
    nearest to it, the members of an object define its properties one
    after the other. *)
Fixpoint parse_value (fuel : nat) (s : string) : option (json * string) :=
  match fuel with
  | O => None
  | S fuel' =>
      match skip_ws s with
      | EmptyString => None
      | String c rest =>
          if Ascii.eqb c "{" then
            match skip_ws rest with
            | String d rest' =>
                if Ascii.eqb d "}" then Some (JObject [], rest')
                else match parse_members fuel' (skip_ws rest) with
                     | Some (ms, r) => Some (JObject (definedInOrder ms), r)
                     | None => None
                     end
            | EmptyString => None
            end
          else if Ascii.eqb c "[" then
            match skip_ws rest with
            | String d rest' =>
                if Ascii.eqb d "]" then Some (JArray [], rest')
                else match parse_items fuel' rest with
                     | Some (vs, r) => Some (JArray vs, r)
                     | None => None
                     end
            | EmptyString => None
            end
          else if Ascii.eqb c quote then
            match parse_string_tail rest with
            | Some (t, r) => Some (JString t, r)
            | None => None
            end
          else if Ascii.eqb c "t" then
            match expect "rue" rest with
            | Some r => Some (JBool true, r)
            | None => None
            end
          else if Ascii.eqb c "f" then
            match expect "alse" rest with
            | Some r => Some (JBool false, r)
            | None => None
            end
          else if Ascii.eqb c "n" then
            match expect "ull" rest with
            | Some r => Some (JNull, r)
            | None => None
            end
          else
            match parse_number (String c rest) with
            | Some (lexeme, r) =>
                Some (JNumber (numeralOf (StringToNumber lexeme)), r)
            | None => None
            end
      end
  end

(** The items of an array after [[]: a value, then [,] and more, or []]. *)
with parse_items (fuel : nat) (s : string) : option (list json * string) :=
  match fuel with
  | O => None
  | S fuel' =>
      match parse_value fuel' s with
      | None => None
      | Some (v, r) =>
          match skip_ws r with
          | String c rest =>
              if Ascii.eqb c "," then
                match parse_items fuel' rest with
                | Some (vs, r') => Some (v :: vs, r')
                | None => None
                end
              else if Ascii.eqb c "]" then Some ([v], rest)
              else None
          | EmptyString => None
          end
      end
  end

(** The members of an object after [{] and white space: a string, [:], a
    value, then [,] and more, or [}]. *)
with parse_members (fuel : nat) (s : string)
    : option (list (string * json) * string) :=
  match fuel with
  | O => None
  | S fuel' =>
      match s with
      | String q rest =>
          if Ascii.eqb q quote then
            match parse_string_tail rest with
            | None => None
            | Some (key, r0) =>
                match skip_ws r0 with
                | String c r1 =>
                    if Ascii.eqb c ":" then
                      match parse_value fuel' r1 with
                      | None => None
                      | Some (v, r2) =>
                          match skip_ws r2 with
                          | String d r3 =>
                              if Ascii.eqb d "," then
                                match parse_members fuel' (skip_ws r3) with
                                | Some (ms, r') => Some ((key, v) :: ms, r')
                                | None => None
                                end
                              else if Ascii.eqb d "}" then Some ([(key, v)], r3)
                              else None
                          | EmptyString => None
                          end
                      end
                    else None
                | EmptyString => None
                end
            end
          else None
      | EmptyString => None
      end
  end.

(** [JSON.parse(text)]; [None] is the [SyntaxError] it throws. *)
Definition JSON_parse (text : string) : option json :=
  match parse_value (2 * length text + 2) text with
  | Some (v, rest) => if is_empty (skip_ws rest) then Some v else None
  | None => None
  end.

Definition hex_digit (n : N) : ascii :=
  if (n <? 10)%N then chr (48 + n) else chr (87 + n).

(** One character inside a string literal, as [JSON.stringify] writes it. *)
Definition escape_char (c : ascii) : string :=
  let n := code c in
  if Ascii.eqb c quote then String backslash (str1 quote)
  else if Ascii.eqb c backslash then String backslash (str1 backslash)
  else if (n =? 8)%N then "\b"
  else if (n =? 12)%N then "\f"
  else if (n =? 10)%N then "\n"
  else if (n =? 13)%N then "\r"
  else if (n =? 9)%N then "\t"
  else if (n <? 32)%N then
    "\u00" ++ String (hex_digit (n / 16)) (str1 (hex_digit (n mod 16)))
  else str1 c.

Fixpoint escape (s : string) : string :=
  match s with
  | EmptyString => EmptyString
  | String c rest => escape_char c ++ escape rest
  end.

Definition quoted (s : string) : string :=
  String quote (escape s ++ str1 quote).

(** What [JSON.stringify] writes for a number: the digits of a finite
    number, as [String(n)] prints them, and [null] for an infinity or
    [NaN]. *)
Definition numberText (numeral : string) : string :=
  if isFinite (StringToNumber numeral)
  then Number_toString (StringToNumber numeral)
  else "null".

(** [JSON.stringify(v)] without indentation. *)
Fixpoint JSON_stringify (v : json) : string :=
  match v with
  | JNull => "null"
  | JBool true => "true"
  | JBool false => "false"
  | JNumber numeral => numberText numeral
  | JString s => quoted s
  | JArray items =>
      "[" ++ join "," (map JSON_stringify items) ++ "]"
  | JObject members =>
      "{" ++ join ","
               (map (fun m => quoted (fst m) ++ ":" ++ JSON_stringify (snd m))
                  members)
          ++ "}"
  end.

End Json.

(* ================================================================== *)
(** * repository/session.ts: the message log *)
(* ================================================================== *)

Module Repository.
Import Js Json.

(** The file [messages.jsonl] of a session is its text, [None] as long as
    nothing was appended: [createSession] does not create it. *)

(** [appendMessages(sessionId, messages)]: [fs.appendFile] of the lines. *)
Definition appendMessages (file : option string) (messages : list json)
    : option string :=
  let messageLines :=
    map (fun message => JSON_stringify message ++ str1 newline) messages in
  Some (match file with
        | Some content => content
        | None => EmptyString
        end ++ join EmptyString messageLines).

(** [message.forDisplay !== false] on a parsed line. *)
Definition forDisplay_not_false (message : json) : Result bool :=
  match message with
  | JNull =>
      Throw (TypeError "Cannot read properties of null (reading 'forDisplay')")
  | JObject members =>
      Ok (match lookup "forDisplay" members with
          | Some (JBool false) => false
          | _ => true
          end)
  | _ => Ok true
  end.

Definition parseLine (line : string) : Result json :=
  match JSON_parse line with
  | Some message => Ok message
  | None => Throw (SyntaxError "Unexpected token in JSON")
  end.

(** [getMessages(sessionId, includeHidden)]. *)
Definition getMessages (file : option string) (includeHidden : bool)
    : Result (list json) :=
  match file with
  | None => Throw (Error "ENOENT: no such file or directory")
  | Some content =>
      bind (mapM parseLine
              (filter (fun line => negb (trim_is_empty line))
                      (split newline content)))
        (fun messages =>
           if includeHidden then Ok messages
           else filterM forDisplay_not_false messages)
  end.

End Repository.

(* ================================================================== *)
(** * shared/src/types.ts and the parts of @google/genai *)
(* ================================================================== *)

Module Shared.
Import Js.

Inductive SessionStatus := running | pending | stagnant | error.

Inductive Role := user | model | tool | workflow | grounding_model.

Record FunctionCall := {
  fc_id : string;
  fc_name : string;
  fc_args : list (string * json)
}.

(** [FunctionResponse.response]: [{ output }] or [{ error }]. *)
Inductive ResponseBody :=
| output (text : string)
| error_ (text : string).

Record FunctionResponse := {
  fr_id : string;
  fr_name : string;
  fr_response : ResponseBody
}.

Record PersistentImage := { src : string }.

Inductive PersistentMessageContentBlock :=
| BThought (thought : string)
| BText (text : string)
| BFunctionCall (functionCall : FunctionCall)
| BImage (image : PersistentImage)
| BFunctionResponse (functionResponse : FunctionResponse).

Inductive ToolReviewChoice := accept_session | accept_once | reject_once.

Record ToolReviewRequest := {
  req_reviewId : string;
  req_functionCall : FunctionCall;
  req_originalFunctionCall : FunctionCall
}.

Record ToolReviewResponse := {
  resp_reviewId : string;
  resp_choice : ToolReviewChoice
}.

Inductive ToolReview :=
| Request (r : ToolReviewRequest)
| Response (r : ToolReviewResponse).

(** [forDisplay]: [Some true] shown to the user only, [Some false] sent to
    the model only, [None] both. *)
Record PersistentMessage := {
  pm_id : string;
  pm_role : Role;
  pm_content : list PersistentMessageContentBlock;
  pm_toolReview : option ToolReview;
  pm_forDisplay : option bool;
  pm_timestamp : string
}.

Record StreamMessage := {
  sm_role : Role;
  sm_thought : option string;
  sm_text : option string
}.

(** ** @google/genai: [Part] and [Content] *)

Record InlineData := { data : string; mimeType : string }.

(** A [Part]; every field is optional.  [thought] is only ever tested for
    truth, so an absent flag is [false]. *)
Record Part := {
  text : option string;
  thought : bool;
  functionCall : option FunctionCall;
  functionResponse : option FunctionResponse;
  inlineData : option InlineData
}.

Definition emptyPart : Part :=
  {| text := None; thought := false; functionCall := None;
     functionResponse := None; inlineData := None |}.

Definition textPart (t : string) : Part :=
  {| text := Some t; thought := false; functionCall := None;
     functionResponse := None; inlineData := None |}.
Definition thoughtPart (t : string) : Part :=
  {| text := Some t; thought := true; functionCall := None;
     functionResponse := None; inlineData := None |}.
Definition functionCallPart (fc : FunctionCall) : Part :=
  {| text := None; thought := false; functionCall := Some fc;
     functionResponse := None; inlineData := None |}.
Definition functionResponsePart (fr : FunctionResponse) : Part :=
  {| text := None; thought := false; functionCall := None;
     functionResponse := Some fr; inlineData := None |}.
Definition inlineDataPart (d : InlineData) : Part :=
  {| text := None; thought := false; functionCall := None;
     functionResponse := None; inlineData := Some d |}.

Inductive ContentRole := roleUser | roleModel.

Record Content := { role : ContentRole; parts : list Part }.

(** Truth of an optional string: absent and empty strings are false. *)
Definition truthy (t : option string) : bool :=
  match t with
  | Some s => negb (is_empty s)
  | None => false
  end.

End Shared.

(* ================================================================== *)
(** * agent.ts: the types it exports *)
(* ================================================================== *)

Module AgentTypes.
Import Js Shared.

Record Decision := {
  d_functionCall : FunctionCall;
  d_originalFunctionCall : FunctionCall;
  d_response : ToolReviewChoice
}.

(** [AgentInput]: the user's text, or the resolved tool reviews. *)
Inductive AgentInput :=
| InputText (input : string)
| InputDecisions (input : list Decision).

(** An element of [AgentPersistMessage.parts]. *)
Inductive PersistPart :=
| OfPart (p : Part)
| OfImageFile (imageFileName : string).

Record AgentPersistMessage := {
  apm_role : Role;
  apm_parts : list PersistPart;
  apm_toolReview : option ToolReview;
  apm_forDisplay : option bool
}.

End AgentTypes.

(* ================================================================== *)
(** * interface.ts: blocks, parts and the recovery of history *)
(* ================================================================== *)

Module Interface.
Import Js Json Shared AgentTypes.

Section WithImages.

(** [sessionRepository.getImage(sessionId, fileName)], base64-encoded. *)
Variable getImage : string -> string -> Result string.

(** [persistentContentBlockToPart(block, sessionId)]. *)
Definition persistentContentBlockToPart
    (block : PersistentMessageContentBlock) (sessionId : string) : Result Part :=
  match block with
  | BThought t => Ok (thoughtPart t)
  | BText t => Ok (textPart t)
  | BFunctionCall fc => Ok (functionCallPart fc)
  | BFunctionResponse fr => Ok (functionResponsePart fr)
  | BImage img =>
      if startsWith "internal://" (src img) then
        match split "/" (slice 11 (src img)) with
        | imageSessionId :: rest =>
            if negb (String.eqb imageSessionId sessionId) then
              Throw (Error ("Image session ID does not match: "
                            ++ imageSessionId ++ " !== " ++ sessionId))
            else
              match rest with
              | fileName :: _ =>
                  bind (getImage imageSessionId fileName) (fun bytes =>
                  Ok (inlineDataPart {| data := bytes; mimeType := "image/png" |}))
              | [] =>
                  Throw (TypeError
                    ("The " ++ str1 quote ++ "path" ++ str1 quote
                     ++ " argument must be of type string. Received undefined"))
              end
        | [] => Throw (Error "Not implemented")
        end
      else Throw (Error "Not implemented")
  end.

(** The history that [recoverHistory] hands to the agent
    ([getHistoryMessages]): messages that are not for display only, their
    role mapped, every block converted. *)
Definition getHistoryMessages (sessionId : string)
    (persistentMessages : list PersistentMessage) : Result (list Content) :=
  mapM (fun message =>
          bind (mapM (fun block => persistentContentBlockToPart block sessionId)
                     (pm_content message))
               (fun ps =>
                  Ok {| role := match pm_role message with
                                | model => roleModel
                                | _ => roleUser
                                end;
                        parts := ps |}))
       (filter (fun message => match pm_forDisplay message with
                               | Some true => false
                               | _ => true
                               end)
               persistentMessages).

End WithImages.

(** The backward scan of [recoverHistory] for the reviews of the last turn:
    tool messages are skipped, the first other message without a review
    stops the scan.  [messages] is the log reversed. *)
Fixpoint scanToolReviews (messages : list PersistentMessage)
    (requests : list ToolReviewRequest) (responses : list ToolReviewResponse)
    : list ToolReviewRequest * list ToolReviewResponse :=
  match messages with
  | [] => (requests, responses)
  | m :: earlier =>
      match pm_role m with
      | tool => scanToolReviews earlier requests responses
      | _ =>
          match pm_toolReview m with
          | None => (requests, responses)
          | Some (Request r) => scanToolReviews earlier (r :: requests) responses
          | Some (Response r) => scanToolReviews earlier requests (r :: responses)
          end
      end
  end.

Definition recoverToolReviews (persistentMessages : list PersistentMessage)
    : list ToolReviewRequest * list ToolReviewResponse :=
  scanToolReviews (List.rev persistentMessages) [] [].

(** [partToPersistentContentBlock(part)]. *)
Definition partToPersistentContentBlock (part : Part)
    : Result PersistentMessageContentBlock :=
  if thought part then
    match functionCall part with
    | Some _ => Throw (Error "If thought included, functionCall must be empty")
    | None =>
        if negb (truthy (text part)) then
          Throw (Error "If thought included, text must be included")
        else Ok (BThought (match text part with Some t => t | None => EmptyString end))
    end
  else if truthy (text part) then
    match functionCall part with
    | Some _ => Throw (Error "If text included, functionCall must be empty")
    | None => Ok (BText (match text part with Some t => t | None => EmptyString end))
    end
  else
    match functionCall part, functionResponse part with
    | Some fc, _ => Ok (BFunctionCall fc)
    | None, Some fr => Ok (BFunctionResponse fr)
    | None, None =>
        Throw (Error "Either thought, text, or functionCall must be included")
    end.

(** The message [persistMessage] builds from what the agent hands it and
    appends to the log; [id] and [timestamp] come from the clock. *)
Definition toPersistentMessage (sessionId id timestamp : string)
    (message : AgentPersistMessage) : Result PersistentMessage :=
  bind (mapM (fun part =>
                match part with
                | OfImageFile imageFileName =>
                    Ok (BImage {| src := "internal://" ++ sessionId ++ "/"
                                         ++ imageFileName |})
                | OfPart p => partToPersistentContentBlock p
                end) (apm_parts message))
       (fun content =>
          Ok {| pm_id := id; pm_role := apm_role message;
                pm_content := content;
                pm_toolReview := apm_toolReview message;
                pm_forDisplay := apm_forDisplay message;
                pm_timestamp := timestamp |}).

(** ** The JSON image of a message, as [JSON.stringify] sees it

    Members that are [undefined] are left out.  The members of a function
    call are listed as [id], [name], [args]. *)

Definition roleName (r : Role) : string :=
  match r with
  | user => "user"
  | model => "model"
  | tool => "tool"
  | workflow => "workflow"
  | grounding_model => "grounding_model"
  end.

Definition choiceName (c : ToolReviewChoice) : string :=
  match c with
  | accept_session => "accept_session"
  | accept_once => "accept_once"
  | reject_once => "reject_once"
  end.

Definition functionCallJson (fc : FunctionCall) : json :=
  JObject [("id", JString (fc_id fc)); ("name", JString (fc_name fc));
           ("args", JObject (fc_args fc))].

Definition functionResponseJson (fr : FunctionResponse) : json :=
  JObject [("id", JString (fr_id fr)); ("name", JString (fr_name fr));
           ("response",
            match fr_response fr with
            | output t => JObject [("output", JString t)]
            | error_ t => JObject [("error", JString t)]
            end)].

Definition blockJson (block : PersistentMessageContentBlock) : json :=
  match block with
  | BThought t => JObject [("thought", JString t)]
  | BText t => JObject [("text", JString t)]
  | BFunctionCall fc => JObject [("functionCall", functionCallJson fc)]
  | BImage img => JObject [("image", JObject [("src", JString (src img))])]
  | BFunctionResponse fr =>
      JObject [("functionResponse", functionResponseJson fr)]
  end.

Definition toolReviewJson (review : ToolReview) : json :=
  match review with
  | Request r =>
      JObject [("reviewId", JString (req_reviewId r));
               ("functionCall", functionCallJson (req_functionCall r));
               ("originalFunctionCall",
                functionCallJson (req_originalFunctionCall r))]
  | Response r =>
      JObject [("reviewId", JString (resp_reviewId r));
               ("choice", JString (choiceName (resp_choice r)))]
  end.

Definition messageJson (message : PersistentMessage) : json :=
  JObject
    ([("id", JString (pm_id message));
      ("role", JString (roleName (pm_role message)));
      ("content", JArray (map blockJson (pm_content message)))]
     ++ match pm_toolReview message with
        | Some review => [("toolReview", toolReviewJson review)]
        | None => []
        end
     ++ match pm_forDisplay message with
        | Some b => [("forDisplay", JBool b)]
        | None => []
        end
     ++ [("timestamp", JString (pm_timestamp message))])%list.

End Interface.

(* ================================================================== *)
(** * tool-computer/index.ts: the tool catalog *)
(* ================================================================== *)

Module ToolCatalog.
Import Js.

(** The classes that extend [BaseGroundableTool].  [ComputerScroll] is
    defined in tool-computer/scroll.ts but index.ts does not import it. *)
Inductive GroundableTool :=
| ComputerClick
| ComputerType
| ComputerDragAndDrop
| ComputerKey
| ComputerWait
| ComputerScroll.

(** A [FunctionDeclaration], by its [name]; the JSON schemas under
    [parametersJsonSchema] play no part below. *)
Record FunctionDeclaration := { name : string }.

Definition functionDeclaration (tool : GroundableTool) : FunctionDeclaration :=
  {| name := match tool with
             | ComputerClick => "computer_click"
             | ComputerType => "computer_type"
             | ComputerDragAndDrop => "computer_drag_and_drop"
             | ComputerKey => "computer_key"
             | ComputerWait => "computer_wait"
             | ComputerScroll => "computer_scroll"
             end |}.

(** [computerTools]: [Object.fromEntries] of the five instances, keyed by
    declaration name, in insertion order. *)
Definition computerTools : list (string * GroundableTool) :=
  map (fun tool => (name (functionDeclaration tool), tool))
      [ComputerClick; ComputerType; ComputerDragAndDrop; ComputerKey;
       ComputerWait].

Fixpoint own (key : string) (entries : list (string * GroundableTool))
    : option GroundableTool :=
  match entries with
  | [] => None
  | (k, tool) :: rest =>
      match own key rest with
      | Some t => Some t
      | None => if String.eqb k key then Some tool else None
      end
  end.

(** Property names every object inherits from [Object.prototype]; the
    operator [in] finds them too. *)
Definition Object_prototype_names : list string :=
  ["constructor"; "__defineGetter__"; "__defineSetter__"; "hasOwnProperty";
   "__lookupGetter__"; "__lookupSetter__"; "isPrototypeOf";
   "propertyIsEnumerable"; "toString"; "valueOf"; "__proto__";
   "toLocaleString"].

Section WithValidator.

(** [SchemaValidator.validate(schema, args)] of @gacua/gemini-cli-core.
    The schema argument is [functionDeclaration.parameters], a field none
    of the declarations sets, hence always [None] here. *)
Variable SchemaValidator_validate :
  option json -> list (string * json) -> option string.

(** [BaseGroundableTool.validate]. *)
Definition baseValidate (args : list (string * json)) : option string :=
  SchemaValidator_validate None args.

(** [BaseGroundableTool.validateImageElementPair]; [args] is an object. *)
Definition validateImageElementPair (args : list (string * json))
    : option string :=
  if Shared.truthy (SchemaValidator_validate None args) then
    SchemaValidator_validate None args
  else
    match lookup "image_id" args, lookup "element_description" args with
    | None, Some _ =>
        Some "When element_description is provided, image_id must be provided"
    | Some _, None =>
        Some "When image_id is provided, element_description must be provided"
    | _, _ => None
    end.

Definition validate (tool : GroundableTool) (args : list (string * json))
    : option string :=
  match tool with
  | ComputerType | ComputerScroll => validateImageElementPair args
  | _ => baseValidate args
  end.

(** [getValidComputerTool(name, args)]: the tool, or an error string. *)
Definition getValidComputerTool (name : string) (args : list (string * json))
    : Result (GroundableTool + string) :=
  match own name computerTools with
  | Some tool =>
      if Shared.truthy (validate tool args)
      then Ok (inr (match validate tool args with
                    | Some msg => msg
                    | None => EmptyString
                    end))
      else Ok (inl tool)
  | None =>
      if existsb (String.eqb name) Object_prototype_names
      then Throw (TypeError "tool.validate is not a function")
      else Ok (inr ("Tool does not exist: " ++ name))
  end.

End WithValidator.

(** [getComputerFunctionDeclarations()]: [Object.values] in key order. *)
Definition getComputerFunctionDeclarations : list FunctionDeclaration :=
  map (fun entry => functionDeclaration (snd entry)) computerTools.

End ToolCatalog.

(* ================================================================== *)
(** * agent.ts: detection, context manager, turn loop *)
(* ================================================================== *)

Module Agent.
Import Js Json Shared AgentTypes.
Import ScreenTs.

(** ** The model's replies

    A chunk of a response stream, as the agent reads it: the parts of its
    first candidate (empty when there is none) and its [functionCalls]. *)
Record ChunkPart := { cp_text : option string; cp_thought : bool }.

Record RawFunctionCall := {
  raw_id : option string;
  raw_name : string;
  raw_args : list (string * json)
}.

Record Chunk := {
  chunk_parts : list ChunkPart;
  chunk_functionCalls : option (list RawFunctionCall)
}.

(** One call of [generateContentStream]: the chunks the stream yields and,
    if any, the exception that ends it (with no chunks: the call itself
    is rejected). *)
Record LlmReply := { chunks : list Chunk; failure : option Exn }.

(** ** The world the agent acts on *)

Record Image := {
  buffer : string;
  image_resolution : Resolution;
  image_mimeType : string
}.

(** What the screenshot action of the tool [.computer] returned. *)
Inductive ScreenshotToolResult :=
| InvalidFormat
| InlineImage (mime : string) (pixels : string) (w h : N).

Record ToolCallResult := {
  tcr_error : option string;
  tcr_responseParts : list (string + Part)
}.

Inductive Event :=
| StatusSet (status : SessionStatus) (message : option string)
| Streamed (m : StreamMessage)
| ImageSaved (fileName : string) (pixels : string)
| Persisted (m : AgentPersistMessage)
| ScreenshotTaken
| PlanRequested (contents : list Content)
| GroundingRequested (imagePart : option Part) (prompt : string)
| ToolExecuted (call : FunctionCall).

(** What is fixed during a run. *)
Record Env := {
  hasComputerTool : bool;
  allowedTools : list string;
  SchemaValidator_validate : option json -> list (string * json) -> option string;
  executeToolCall : FunctionCall -> ToolCallResult;
  screenshotAction : N -> ScreenshotToolResult
}.

(** What changes: the calls made on the callbacks and collaborators, in
    order; the replies the grounding model will give; a counter standing
    for the clock and the random source; the module variable [screen] of
    screen.ts. *)
Record World := {
  trace : list Event;
  groundingReplies : list LlmReply;
  clock : N;
  screen : option Screen
}.

(** Computations that act on the world and may throw. *)
Definition M (A : Type) : Type := World -> Result A * World.

Definition ret {A} (a : A) : M A := fun w => (Ok a, w).
Definition throw {A} (e : Exn) : M A := fun w => (Throw e, w).
Definition bindM {A B} (c : M A) (k : A -> M B) : M B :=
  fun w => match c w with
           | (Ok a, w') => k a w'
           | (Throw e, w') => (Throw e, w')
           end.
Definition tryCatch {A} (c : M A) (handler : Exn -> M A) : M A :=
  fun w => match c w with
           | (Ok a, w') => (Ok a, w')
           | (Throw e, w') => handler e w'
           end.
Definition lift {A} (r : Result A) : M A := fun w => (r, w).

Declare Scope agent_scope.
Delimit Scope agent_scope with agent.
Notation "x <- c ;; k" := (bindM c (fun x => k))
  (at level 61, c at next level, right associativity) : agent_scope.
Notation "' p <- c ;; k" := (bindM c (fun x => let 'p := x in k))
  (at level 61, p pattern, c at next level, right associativity) : agent_scope.
Notation "c ;; k" := (bindM c (fun _ => k))
  (at level 61, right associativity) : agent_scope.
Local Open Scope agent_scope.

Definition emit (e : Event) : M unit :=
  fun w => (Ok tt, {| trace := trace w ++ [e];
                      groundingReplies := groundingReplies w;
                      clock := clock w; screen := screen w |}).

(** The world after more calls were made. *)
Definition extend (w : World) (events : list Event) : World :=
  {| trace := trace w ++ events; groundingReplies := groundingReplies w;
     clock := clock w; screen := screen w |}.

(** The status transitions among the calls made, in order. *)
Definition statusTransitions (events : list Event)
    : list (SessionStatus * option string) :=
  flat_map (fun e => match e with
                     | StatusSet status message => [(status, message)]
                     | _ => []
                     end) events.

(** Reads the counter and advances it. *)
Definition tick : M N :=
  fun w => (Ok (clock w), {| trace := trace w;
                             groundingReplies := groundingReplies w;
                             clock := (clock w + 1)%N; screen := screen w |}).

Definition setScreen (scr : Screen) : M unit :=
  fun w => (Ok tt, {| trace := trace w;
                      groundingReplies := groundingReplies w;
                      clock := clock w; screen := Some scr |}).

Definition getScreen : M Screen :=
  fun w => match screen w with
           | Some scr => (Ok scr, w)
           | None =>
               (Throw (TypeError
                  "Cannot read properties of undefined (reading 'crop')"), w)
           end.

(** The next reply of the grounding model; the call is rejected when the
    model has no reply left. *)
Definition nextGroundingReply : M LlmReply :=
  fun w => match groundingReplies w with
           | r :: rest =>
               (Ok r, {| trace := trace w; groundingReplies := rest;
                         clock := clock w; screen := screen w |})
           | [] => (Throw (Error "generateContentStream failed"), w)
           end.

(** Runs [f] on each element in order, collecting the results. *)
Fixpoint forEachM {A B} (f : A -> M B) (xs : list A) : M (list B) :=
  match xs with
  | [] => ret []
  | x :: rest => y <- f x ;; ys <- forEachM f rest ;; ret (y :: ys)
  end.

(** ** Callbacks, as interface.ts passes them *)

Definition setSessionStatus (status : SessionStatus) (message : string) : M unit :=
  emit (StatusSet status (Some message)).

Definition streamMessage (m : StreamMessage) : M unit := emit (Streamed m).

(** [saveImage]: the file name is a time stamp and the suffix. *)
Definition saveImage (pixels : string) (nameSuffix : string) : M string :=
  now <- tick ;;
  let fileName := decimal now ++ "_" ++ nameSuffix ++ ".png" in
  emit (ImageSaved fileName pixels) ;;
  ret fileName.

(** [persistMessage]: every part is converted to a content block, which
    throws on a part that has no block, before the message is appended. *)
Definition persistMessage (message : AgentPersistMessage) : M unit :=
  _ <- lift (mapM (fun part => match part with
                               | OfImageFile _ => Ok tt
                               | OfPart p =>
                                   bind (Interface.partToPersistentContentBlock p)
                                        (fun _ => Ok tt)
                               end) (apm_parts message)) ;;
  emit (Persisted message).

(** ** getResponseText *)

Inductive ResponseText :=
| RThought (t : string)
| RText (t : string).

Definition getResponseText (response : Chunk) : option ResponseText :=
  match chunk_parts response with
  | [] => None
  | ps =>
      let mergedText :=
        fold_left (fun acc part =>
                     match cp_text part with
                     | Some t => acc ++ t
                     | None => acc
                     end) ps EmptyString in
      if existsb cp_thought ps then Some (RThought mergedText)
      else Some (RText mergedText)
  end.

(** ** ContextManager *)

Definition sameRole (a b : ContentRole) : bool :=
  match a, b with
  | roleUser, roleUser | roleModel, roleModel => true
  | _, _ => false
  end.

(** The loop of [mergeAdjacentMessages] from [current] on. *)
Fixpoint mergeFrom (current : Content) (rest : list Content) : list Content :=
  match rest with
  | [] => [current]
  | next :: rest' =>
      if sameRole (role next) (role current) then
        mergeFrom {| role := role current; parts := parts current ++ parts next |}
                  rest'
      else current :: mergeFrom next rest'
  end.

Definition mergeAdjacentMessages (messages : list Content) : list Content :=
  match messages with
  | [] => []
  | first :: rest => mergeFrom first rest
  end.

(** [appendContent] on the history array; the flag tells whether the
    content was merged into the last entry. *)
Definition appendContent (history : list Content) (content : Content)
    : list Content * bool :=
  match List.rev history with
  | lastMessage :: earlier =>
      if sameRole (role lastMessage) (role content) then
        ((List.rev earlier ++ [{| role := role lastMessage;
                                  parts := parts lastMessage ++ parts content |}])%list,
         true)
      else ((history ++ [content])%list, false)
  | [] => ((history ++ [content])%list, false)
  end.

(** ** processStreamResponse *)

(** A streamed function call with its [id] filled in: the model's, or
    [name-time-random], for which the counter stands. *)
Definition strictFunctionCall (fc : RawFunctionCall) : M FunctionCall :=
  match raw_id fc with
  | Some id =>
      ret {| fc_id := id; fc_name := raw_name fc; fc_args := raw_args fc |}
  | None =>
      now <- tick ;;
      ret {| fc_id := raw_name fc ++ "-" ++ decimal now ++ "-r" ++ decimal now;
             fc_name := raw_name fc; fc_args := raw_args fc |}
  end.

(** The body of [for await (const resp of responseStream)].  The abort
    signal is never raised by [runAgent], so its test is left out. *)
Fixpoint readStream (streamRole : Role) (responses : list Chunk)
    (thoughtAcc outputAcc : string) (functionCalls : list FunctionCall)
    : M (string * string * list FunctionCall) :=
  match responses with
  | [] => ret (thoughtAcc, outputAcc, functionCalls)
  | resp :: rest =>
      '(thoughtAcc', outputAcc') <-
        match getResponseText resp with
        | Some (RThought t) =>
            streamMessage {| sm_role := streamRole; sm_thought := Some t;
                             sm_text := None |} ;;
            ret (thoughtAcc ++ t, outputAcc)
        | Some (RText t) =>
            streamMessage {| sm_role := streamRole; sm_thought := None;
                             sm_text := Some t |} ;;
            ret (thoughtAcc, outputAcc ++ t)
        | None => ret (thoughtAcc, outputAcc)
        end ;;
      functionCalls' <-
        match chunk_functionCalls resp with
        | Some fcs =>
            news <- forEachM strictFunctionCall fcs ;;
            ret (functionCalls ++ news)%list
        | None => ret functionCalls
        end ;;
      readStream streamRole rest thoughtAcc' outputAcc' functionCalls'
  end.

Definition is_nil {A} (l : list A) : bool :=
  match l with
  | [] => true
  | _ :: _ => false
  end.

Definition processStreamResponse (streamRole : Role) (responseStream : LlmReply)
    (forDisplay : option bool) : M (string * string * list FunctionCall) :=
  '(thoughtText, outputText, functionCalls) <-
    readStream streamRole (chunks responseStream) EmptyString EmptyString [] ;;
  match failure responseStream with
  | Some e => throw e
  | None => ret tt
  end ;;
  (if negb (is_empty outputText) || negb (is_nil functionCalls) then
     persistMessage
       {| apm_role := streamRole;
          apm_parts :=
            ((if negb (is_empty thoughtText)
              then [OfPart (thoughtPart thoughtText)] else [])
             ++ (if negb (is_empty outputText)
                 then [OfPart (textPart outputText)] else [])
             ++ map (fun fc => OfPart (functionCallPart fc)) functionCalls)%list;
          apm_toolReview := None;
          apm_forDisplay := forDisplay |}
   else ret tt) ;;
  ret (thoughtText, outputText, functionCalls).

(** ** detectElement *)

(** [v.key] for a key that is not a built-in property; [None] is
    [undefined]. *)
Definition property (v : option json) (key : string) : Result (option json) :=
  match v with
  | None =>
      Throw (TypeError ("Cannot read properties of undefined (reading '"
                        ++ key ++ "')"))
  | Some JNull =>
      Throw (TypeError ("Cannot read properties of null (reading '"
                        ++ key ++ "')"))
  | Some (JObject members) => Ok (lookup key members)
  | Some _ => Ok None
  end.

(** The callback of [box2d.map]. *)
Definition checkCoordinate (coord : json) : Result Z :=
  match parseInt (toString coord) with
  | Some intCoord =>
      if ((intCoord <? 0) || (intCoord >? 1000))%Z then
        Throw (Error ("Invalid coordinate value: " ++ toString coord
                      ++ " (must be 0-1000)"))
      else Ok intCoord
  | None =>
      Throw (Error ("Invalid coordinate value: " ++ toString coord
                    ++ " (must be 0-1000)"))
  end.

(** [detectElement] from [box2d] on: the checks of [box_2d]. *)
Definition checkBox2d (box2d : option json) : Result Box :=
  match box2d with
  | Some (JArray coords) =>
      if negb (Nat.eqb (List.length coords) 4) then
        Throw (Error ("Invalid box_2d format: expected array of 4 numbers, got "
                      ++ String_ box2d))
      else
        bind (mapM checkCoordinate coords) (fun ints =>
          match ints with
          | [ymin; xmin; ymax; xmax] =>
              if ((ymin >=? ymax) || (xmin >=? xmax))%Z then
                Throw (Error
                  ("Invalid bounding box: ymin(" ++ numeral_of_Z ymin
                   ++ ") >= ymax(" ++ numeral_of_Z ymax
                   ++ ") or xmin(" ++ numeral_of_Z xmin
                   ++ ") >= xmax(" ++ numeral_of_Z xmax ++ ")"))
              else Ok {| ScreenTs.ymin := ymin; ScreenTs.xmin := xmin;
                         ScreenTs.ymax := ymax; ScreenTs.xmax := xmax |}
          | _ => Throw (Error "Invalid box_2d format")
          end)
  | _ =>
      Throw (Error ("Invalid box_2d format: expected array of 4 numbers, got "
                    ++ String_ box2d))
  end.

(** [Array.isArray(data) ? data[0].box_2d : data.box_2d]. *)
Definition box_2d_of (boundingBoxData : json) : Result (option json) :=
  match boundingBoxData with
  | JArray items => property (nth_error items 0) "box_2d"
  | _ => property (Some boundingBoxData) "box_2d"
  end.

(** [detectElement] from the text of the grounding model's reply on: the
    test for an empty reply, [JSON.parse], the checks of [box_2d]. *)
Definition boundingBoxOfOutput (outputText : string) : Result Box :=
  if is_empty outputText then Throw (Error "No response text") else
  match JSON_parse outputText with
  | None => Throw (SyntaxError "Unexpected token in JSON")
  | Some boundingBoxData => bind (box_2d_of boundingBoxData) checkBox2d
  end.

(** [detectElement(imagePart, elementDescription, ...)]; the image part
    is [undefined], written [None], when the caller found none. *)
Definition detectElement (imagePart : option Part) (elementDescription : string)
    : M Box :=
  emit (GroundingRequested imagePart elementDescription) ;;
  responseStream <- nextGroundingReply ;;
  '(_, outputText, _) <-
    processStreamResponse grounding_model responseStream (Some true) ;;
  lift (boundingBoxOfOutput outputText).

(** ** screen.ts: what acts on the module variable [screen] *)

Definition takeScreenshot (screenshotToolResult : ScreenshotToolResult) : M Image :=
  match screenshotToolResult with
  | InvalidFormat => throw (Error "Invalid screenshot response format")
  | InlineImage mime pixels w h =>
      if negb (String.eqb mime "image/png") then
        throw (Error ("Invalid screenshot response format: expected image/png, got "
                      ++ mime))
      else if ((w =? 0) || (h =? 0))%N then
        throw (Error ("Invalid screenshot: width: " ++ numeral_of_N w
                      ++ ", height: " ++ numeral_of_N h))
      else
        let res := {| width := Z.of_N w; height := Z.of_N h |} in
        match newScreen res with
        | Some scr =>
            setScreen scr ;;
            ret {| buffer := pixels; image_resolution := res;
                   image_mimeType := mime |}
        | None => throw (Error "setCropConfiguration does not terminate")
        end
  end.

Fixpoint indexed {A} (from : nat) (xs : list A) : list (nat * A) :=
  match xs with
  | [] => []
  | x :: rest => (from, x) :: indexed (S from) rest
  end.

(** [cropScreenshot]: one 768 x 768 tile for each starting point, with
    the suffix of its file name. *)
Definition cropScreenshot (screenshot : Image) : M (list (Image * string)) :=
  scr <- getScreen ;;
  ret (map (fun entry =>
              let i := N.of_nat (fst entry) in
              ({| buffer := buffer screenshot ++ "#" ++ decimal i;
                  image_resolution := {| width := 768; height := 768 |};
                  image_mimeType := "image/png" |},
               "screenshot_"
               ++ match cropDirection scr with
                  | vertical => "v"
                  | horizontal => "h"
                  end
               ++ "c" ++ decimal i))
           (indexed 0 (squareStartingPoints scr))).

Definition imageToPart (image : Image) : Part :=
  inlineDataPart {| data := buffer image; mimeType := image_mimeType image |}.

(** ** Arrays indexed by a value of the model

    The index [image_id] of a tool call is whatever the planning model
    sent: the validator is given no schema
    ([functionDeclaration.parameters] is not set), so the index may be any
    value, or [undefined]. *)

(** The names an array answers to besides its indices: [length] and the
    properties of [Array.prototype] (ECMAScript 2023) and
    [Object.prototype]. *)
Definition Array_property_names : list string :=
  (["length"; "at"; "concat"; "copyWithin"; "entries"; "every"; "fill";
    "filter"; "find"; "findIndex"; "findLast"; "findLastIndex"; "flat";
    "flatMap"; "forEach"; "includes"; "indexOf"; "join"; "keys";
    "lastIndexOf"; "map"; "pop"; "push"; "reduce"; "reduceRight"; "reverse";
    "shift"; "slice"; "some"; "sort"; "splice"; "toReversed"; "toSorted";
    "toSpliced"; "unshift"; "values"; "with"]
   ++ ToolCatalog.Object_prototype_names)%list.

(** What [xs[imageId]] finds in an array of objects. *)
Inductive Element (A : Type) :=
| Own (i : nat) (x : A)
| Inherited
| Absent.
Arguments Own {A} i x.
Arguments Inherited {A}.
Arguments Absent {A}.

(** [xs[imageId]]: the key is the string of the index ([ToPropertyKey]);
    an array index below the length finds an element, [length] and the
    names of the prototypes find a value that is not an element, and
    anything else finds [undefined]. *)
Definition elementAt {A} (xs : list A) (imageId : option json) : Element A :=
  let key := String_ imageId in
  match arrayIndex key with
  | Some i =>
      if (i <? N.of_nat (List.length xs))%N then
        match nth_error xs (N.to_nat i) with
        | Some x => Own (N.to_nat i) x
        | None => Absent
        end
      else Absent
  | None =>
      if existsb (String.eqb key) Array_property_names then Inherited
      else Absent
  end.

(** The index as it is passed on, and the box. *)
Record IndexAndBox := { index : option json; box : Box }.

(** [toScreenCoords({ index, boxOrCoordinate })], with the error that
    [startPoint.x] raises when [squareStartingPoints[index]] is
    [undefined].  When the index finds a value that is not a starting
    point, [startPoint.x] is [undefined] and both coordinates are [NaN],
    written [None]. *)
Definition toScreenCoords (scr : Screen) (index : option json)
    (boxOrCoordinate : BoxOrCoordinate) : Result (option Coordinate) :=
  match elementAt (squareStartingPoints scr) index with
  | Own i _ =>
      match toScreenCoordinate scr i boxOrCoordinate with
      | Some coordinate => Ok (Some coordinate)
      | None =>
          Throw (TypeError "Cannot read properties of undefined (reading 'x')")
      end
  | Inherited => Ok None
  | Absent =>
      Throw (TypeError "Cannot read properties of undefined (reading 'x')")
  end.

(** [Screen.toScreenRectangle(indexAndBox)]; [None] is the rectangle
    whose four numbers are [NaN]. *)
Definition rectangleOf (scr : Screen) (indexAndBox : IndexAndBox)
    : Result (option Rectangle) :=
  match elementAt (squareStartingPoints scr) (index indexAndBox) with
  | Own i _ =>
      match toScreenRectangle scr i (box indexAndBox) with
      | Some r => Ok (Some r)
      | None =>
          Throw (TypeError "Cannot read properties of undefined (reading 'x')")
      end
  | Inherited => Ok None
  | Absent =>
      Throw (TypeError "Cannot read properties of undefined (reading 'x')")
  end.

Definition describeRectangle (rectangle : option Rectangle) : string :=
  match rectangle with
  | Some r =>
      numeral_of_Z (left r) ++ "," ++ numeral_of_Z (top r) ++ ","
      ++ numeral_of_Z (rectWidth r) ++ "," ++ numeral_of_Z (rectHeight r)
  | None => "NaN,NaN,NaN,NaN"
  end.

(** [highlightBox]: the image with the rectangle of the box marked. *)
Definition highlightBox (image : Image) (indexAndBox : IndexAndBox) : M Image :=
  scr <- getScreen ;;
  r <- lift (rectangleOf scr indexAndBox) ;;
  ret {| buffer := buffer image ++ "+box(" ++ describeRectangle r ++ ")";
         image_resolution := image_resolution image;
         image_mimeType := image_mimeType image |}.

Definition highlightConnectedBoxes (image : Image)
    (startingIndexAndBox endingIndexAndBox : IndexAndBox) : M Image :=
  scr <- getScreen ;;
  r1 <- lift (rectangleOf scr startingIndexAndBox) ;;
  r2 <- lift (rectangleOf scr endingIndexAndBox) ;;
  ret {| buffer := buffer image ++ "+arrow(" ++ describeRectangle r1
                   ++ ";" ++ describeRectangle r2 ++ ")";
         image_resolution := image_resolution image;
         image_mimeType := image_mimeType image |}.

(** ** groundable-tool.ts and the tools *)

(** What [ground] returns on success: the two closures. *)
Record GroundedToolCall := {
  getDescription : M (list PersistPart);
  value : string * list (string * json)
}.

(** [imageId >= length]: the index is converted to a number; [NaN] is
    not at least anything. *)
Definition atLeast (imageId : option json) (n : nat) : bool :=
  Number_ge (ToNumber imageId) (double_of_Z (Z.of_nat n)).

(** [croppedScreenshotParts[imageId].imagePart]; [None] is [undefined]. *)
Definition imagePartAt (croppedScreenshotParts : list Part)
    (imageId : option json) : Result (option Part) :=
  match elementAt croppedScreenshotParts imageId with
  | Own _ imagePart => Ok (Some imagePart)
  | Inherited => Ok None
  | Absent =>
      Throw (TypeError
        "Cannot read properties of undefined (reading 'imagePart')")
  end.

(** [BaseGroundableTool.detectAndTransform]. *)
Definition detectAndTransform (imageId : option json)
    (croppedScreenshotParts : list Part) (detect : option Part -> M Box)
    : M (IndexAndBox * option Coordinate + string) :=
  if atLeast imageId (List.length croppedScreenshotParts) then
    ret (inr ("Image ID exceeds the number of cropped screenshots: "
              ++ String_ imageId ++ " >= "
              ++ decimal (N.of_nat (List.length croppedScreenshotParts))))
  else
    detected <-
      tryCatch
        (imagePart <- lift (imagePartAt croppedScreenshotParts imageId) ;;
         detectedBox <- detect imagePart ;;
         ret (inl detectedBox))
        (fun e => ret (inr ("Failed to detect element: " ++ Exn_toString e))) ;;
    match detected with
    | inr msg => ret (inr msg)
    | inl detectedBox =>
        scr <- getScreen ;;
        screenCoords <- lift (toScreenCoords scr imageId (OfBox detectedBox)) ;;
        ret (inl ({| index := imageId; box := detectedBox |}, screenCoords))
    end.

(** A member of an object literal whose value may be [undefined]. *)
Definition member (key : string) (v : option json) : list (string * json) :=
  match v with
  | Some x => [(key, x)]
  | None => []
  end.

(** [[screenCoords.x, screenCoords.y]]. *)
Definition coordinateValue (c : option Coordinate) : json :=
  match c with
  | Some c =>
      JArray [JNumber (numeral_of_Z (cx c)); JNumber (numeral_of_Z (cy c))]
  | None => JArray [JNumber "NaN"; JNumber "NaN"]
  end.

(** [v === k] for a number [k]: no conversion is made. *)
Definition isNumber (v : option json) (k : Z) : bool :=
  match v with
  | Some (JNumber numeral) => Number_eq (StringToNumber numeral) (double_of_Z k)
  | _ => false
  end.

(** [v > k] for a number [k]: [v] is converted to a number. *)
Definition greaterThan (v : option json) (k : Z) : bool :=
  Number_gt (ToNumber v) (double_of_Z k).

(** [` while holding ${keys.join(' + ')}`] when [hold_keys] is true and
    has a positive [length]: an array that is not empty; a string or an
    object of positive length has no function [join]. *)
Definition holdingSuffix (hold_keys : option json) : Result string :=
  match hold_keys with
  | Some (JArray (k :: ks)) =>
      Ok (" while holding "
          ++ join " + " (map (fun item => match item with
                                          | JNull => EmptyString
                                          | _ => toString item
                                          end) (k :: ks)))
  | Some (JString (String _ _)) =>
      Throw (TypeError "args.hold_keys.join is not a function")
  | Some (JObject members) =>
      if greaterThan (lookup "length" members) 0
      then Throw (TypeError "args.hold_keys.join is not a function")
      else Ok EmptyString
  | _ => Ok EmptyString
  end.

(** The annotated screenshot that ends a description. *)
Definition annotatedPart (annotated : M Image) : M PersistPart :=
  annotatedImage <- annotated ;;
  fileName <- saveImage (buffer annotatedImage) "screenshot_annotated" ;;
  ret (OfImageFile fileName).

Definition isString (v : option json) (s : string) : bool :=
  match v with
  | Some (JString t) => String.eqb t s
  | _ => false
  end.

Section Tools.

Variable screenshot : Image.
Variable croppedScreenshotParts : list Part.
Variable detect : option Part -> string -> M Box.
Variable args : list (string * json).

Definition arg (key : string) : option json := lookup key args.

(** [ComputerClick.ground]. *)
Definition groundClick : M (GroundedToolCall + string) :=
  result <- detectAndTransform (arg "image_id") croppedScreenshotParts
              (fun imagePart =>
                 detect imagePart
                   ("Click on: " ++ String_ (arg "element_description"))) ;;
  match result with
  | inr msg => ret (inr msg)
  | inl (indexAndBox, screenCoords) =>
      let buttonType :=
        if truthy_value (arg "button_type") then arg "button_type"
        else Some (JString "left") in
      let numClicks :=
        if truthy_value (arg "num_clicks") then arg "num_clicks"
        else Some (JNumber "1") in
      let plain :=
        if isString buttonType "left" then "Click"
        else String_ buttonType ++ " click" in
      let action :=
        if isNumber numClicks 2 && isString buttonType "left" then "Double click"
        else if isNumber numClicks 2 then
          "Double " ++ String_ buttonType ++ " click"
        else if greaterThan numClicks 1 then
          plain ++ " " ++ String_ numClicks ++ " times"
        else plain in
      ret (inl
        {| getDescription :=
             holding <- lift (holdingSuffix (arg "hold_keys")) ;;
             image <- annotatedPart (highlightBox screenshot indexAndBox) ;;
             ret [OfPart (textPart (action ++ " on here" ++ holding ++ ":"));
                  image];
           value :=
             (".computer",
              [("action", JString "click");
               ("coordinate", coordinateValue screenCoords)]
              ++ member "num_clicks" (arg "num_clicks")
              ++ member "button_type" (arg "button_type")
              ++ member "hold_keys" (arg "hold_keys"))%list |})
  end.

(** The optional detection shared by [ComputerType.ground] and
    [ComputerScroll.ground]. *)
Definition groundOptionalTarget (prompt : string)
    : M (option (IndexAndBox * option Coordinate) + string) :=
  match arg "image_id", arg "element_description" with
  | Some _, Some _ =>
      result <- detectAndTransform (arg "image_id") croppedScreenshotParts
                  (fun imagePart =>
                     detect imagePart
                       (prompt ++ String_ (arg "element_description"))) ;;
      match result with
      | inr msg => ret (inr msg)
      | inl target => ret (inl (Some target))
      end
  | _, _ => ret (inl None)
  end.

(** [ComputerType.ground]. *)
Definition groundType : M (GroundedToolCall + string) :=
  result <- groundOptionalTarget "Click on here to type: " ;;
  match result with
  | inr msg => ret (inr msg)
  | inl target =>
      let typed := "Type " ++ str1 quote ++ String_ (arg "text") ++ str1 quote in
      let description1 :=
        if truthy_value (arg "overwrite")
        then "Clear existing text and type " ++ str1 quote
             ++ String_ (arg "text") ++ str1 quote
        else typed in
      let description2 :=
        if truthy_value (arg "enter") then description1 ++ " and press Enter"
        else description1 in
      ret (inl
        {| getDescription :=
             match target with
             | Some (indexAndBox, _) =>
                 image <- annotatedPart (highlightBox screenshot indexAndBox) ;;
                 ret [OfPart (textPart (description2 ++ " here:")); image]
             | None =>
                 ret [OfPart (textPart
                        (description2 ++ " in the currently focused input field"))]
             end;
           value :=
             (".computer",
              [("action", JString "type")]
              ++ match target with
                 | Some (_, screenCoordinate) =>
                     [("coordinate", coordinateValue screenCoordinate)]
                 | None => []
                 end
              ++ member "text" (arg "text")
              ++ member "overwrite" (arg "overwrite")
              ++ member "enter" (arg "enter"))%list |})
  end.

(** [ComputerDragAndDrop.ground]. *)
Definition groundDragAndDrop : M (GroundedToolCall + string) :=
  startingResult <-
    detectAndTransform (arg "starting_image_id") croppedScreenshotParts
      (fun imagePart =>
         detect imagePart
           ("Drag from: " ++ String_ (arg "starting_description"))) ;;
  match startingResult with
  | inr msg => ret (inr msg)
  | inl (startingIndexAndBox, startingScreenCoordinate) =>
      endingResult <-
        detectAndTransform (arg "ending_image_id") croppedScreenshotParts
          (fun imagePart =>
             detect imagePart
               ("Drag to: " ++ String_ (arg "ending_description"))) ;;
      match endingResult with
      | inr msg => ret (inr msg)
      | inl (endingIndexAndBox, endingScreenCoordinate) =>
          ret (inl
            {| getDescription :=
                 holding <- lift (holdingSuffix (arg "hold_keys")) ;;
                 image <- annotatedPart
                            (highlightConnectedBoxes screenshot
                               startingIndexAndBox endingIndexAndBox) ;;
                 ret [OfPart (textPart ("Drag and drop from here to there"
                                        ++ holding ++ ":"));
                      image];
               value :=
                 (".computer",
                  [("action", JString "drag_and_drop");
                   ("coordinate", coordinateValue startingScreenCoordinate);
                   ("target_coordinate", coordinateValue endingScreenCoordinate)]
                  ++ member "hold_keys" (arg "hold_keys"))%list |})
      end
  end.

(** [args.keys.join(' + ')]. *)
Definition joinedKeys : Result string :=
  match arg "keys" with
  | Some (JArray ks) =>
      Ok (join " + " (map (fun item => match item with
                                       | JNull => EmptyString
                                       | _ => toString item
                                       end) ks))
  | None =>
      Throw (TypeError "Cannot read properties of undefined (reading 'join')")
  | Some JNull =>
      Throw (TypeError "Cannot read properties of null (reading 'join')")
  | Some _ => Throw (TypeError "args.keys.join is not a function")
  end.

(** [ComputerKey.ground]. *)
Definition groundKey : M (GroundedToolCall + string) :=
  ret (inl
    {| getDescription :=
         keys <- lift joinedKeys ;;
         ret [OfPart (textPart
                (if truthy_value (arg "hold_duration")
                    && greaterThan (arg "hold_duration") 0
                 then "Hold " ++ keys ++ " for "
                      ++ String_ (arg "hold_duration") ++ " seconds"
                 else "Press " ++ keys))];
       value :=
         (".computer",
          [("action", JString "key")]
          ++ member "keys" (arg "keys")
          ++ member "hold_duration" (arg "hold_duration"))%list |}).

(** [ComputerWait.ground]. *)
Definition groundWait : M (GroundedToolCall + string) :=
  ret (inl
    {| getDescription :=
         ret [OfPart (textPart ("Wait " ++ String_ (arg "time") ++ " seconds"))];
       value :=
         (".computer",
          [("action", JString "wait")] ++ member "time" (arg "time"))%list |}).

(** [ComputerScroll.ground]; [Math.abs] converts [clicks] to a number. *)
Definition groundScroll : M (GroundedToolCall + string) :=
  result <- groundOptionalTarget "Hover on here to scroll: " ;;
  match result with
  | inr msg => ret (inr msg)
  | inl target =>
      let positive := greaterThan (arg "clicks") 0 in
      let direction :=
        if truthy_value (arg "shift")
        then (if positive then "left" else "right")
        else (if positive then "up" else "down") in
      let amount := SFabs (ToNumber (arg "clicks")) in
      let scrolled :=
        if Number_eq amount (double_of_Z 1) then "Scroll " ++ direction
        else "Scroll " ++ direction ++ " " ++ Number_toString amount
             ++ " clicks" in
      ret (inl
        {| getDescription :=
             match target with
             | Some (indexAndBox, _) =>
                 image <- annotatedPart (highlightBox screenshot indexAndBox) ;;
                 ret [OfPart (textPart (scrolled ++ " in here:")); image]
             | None =>
                 ret [OfPart (textPart
                        (scrolled ++ " in the currently active area"))]
             end;
           value :=
             (".computer",
              [("action", JString "scroll")]
              ++ match target with
                 | Some (_, screenCoordinate) =>
                     [("coordinate", coordinateValue screenCoordinate)]
                 | None => []
                 end
              ++ member "clicks" (arg "clicks")
              ++ member "shift" (arg "shift"))%list |})
  end.

Definition ground (groundableTool : ToolCatalog.GroundableTool)
    : M (GroundedToolCall + string) :=
  match groundableTool with
  | ToolCatalog.ComputerClick => groundClick
  | ToolCatalog.ComputerType => groundType
  | ToolCatalog.ComputerDragAndDrop => groundDragAndDrop
  | ToolCatalog.ComputerKey => groundKey
  | ToolCatalog.ComputerWait => groundWait
  | ToolCatalog.ComputerScroll => groundScroll
  end.

End Tools.

(** ** runAgent *)

Section RunAgent.

Variable env : Env.

(** [forgeToolResponse(response, functionCall, originalFunctionCall)]. *)
Definition forgeToolResponse (response : ResponseBody)
    (functionCall : FunctionCall) (originalFunctionCall : option FunctionCall)
    : Result Part :=
  if is_empty (fc_id functionCall) then
    Throw (Error "Function call id is required in tool response")
  else
    Ok (functionResponsePart
          {| fr_id := match originalFunctionCall with
                      | Some original => fc_id original
                      | None => fc_id functionCall
                      end;
             fr_name := match originalFunctionCall with
                        | Some original => fc_name original
                        | None => fc_name functionCall
                        end;
             fr_response := response |}).

(** [parseResult] inside [executeToolGetPart]. *)
Definition parseResult (responseParts : list (string + Part)) : Result string :=
  bind (mapM (fun part =>
                match part with
                | inl str => Ok str
                | inr p =>
                    if truthy (text p) then
                      Ok (match text p with Some t => t | None => EmptyString end)
                    else
                      match functionResponse p with
                      | Some {| fr_response := output (String c t) |} =>
                          Ok (String c t)
                      | _ =>
                          Throw (Error
                            "Unsupported tool response part: [object Object]")
                      end
                end) responseParts)
       (fun texts => Ok (join (str1 newline) texts)).

(** [executeToolGetPart] once [executeToolCall] has answered: the part
    made of the result. *)
Definition toolResponsePart (functionCall : FunctionCall)
    (originalFunctionCall : option FunctionCall) : Result Part :=
  let result := executeToolCall env functionCall in
  bind (match tcr_error result with
        | Some message => Ok (error_ message)
        | None =>
            bind (parseResult (tcr_responseParts result))
                 (fun out => Ok (output out))
        end)
       (fun response =>
          forgeToolResponse response functionCall originalFunctionCall).

Definition executeToolGetPart (functionCall : FunctionCall)
    (originalFunctionCall : option FunctionCall) : M Part :=
  emit (ToolExecuted functionCall) ;;
  lift (toolResponsePart functionCall originalFunctionCall).

(** The loop [for await (const part of delayedFunctionCalls.map(async ...
    executeToolGetPart(...)))]: [map] calls [executeToolGetPart] on every
    delayed call, and each of these calls [executeToolCall] before
    anything is awaited; the loop then takes the parts in order and is
    left at the first that fails. *)
Definition executeDelayed (calls : list (FunctionCall * FunctionCall))
    : M (list Part) :=
  _ <- forEachM (fun call => emit (ToolExecuted (fst call))) calls ;;
  lift (mapM (fun call => toolResponsePart (fst call) (Some (snd call)))
          calls).

(** The body of [for (const { functionCall, originalFunctionCall,
    response } of input)]: the part it pushes on [currentParts]. *)
Definition answerDecision (d : Decision) : M Part :=
  match d_response d with
  | reject_once =>
      toolRejectPart <-
        lift (forgeToolResponse (error_ "Rejected by user")
                (d_functionCall d) (Some (d_originalFunctionCall d))) ;;
      persistMessage {| apm_role := tool;
                        apm_parts := [OfPart toolRejectPart];
                        apm_toolReview := None;
                        apm_forDisplay := Some false |} ;;
      ret toolRejectPart
  | _ =>
      toolResultPart <-
        executeToolGetPart (d_functionCall d)
          (Some (d_originalFunctionCall d)) ;;
      persistMessage {| apm_role := tool;
                        apm_parts := [OfPart toolResultPart];
                        apm_toolReview := None;
                        apm_forDisplay := None |} ;;
      ret toolResultPart
  end.

Definition isReject (d : Decision) : bool :=
  match d_response d with
  | reject_once => true
  | _ => false
  end.

(** The first statements of [runAgent] on [input]: the current parts, or
    [None] when the run returns at once. *)
Definition seedInput (input : AgentInput) : M (option (list Part)) :=
  match input with
  | InputText str =>
      let currentParts := [textPart str] in
      persistMessage {| apm_role := user; apm_parts := map OfPart currentParts;
                        apm_toolReview := None; apm_forDisplay := None |} ;;
      ret (Some currentParts)
  | InputDecisions decisions =>
      currentParts <- forEachM answerDecision decisions ;;
      if forallb isReject decisions
      then
        setSessionStatus stagnant "User rejected all tool calls." ;;
        ret None
      else ret (Some currentParts)
  end.

(** The variables [planNextStep] reads and writes.  [shared] records that
    the [parts] of the last entry of the history is the very array that
    [currentParts] names, so that a push on one shows in the other. *)
Record PlanState := {
  currentParts : list Part;
  history : list Content;
  shared : bool;
  functionCalls : list FunctionCall
}.

Definition replaceLastParts (h : list Content) (ps : list Part) : list Content :=
  match List.rev h with
  | lastMessage :: earlier =>
      (List.rev earlier ++ [{| role := role lastMessage; parts := ps |}])%list
  | [] => []
  end.

(** [planNextStep(extraPrompt)].  [reply] is the planner's answer to this
    call, [None] when it has none and the call is rejected. *)
Definition planNextStep (reply : option LlmReply) (extraPrompt : option string)
    (st : PlanState) : M (bool * PlanState) :=
  let pushed := truthy extraPrompt in
  let userParts :=
    if pushed
    then (currentParts st
          ++ [textPart (match extraPrompt with
                        | Some t => t
                        | None => EmptyString
                        end)])%list
    else currentParts st in
  let history0 :=
    if pushed && shared st then replaceLastParts (history st) userParts
    else history st in
  let (requestContents, merged) :=
    appendContent history0 {| role := roleUser; parts := userParts |} in
  emit (PlanRequested requestContents) ;;
  responseStream <-
    match reply with
    | Some r => ret r
    | None => throw (Error "generateContentStream failed")
    end ;;
  '(_, outputText, calls) <- processStreamResponse model responseStream None ;;
  if negb (is_empty outputText) || negb (is_nil calls) then
    ret (true,
         {| currentParts := userParts;
            history :=
              fst (appendContent requestContents
                     {| role := roleModel;
                        parts :=
                          ((if negb (is_empty outputText)
                            then [textPart outputText] else [])
                           ++ map functionCallPart calls)%list |});
            shared := false;
            functionCalls := calls |})
  else
    ret (false,
         {| currentParts := userParts; history := requestContents;
            shared := negb merged; functionCalls := functionCalls st |}).

(** What the loop over [functionCalls] accumulates. *)
Record Dispatch := {
  toolResponseParts : list Part;
  isPending : bool;
  toolReviewMessages : list AgentPersistMessage;
  delayedFunctionCalls : list (FunctionCall * FunctionCall)
}.

(** The body of [for (const fc of functionCalls)]. *)
Definition processFunctionCall (screenshot : Image)
    (croppedScreenshotsData : list (string * Part))
    (acc : Dispatch) (fc : FunctionCall) : M Dispatch :=
  let originalFunctionCall := fc in
  let id := fc_id originalFunctionCall in
  let respond (part : Part) :=
    {| toolResponseParts := (toolResponseParts acc ++ [part])%list;
       isPending := isPending acc;
       toolReviewMessages := toolReviewMessages acc;
       delayedFunctionCalls := delayedFunctionCalls acc |} in
  if startsWith "computer_" (fc_name originalFunctionCall) then
    groundableTool <-
      lift (ToolCatalog.getValidComputerTool (SchemaValidator_validate env)
              (fc_name originalFunctionCall) (fc_args originalFunctionCall)) ;;
    match groundableTool with
    | inr validationError =>
        part <- lift (forgeToolResponse (error_ validationError)
                        originalFunctionCall (Some originalFunctionCall)) ;;
        ret (respond part)
    | inl groundable =>
        groundedToolCall <-
          ground screenshot (map snd croppedScreenshotsData) detectElement
            (fc_args originalFunctionCall) groundable ;;
        match groundedToolCall with
        | inr groundingError =>
            part <- lift (forgeToolResponse
                            (error_ ("Error during grounding: " ++ groundingError))
                            originalFunctionCall (Some originalFunctionCall)) ;;
            ret (respond part)
        | inl grounded =>
            let functionCall :=
              {| fc_id := fc_id originalFunctionCall;
                 fc_name := fst (value grounded);
                 fc_args := snd (value grounded) |} in
            toolCallDescription <- getDescription grounded ;;
            let request :=
              {| apm_role := workflow;
                 apm_parts := toolCallDescription;
                 apm_toolReview :=
                   Some (Request
                     {| req_reviewId := id;
                        req_functionCall := functionCall;
                        req_originalFunctionCall := originalFunctionCall |});
                 apm_forDisplay := Some true |} in
            if existsb (String.eqb (fc_name originalFunctionCall))
                 (allowedTools env)
            then
              ret {| toolResponseParts := toolResponseParts acc;
                     isPending := isPending acc;
                     toolReviewMessages :=
                       (toolReviewMessages acc
                        ++ [request;
                            {| apm_role := user; apm_parts := [];
                               apm_toolReview :=
                                 Some (Response
                                   {| resp_reviewId := id;
                                      resp_choice := accept_session |});
                               apm_forDisplay := Some true |}])%list;
                     delayedFunctionCalls :=
                       (delayedFunctionCalls acc
                        ++ [(functionCall, originalFunctionCall)])%list |}
            else
              ret {| toolResponseParts := toolResponseParts acc;
                     isPending := true;
                     toolReviewMessages :=
                       (toolReviewMessages acc ++ [request])%list;
                     delayedFunctionCalls := delayedFunctionCalls acc |}
        end
    end
  else
    part <- executeToolGetPart originalFunctionCall (Some originalFunctionCall) ;;
    ret (respond part).

Fixpoint processFunctionCalls (screenshot : Image)
    (croppedScreenshotsData : list (string * Part))
    (acc : Dispatch) (calls : list FunctionCall) : M Dispatch :=
  match calls with
  | [] => ret acc
  | fc :: rest =>
      acc' <- processFunctionCall screenshot croppedScreenshotsData acc fc ;;
      processFunctionCalls screenshot croppedScreenshotsData acc' rest
  end.

(** The rest of a turn once planning is over: the branch on
    [functionCalls.length].  [continue] is the next round of the loop,
    started with the new [currentParts]. *)
Definition dispatch (screenshot : Image)
    (croppedScreenshotsData : list (string * Part)) (st : PlanState)
    (continue : list Part -> list Content -> M unit) : M unit :=
  match functionCalls st with
  | _ :: _ =>
      acc <- processFunctionCalls screenshot croppedScreenshotsData
               {| toolResponseParts := []; isPending := false;
                  toolReviewMessages := []; delayedFunctionCalls := [] |}
               (functionCalls st) ;;
      (if negb (is_nil (toolResponseParts acc)) then
         persistMessage {| apm_role := tool;
                           apm_parts := map OfPart (toolResponseParts acc);
                           apm_toolReview := None; apm_forDisplay := None |}
       else ret tt) ;;
      _ <- forEachM persistMessage (toolReviewMessages acc) ;;
      if isPending acc then
        setSessionStatus pending "Tool call pending."
      else
        delayedToolResponseParts <-
          executeDelayed (delayedFunctionCalls acc) ;;
        persistMessage {| apm_role := tool;
                          apm_parts := map OfPart delayedToolResponseParts;
                          apm_toolReview := None; apm_forDisplay := None |} ;;
        continue (toolResponseParts acc ++ delayedToolResponseParts)%list
                 (history st)
  | [] =>
      setSessionStatus stagnant "No more tool calls from model."
  end.

(** The first half of a turn: status, screenshot, tiles. *)
Definition observe (turnCount : N) (currentParts0 : list Part)
    : M (Image * list (string * Part) * list Part) :=
  setSessionStatus running ("Turn " ++ decimal turnCount) ;;
  emit ScreenshotTaken ;;
  screenshot <- takeScreenshot (screenshotAction env turnCount) ;;
  now <- tick ;;
  let screenshotDescription := "Screenshot at " ++ decimal now ++ ":" in
  fileName <- saveImage (buffer screenshot) "screenshot" ;;
  persistMessage {| apm_role := workflow;
                    apm_parts := [OfPart (textPart screenshotDescription);
                                  OfImageFile fileName];
                    apm_toolReview := None; apm_forDisplay := Some true |} ;;
  cropped <- cropScreenshot screenshot ;;
  croppedScreenshotsData <-
    forEachM (fun tile =>
                imageFileName <- saveImage (buffer (fst tile)) (snd tile) ;;
                ret (imageFileName, imageToPart (fst tile))) cropped ;;
  persistMessage {| apm_role := workflow;
                    apm_parts :=
                      OfPart (textPart screenshotDescription)
                      :: map (fun d => OfImageFile (fst d)) croppedScreenshotsData;
                    apm_toolReview := None; apm_forDisplay := Some false |} ;;
  ret (screenshot, croppedScreenshotsData,
       (currentParts0 ++ textPart screenshotDescription
                         :: map snd croppedScreenshotsData)%list).

(** The [while (true)] loop.  [planner] lists the replies the planning
    model gives to the successive calls of [planNextStep]; every round
    that goes on to another round has used at least one of them. *)
Fixpoint turns (planner : list LlmReply) (turnCount : N)
    (currentParts0 : list Part) (history0 : list Content) : M unit :=
  let turnCount := (turnCount + 1)%N in
  '(screenshot, croppedScreenshotsData, currentParts1) <-
    observe turnCount currentParts0 ;;
  let st0 := {| currentParts := currentParts1; history := history0;
                shared := false; functionCalls := [] |} in
  match planner with
  | [] =>
      _ <- planNextStep None None st0 ;; ret tt
  | reply1 :: planner1 =>
      '(planned, st1) <- planNextStep (Some reply1) None st0 ;;
      if planned : bool then
        dispatch screenshot croppedScreenshotsData st1 (turns planner1 turnCount)
      else
        match planner1 with
        | [] =>
            _ <- planNextStep None (Some "continue") st1 ;; ret tt
        | reply2 :: planner2 =>
            '(planned2, st2) <- planNextStep (Some reply2) (Some "continue") st1 ;;
            (if planned2 : bool then ret tt
             else setSessionStatus error
                    "Model returned empty response even after retry.") ;;
            dispatch screenshot croppedScreenshotsData st2
              (turns planner2 turnCount)
        end
  end.

(** [runAgent(config, historyMessages, input, allowedTools, ...)]. *)
Definition runAgent (historyMessages : list Content) (input : AgentInput)
    (planner : list LlmReply) : M unit :=
  if negb (hasComputerTool env) then
    throw (Error "Core tool .computer not found in registry")
  else
    seeded <- seedInput input ;;
    match seeded with
    | None => ret tt
    | Some currentParts0 =>
        tryCatch
          (turns planner 0 currentParts0 (mergeAdjacentMessages historyMessages))
          (fun e => setSessionStatus error (exn_message e))
    end.

End RunAgent.

End Agent.

(* ================================================================== *)
(** * Properties of the tiling (screen.ts) *)
(* ================================================================== *)

Section Tiling.
Import ScreenTs.
Local Open Scope list_scope.
Local Open Scope Z_scope.

(** [stepped x step n] is [x; x + step; ...], [n] offsets in all. *)
Fixpoint stepped (x step : Z) (n : nat) : list Z :=
  match n with
  | O => []
  | S n' => x :: stepped (x + step) step n'
  end.

(** How many offsets the loop pushes when it starts at [x]. *)
Definition roundsFrom (step side limit x : Z) : nat :=
  if x + side <? limit then Z.to_nat ((limit - side - 1 - x) / step + 1)
  else O.

Lemma roundsFrom_next step side limit x :
  0 < step -> x + side < limit ->
  roundsFrom step side limit x = S (roundsFrom step side limit (x + step)).
Proof.
  intros Hstep Hlt. unfold roundsFrom.
  destruct (Z.ltb_spec (x + side) limit) as [_ | ?]; [| lia].
  replace (limit - side - 1 - x) with ((limit - side - 1 - (x + step)) + 1 * step) by ring.
  rewrite Z.div_add by lia.
  destruct (Z.ltb_spec (x + step + side) limit) as [Hn | Hn].
  - assert (0 <= (limit - side - 1 - (x + step)) / step)
      by (apply Z.div_pos; lia).
    rewrite <- Z2Nat.inj_succ by lia. f_equal; lia.
  - assert ((limit - side - 1 - (x + step)) / step = -1) as ->.
    { symmetry. apply (Z.div_unique _ _ _ (limit - side - 1 - (x + step) + step)); lia. }
    reflexivity.
Qed.

Lemma cropLoop_stepped step side limit :
  0 < step ->
  forall fuel x,
    (roundsFrom step side limit x <= fuel)%nat ->
    cropLoop fuel step side limit x
    = Some (stepped x step (roundsFrom step side limit x)).
Proof.
  intros Hstep. induction fuel as [| fuel IH]; intros x Hfuel.
  - simpl. destruct (Z.ltb_spec (x + side) limit) as [Hlt | Hge].
    + rewrite (roundsFrom_next _ _ _ _ Hstep Hlt) in Hfuel. lia.
    + unfold roundsFrom. destruct (Z.ltb_spec (x + side) limit); [lia | reflexivity].
  - simpl. destruct (Z.ltb_spec (x + side) limit) as [Hlt | Hge].
    + rewrite (roundsFrom_next _ _ _ _ Hstep Hlt) in *.
      rewrite IH by lia. reflexivity.
    + unfold roundsFrom. destruct (Z.ltb_spec (x + side) limit); [lia | reflexivity].
Qed.

Lemma roundsFrom_bound step side limit x :
  0 < step -> 0 <= x -> 0 < side ->
  (roundsFrom step side limit x <= Z.to_nat limit)%nat.
Proof.
  intros Hstep Hx Hside. unfold roundsFrom.
  destruct (Z.ltb_spec (x + side) limit) as [Hlt | Hge]; [| lia].
  apply Z2Nat.inj_le; try lia.
  - assert (0 <= (limit - side - 1 - x) / step) by (apply Z.div_pos; lia). lia.
  - assert ((limit - side - 1 - x) / step <= limit - side - 1 - x).
    { apply Z.div_le_upper_bound; [lia |].
      assert (0 <= (step - 1) * (limit - side - 1 - x))
        by (apply Z.mul_nonneg_nonneg; lia).
      lia. }
    lia.
Qed.

Lemma nth_error_stepped x step n i :
  (i < n)%nat -> nth_error (stepped x step n) i = Some (x + Z.of_nat i * step).
Proof.
  revert x i. induction n as [| n IH]; intros x i Hi; [lia |].
  destruct i as [| i]; cbn [nth_error stepped].
  - f_equal. change (Z.of_nat 0) with 0. ring.
  - rewrite IH by lia. f_equal. rewrite Nat2Z.inj_succ. ring.
Qed.

Lemma length_stepped x step n : List.length (stepped x step n) = n.
Proof. revert x. induction n; intros; simpl; auto. Qed.

Lemma last_stepped x step n d :
  last (stepped x step (S n)) d = x + Z.of_nat n * step.
Proof.
  revert x. induction n as [| n IH]; intros x.
  - cbn [stepped last]. change (Z.of_nat 0) with 0. ring.
  - change (stepped x step (S (S n))) with (x :: stepped (x + step) step (S n)).
    change (last (x :: stepped (x + step) step (S n)) d)
      with (last (stepped (x + step) step (S n)) d).
    rewrite IH. rewrite (Nat2Z.inj_succ n). ring.
Qed.

Lemma Math_round_half_bounds s :
  1 <= s -> 1 <= Math_round_half s /\ s <= 2 * Math_round_half s.
Proof.
  intros Hs. unfold Math_round_half.
  pose proof (Z.div_mod (s + 1) 2 ltac:(lia)).
  pose proof (Z.mod_pos_bound (s + 1) 2 ltac:(lia)). lia.
Qed.

(** The offsets along the long axis, in closed form: multiples of the
    step while a whole tile still fits strictly inside, then the cap. *)
Lemma axisOffsets_closed side limit :
  0 < side -> side < limit ->
  let step := Math_round_half side in
  let n := roundsFrom step side limit step in
  axisOffsets side limit = Some (stepped 0 step (S n) ++ [limit - side])
  /\ Z.of_nat n * step < limit - side
  /\ limit - side <= Z.of_nat n * step + step.
Proof.
  intros Hside Hlim step n.
  destruct (Math_round_half_bounds side ltac:(lia)) as [Hstep _].
  fold step in Hstep.
  assert (Hn : Z.of_nat n * step < limit - side
               /\ limit - side <= Z.of_nat n * step + step).
  { unfold n, roundsFrom.
    destruct (Z.ltb_spec (step + side) limit) as [Hlt | Hge]; [| simpl; lia].
    pose proof (Z.div_mod (limit - side - 1 - step) step ltac:(lia)).
    pose proof (Z.mod_pos_bound (limit - side - 1 - step) step ltac:(lia)).
    assert (0 <= (limit - side - 1 - step) / step) by (apply Z.div_pos; lia).
    rewrite Z2Nat.id by lia. nia. }
  split; [| exact Hn].
  unfold axisOffsets. fold step.
  rewrite (cropLoop_stepped step side limit ltac:(lia))
    by (apply roundsFrom_bound; lia).
  fold n. unfold capPoints.
  change (0 :: stepped step step n) with (0 :: stepped (0 + step) step n).
  change (0 :: stepped (0 + step) step n) with (stepped 0 step (S n)).
  rewrite last_stepped.
  destruct (Z.ltb_spec (0 + Z.of_nat n * step) (limit - side)); [reflexivity | lia].
Qed.

Lemma nth_error_offsets step n c i x :
  nth_error (stepped 0 step (S n) ++ [c]) i = Some x ->
  ((i <= n)%nat /\ x = Z.of_nat i * step) \/ (i = S n /\ x = c).
Proof.
  intros H. destruct (Nat.lt_ge_cases i (S n)) as [Hlt | Hge].
  - rewrite nth_error_app1 in H by (rewrite length_stepped; exact Hlt).
    rewrite nth_error_stepped in H by exact Hlt.
    left. split; [lia |]. injection H as <-. ring.
  - rewrite nth_error_app2 in H by (rewrite length_stepped; exact Hge).
    rewrite length_stepped in H.
    destruct (i - S n)%nat as [| k] eqn:E; cbn in H.
    + right. split; [lia | congruence].
    + destruct k; discriminate.
Qed.

(** The four properties C5 states of a landscape tiling. *)
Definition wide_tiling_as_claimed (w h : Z) (scr : Screen) : Prop :=
  let pts := squareStartingPoints scr in
  nth_error pts 0 = Some {| cx := 0; cy := 0 |}
  /\ (forall i p q, nth_error pts i = Some p -> nth_error pts (S i) = Some q ->
        cx q - cx p = Math_round_half h)
  /\ (forall p, In p pts -> cx p + h <= w)
  /\ (exists p, nth_error pts (List.length pts - 1) = Some p /\ cx p + h = w).

(** C5, counterexample: on a 1920 x 1080 screenshot the starts are at
    x = 0, 540 and 840; the last one is 300 after the second, not 540. *)
Lemma wide_tiling_counterexample :
  exists scr,
    newScreen {| width := 1920; height := 1080 |} = Some scr
    /\ map cx (squareStartingPoints scr) = [0; 540; 840]
    /\ Math_round_half 1080 = 540
    /\ ~ wide_tiling_as_claimed 1920 1080 scr.
Proof.
  eexists. split; [vm_compute; reflexivity |].
  split; [reflexivity |]. split; [reflexivity |].
  intros (_ & Hgap & _).
  specialize (Hgap 1%nat {| cx := 540; cy := 0 |} {| cx := 840; cy := 0 |}
                eq_refl eq_refl).
  vm_compute in Hgap. discriminate.
Qed.

(** C5, amended: for a screenshot wider than tall the side is the height,
    the first start is the origin, every start but the last is one step
    of [round (s * 0.5)] after the one before, the last start is at most
    one step after the one before it, every tile fits in the width and
    the last tile ends at the right edge. *)
Theorem wide_tiling_stepped_then_capped (w h : Z) :
  0 < h -> h < w ->
  exists scr,
    newScreen {| width := w; height := h |} = Some scr
    /\ cropDirection scr = vertical
    /\ cropSquareSideLength scr = h
    /\ nth_error (squareStartingPoints scr) 0 = Some {| cx := 0; cy := 0 |}
    /\ (forall i p q,
          nth_error (squareStartingPoints scr) i = Some p ->
          nth_error (squareStartingPoints scr) (S i) = Some q ->
          cy q = 0
          /\ 0 < cx q - cx p <= Math_round_half h
          /\ ((S (S i) < List.length (squareStartingPoints scr))%nat ->
              cx q - cx p = Math_round_half h))
    /\ (forall p, In p (squareStartingPoints scr) -> cx p + h <= w)
    /\ (exists p,
          nth_error (squareStartingPoints scr)
                    (List.length (squareStartingPoints scr) - 1) = Some p
          /\ cx p + h = w).
Proof.
  intros Hh Hw.
  destruct (axisOffsets_closed h w Hh Hw) as (Hoff & Hlo & Hhi).
  destruct (Math_round_half_bounds h ltac:(lia)) as [Hstep _].
  set (step := Math_round_half h) in *.
  set (n := roundsFrom step h w step) in *.
  set (xs := stepped 0 step (S n) ++ [w - h]) in *.
  exists {| resolution := {| width := w; height := h |};
            cropDirection := vertical;
            cropSquareSideLength := h;
            squareStartingPoints := map (fun x => {| cx := x; cy := 0 |}) xs |}.
  assert (Hnth : forall i p,
             nth_error (map (fun x => {| cx := x; cy := 0 |}) xs) i = Some p ->
             cy p = 0
             /\ (((i <= n)%nat /\ cx p = Z.of_nat i * step)
                 \/ (i = S n /\ cx p = w - h))).
  { intros i p Hp. rewrite nth_error_map in Hp.
    destruct (nth_error xs i) as [x |] eqn:Ex; [| discriminate].
    injection Hp as <-. split; [reflexivity |].
    exact (nth_error_offsets _ _ _ _ _ Ex). }
  assert (Hlen : List.length (map (fun x => {| cx := x; cy := 0 |}) xs)
                 = S (S n)).
  { rewrite length_map. unfold xs. rewrite length_app, length_stepped.
    simpl. lia. }
  split.
  { unfold newScreen. cbn [width height].
    destruct (Z.ltb_spec h w) as [_ | ?]; [| lia].
    rewrite Z.min_r by lia. rewrite Hoff. reflexivity. }
  cbn [cropDirection cropSquareSideLength squareStartingPoints].
  split; [reflexivity |]. split; [reflexivity |].
  split; [reflexivity |].
  split; [| split].
  - intros i p q Hp Hq.
    destruct (Hnth _ _ Hp) as (_ & Hi).
    destruct (Hnth _ _ Hq) as (Hqy & Hsi).
    split; [exact Hqy |].
    destruct Hsi as [(Hle & Hqx) | (Heq & Hqx)].
    + destruct Hi as [(_ & Hpx) | (Hbad & _)]; [| lia].
      rewrite Hqx, Hpx, Nat2Z.inj_succ.
      replace (Z.succ (Z.of_nat i) * step - Z.of_nat i * step) with step by ring.
      split; [lia | reflexivity].
    + destruct Hi as [(_ & Hpx) | (Hbad & _)]; [| lia].
      assert (i = n) by lia. subst i.
      rewrite Hqx, Hpx. split; [lia |].
      rewrite Hlen. lia.
  - intros p Hin.
    destruct (In_nth_error _ _ Hin) as (i & Hi).
    destruct (Hnth _ _ Hi) as (_ & [(Hle & Hpx) | (_ & Hpx)]); rewrite Hpx.
    + assert (Z.of_nat i * step <= Z.of_nat n * step)
        by (apply Z.mul_le_mono_nonneg_r; lia).
      lia.
    + lia.
  - exists {| cx := w - h; cy := 0 |}. split; [| cbn [cx]; lia].
    rewrite Hlen. replace (S (S n) - 1)%nat with (S n) by lia.
    rewrite nth_error_map. unfold xs.
    rewrite nth_error_app2 by (rewrite length_stepped; lia).
    rewrite length_stepped. replace (S n - S n)%nat with O by lia.
    reflexivity.
Qed.

(** C5, the amended statement at 1920 x 1080. *)
Lemma wide_tiling_stepped_then_capped_witness :
  (0 < 1080 /\ 1080 < 1920)
  /\ exists scr,
       newScreen {| width := 1920; height := 1080 |} = Some scr
       /\ cropDirection scr = vertical
       /\ cropSquareSideLength scr = 1080
       /\ nth_error (squareStartingPoints scr) 0 = Some {| cx := 0; cy := 0 |}
       /\ (forall i p q,
             nth_error (squareStartingPoints scr) i = Some p ->
             nth_error (squareStartingPoints scr) (S i) = Some q ->
             cy q = 0
             /\ 0 < cx q - cx p <= Math_round_half 1080
             /\ ((S (S i) < List.length (squareStartingPoints scr))%nat ->
                 cx q - cx p = Math_round_half 1080))
       /\ (forall p, In p (squareStartingPoints scr) -> cx p + 1080 <= 1920)
       /\ (exists p,
             nth_error (squareStartingPoints scr)
                       (List.length (squareStartingPoints scr) - 1) = Some p
             /\ cx p + 1080 = 1920).
Proof.
  split; [lia |].
  apply (wide_tiling_stepped_then_capped 1920 1080); lia.
Defined.

End Tiling.

(* ================================================================== *)
(** * Properties of the de-normalisation (screen.ts) *)
(* ================================================================== *)

(** ** The doubles of [toScreenCoordinate]

    [Math.round((c / 1000) * side)] is within a half of [c * side / 1000]
    for every normalised coordinate and every tile side below [2^40]: the
    quotient and the product are each rounded once, to 53 digits. *)

Section Doubles.
Import ScreenTs.
Local Open Scope Z_scope.

(** One step of [shr] halves a mantissa that is not negative, moves its
    last bit to the round bit and the round bit into the sticky bit. *)
Lemma shr_1_halves (m : Z) (r s : bool) :
  0 <= m ->
  shr_1 {| shr_m := m; shr_r := r; shr_s := s |}
  = {| shr_m := Z.div2 m; shr_r := Z.odd m; shr_s := r || s |}.
Proof.
  intros Hm. destruct m as [| [p | p |] | p]; try reflexivity. lia.
Qed.

Lemma iter_pos_nat {A} (f : A -> A) (p : positive) (x : A) :
  iter_pos f p x = Nat.iter (Pos.to_nat p) f x.
Proof.
  revert x. induction p as [p IH | p IH |]; intros x; cbn [iter_pos].
  - rewrite !IH, Pos2Nat.inj_xI.
    replace (S (2 * Pos.to_nat p)) with (Pos.to_nat p + S (Pos.to_nat p))%nat by lia.
    rewrite Nat.iter_add, Nat.iter_succ_r. reflexivity.
  - rewrite !IH, Pos2Nat.inj_xO.
    replace (2 * Pos.to_nat p)%nat with (Pos.to_nat p + Pos.to_nat p)%nat by lia.
    now rewrite Nat.iter_add.
  - reflexivity.
Qed.

(** What [k] steps of [shr] leave of a mantissa [M]: the quotient by
    [2^k], and in the round and sticky bits the place of the remainder
    with respect to the half of [2^k]. *)
Lemma shr_steps (M : Z) (k : nat) :
  0 <= M ->
  exists m r s rho,
    Nat.iter k shr_1 {| shr_m := M; shr_r := false; shr_s := false |}
    = {| shr_m := m; shr_r := r; shr_s := s |}
    /\ 0 <= m
    /\ M = m * 2 ^ Z.of_nat k + rho /\ 0 <= rho < 2 ^ Z.of_nat k
    /\ (r = true <-> 2 ^ Z.of_nat k <= 2 * rho)
    /\ (s = false <-> rho = 0 \/ 2 * rho = 2 ^ Z.of_nat k).
Proof.
  intros HM. induction k as [| k IH].
  - exists M, false, false, 0. cbn [Nat.iter]. change (2 ^ Z.of_nat 0) with 1.
    repeat split; intros; try lia; try reflexivity; try discriminate; auto.
  - destruct IH as (m & r & s & rho & Hit & Hm & HMeq & Hrho & Hr & Hs).
    rewrite Nat2Z.inj_succ, Z.pow_succ_r by lia.
    set (P := 2 ^ Z.of_nat k) in *.
    assert (HP : 0 < P) by (apply Z.pow_pos_nonneg; lia).
    pose proof (Z.div2_odd m) as Hodd.
    exists (Z.div2 m), (Z.odd m), (r || s), (rho + Z.b2z (Z.odd m) * P).
    split; [rewrite Nat.iter_succ, Hit; now apply shr_1_halves |].
    assert (Hb : 0 <= Z.b2z (Z.odd m) <= 1) by (destruct (Z.odd m); cbn; lia).
    assert (Hd : 0 <= Z.div2 m) by (rewrite Z.div2_nonneg; exact Hm).
    split; [exact Hd |].
    split; [rewrite Hodd in HMeq at 1; rewrite HMeq; ring |].
    split; [nia |].
    split.
    + destruct (Z.odd m); cbn [Z.b2z] in *; split; intros H; try lia;
        try discriminate; reflexivity.
    + destruct r, s; cbn [orb]; destruct (Z.odd m); cbn [Z.b2z] in *;
        split; intros H; try discriminate; try reflexivity; try lia.
      all: try (exfalso; destruct Hr as [Hr1 Hr2]; destruct Hs as [Hs1 Hs2]; lia).
Qed.


(** The number of binary digits of a positive number. *)
Lemma digits2_bounds (p : positive) :
  2 ^ (Zpos (digits2_pos p) - 1) <= Zpos p < 2 ^ Zpos (digits2_pos p).
Proof.
  induction p as [p IH | p IH |]; cbn [digits2_pos].
  - rewrite Pos2Z.inj_succ, (Pos2Z.inj_xI p).
    replace (Z.succ (Zpos (digits2_pos p)) - 1)
      with (Z.succ (Zpos (digits2_pos p) - 1)) by lia.
    rewrite !Z.pow_succ_r by lia.
    set (a := 2 ^ (Zpos (digits2_pos p) - 1)) in *.
    set (b := 2 ^ Zpos (digits2_pos p)) in *. clearbody a b. lia.
  - rewrite Pos2Z.inj_succ, (Pos2Z.inj_xO p).
    replace (Z.succ (Zpos (digits2_pos p)) - 1)
      with (Z.succ (Zpos (digits2_pos p) - 1)) by lia.
    rewrite !Z.pow_succ_r by lia.
    set (a := 2 ^ (Zpos (digits2_pos p) - 1)) in *.
    set (b := 2 ^ Zpos (digits2_pos p)) in *. clearbody a b. lia.
  - cbn. lia.
Qed.

Lemma digits2_unique (p : positive) (k : Z) :
  2 ^ (k - 1) <= Zpos p < 2 ^ k -> Zpos (digits2_pos p) = k.
Proof.
  intros [Hlo Hhi]. pose proof (digits2_bounds p) as [Hlo' Hhi'].
  assert (Hk : 0 < k).
  { destruct (Z.ltb_spec 0 k) as [H | H]; [exact H |].
    destruct (Z.eq_dec k 0) as [-> | Hne]; [cbn in Hhi; lia |].
    rewrite (Z.pow_neg_r 2 k) in Hhi by lia. lia. }
  set (d := Zpos (digits2_pos p)) in *.
  destruct (Z.lt_trichotomy d k) as [H | [H | H]]; [| exact H |].
  - assert (2 ^ d <= 2 ^ (k - 1)) by (apply Z.pow_le_mono_r; lia). lia.
  - assert (2 ^ k <= 2 ^ (d - 1)) by (apply Z.pow_le_mono_r; lia). lia.
Qed.

(** Rounding to nearest after a shift by [p] places: the result is at
    most half a unit of the shifted mantissa away. *)
Lemma round_shr (M : Z) (p : positive) :
  0 <= M ->
  let mrs := iter_pos shr_1 p {| shr_m := M; shr_r := false; shr_s := false |} in
  let m1 := round_nearest_even (shr_m mrs) (loc_of_shr_record mrs) in
  M / 2 ^ Zpos p <= m1 <= M / 2 ^ Zpos p + 1
  /\ - 2 ^ Zpos p <= 2 * (2 ^ Zpos p * m1 - M) <= 2 ^ Zpos p.
Proof.
  intros HM mrs m1. subst m1 mrs. rewrite iter_pos_nat.
  destruct (shr_steps M (Pos.to_nat p) HM)
    as (m & r & s & rho & -> & Hm & HMeq & Hrho & Hr & Hs).
  rewrite positive_nat_Z in *. set (P := 2 ^ Zpos p) in *.
  assert (HP : 0 < P) by (apply Z.pow_pos_nonneg; lia).
  assert (Hq : M / P = m).
  { symmetry. apply (Z.div_unique M P m rho); lia. }
  rewrite Hq. cbn [shr_m loc_of_shr_record].
  destruct r, s; cbn [round_nearest_even].
  - assert (2 * rho <> P)
      by (intros E; destruct Hs as [_ Hs]; discriminate Hs; auto).
    assert (P <= 2 * rho) by (now apply Hr). nia.
  - assert (rho = 0 \/ 2 * rho = P) by (now apply Hs).
    assert (P <= 2 * rho) by (now apply Hr).
    destruct (Z.even m); nia.
  - assert (~ P <= 2 * rho) by (intros E; apply Hr in E; discriminate). nia.
  - assert (~ P <= 2 * rho) by (intros E; apply Hr in E; discriminate). nia.
Qed.


(** A mantissa of 53 digits with an exponent in range is a double as it
    stands. *)
Lemma binary_round_aux_exact (sx : bool) (q : positive) (e : Z) :
  Zpos (digits2_pos q) = 53 -> -1074 <= e <= 971 ->
  binary_round_aux prec emax sx (Zpos q) e loc_Exact = S754_finite sx q e.
Proof.
  intros Hd He. unfold binary_round_aux, shr_fexp, fexp, emin, prec, emax.
  cbn [Zdigits2 shr_record_of_loc]. rewrite Hd.
  replace (Z.max (53 + e - 53) (3 - 1024 - 53) - e) with 0 by lia.
  cbn [shr shr_m loc_of_shr_record round_nearest_even Zdigits2 shr_record_of_loc].
  rewrite Hd.
  replace (Z.max (53 + e - 53) (3 - 1024 - 53) - e) with 0 by lia.
  cbn [shr shr_m].
  destruct (Z.leb_spec e (1024 - 53)); [reflexivity | lia].
Qed.

(** Rounding a mantissa of more than 53 digits: the double is the
    mantissa shifted to 53 digits and rounded there, at most half a unit
    of the last kept place away. *)
Lemma binary_round_aux_near (M : positive) (E : Z) :
  let n := Zpos (digits2_pos M) - 53 in
  1 <= n -> -1074 <= E + n -> E + n + 1 <= 971 ->
  exists (m'' : positive) (e'' : Z) (m1 : Z),
    binary_round_aux prec emax false (Zpos M) E loc_Exact
    = S754_finite false m'' e''
    /\ (e'' = E + n /\ Zpos m'' = m1 \/ e'' = E + n + 1 /\ 2 * Zpos m'' = m1)
    /\ - 2 ^ n <= 2 * (2 ^ n * m1 - Zpos M) <= 2 ^ n.
Proof.
  intros n Hn Hlo Hhi.
  unfold binary_round_aux, shr_fexp, fexp, emin, prec, emax.
  cbn [Zdigits2 shr_record_of_loc].
  replace (Z.max (Zpos (digits2_pos M) + E - 53) (3 - 1024 - 53) - E)
    with n by (subst n; lia).
  destruct n as [| p |] eqn:En; try lia.
  cbn [shr].
  pose proof (round_shr (Zpos M) p ltac:(lia)) as Hround. cbv zeta in Hround.
  set (mrs := iter_pos shr_1 p
                {| shr_m := Zpos M; shr_r := false; shr_s := false |}) in *.
  set (m1 := round_nearest_even (shr_m mrs) (loc_of_shr_record mrs)) in *.
  destruct Hround as [Hq Hnear].
  pose proof (digits2_bounds M) as [HMlo HMhi].
  assert (Hd : Zpos (digits2_pos M) = Zpos p + 53) by lia.
  rewrite Hd in HMlo, HMhi.
  replace (Zpos p + 53 - 1) with (52 + Zpos p) in HMlo by lia.
  replace (Zpos p + 53) with (53 + Zpos p) in HMhi by lia.
  rewrite Z.pow_add_r in HMlo, HMhi by lia.
  set (P := 2 ^ Zpos p) in *.
  assert (HP : 0 < P) by (apply Z.pow_pos_nonneg; lia).
  assert (Hm : 2 ^ 52 <= Zpos M / P < 2 ^ 53).
  { split.
    - apply Z.div_le_lower_bound; lia.
    - apply Z.div_lt_upper_bound; lia. }
  assert (Hm1 : 2 ^ 52 <= m1 <= 2 ^ 53) by lia.
  destruct m1 as [| q |] eqn:Em1; try (cbn in Hm1; lia).
  destruct (Z.eq_dec (Zpos q) (2 ^ 53)) as [Htop | Hbelow].
  - assert (Hq53 : q = 9007199254740992%positive) by (cbn in Htop; congruence).
    subst q. cbn [Zdigits2 digits2_pos Pos.succ shr_record_of_loc].
    replace (Z.max (54 + (E + Zpos p) - 53) (3 - 1024 - 53) - (E + Zpos p))
      with 1 by lia.
    cbn [shr iter_pos shr_1 shr_m].
    destruct (Z.leb_spec (E + Zpos p + 1) (1024 - 53)); [| lia].
    exists 4503599627370496%positive, (E + Zpos p + 1), (Zpos 9007199254740992).
    split; [reflexivity |]. split; [right; split; reflexivity |]. exact Hnear.
  - assert (Hd53 : Zpos (digits2_pos q) = 53).
    { apply digits2_unique. change (53 - 1) with 52. lia. }
    cbn [Zdigits2 shr_record_of_loc]. rewrite Hd53.
    replace (Z.max (53 + (E + Zpos p) - 53) (3 - 1024 - 53) - (E + Zpos p))
      with 0 by lia.
    cbn [shr shr_m].
    destruct (Z.leb_spec (E + Zpos p) (1024 - 53)); [| lia].
    exists q, (E + Zpos p), (Zpos q).
    split; [reflexivity |]. split; [left; split; reflexivity |]. exact Hnear.
Qed.


Lemma iter_xO (p k : positive) :
  Zpos (Pos.iter xO p k) = Zpos p * 2 ^ Zpos k.
Proof.
  induction k as [| k IH] using Pos.peano_ind.
  - cbn [Pos.iter]. rewrite (Pos2Z.inj_xO p). change (2 ^ 1) with 2. ring.
  - rewrite Pos.iter_succ, (Pos2Z.inj_xO (Pos.iter xO p k)), IH.
    rewrite Pos2Z.inj_succ, Z.pow_succ_r by lia. ring.
Qed.

(** The double of an integer below [2^53] is the integer itself, with
    its mantissa shifted to 53 digits. *)
Lemma Prim2SF_f64_of_Z (z : Z) :
  0 < z < 2 ^ 53 ->
  exists (ms : positive) (j : Z),
    Prim2SF (f64_of_Z z) = S754_finite false ms (- j)
    /\ 0 <= j <= 52 /\ Zpos ms = z * 2 ^ j
    /\ Zpos (digits2_pos ms) = 53
    /\ 2 ^ (52 - j) <= z.
Proof.
  intros [Hz0 Hz]. destruct z as [| p |]; try lia.
  unfold f64_of_Z. cbn [binary_normalize]. unfold binary_round.
  pose proof (digits2_bounds p) as [Hlo Hhi].
  set (d := Zpos (digits2_pos p)) in *.
  assert (Hd : 1 <= d <= 53).
  { split; [subst d; lia |].
    destruct (Z.leb_spec d 53) as [H | H]; [exact H |].
    assert (2 ^ 53 <= 2 ^ (d - 1)) by (apply Z.pow_le_mono_r; lia). lia. }
  unfold fexp at 1, emin, prec, emax.
  replace (Z.max (d + 0 - 53) (3 - 1024 - 53)) with (d - 53) by lia.
  unfold shl_align.
  destruct (d - 53 - 0) as [| k | k] eqn:Ek; try lia.
  - assert (Hd53 : d = 53) by lia.
    rewrite binary_round_aux_exact by (fold d; lia).
    rewrite Prim2SF_SF2Prim.
    + exists p, 0. split; [reflexivity |]. split; [lia |].
      split; [change (2 ^ 0) with 1; lia |]. split; [exact Hd53 |].
      rewrite Hd53 in Hlo. exact Hlo.
    + cbn [valid_binary]. unfold bounded, canonical_mantissa, fexp, emin, prec, emax.
      fold d. rewrite Hd53. reflexivity.
  - assert (Hk : Zpos k = 53 - d) by lia.
    assert (Hval : Zpos (Pos.iter xO p k) = Zpos p * 2 ^ Zpos k) by apply iter_xO.
    assert (Hpow : 2 ^ (d - 1) * 2 ^ Zpos k = 2 ^ 52).
    { rewrite <- Z.pow_add_r by lia. f_equal. lia. }
    assert (Hpow' : 2 ^ d * 2 ^ Zpos k = 2 ^ 53).
    { rewrite <- Z.pow_add_r by lia. f_equal. lia. }
    assert (HK : 0 < 2 ^ Zpos k) by (apply Z.pow_pos_nonneg; lia).
    assert (Hdig : Zpos (digits2_pos (Pos.iter xO p k)) = 53).
    { apply digits2_unique. rewrite Hval. change (53 - 1) with 52.
      rewrite <- Hpow, <- Hpow'. split.
      - apply Z.mul_le_mono_nonneg_r; lia.
      - apply Z.mul_lt_mono_pos_r; lia. }
    rewrite binary_round_aux_exact by (try exact Hdig; lia).
    rewrite Prim2SF_SF2Prim.
    + exists (Pos.iter xO p k), (Zpos k).
      split; [f_equal; lia |]. split; [lia |]. split; [exact Hval |].
      split; [exact Hdig |].
      replace (52 - Zpos k) with (d - 1) by lia. exact Hlo.
    + cbn [valid_binary]. unfold bounded, canonical_mantissa, fexp, emin, prec, emax.
      rewrite Hdig.
      apply andb_true_intro. split; [apply Z.eqb_eq | apply Z.leb_le]; lia.
Qed.

(** The quotients [c / 1000] of the normalised coordinates, as the
    doubles compute them: each is within half a unit of its last place
    of the exact quotient. *)
Definition ratioNear (c : nat) : bool :=
  match Prim2SF (PrimFloat.div (f64_of_Z (Z.of_nat c)) (f64_of_Z 1000)) with
  | S754_zero false => Nat.eqb c 0
  | S754_finite false m e =>
      negb (Nat.eqb c 0)
      && (Zpos (digits2_pos m) =? 53)
      && (-62 <=? e) && (e <=? -52)
      && (-500 <=? 1000 * Zpos m - Z.of_nat c * 2 ^ (- e))
      && (1000 * Zpos m - Z.of_nat c * 2 ^ (- e) <=? 500)
  | _ => false
  end.

Lemma ratios_near : forallb ratioNear (seq 0 1001) = true.
Proof. vm_compute. reflexivity. Qed.

(** The arithmetic of the two roundings: the product is within three
    thousandths of a unit of [B], and the nearest integer to it is within
    one half of the exact [c * s / 1000]. *)
Lemma round_product_near (c s mc ms m1 A J N B v : Z) :
  0 < A -> 0 < J -> 0 < N -> 4096 <= B -> A * J = B * N ->
  0 <= c -> 0 <= s ->
  -500 <= 1000 * mc - c * A <= 500 ->
  ms = s * J -> ms < 2 * N ->
  - N <= 2 * (N * m1 - mc * ms) <= N ->
  2 * B * v <= 2 * m1 + B < 2 * B * (v + 1) ->
  2000 * v <= 2 * c * s + 1000 <= 2000 * v + 2000.
Proof.
  intros HA HJ HN HB HAJ Hc Hs Hmc Hms HmsN Hm1 Hv.
  assert (Hms0 : 0 <= ms) by (subst ms; nia).
  assert (Hprod : c * A * ms = c * s * B * N).
  { subst ms. replace (c * A * (s * J)) with (c * s * (A * J)) by ring.
    rewrite HAJ. ring. }
  assert (Hup : 1000 * (mc * ms) <= c * s * B * N + 500 * ms).
  { rewrite <- Hprod. nia. }
  assert (Hdown : c * s * B * N - 500 * ms <= 1000 * (mc * ms)).
  { rewrite <- Hprod. nia. }
  assert (H1 : N * (2000 * m1) < N * (2 * (c * s * B) + 3000)) by nia.
  assert (H2 : N * (2 * (c * s * B) - 3000) < N * (2000 * m1)) by nia.
  apply Z.mul_lt_mono_pos_l in H1; [| exact HN].
  apply Z.mul_lt_mono_pos_l in H2; [| exact HN].
  assert (H3 : B * (2000 * v - 2 * c * s - 1000) < B * 1) by nia.
  assert (H4 : B * (2 * c * s + 1000 - 2000 * v - 2000) < B * 1) by nia.
  apply Z.mul_lt_mono_pos_l in H3; [| lia].
  apply Z.mul_lt_mono_pos_l in H4; [| lia].
  lia.
Qed.


(** On every tile side below [2^40], [unnormalize] is within one half of
    the exact [c * side / 1000]: it is the nearest integer, or at a tie
    either of the two nearest. *)
Lemma unnormalize_near (side c : Z) :
  0 <= side < 2 ^ 40 -> 0 <= c <= 1000 ->
  exists v,
    unnormalize side c = Some v
    /\ 2000 * v <= 2 * c * side + 1000 <= 2000 * v + 2000.
Proof.
  intros Hside Hc. unfold unnormalize, Math_round.
  rewrite mul_spec. unfold SF64mul.
  pose proof ratios_near as Htable. rewrite forallb_forall in Htable.
  specialize (Htable (Z.to_nat c)). rewrite in_seq in Htable.
  specialize (Htable ltac:(lia)). unfold ratioNear in Htable.
  rewrite Z2Nat.id in Htable by lia.
  destruct (Z.eq_dec side 0) as [-> | Hpos].
  { unfold f64_of_Z at 3. cbn [binary_normalize].
    rewrite Prim2SF_SF2Prim by reflexivity.
    destruct (Prim2SF (f64_of_Z c / f64_of_Z 1000)) as [[] | | | [] mc ec];
      try discriminate; exists 0; (split; [reflexivity | lia]). }
  destruct (Prim2SF_f64_of_Z side
              ltac:(change (2 ^ 53) with (2 ^ 40 * 2 ^ 13); lia))
    as (ms & j & -> & Hj & Hms & Hdms & Hsj).
  destruct (Prim2SF (f64_of_Z c / f64_of_Z 1000)) as [[] | | | [] mc ec];
    try discriminate.
  { exists 0. split; [reflexivity |].
    apply Nat.eqb_eq in Htable. lia. }
  apply andb_prop in Htable. destruct Htable as [Htable Hhi].
  apply andb_prop in Htable. destruct Htable as [Htable Hlo].
  apply andb_prop in Htable. destruct Htable as [Htable He2].
  apply andb_prop in Htable. destruct Htable as [Htable He1].
  apply andb_prop in Htable. destruct Htable as [_ Hdmc].
  apply Z.eqb_eq in Hdmc. apply Z.leb_le in Hhi, Hlo, He1, He2.
  cbn [SFmul xorb].
  (* the tile side has at most 40 digits *)
  assert (Hj13 : 13 <= j).
  { destruct (Z.leb_spec 13 j) as [H | H]; [exact H |].
    assert (2 ^ 40 <= 2 ^ (52 - j)) by (apply Z.pow_le_mono_r; lia). lia. }
  (* the digits of the product *)
  pose proof (digits2_bounds mc) as [Hmclo Hmchi].
  pose proof (digits2_bounds ms) as [Hmslo Hmshi].
  rewrite Hdmc in Hmclo, Hmchi. rewrite Hdms in Hmslo, Hmshi.
  change (53 - 1) with 52 in Hmclo, Hmslo.
  pose proof (digits2_bounds (mc * ms)) as [HMlo HMhi].
  set (d := Zpos (digits2_pos (mc * ms))) in *.
  rewrite Pos2Z.inj_mul in HMlo, HMhi.
  assert (Hd : d = 105 \/ d = 106).
  { assert (2 ^ 104 <= Zpos mc * Zpos ms).
    { change (2 ^ 104) with (2 ^ 52 * 2 ^ 52). apply Z.mul_le_mono_nonneg; lia. }
    assert (Zpos mc * Zpos ms < 2 ^ 106).
    { change (2 ^ 106) with (2 ^ 53 * 2 ^ 53). apply Z.mul_lt_mono_nonneg; lia. }
    destruct (Z.leb_spec d 104) as [H1 | H1].
    { assert (2 ^ d <= 2 ^ 104) by (apply Z.pow_le_mono_r; lia). lia. }
    destruct (Z.leb_spec 107 d) as [H2 | H2].
    { assert (2 ^ 106 <= 2 ^ (d - 1)) by (apply Z.pow_le_mono_r; lia). lia. }
    lia. }
  destruct (binary_round_aux_near (mc * ms) (ec + - j))
    as (m2 & e2 & m1 & -> & Hshape & Hnear); fold d; try lia.
  set (n := d - 53) in *.
  assert (Hn : n = 52 \/ n = 53) by lia.
  (* the rounded product is below one, so [Math.round] divides *)
  assert (Hneg : e2 < 0) by lia.
  destruct (Z.leb_spec 0 e2) as [H | _]; [lia |].
  eexists. split; [reflexivity |].
  set (b := - (ec + - j + n)).
  assert (Hb : 12 <= b) by (subst b; lia).
  assert (HB : 4096 <= 2 ^ b).
  { change 4096 with (2 ^ 12). apply Z.pow_le_mono_r; lia. }
  assert (HAJ : 2 ^ (- ec) * 2 ^ j = 2 ^ b * 2 ^ n).
  { rewrite <- !Z.pow_add_r by lia. f_equal. subst b. lia. }
  assert (HmsN : Zpos ms < 2 * 2 ^ n).
  { assert (2 ^ 52 <= 2 ^ n) by (apply Z.pow_le_mono_r; lia).
    change (2 ^ 53) with (2 * 2 ^ 52) in Hmshi. lia. }
  apply (round_product_near c side (Zpos mc) (Zpos ms) m1
           (2 ^ (- ec)) (2 ^ j) (2 ^ n) (2 ^ b));
    try (apply Z.pow_pos_nonneg; lia); try lia; try assumption.
  (* the quotient of [Math_round] *)
  destruct Hshape as [[-> <-] | [-> <-]].
  - change (- (ec + - j + (Zpos (digits2_pos (mc * ms)) - 53))) with b.
    set (B := 2 ^ b) in *. clearbody B.
    pose proof (Z.div_mod (2 * Zpos m2 + B) (2 * B) ltac:(lia)) as Hdm.
    pose proof (Z.mod_pos_bound (2 * Zpos m2 + B) (2 * B) ltac:(lia)) as Hmb.
    set (q := (2 * Zpos m2 + B) / (2 * B)) in *. clearbody q.
    set (r := (2 * Zpos m2 + B) mod (2 * B)) in *. clearbody r.
    clear - Hdm Hmb. lia.
  - replace (- (ec + - j + (Zpos (digits2_pos (mc * ms)) - 53) + 1))
      with (b - 1) by (unfold b, n, d; lia).
    assert (Hb1 : 2 ^ b = 2 * 2 ^ (b - 1)).
    { rewrite <- Z.pow_succ_r by lia. f_equal. lia. }
    assert (HB1 : 0 < 2 ^ (b - 1)) by (apply Z.pow_pos_nonneg; lia).
    rewrite Hb1. set (B1 := 2 ^ (b - 1)) in *. clearbody B1.
    pose proof (Z.div_mod (2 * Zpos m2 + B1) (2 * B1) ltac:(lia)) as Hdm.
    pose proof (Z.mod_pos_bound (2 * Zpos m2 + B1) (2 * B1) ltac:(lia)) as Hmb.
    set (q := (2 * Zpos m2 + B1) / (2 * B1)) in *. clearbody q.
    set (r := (2 * Zpos m2 + B1) mod (2 * B1)) in *. clearbody r.
    clear - Hdm Hmb. lia.
Qed.

End Doubles.

Section Denormalisation.
Import ScreenTs.
Local Open Scope list_scope.
Local Open Scope Z_scope.

(** What [nearest] computes: the integer [u] with
    [u - 1/2 <= c * side / 1000 < u + 1/2]. *)
Lemma nearest_bounds side c :
  2000 * nearest side c <= 2 * c * side + 1000
  /\ 2 * c * side + 1000 < 2000 * nearest side c + 2000.
Proof.
  unfold nearest.
  pose proof (Z.div_mod (2 * c * side + 1000) 2000 ltac:(lia)).
  pose proof (Z.mod_pos_bound (2 * c * side + 1000) 2000 ltac:(lia)).
  lia.
Qed.

(** On a side where the doubles round exactly, [unnormalize] is
    [nearest] on the normalised coordinates. *)
Lemma unnormalize_nearest side c :
  roundsExactly side = true -> 0 <= c <= 1000 ->
  unnormalize side c = Some (nearest side c).
Proof.
  intros Hall Hc. unfold roundsExactly in Hall. rewrite forallb_forall in Hall.
  specialize (Hall (Z.to_nat c)). rewrite Z2Nat.id in Hall by lia.
  assert (Hin : In (Z.to_nat c) (seq 0 1001)) by (apply in_seq; lia).
  specialize (Hall Hin).
  destruct (unnormalize side c) as [v |]; [| discriminate].
  apply Z.eqb_eq in Hall. now subst.
Qed.

Lemma roundsExactly_768 : roundsExactly 768 = true.
Proof. vm_compute. reflexivity. Qed.

Lemma roundsExactly_1080 : roundsExactly 1080 = true.
Proof. vm_compute. reflexivity. Qed.

(** On side 900 the doubles do not: [0.565 * 900] is computed just below
    508.5 and rounds to 508, where the exact product rounds to 509. *)
Lemma roundsExactly_900 :
  roundsExactly 900 = false
  /\ unnormalize 900 565 = Some 508 /\ nearest 900 565 = 509.
Proof.
  split; [vm_compute; reflexivity |].
  split; vm_compute; reflexivity.
Qed.

(** C3 as stated: the de-normalised centre of the box is the floor
    midpoint of the de-normalised rectangle. *)
Definition center_is_midpoint (scr : Screen) (i : nat) (b : Box) : Prop :=
  toScreenCoordinate scr i (OfBox b)
  = option_map rectangleMidpoint (toScreenRectangle scr i b).

(** C3, counterexample: on a 1024 x 768 screenshot (tile side 768), tile 0,
    the box [ymin, xmin, ymax, xmax] = [0, 0, 4, 4] has centre 2, which
    de-normalises to round (1.536) = 2, while its corners de-normalise to
    0 and round (3.072) = 3, whose floor midpoint is 1. *)
Lemma center_midpoint_counterexample :
  exists scr,
    newScreen {| width := 1024; height := 768 |} = Some scr
    /\ cropSquareSideLength scr = 768
    /\ toScreenCoordinate scr 0 (OfBox {| ymin := 0; xmin := 0; ymax := 4; xmax := 4 |})
       = Some {| cx := 2; cy := 2 |}
    /\ option_map rectangleMidpoint
         (toScreenRectangle scr 0 {| ymin := 0; xmin := 0; ymax := 4; xmax := 4 |})
       = Some {| cx := 1; cy := 1 |}
    /\ ~ center_is_midpoint scr 0 {| ymin := 0; xmin := 0; ymax := 4; xmax := 4 |}.
Proof.
  eexists. split; [vm_compute; reflexivity |].
  split; [reflexivity |].
  split; [vm_compute; reflexivity |].
  split; [vm_compute; reflexivity |].
  unfold center_is_midpoint. vm_compute. discriminate.
Qed.

Lemma midpoint_in_range lo hi :
  0 <= lo -> lo < hi -> hi <= 1000 -> 0 <= (lo + hi) / 2 <= 1000.
Proof.
  intros Hlo Hlt Hhi.
  pose proof (Z.div_mod (lo + hi) 2 ltac:(lia)).
  pose proof (Z.mod_pos_bound (lo + hi) 2 ltac:(lia)).
  lia.
Qed.

(** The same bounds from what the doubles give: integers within a half
    of the exact products, ties included. *)
Lemma center_near_midpoint_within side lo hi a b u :
  0 <= side -> 0 <= lo -> lo < hi ->
  2000 * a <= 2 * lo * side + 1000 <= 2000 * a + 2000 ->
  2000 * b <= 2 * hi * side + 1000 <= 2000 * b + 2000 ->
  2000 * u <= 2 * ((lo + hi) / 2) * side + 1000 <= 2000 * u + 2000 ->
  u <= (a + b) / 2 + 1 /\ 2000 * ((a + b) / 2 - u) <= side + 2000.
Proof.
  intros Hside Hlo Hhi Ha Hb Hu.
  pose proof (Z.div_mod (lo + hi) 2 ltac:(lia)) as Hm.
  pose proof (Z.mod_pos_bound (lo + hi) 2 ltac:(lia)) as Hmb.
  pose proof (Z.div_mod (a + b) 2 ltac:(lia)) as Hd.
  pose proof (Z.mod_pos_bound (a + b) 2 ltac:(lia)) as Hdb.
  set (c := (lo + hi) / 2) in *.
  assert (Hcs1 : 2 * c * side <= lo * side + hi * side) by nia.
  assert (Hcs2 : lo * side + hi * side <= 2 * c * side + side) by nia.
  lia.
Qed.

(** C3, amended: for a box inside [0, 1000] with [xmin < xmax] and
    [ymin < ymax], on a tile side below [2^40], the de-normalised centre
    need not be the floor midpoint of the de-normalised rectangle; on
    each axis it is at most one above it and at most [s / 2000 + 1] below
    it (so within one pixel of it for a tile side below 2000). *)
Theorem center_near_rectangle_midpoint
    (scr : Screen) (i : nat) (b : Box) (startPoint : Coordinate) :
  nth_error (squareStartingPoints scr) i = Some startPoint ->
  0 <= cropSquareSideLength scr ->
  cropSquareSideLength scr < 2 ^ 40 ->
  0 <= xmin b -> xmin b < xmax b -> xmax b <= 1000 ->
  0 <= ymin b -> ymin b < ymax b -> ymax b <= 1000 ->
  exists center rect,
    toScreenCoordinate scr i (OfBox b) = Some center
    /\ toScreenRectangle scr i b = Some rect
    /\ cx center <= cx (rectangleMidpoint rect) + 1
    /\ 2000 * (cx (rectangleMidpoint rect) - cx center)
       <= cropSquareSideLength scr + 2000
    /\ cy center <= cy (rectangleMidpoint rect) + 1
    /\ 2000 * (cy (rectangleMidpoint rect) - cy center)
       <= cropSquareSideLength scr + 2000.
Proof.
  intros Hstart Hside Hbelow Hx0 Hx Hx1 Hy0 Hy Hy1.
  unfold toScreenRectangle, toScreenCoordinate. rewrite Hstart.
  cbn [getBoxCenter cx cy].
  set (s := cropSquareSideLength scr) in *.
  assert (Hs : 0 <= s < 2 ^ 40) by (split; assumption).
  destruct (unnormalize_near s (xmin b) Hs ltac:(lia)) as (xa & -> & Hxa).
  destruct (unnormalize_near s (xmax b) Hs ltac:(lia)) as (xb & -> & Hxb).
  destruct (unnormalize_near s (ymin b) Hs ltac:(lia)) as (ya & -> & Hya).
  destruct (unnormalize_near s (ymax b) Hs ltac:(lia)) as (yb & -> & Hyb).
  destruct (unnormalize_near s ((xmin b + xmax b) / 2) Hs
              (midpoint_in_range _ _ Hx0 Hx Hx1)) as (xu & -> & Hxu).
  destruct (unnormalize_near s ((ymin b + ymax b) / 2) Hs
              (midpoint_in_range _ _ Hy0 Hy Hy1)) as (yu & -> & Hyu).
  eexists. eexists. split; [reflexivity |]. split; [reflexivity |].
  cbn [rectangleMidpoint left top rectWidth rectHeight cx cy].
  destruct (center_near_midpoint_within s (xmin b) (xmax b) xa xb xu
              Hside Hx0 Hx Hxa Hxb Hxu) as [Hcx1 Hcx2].
  destruct (center_near_midpoint_within s (ymin b) (ymax b) ya yb yu
              Hside Hy0 Hy Hya Hyb Hyu) as [Hcy1 Hcy2].
  replace (cx startPoint + xa
           + (cx startPoint + xa + (cx startPoint + xb - (cx startPoint + xa))))
    with ((xa + xb) + cx startPoint * 2) by ring.
  replace (cy startPoint + ya
           + (cy startPoint + ya + (cy startPoint + yb - (cy startPoint + ya))))
    with ((ya + yb) + cy startPoint * 2) by ring.
  rewrite !Z.div_add by lia.
  lia.
Qed.

(** The bound on the tile side is needed: on a square screenshot of
    [2^60] pixels each way, where the doubles no longer hold the products
    to within a half, the centre of the box [[2, 2, 17, 17]] falls more
    than [s / 2000 + 1] below the floor midpoint of its rectangle. *)
Lemma center_far_from_midpoint_on_huge_side :
  let scr := {| resolution := {| width := 2 ^ 60; height := 2 ^ 60 |};
                cropDirection := horizontal;
                cropSquareSideLength := 2 ^ 60;
                squareStartingPoints := [{| cx := 0; cy := 0 |}] |} in
  let b := {| ymin := 2; xmin := 2; ymax := 17; xmax := 17 |} in
  newScreen {| width := 2 ^ 60; height := 2 ^ 60 |} = Some scr /\
  exists center rect,
    toScreenCoordinate scr 0 (OfBox b) = Some center
    /\ toScreenRectangle scr 0 b = Some rect
    /\ cropSquareSideLength scr + 2000
       < 2000 * (cx (rectangleMidpoint rect) - cx center).
Proof.
  split; [lazy; reflexivity |].
  eexists. eexists. split; [vm_compute; reflexivity |].
  split; [vm_compute; reflexivity |]. vm_compute. reflexivity.
Qed.

(** C3, the amended statement on tile 0 of a 1024 x 768 screenshot. *)
Lemma center_near_rectangle_midpoint_witness :
  let scr := {| resolution := {| width := 1024; height := 768 |};
                cropDirection := vertical;
                cropSquareSideLength := 768;
                squareStartingPoints := [{| cx := 0; cy := 0 |};
                                         {| cx := 256; cy := 0 |}] |} in
  let b := {| ymin := 0; xmin := 0; ymax := 4; xmax := 4 |} in
  newScreen {| width := 1024; height := 768 |} = Some scr
  /\ 768 < 2 ^ 40
  /\ exists center rect,
       toScreenCoordinate scr 0 (OfBox b) = Some center
       /\ toScreenRectangle scr 0 b = Some rect
       /\ cx center <= cx (rectangleMidpoint rect) + 1
       /\ 2000 * (cx (rectangleMidpoint rect) - cx center) <= 768 + 2000
       /\ cy center <= cy (rectangleMidpoint rect) + 1
       /\ 2000 * (cy (rectangleMidpoint rect) - cy center) <= 768 + 2000.
Proof.
  split; [vm_compute; reflexivity |].
  split; [reflexivity |].
  refine (center_near_rectangle_midpoint
            {| resolution := {| width := 1024; height := 768 |};
               cropDirection := vertical;
               cropSquareSideLength := 768;
               squareStartingPoints := [{| cx := 0; cy := 0 |};
                                        {| cx := 256; cy := 0 |}] |}
            0 {| ymin := 0; xmin := 0; ymax := 4; xmax := 4 |}
            {| cx := 0; cy := 0 |} eq_refl _ _ _ _ _ _ _ _);
    cbn [cropSquareSideLength xmin xmax ymin ymax]; lia.
Defined.

End Denormalisation.

(* ================================================================== *)
(** * JSON.parse reads back what JSON.stringify writes *)
(* ================================================================== *)

Section JsonRoundTrip.
Import Js Json.
Local Open Scope nat_scope.
Local Open Scope string_scope.

Lemma append_empty_r (s : string) : s ++ EmptyString = s.
Proof. induction s as [| c s IH]; simpl; [reflexivity | now rewrite IH]. Qed.

Lemma append_assoc (a b c : string) : (a ++ b) ++ c = a ++ (b ++ c).
Proof. induction a as [| x a IH]; simpl; [reflexivity | now rewrite IH]. Qed.

Lemma length_append (a b : string) :
  String.length (a ++ b) = (String.length a + String.length b)%nat.
Proof. induction a as [| x a IH]; simpl; [reflexivity | now rewrite IH]. Qed.

(** ** Numbers *)

(** The characters that follow a value inside an array or an object. *)
Definition terminator (c : ascii) : bool :=
  Ascii.eqb c "," || Ascii.eqb c "]" || Ascii.eqb c "}".

(** A text that is empty or starts with one of them. *)
Definition terminated (rest : string) : Prop :=
  match rest with
  | EmptyString => True
  | String c _ => terminator c = true
  end.

Lemma terminator_cases c :
  terminator c = true ->
  is_digit c = false /\ is_ws c = false
  /\ Ascii.eqb c "." = false /\ Ascii.eqb c "e" = false
  /\ Ascii.eqb c "E" = false.
Proof.
  unfold terminator. intros H.
  apply orb_true_iff in H. destruct H as [H | H];
    [apply orb_true_iff in H; destruct H as [H | H] |];
    apply Ascii.eqb_eq in H; subst c; repeat split; reflexivity.
Qed.

Lemma take_digits_app s rest :
  terminated rest ->
  take_digits (s ++ rest) = (fst (take_digits s), snd (take_digits s) ++ rest).
Proof.
  intros Hrest. induction s as [| c s IH]; simpl.
  - destruct rest as [| d rest]; [reflexivity |].
    simpl. destruct (terminator_cases d Hrest) as [-> _]. reflexivity.
  - destruct (is_digit c); [| reflexivity].
    rewrite IH. destruct (take_digits s). reflexivity.
Qed.

Lemma parse_fraction_app s rest frac r :
  terminated rest ->
  parse_fraction s = Some (frac, r) ->
  parse_fraction (s ++ rest) = Some (frac, r ++ rest).
Proof.
  intros Hrest. destruct s as [| c s]; simpl.
  - intros H. injection H as <- <-.
    destruct rest as [| d rest]; [reflexivity |].
    simpl. destruct (terminator_cases d Hrest) as (_ & _ & -> & _). reflexivity.
  - destruct (Ascii.eqb c ".").
    + rewrite (take_digits_app s rest Hrest).
      destruct (take_digits s) as [ds r0]. simpl.
      destruct (is_empty ds); [discriminate |].
      intros H. injection H as <- <-. reflexivity.
    + intros H. injection H as <- <-. reflexivity.
Qed.

Lemma parse_exponent_app s rest ex r :
  terminated rest ->
  parse_exponent s = Some (ex, r) ->
  parse_exponent (s ++ rest) = Some (ex, r ++ rest).
Proof.
  intros Hrest. destruct s as [| c s]; simpl.
  - intros H. injection H as <- <-.
    destruct rest as [| d rest]; [reflexivity |].
    simpl. destruct (terminator_cases d Hrest) as (_ & _ & _ & -> & ->).
    reflexivity.
  - destruct (Ascii.eqb c "e" || Ascii.eqb c "E").
    + destruct s as [| d s]; [simpl; discriminate |].
      simpl. destruct (Ascii.eqb d "+" || Ascii.eqb d "-").
      * rewrite (take_digits_app s rest Hrest).
        destruct (take_digits s) as [ds r0]. simpl.
        destruct (is_empty ds); [discriminate |].
        intros H. injection H as <- <-. reflexivity.
      * change (String d (s ++ rest)) with (String d s ++ rest).
        rewrite (take_digits_app (String d s) rest Hrest).
        destruct (take_digits (String d s)) as [ds r0]. simpl.
        destruct (is_empty ds); [discriminate |].
        intros H. injection H as <- <-. reflexivity.
    + intros H. injection H as <- <-. reflexivity.
Qed.

Lemma parse_number_app s rest lexeme r :
  terminated rest ->
  parse_number s = Some (lexeme, r) ->
  parse_number (s ++ rest) = Some (lexeme, r ++ rest).
Proof.
  intros Hrest. unfold parse_number.
  assert (Hgen : forall sign s1,
             (let (int, s2) := take_digits s1 in
              if negb (integer_part_ok int) then None
              else match parse_fraction s2 with
                   | None => None
                   | Some (frac, s3) =>
                       match parse_exponent s3 with
                       | None => None
                       | Some (ex, s4) => Some (sign ++ int ++ frac ++ ex, s4)
                       end
                   end) = Some (lexeme, r) ->
             (let (int, s2) := take_digits (s1 ++ rest) in
              if negb (integer_part_ok int) then None
              else match parse_fraction s2 with
                   | None => None
                   | Some (frac, s3) =>
                       match parse_exponent s3 with
                       | None => None
                       | Some (ex, s4) => Some (sign ++ int ++ frac ++ ex, s4)
                       end
                   end) = Some (lexeme, r ++ rest)).
  { intros sign s1. rewrite (take_digits_app s1 rest Hrest).
    destruct (take_digits s1) as [int s2]. simpl fst. simpl snd.
    destruct (negb (integer_part_ok int)); [discriminate |].
    destruct (parse_fraction s2) as [[frac s3] |] eqn:Ef; [| discriminate].
    rewrite (parse_fraction_app _ _ _ _ Hrest Ef).
    destruct (parse_exponent s3) as [[ex s4] |] eqn:Ee; [| discriminate].
    rewrite (parse_exponent_app _ _ _ _ Hrest Ee).
    intros H. injection H as <- <-. reflexivity. }
  destruct s as [| c s].
  - simpl. discriminate.
  - cbn [append]. destruct (Ascii.eqb c "-").
    + apply Hgen.
    + apply (Hgen EmptyString (String c s)).
Qed.

(** A numeral is well formed when it is a number literal, all of it. *)
Definition numeral_ok (numeral : string) : bool :=
  match parse_number numeral with
  | Some (lexeme, EmptyString) => String.eqb lexeme numeral
  | _ => false
  end.

Lemma numeral_ok_parse numeral :
  numeral_ok numeral = true -> parse_number numeral = Some (numeral, EmptyString).
Proof.
  unfold numeral_ok.
  destruct (parse_number numeral) as [[lexeme [| c r]] |]; try discriminate.
  intros H. apply String.eqb_eq in H. now subst.
Qed.

(** The first character of a numeral is the minus sign or a digit. *)
Lemma numeral_ok_head numeral :
  numeral_ok numeral = true ->
  exists c t, numeral = String c t
              /\ (Ascii.eqb c "-" = true \/ is_digit c = true).
Proof.
  intros H. apply numeral_ok_parse in H.
  destruct numeral as [| c t]; [discriminate |].
  exists c, t. split; [reflexivity |].
  unfold parse_number in H.
  destruct (Ascii.eqb c "-"); [now left |]. right.
  simpl in H. destruct (is_digit c); [reflexivity |].
  simpl in H. discriminate.
Qed.

(** ** Strings *)

(** One escaped character is read back as the character. *)
Lemma parse_string_tail_escape_char (c : ascii) (s : string) :
  parse_string_tail (escape_char c ++ s)
  = match parse_string_tail s with
    | Some (t, r) => Some (String c t, r)
    | None => None
    end.
Proof.
  destruct c as [[|] [|] [|] [|] [|] [|] [|] [|]]; reflexivity.
Qed.

Lemma parse_string_tail_escape (s rest : string) :
  parse_string_tail (escape s ++ String quote rest) = Some (s, rest).
Proof.
  induction s as [| c s IH]; [reflexivity |].
  cbn [escape]. rewrite append_assoc, parse_string_tail_escape_char, IH.
  reflexivity.
Qed.

Lemma parse_string_tail_quoted (s rest : string) :
  exists text, quoted s ++ rest = String quote text
               /\ parse_string_tail text = Some (s, rest).
Proof.
  exists (escape s ++ String quote rest). split.
  - unfold quoted, str1. cbn [append]. now rewrite append_assoc.
  - apply parse_string_tail_escape.
Qed.

(** ** Values *)

(** The keys of an object as the engine lists them: no key twice, the
    array indices first and ascending. *)
Fixpoint listedInOrder (keys : list string) : bool :=
  match keys with
  | [] => true
  | k :: rest =>
      forallb (fun k' => negb (String.eqb k' k) && negb (comesBefore k' k)) rest
      && listedInOrder rest
  end.

(** A value is well formed when it is one that [JSON.stringify] writes in
    full: each of its numbers is finite and is carried by the number
    literal that [String(n)] prints, and each of its objects lists its
    keys as the engine does. *)
Fixpoint wellFormed (v : json) : bool :=
  match v with
  | JNumber numeral =>
      numeral_ok numeral && String.eqb (numberText numeral) numeral
  | JArray items => forallb wellFormed items
  | JObject members =>
      listedInOrder (map fst members)
      && forallb (fun m => wellFormed (snd m)) members
  | _ => true
  end.

(** A bound on the fuel the parser uses on the text of a value. *)
Fixpoint weight (v : json) : nat :=
  match v with
  | JArray items =>
      S (fold_right (fun item acc => S (weight item + acc)) 0 items)
  | JObject members =>
      S (fold_right (fun m acc => S (weight (snd m) + acc)) 0 members)
  | _ => 1
  end.

Definition weights (items : list json) : nat :=
  fold_right (fun item acc => S (weight item + acc)) 0 items.

Definition member_weights (members : list (string * json)) : nat :=
  fold_right (fun m acc => S (weight (snd m) + acc)) 0 members.

Definition member_text (m : string * json) : string :=
  quoted (fst m) ++ ":" ++ JSON_stringify (snd m).

Section JsonInduction.
Variable P : json -> Prop.
Hypothesis Hnull : P JNull.
Hypothesis Hbool : forall b, P (JBool b).
Hypothesis Hnumber : forall numeral, P (JNumber numeral).
Hypothesis Hstring : forall s, P (JString s).
Hypothesis Harray : forall items, Forall P items -> P (JArray items).
Hypothesis Hobject :
  forall members, Forall (fun m => P (snd m)) members -> P (JObject members).

Fixpoint json_induction (v : json) : P v :=
  match v with
  | JNull => Hnull
  | JBool b => Hbool b
  | JNumber numeral => Hnumber numeral
  | JString s => Hstring s
  | JArray items =>
      Harray items
        ((fix all (l : list json) : Forall P l :=
            match l with
            | [] => Forall_nil P
            | x :: t => Forall_cons x (json_induction x) (all t)
            end) items)
  | JObject members =>
      Hobject members
        ((fix all (l : list (string * json))
            : Forall (fun m => P (snd m)) l :=
            match l with
            | [] => Forall_nil _
            | x :: t => Forall_cons x (json_induction (snd x)) (all t)
            end) members)
  end.

End JsonInduction.

Lemma Forall_forallb {A} (f : A -> bool) (Q : A -> Prop) (l : list A) :
  Forall (fun x => f x = true -> Q x) l -> forallb f l = true -> Forall Q l.
Proof.
  induction 1 as [| x l Hx _ IH]; intros Hall; [constructor |].
  simpl in Hall. apply andb_true_iff in Hall. destruct Hall as [Hfx Hl].
  constructor; auto.
Qed.

(** The characters a JSON text written by [JSON_stringify] starts with. *)
Definition opens (c : ascii) : bool :=
  is_digit c || Ascii.eqb c "-" || Ascii.eqb c quote || Ascii.eqb c "["
  || Ascii.eqb c "{" || Ascii.eqb c "n" || Ascii.eqb c "t" || Ascii.eqb c "f".

Lemma opens_not_ws c : opens c = true -> is_ws c = false.
Proof.
  destruct c as [[|] [|] [|] [|] [|] [|] [|] [|]];
    (reflexivity || (intros H; vm_compute in H; discriminate)).
Qed.

Lemma opens_not_closing c :
  opens c = true -> Ascii.eqb c "]" = false /\ Ascii.eqb c "}" = false.
Proof.
  destruct c as [[|] [|] [|] [|] [|] [|] [|] [|]];
    ((split; reflexivity) || (intros H; vm_compute in H; discriminate)).
Qed.

Lemma skip_ws_head c t : is_ws c = false -> skip_ws (String c t) = String c t.
Proof. intros H. simpl. now rewrite H. Qed.

(** A well-formed number is a literal that is written as it stands and
    read back as it stands. *)
Lemma wellFormed_number numeral :
  wellFormed (JNumber numeral) = true ->
  numeral_ok numeral = true
  /\ numberText numeral = numeral
  /\ numeralOf (StringToNumber numeral) = numeral.
Proof.
  cbn [wellFormed]. intros H. apply andb_true_iff in H as [Hok Htext].
  apply String.eqb_eq in Htext. repeat split; [exact Hok | exact Htext |].
  unfold numberText in Htext.
  destruct (StringToNumber numeral) as [sg | sg | | sg m e] eqn:E;
    cbn [isFinite] in Htext.
  - cbn [Number_toString] in Htext. subst numeral.
    vm_compute in E. injection E as <-. reflexivity.
  - subst numeral. vm_compute in Hok. discriminate.
  - subst numeral. vm_compute in Hok. discriminate.
  - exact Htext.
Qed.

(** Properties defined in the order the engine lists them stay where
    they are. *)
Lemma listedInOrder_app_cons (before after : list string) (key : string) :
  listedInOrder (before ++ key :: after) = true ->
  forallb (fun k => negb (String.eqb key k) && negb (comesBefore key k)) before
  = true.
Proof.
  induction before as [| k before IH]; [reflexivity |].
  cbn [app listedInOrder forallb]. intros H.
  apply andb_true_iff in H as [Hk Hrest]. rewrite (IH Hrest), andb_true_r.
  rewrite forallb_app in Hk. apply andb_true_iff in Hk as [_ Hk].
  cbn [forallb] in Hk. apply andb_true_iff in Hk as [Hk _]. exact Hk.
Qed.

Lemma defineProperty_last {A} (key : string) (v : A) (o : list (string * A)) :
  forallb (fun k => negb (String.eqb key k) && negb (comesBefore key k))
          (map fst o) = true ->
  defineProperty key v o = (o ++ [(key, v)])%list.
Proof.
  intros H. unfold defineProperty.
  assert (Hnew : existsb (String.eqb key) (map fst o) = false).
  { induction o as [| [k v'] o IH]; [reflexivity |].
    cbn [map fst forallb existsb] in *.
    apply andb_true_iff in H as [Hk Ho]. apply andb_true_iff in Hk as [Hk _].
    apply negb_true_iff in Hk. now rewrite Hk, (IH Ho). }
  rewrite Hnew. clear Hnew.
  induction o as [| [k v'] o IH]; [reflexivity |].
  cbn [map fst forallb] in H.
  apply andb_true_iff in H as [Hk Ho]. apply andb_true_iff in Hk as [_ Hk].
  apply negb_true_iff in Hk.
  cbn [insertProperty app]. now rewrite Hk, (IH Ho).
Qed.

Lemma definedInOrder_listed {A} (members : list (string * A)) :
  listedInOrder (map fst members) = true -> definedInOrder members = members.
Proof.
  unfold definedInOrder.
  enough (H : forall (o : list (string * A)),
             listedInOrder (map fst (o ++ members)) = true ->
             fold_left (fun o p => defineProperty (fst p) (snd p) o) members o
             = (o ++ members)%list)
    by exact (H []).
  induction members as [| [k v] members IH]; intros o Hkeys.
  - now rewrite app_nil_r.
  - cbn [fold_left fst snd].
    rewrite defineProperty_last.
    + rewrite IH; rewrite <- app_assoc; [reflexivity | exact Hkeys].
    + rewrite map_app in Hkeys. cbn [map fst] in Hkeys.
      exact (listedInOrder_app_cons _ _ _ Hkeys).
Qed.

Lemma stringify_head v :
  wellFormed v = true ->
  exists c t, JSON_stringify v = String c t /\ opens c = true.
Proof.
  destruct v as [| [|] | numeral | s | items | members]; intros Hwf.
  - now exists "n"%char, "ull".
  - now exists "t"%char, "rue".
  - now exists "f"%char, "alse".
  - destruct (wellFormed_number numeral Hwf) as (Hok & Htext & _).
    cbn [JSON_stringify]. rewrite Htext. clear Hwf Htext. rename Hok into Hwf.
    destruct (numeral_ok_head numeral Hwf) as (c & t & -> & Hc).
    exists c, t. split; [reflexivity |]. unfold opens.
    destruct Hc as [-> | ->]; [| reflexivity].
    now rewrite orb_true_r.
  - exists quote, (escape s ++ str1 quote). split; reflexivity.
  - exists "["%char, (join "," (map JSON_stringify items) ++ "]").
    split; reflexivity.
  - exists "{"%char, (join "," (map member_text members) ++ "}").
    split; reflexivity.
Qed.

(** The first character of a numeral selects the number branch. *)
Lemma number_branch c :
  Ascii.eqb c "-" = true \/ is_digit c = true ->
  is_ws c = false /\ Ascii.eqb c "{" = false /\ Ascii.eqb c "[" = false
  /\ Ascii.eqb c quote = false /\ Ascii.eqb c "t" = false
  /\ Ascii.eqb c "f" = false /\ Ascii.eqb c "n" = false.
Proof.
  destruct c as [[|] [|] [|] [|] [|] [|] [|] [|]];
    ((repeat split; reflexivity)
     || (intros [H | H]; vm_compute in H; discriminate)).
Qed.

(** [reads_back v]: with enough fuel, the parser reads the text of [v]
    back as [v] and stops at what follows. *)
Definition reads_back (v : json) : Prop :=
  forall fuel rest,
    weight v <= fuel -> terminated rest ->
    parse_value fuel (JSON_stringify v ++ rest) = Some (v, rest).

Lemma join_cons_cons sep (x y : string) (l : list string) :
  join sep (x :: y :: l) = x ++ sep ++ join sep (y :: l).
Proof. reflexivity. Qed.

Lemma parse_items_stringify (items : list json) :
  Forall reads_back items -> items <> [] ->
  forall fuel rest,
    weights items <= fuel ->
    parse_items fuel (join "," (map JSON_stringify items) ++ String "]" rest)
    = Some (items, rest).
Proof.
  induction 1 as [| x t Hx Ht IH]; [congruence |].
  intros _ fuel rest Hfuel. unfold weights in Hfuel. cbn [fold_right] in Hfuel.
  fold (weights t) in Hfuel.
  destruct fuel as [| fuel]; [lia |].
  destruct t as [| y t].
  - cbn [map]. change (join "," [JSON_stringify x]) with (JSON_stringify x).
    cbn [parse_items]. rewrite (Hx fuel (String "]" rest)); [| lia | reflexivity].
    reflexivity.
  - cbn [map]. rewrite join_cons_cons, !append_assoc.
    cbn [parse_items].
    rewrite (Hx fuel); [| lia | reflexivity].
    change (skip_ws ("," ++ join "," (JSON_stringify y :: map JSON_stringify t)
                     ++ String "]" rest))
      with (String "," (join "," (map JSON_stringify (y :: t))
                        ++ String "]" rest)).
    cbn iota. change (Ascii.eqb "," ",") with true. cbn iota.
    rewrite IH; [reflexivity | discriminate | lia].
Qed.

Lemma member_text_head m rest :
  exists text, member_text m ++ rest = String quote text
               /\ parse_string_tail text
                  = Some (fst m, String ":" (JSON_stringify (snd m) ++ rest)).
Proof.
  exists (escape (fst m)
          ++ String quote (String ":" (JSON_stringify (snd m) ++ rest))).
  split; [| apply parse_string_tail_escape].
  unfold member_text, quoted, str1. cbn [append].
  rewrite !append_assoc. reflexivity.
Qed.

Lemma parse_members_stringify (members : list (string * json)) :
  Forall (fun m => reads_back (snd m)) members -> members <> [] ->
  forall fuel rest,
    member_weights members <= fuel ->
    parse_members fuel (join "," (map member_text members) ++ String "}" rest)
    = Some (members, rest).
Proof.
  induction 1 as [| [k v] t Hx Ht IH]; [congruence |].
  intros _ fuel rest Hfuel.
  unfold member_weights in Hfuel. cbn [fold_right] in Hfuel.
  fold (member_weights t) in Hfuel. cbn [snd] in Hx, Hfuel.
  destruct fuel as [| fuel]; [lia |].
  destruct t as [| y t].
  - cbn [map]. change (join "," [member_text (k, v)]) with (member_text (k, v)).
    destruct (member_text_head (k, v) (String "}" rest)) as (text & -> & Htext).
    cbn [parse_members]. change (Ascii.eqb quote quote) with true. cbn iota.
    rewrite Htext. cbn [fst snd].
    change (skip_ws (String ":" (JSON_stringify v ++ String "}" rest)))
      with (String ":" (JSON_stringify v ++ String "}" rest)).
    cbn iota. change (Ascii.eqb ":" ":") with true. cbn iota.
    rewrite (Hx fuel (String "}" rest)); [| lia | reflexivity].
    reflexivity.
  - cbn [map]. rewrite join_cons_cons, !append_assoc.
    destruct (member_text_head (k, v)
                ("," ++ join "," (member_text y :: map member_text t)
                 ++ String "}" rest)) as (text & -> & Htext).
    cbn [parse_members]. change (Ascii.eqb quote quote) with true. cbn iota.
    rewrite Htext. cbn [fst snd].
    match goal with
    | |- context [skip_ws (String ":" ?r)] =>
        change (skip_ws (String ":" r)) with (String ":" r)
    end.
    cbn iota. change (Ascii.eqb ":" ":") with true. cbn iota.
    rewrite (Hx fuel); [| lia | reflexivity].
    match goal with
    | |- context [skip_ws ("," ++ ?r)] =>
        change (skip_ws ("," ++ r)) with (String "," r)
    end.
    cbn iota. change (Ascii.eqb "," ",") with true. cbn iota.
    change (member_text y :: map member_text t)
      with (map member_text (y :: t)).
    assert (Hhead : skip_ws (join "," (map member_text (y :: t))
                             ++ String "}" rest)
                    = join "," (map member_text (y :: t)) ++ String "}" rest).
    { destruct t as [| z t]; cbn [map].
      - change (join "," [member_text y]) with (member_text y).
        destruct (member_text_head y (String "}" rest)) as (text' & -> & _).
        reflexivity.
      - rewrite join_cons_cons, !append_assoc.
        destruct (member_text_head y
                    ("," ++ join "," (member_text z :: map member_text t)
                     ++ String "}" rest)) as (text' & -> & _).
        reflexivity. }
    rewrite Hhead, IH; [reflexivity | discriminate | lia].
Qed.

(** The head of the text of a non-empty list of items. *)
Lemma items_head (items : list json) (rest : string) :
  forallb wellFormed items = true -> items <> [] ->
  exists c t, join "," (map JSON_stringify items) ++ rest = String c t
              /\ opens c = true.
Proof.
  destruct items as [| x l]; [congruence |]. intros Hwf _.
  simpl in Hwf. apply andb_true_iff in Hwf. destruct Hwf as [Hx _].
  destruct (stringify_head x Hx) as (c & t & Hc & Hopen).
  destruct l as [| y l]; cbn [map].
  - change (join "," [JSON_stringify x]) with (JSON_stringify x).
    rewrite Hc. now eexists _, _.
  - rewrite join_cons_cons, Hc. now eexists _, _.
Qed.

Lemma members_head (members : list (string * json)) (rest : string) :
  members <> [] ->
  exists t, join "," (map member_text members) ++ rest = String quote t.
Proof.
  destruct members as [| x l]; [congruence |]. intros _.
  destruct l as [| y l]; cbn [map].
  - change (join "," [member_text x]) with (member_text x).
    destruct (member_text_head x rest) as (text & -> & _). now eexists.
  - rewrite join_cons_cons, !append_assoc.
    destruct (member_text_head x
                ("," ++ join "," (member_text y :: map member_text l) ++ rest))
      as (text & -> & _).
    now eexists.
Qed.

(** The parser reads the text of a well-formed value back. *)
Lemma parse_value_stringify (v : json) :
  wellFormed v = true -> reads_back v.
Proof.
  induction v as [| b | numeral | s | items IH | members IH]
    using json_induction; intros Hwf fuel rest Hfuel Hrest;
    (destruct fuel as [| fuel]; [simpl in Hfuel; lia |]).
  - reflexivity.
  - destruct b; reflexivity.
  - destruct (wellFormed_number numeral Hwf) as (Hok & Htext & Hread).
    cbn [JSON_stringify]. rewrite Htext. clear Hwf Htext. rename Hok into Hwf.
    pose proof (parse_number_app numeral rest numeral EmptyString Hrest
                  (numeral_ok_parse numeral Hwf)) as Hnum.
    destruct (numeral_ok_head numeral Hwf) as (c & t & -> & Hc).
    destruct (number_branch c Hc) as (Hws & H1 & H2 & H3 & H4 & H5 & H6).
    cbn [append] in *. cbn [parse_value].
    rewrite (skip_ws_head _ _ Hws), H1, H2, H3, H4, H5, H6, Hnum, Hread.
    reflexivity.
  - cbn [JSON_stringify].
    destruct (parse_string_tail_quoted s rest) as (text & -> & Htext).
    cbn [parse_value]. change (skip_ws (String quote text)) with (String quote text).
    cbv beta iota. change (Ascii.eqb quote "{") with false.
    change (Ascii.eqb quote "[") with false.
    change (Ascii.eqb quote quote) with true. cbv beta iota.
    rewrite Htext. reflexivity.
  - cbn [wellFormed] in Hwf.
    pose proof (Forall_forallb _ _ _ IH Hwf) as Hitems.
    destruct items as [| x items]; [reflexivity |].
    assert (Hne : x :: items <> []) by discriminate.
    cbn [JSON_stringify].
    change ("[" ++ join "," (map JSON_stringify (x :: items)) ++ "]")
      with (String "[" (join "," (map JSON_stringify (x :: items)) ++ "]")).
    cbn [append]. rewrite append_assoc.
    change ("]" ++ rest) with (String "]" rest).
    destruct (items_head (x :: items) (String "]" rest) Hwf Hne)
      as (c & t & Hc & Hopen).
    cbn [parse_value].
    change (skip_ws (String "[" ?r)) with (String "[" r).
    cbv beta iota. change (Ascii.eqb "[" "{") with false.
    change (Ascii.eqb "[" "[") with true. cbv beta iota.
    rewrite Hc at 1. rewrite (skip_ws_head _ _ (opens_not_ws c Hopen)).
    destruct (opens_not_closing c Hopen) as [-> _].
    rewrite parse_items_stringify; [reflexivity | assumption | assumption |].
    cbn [weight] in Hfuel. fold (weights (x :: items)) in Hfuel. lia.
  - cbn [wellFormed] in Hwf. apply andb_true_iff in Hwf as [Hkeys Hwf].
    pose proof (Forall_forallb (fun m => wellFormed (snd m)) _ _ IH Hwf)
      as Hmembers.
    destruct members as [| m members]; [reflexivity |].
    assert (Hne : m :: members <> []) by discriminate.
    cbn [JSON_stringify]. fold member_text.
    change ("{" ++ join "," (map member_text (m :: members)) ++ "}")
      with (String "{" (join "," (map member_text (m :: members)) ++ "}")).
    cbn [append]. rewrite append_assoc.
    change ("}" ++ rest) with (String "}" rest).
    destruct (members_head (m :: members) (String "}" rest) Hne) as (t & Ht).
    cbn [parse_value].
    change (skip_ws (String "{" ?r)) with (String "{" r).
    cbv beta iota. change (Ascii.eqb "{" "{") with true. cbv beta iota.
    rewrite Ht.
    change (skip_ws (String quote t)) with (String quote t).
    cbv beta iota. change (Ascii.eqb quote "}") with false. cbv beta iota.
    rewrite <- Ht.
    rewrite parse_members_stringify;
      [now rewrite (definedInOrder_listed _ Hkeys) | assumption | assumption |].
    cbn [weight] in Hfuel. fold (member_weights (m :: members)) in Hfuel. lia.
Qed.

(** ** The fuel [JSON_parse] provides is enough *)

Lemma length_join_cons_cons sep (x y : string) (l : list string) :
  length (join sep (x :: y :: l))
  = length x + length sep + length (join sep (y :: l)).
Proof. rewrite join_cons_cons, !length_append. lia. Qed.

Lemma weights_bound (items : list json) :
  Forall (fun v => weight v <= 2 * length (JSON_stringify v)) items ->
  weights items <= 2 * length (join "," (map JSON_stringify items)) + 2.
Proof.
  induction 1 as [| x t Hx _ IH]; [simpl; lia |].
  unfold weights. cbn [fold_right]. fold (weights t).
  destruct t as [| y t]; cbn [map].
  - change (join "," [JSON_stringify x]) with (JSON_stringify x).
    unfold weights. simpl fold_right. lia.
  - rewrite length_join_cons_cons. cbn [map] in IH.
    change (length ",") with 1. lia.
Qed.

Lemma length_member_text m :
  length (JSON_stringify (snd m)) <= length (member_text m).
Proof. unfold member_text. rewrite !length_append. lia. Qed.

Lemma member_weights_bound (members : list (string * json)) :
  Forall (fun m => weight (snd m) <= 2 * length (JSON_stringify (snd m)))
         members ->
  member_weights members <= 2 * length (join "," (map member_text members)) + 2.
Proof.
  induction 1 as [| x t Hx _ IH]; [simpl; lia |].
  unfold member_weights. cbn [fold_right]. fold (member_weights t).
  pose proof (length_member_text x) as Hlen.
  destruct t as [| y t]; cbn [map].
  - change (join "," [member_text x]) with (member_text x).
    unfold member_weights. simpl fold_right. lia.
  - rewrite length_join_cons_cons. cbn [map] in IH.
    change (length ",") with 1. lia.
Qed.

Lemma weight_bound (v : json) :
  wellFormed v = true -> weight v <= 2 * length (JSON_stringify v).
Proof.
  induction v as [| b | numeral | s | items IH | members IH]
    using json_induction; intros Hwf.
  - simpl. lia.
  - destruct b; simpl; lia.
  - destruct (wellFormed_number numeral Hwf) as (Hok & Htext & _).
    cbn [JSON_stringify]. rewrite Htext.
    destruct (numeral_ok_head numeral Hok) as (c & t & -> & _). simpl. lia.
  - simpl. lia.
  - cbn [wellFormed] in Hwf.
    pose proof (weights_bound items (Forall_forallb _ _ _ IH Hwf)) as H.
    cbn [weight JSON_stringify]. fold (weights items).
    rewrite !length_append. simpl length. lia.
  - cbn [wellFormed] in Hwf. apply andb_true_iff in Hwf as [Hkeys Hwf].
    pose proof (member_weights_bound members
                  (Forall_forallb (fun m => wellFormed (snd m)) _ _ IH Hwf))
      as H.
    cbn [weight JSON_stringify]. fold (member_weights members).
    fold member_text. rewrite !length_append. simpl length. lia.
Qed.

(** [JSON.parse(JSON.stringify(v))] is [v]. *)
Lemma JSON_parse_stringify (v : json) :
  wellFormed v = true -> JSON_parse (JSON_stringify v) = Some v.
Proof.
  intros Hwf. unfold JSON_parse.
  pose proof (parse_value_stringify v Hwf
                (2 * length (JSON_stringify v) + 2) EmptyString) as H.
  rewrite append_empty_r in H. rewrite H; [reflexivity | | exact I].
  pose proof (weight_bound v Hwf). lia.
Qed.

(** ** The text of a value is one line, and not a blank one *)

Fixpoint has (c : ascii) (s : string) : bool :=
  match s with
  | EmptyString => false
  | String d rest => Ascii.eqb d c || has c rest
  end.

Lemma has_append c a b : has c (a ++ b) = has c a || has c b.
Proof.
  induction a as [| x a IH]; [reflexivity |].
  simpl. now rewrite IH, orb_assoc.
Qed.

Lemma split_without sep s : has sep s = false -> split sep s = [s].
Proof.
  induction s as [| c s IH]; [reflexivity |].
  simpl. intros H. apply orb_false_iff in H. destruct H as [-> Hs].
  now rewrite (IH Hs).
Qed.

Lemma escape_char_one_line c : has newline (escape_char c) = false.
Proof. destruct c as [[|] [|] [|] [|] [|] [|] [|] [|]]; reflexivity. Qed.

Lemma escape_one_line s : has newline (escape s) = false.
Proof.
  induction s as [| c s IH]; [reflexivity |].
  cbn [escape]. now rewrite has_append, escape_char_one_line, IH.
Qed.

Lemma quoted_one_line s : has newline (quoted s) = false.
Proof.
  unfold quoted. cbn [has]. rewrite has_append, escape_one_line. reflexivity.
Qed.

Lemma digit_not_newline c : is_digit c = true -> Ascii.eqb c newline = false.
Proof.
  destruct c as [[|] [|] [|] [|] [|] [|] [|] [|]];
    (reflexivity || (intros H; vm_compute in H; discriminate)).
Qed.

Lemma take_digits_one_line s : has newline (fst (take_digits s)) = false.
Proof.
  induction s as [| c s IH]; [reflexivity |].
  simpl. destruct (is_digit c) eqn:Hc; [| reflexivity].
  destruct (take_digits s) as [ds r]. simpl in *.
  now rewrite (digit_not_newline c Hc), IH.
Qed.

Lemma parse_fraction_one_line s frac r :
  parse_fraction s = Some (frac, r) -> has newline frac = false.
Proof.
  destruct s as [| c s]; simpl.
  - intros H. now injection H as <- <-.
  - destruct (Ascii.eqb c ".").
    + pose proof (take_digits_one_line s) as Hds.
      destruct (take_digits s) as [ds r0]. simpl in Hds.
      destruct (is_empty ds); [discriminate |].
      intros H. injection H as <- <-. simpl. exact Hds.
    + intros H. now injection H as <- <-.
Qed.

Lemma parse_exponent_one_line s ex r :
  parse_exponent s = Some (ex, r) -> has newline ex = false.
Proof.
  destruct s as [| c s]; simpl.
  - intros H. now injection H as <- <-.
  - destruct (Ascii.eqb c "e" || Ascii.eqb c "E") eqn:Hc.
    + assert (Hcn : Ascii.eqb c newline = false).
      { apply orb_true_iff in Hc.
        destruct Hc as [Hc | Hc]; apply Ascii.eqb_eq in Hc; now subst. }
      destruct s as [| d s].
      * simpl. discriminate.
      * destruct (Ascii.eqb d "+" || Ascii.eqb d "-") eqn:Hd.
        -- assert (Hdn : Ascii.eqb d newline = false).
           { apply orb_true_iff in Hd.
             destruct Hd as [Hd | Hd]; apply Ascii.eqb_eq in Hd; now subst. }
           pose proof (take_digits_one_line s) as Hds.
           destruct (take_digits s) as [ds r0]. simpl in Hds.
           destruct (is_empty ds); [discriminate |].
           intros H. injection H as <- <-. simpl. now rewrite Hcn, Hdn, Hds.
        -- pose proof (take_digits_one_line (String d s)) as Hds.
           destruct (take_digits (String d s)) as [ds r0]. simpl in Hds.
           destruct (is_empty ds); [discriminate |].
           intros H. injection H as <- <-. simpl. now rewrite Hcn, Hds.
    + intros H. now injection H as <- <-.
Qed.

Lemma parse_number_one_line s lexeme r :
  parse_number s = Some (lexeme, r) -> has newline lexeme = false.
Proof.
  unfold parse_number.
  assert (Hgen : forall sign s1,
             has newline sign = false ->
             (let (int, s2) := take_digits s1 in
              if negb (integer_part_ok int) then None
              else match parse_fraction s2 with
                   | None => None
                   | Some (frac, s3) =>
                       match parse_exponent s3 with
                       | None => None
                       | Some (ex, s4) => Some (sign ++ int ++ frac ++ ex, s4)
                       end
                   end) = Some (lexeme, r) ->
             has newline lexeme = false).
  { intros sign s1 Hsign. pose proof (take_digits_one_line s1) as Hint.
    destruct (take_digits s1) as [int s2]. simpl in Hint.
    destruct (negb (integer_part_ok int)); [discriminate |].
    destruct (parse_fraction s2) as [[frac s3] |] eqn:Ef; [| discriminate].
    destruct (parse_exponent s3) as [[ex s4] |] eqn:Ee; [| discriminate].
    intros H. injection H as <- <-.
    rewrite !has_append, Hsign, Hint,
      (parse_fraction_one_line _ _ _ Ef), (parse_exponent_one_line _ _ _ Ee).
    reflexivity. }
  destruct s as [| c s].
  - simpl. discriminate.
  - destruct (Ascii.eqb c "-").
    + apply Hgen. reflexivity.
    + apply (Hgen EmptyString). reflexivity.
Qed.

Lemma join_one_line (texts : list string) :
  Forall (fun text => has newline text = false) texts ->
  has newline (join "," texts) = false.
Proof.
  induction 1 as [| x t Hx _ IH]; [reflexivity |].
  destruct t as [| y t]; [exact Hx |].
  rewrite join_cons_cons, !has_append, Hx, IH. reflexivity.
Qed.

Lemma stringify_one_line (v : json) :
  wellFormed v = true -> has newline (JSON_stringify v) = false.
Proof.
  induction v as [| b | numeral | s | items IH | members IH]
    using json_induction; intros Hwf.
  - reflexivity.
  - destruct b; reflexivity.
  - destruct (wellFormed_number numeral Hwf) as (Hok & Htext & _).
    cbn [JSON_stringify]. rewrite Htext.
    exact (parse_number_one_line _ _ _ (numeral_ok_parse numeral Hok)).
  - apply quoted_one_line.
  - cbn [wellFormed] in Hwf. cbn [JSON_stringify].
    rewrite !has_append, join_one_line; [reflexivity |].
    apply Forall_map. exact (Forall_forallb _ _ _ IH Hwf).
  - cbn [wellFormed] in Hwf. apply andb_true_iff in Hwf as [Hkeys Hwf].
    cbn [JSON_stringify]. fold member_text.
    rewrite !has_append, join_one_line; [reflexivity |].
    apply Forall_map.
    pose proof (Forall_forallb (fun m => wellFormed (snd m)) _ _ IH Hwf) as H.
    apply (Forall_impl _ (P := fun m => has newline (JSON_stringify (snd m))
                                       = false)); [| exact H].
    intros m Hm. unfold member_text.
    rewrite !has_append, quoted_one_line, Hm. reflexivity.
Qed.

Lemma opens_not_blank c t :
  opens c = true -> strip_whitespace_char (String c t) = None.
Proof.
  destruct c as [[|] [|] [|] [|] [|] [|] [|] [|]];
    ((intros H; vm_compute in H; discriminate)
     || (intros _; destruct t as [| c2 [| c3 t]]; reflexivity)).
Qed.

Lemma stringify_not_blank (v : json) :
  wellFormed v = true -> trim_is_empty (JSON_stringify v) = false.
Proof.
  intros Hwf. destruct (stringify_head v Hwf) as (c & t & -> & Hc).
  unfold trim_is_empty, trimStart. cbn [length trimStart_fuel].
  rewrite (opens_not_blank c t Hc). reflexivity.
Qed.

End JsonRoundTrip.

(* ================================================================== *)
(** * Properties of the message log (repository/session.ts) *)
(* ================================================================== *)

Section MessageLog.
Import Js Json Shared Repository Interface.
Local Open Scope string_scope.

Lemma split_nonempty sep s : split sep s <> [].
Proof.
  destruct s as [| c s]; simpl; [discriminate |].
  destruct (Ascii.eqb c sep); [discriminate |].
  destruct (split sep s); discriminate.
Qed.

(** Splitting at a separator splits the pieces on either side of it. *)
Lemma split_app sep a b :
  split sep (a ++ String sep b) = (split sep a ++ split sep b)%list.
Proof.
  induction a as [| c a IH]; simpl.
  - rewrite Ascii.eqb_refl. reflexivity.
  - destruct (Ascii.eqb c sep); [now rewrite IH |].
    rewrite IH. pose proof (split_nonempty sep a) as Hne.
    destruct (split sep a) as [| piece pieces]; [congruence | reflexivity].
Qed.

Lemma mapM_app {A B} (f : A -> Result B) (xs ys : list A) :
  mapM f (xs ++ ys)%list
  = bind (mapM f xs) (fun us => bind (mapM f ys) (fun vs => Ok (us ++ vs)%list)).
Proof.
  induction xs as [| x xs IH]; simpl.
  - destruct (mapM f ys); reflexivity.
  - destruct (f x) as [y | e]; simpl; [| reflexivity].
    rewrite IH. destruct (mapM f xs) as [us | e]; simpl; [| reflexivity].
    destruct (mapM f ys); reflexivity.
Qed.

(** The lines [getMessages] parses: the pieces that are not blank. *)
Definition linesOf (content : string) : list string :=
  filter (fun line => negb (trim_is_empty line)) (split newline content).

Lemma getMessages_linesOf content includeHidden :
  getMessages (Some content) includeHidden
  = bind (mapM parseLine (linesOf content))
      (fun messages =>
         if includeHidden then Ok messages
         else filterM forDisplay_not_false messages).
Proof. reflexivity. Qed.

Lemma linesOf_fragment content fragment :
  split newline fragment = [fragment] ->
  linesOf (content ++ str1 newline ++ fragment)
  = (linesOf content
     ++ (if trim_is_empty fragment then [] else [fragment]))%list.
Proof.
  intros Hone. unfold linesOf, str1. simpl.
  rewrite split_app, filter_app, Hone. simpl.
  destruct (trim_is_empty fragment); reflexivity.
Qed.

Lemma linesOf_complete content :
  linesOf (content ++ str1 newline) = linesOf content.
Proof.
  pose proof (linesOf_fragment content EmptyString eq_refl) as H.
  change (trim_is_empty EmptyString) with true in H.
  rewrite app_nil_r in H. exact H.
Qed.

(** C4 as stated: a final fragment after the complete lines changes
    nothing of what [getMessages] returns. *)
Definition partial_line_absent (content fragment : string) : Prop :=
  forall includeHidden,
    getMessages (Some (content ++ str1 newline ++ fragment)) includeHidden
    = getMessages (Some (content ++ str1 newline)) includeHidden.

Definition example_message (id body : string) : PersistentMessage :=
  {| pm_id := id; pm_role := user; pm_content := [BText body];
     pm_toolReview := None; pm_forDisplay := None;
     pm_timestamp := "2025-01-01T00:00:00.000Z" |}.

(** One serialized record, and the first 30 characters of a second. *)
Definition first_record : string :=
  JSON_stringify (messageJson (example_message "1" "hello")).
Definition truncated_record : string :=
  substring 0 30 (JSON_stringify (messageJson (example_message "2" "world"))).

(** C4, counterexample: with a record cut short after the complete line,
    [getMessages] throws the [SyntaxError] of [JSON.parse] where the
    complete line alone gives its message. *)
Lemma partial_line_counterexample :
  getMessages (Some (first_record ++ str1 newline)) true
  = Ok [messageJson (example_message "1" "hello")]
  /\ split newline truncated_record = [truncated_record]
  /\ JSON_parse truncated_record = None
  /\ getMessages (Some (first_record ++ str1 newline ++ truncated_record)) true
     = Throw (SyntaxError "Unexpected token in JSON")
  /\ getMessages (Some (first_record ++ str1 newline ++ truncated_record)) false
     = Throw (SyntaxError "Unexpected token in JSON")
  /\ ~ partial_line_absent first_record truncated_record.
Proof.
  split; [vm_compute; reflexivity |].
  split; [vm_compute; reflexivity |].
  split; [vm_compute; reflexivity |].
  split; [vm_compute; reflexivity |].
  split; [vm_compute; reflexivity |].
  intros H. specialize (H true). vm_compute in H. discriminate.
Qed.

(** C4, amended: after the complete lines, a final fragment that is empty
    or white space is treated as absent; any other fragment is parsed as
    a line, and when it is not JSON, as a record cut short is not,
    [getMessages] throws instead of returning the messages of the
    complete lines. *)
Theorem getMessages_trailing_fragment
    (content fragment : string) (includeHidden : bool) :
  split newline fragment = [fragment] ->
  (trim_is_empty fragment = true ->
   getMessages (Some (content ++ str1 newline ++ fragment)) includeHidden
   = getMessages (Some (content ++ str1 newline)) includeHidden)
  /\ (trim_is_empty fragment = false ->
      JSON_parse fragment = None ->
      forall messages,
        getMessages (Some (content ++ str1 newline)) true = Ok messages ->
        getMessages (Some (content ++ str1 newline ++ fragment)) includeHidden
        = Throw (SyntaxError "Unexpected token in JSON")).
Proof.
  intros Hone. rewrite !getMessages_linesOf.
  rewrite (linesOf_fragment _ _ Hone), linesOf_complete. split.
  - intros ->. rewrite app_nil_r. reflexivity.
  - intros -> Hbad messages Hok.
    rewrite mapM_app.
    destruct (mapM parseLine (linesOf content)) as [us | e]; [| discriminate].
    simpl. unfold parseLine at 1. rewrite Hbad. reflexivity.
Qed.

(** C4, the amended statement on the truncated record above. *)
Lemma getMessages_trailing_fragment_witness :
  split newline truncated_record = [truncated_record]
  /\ trim_is_empty truncated_record = false
  /\ JSON_parse truncated_record = None
  /\ getMessages (Some (first_record ++ str1 newline)) true
     = Ok [messageJson (example_message "1" "hello")]
  /\ getMessages (Some (first_record ++ str1 newline ++ truncated_record)) false
     = Throw (SyntaxError "Unexpected token in JSON").
Proof.
  split; [vm_compute; reflexivity |].
  split; [vm_compute; reflexivity |].
  split; [vm_compute; reflexivity |].
  split; [vm_compute; reflexivity |].
  refine (proj2 (getMessages_trailing_fragment
                   first_record truncated_record false _) _ _
                [messageJson (example_message "1" "hello")] _);
    vm_compute; reflexivity.
Defined.

(** ** Appending and reading back *)

(** A record can be stored on a line: its text holds no line feed, is not
    blank, and parses back to the record. *)
Definition storable (record : json) : Prop :=
  split newline (JSON_stringify record) = [JSON_stringify record]
  /\ trim_is_empty (JSON_stringify record) = false
  /\ JSON_parse (JSON_stringify record) = Some record.

(** The text [appendMessages] writes for a list of records. *)
Definition linesText (records : list json) : string :=
  join EmptyString
    (map (fun message => JSON_stringify message ++ str1 newline) records).

Lemma join_empty_cons (x : string) (xs : list string) :
  join EmptyString (x :: xs) = x ++ join EmptyString xs.
Proof.
  unfold join. destruct xs as [| y ys]; simpl.
  - now rewrite append_empty_r.
  - reflexivity.
Qed.

Lemma linesText_cons record records :
  linesText (record :: records)
  = JSON_stringify record ++ String newline (linesText records).
Proof.
  unfold linesText. simpl map. rewrite join_empty_cons.
  unfold str1. rewrite append_assoc. reflexivity.
Qed.

Lemma linesText_app xs ys :
  linesText (xs ++ ys)%list = linesText xs ++ linesText ys.
Proof.
  induction xs as [| x xs IH]; [reflexivity |].
  change ((x :: xs) ++ ys)%list with (x :: (xs ++ ys))%list.
  rewrite !linesText_cons, IH, append_assoc. reflexivity.
Qed.

Lemma linesOf_linesText records :
  Forall storable records ->
  linesOf (linesText records) = map JSON_stringify records.
Proof.
  induction 1 as [| record records (Hone & Hblank & _) _ IH]; [reflexivity |].
  rewrite linesText_cons. unfold linesOf in *.
  rewrite split_app, filter_app, Hone. simpl.
  rewrite Hblank. simpl. now rewrite IH.
Qed.

Lemma mapM_parseLine records :
  Forall storable records ->
  mapM parseLine (map JSON_stringify records) = Ok records.
Proof.
  induction 1 as [| record records (_ & _ & Hparse) _ IH]; [reflexivity |].
  simpl. unfold parseLine at 1. rewrite Hparse. simpl. now rewrite IH.
Qed.

Lemma storable_wellFormed record : wellFormed record = true -> storable record.
Proof.
  intros Hwf. repeat split.
  - apply split_without, stringify_one_line, Hwf.
  - apply stringify_not_blank, Hwf.
  - apply JSON_parse_stringify, Hwf.
Qed.

(** The numbers and the objects of any shape that a message carries are
    those of the arguments of its function calls; the message is well
    formed when these arguments are: their numbers are finite and carried
    by the literals [String(n)] prints, and their objects list their keys
    as the engine does. *)
Definition callWellFormed (fc : FunctionCall) : bool :=
  wellFormed (JObject (fc_args fc)).

Definition blockWellFormed (block : PersistentMessageContentBlock) : bool :=
  match block with
  | BFunctionCall fc => callWellFormed fc
  | _ => true
  end.

Definition reviewWellFormed (review : ToolReview) : bool :=
  match review with
  | Request r =>
      callWellFormed (req_functionCall r)
      && callWellFormed (req_originalFunctionCall r)
  | Response _ => true
  end.

Definition messageWellFormed (message : PersistentMessage) : bool :=
  forallb blockWellFormed (pm_content message)
  && match pm_toolReview message with
     | Some review => reviewWellFormed review
     | None => true
     end.

Lemma wellFormed_blockJson block :
  wellFormed (blockJson block) = blockWellFormed block.
Proof.
  destruct block as [t | t | fc | img | fr]; try reflexivity.
  - unfold blockJson, functionCallJson, blockWellFormed, callWellFormed.
    cbn [wellFormed forallb snd]. now rewrite !andb_true_r.
  - unfold blockJson, functionResponseJson.
    destruct (fr_response fr); reflexivity.
Qed.

Lemma wellFormed_blocks content :
  forallb wellFormed (map blockJson content) = forallb blockWellFormed content.
Proof.
  induction content as [| block content IH]; [reflexivity |].
  cbn [map forallb]. now rewrite wellFormed_blockJson, IH.
Qed.

Lemma wellFormed_messageJson message :
  wellFormed (messageJson message) = messageWellFormed message.
Proof.
  unfold messageJson, messageWellFormed. cbn [wellFormed].
  rewrite !forallb_app. cbn [forallb snd wellFormed].
  rewrite wellFormed_blocks, !andb_true_r.
  destruct (pm_toolReview message) as [[r | r] |],
           (pm_forDisplay message) as [b |];
    unfold toolReviewJson, functionCallJson, reviewWellFormed, callWellFormed;
    cbn [forallb snd wellFormed]; rewrite ?andb_true_r; reflexivity.
Qed.

Lemma storable_messages messages :
  forallb messageWellFormed messages = true ->
  Forall storable (map messageJson messages).
Proof.
  induction messages as [| m messages IH]; intros H; [constructor |].
  cbn [forallb] in H. apply andb_true_iff in H. destruct H as [Hm Hrest].
  cbn [map]. constructor; [| auto].
  apply storable_wellFormed. now rewrite wellFormed_messageJson.
Qed.

(** The file after a first batch and more batches of appended records. *)
Definition fileAfter (first : list json) (batches : list (list json))
    : option string :=
  fold_left appendMessages batches (appendMessages None first).

Lemma fileAfter_text first batches :
  fileAfter first batches = Some (linesText (first ++ List.concat batches)).
Proof.
  unfold fileAfter.
  assert (Hgen : forall content,
             fold_left appendMessages batches (Some content)
             = Some (content ++ linesText (List.concat batches))).
  { induction batches as [| batch batches IH]; intros content.
    - simpl. now rewrite append_empty_r.
    - simpl fold_left. unfold appendMessages at 2.
      rewrite IH. simpl List.concat. rewrite linesText_app, append_assoc.
      reflexivity. }
  unfold appendMessages at 2. rewrite Hgen. simpl.
  now rewrite linesText_app.
Qed.

(** [forDisplay !== false] on the JSON image of a message is the test on
    the message. *)
Definition shown (message : PersistentMessage) : bool :=
  match pm_forDisplay message with
  | Some false => false
  | _ => true
  end.

Lemma forDisplay_not_false_messageJson message :
  forDisplay_not_false (messageJson message) = Ok (shown message).
Proof.
  unfold messageJson, shown, forDisplay_not_false.
  destruct (pm_toolReview message), (pm_forDisplay message) as [[] |];
    reflexivity.
Qed.

Lemma filterM_messageJson messages :
  filterM forDisplay_not_false (map messageJson messages)
  = Ok (map messageJson (filter shown messages)).
Proof.
  induction messages as [| m messages IH]; [reflexivity |].
  cbn [map filterM]. rewrite forDisplay_not_false_messageJson, IH.
  cbn [bind filter]. destruct (shown m); reflexivity.
Qed.

(** A message that carries a function call with a number among its
    arguments. *)
Definition wait_call : FunctionCall :=
  {| fc_id := "call-1"; fc_name := "computer_wait";
     fc_args := [("seconds", JNumber "2")] |}.

Definition call_message : PersistentMessage :=
  {| pm_id := "3"; pm_role := model;
     pm_content := [BThought "wait for the page"; BFunctionCall wait_call];
     pm_toolReview := None; pm_forDisplay := None;
     pm_timestamp := "2025-01-01T00:00:02.000Z" |}.

(** A second message, for the model only. *)
Definition hidden_message : PersistentMessage :=
  {| pm_id := "2"; pm_role := tool;
     pm_content :=
       [BFunctionResponse {| fr_id := "call-1"; fr_name := "computer_wait";
                             fr_response := error_ "Rejected by user" |}];
     pm_toolReview := None; pm_forDisplay := Some false;
     pm_timestamp := "2025-01-01T00:00:01.000Z" |}.

(** [message.forDisplay !== false] on a parsed line that is not [null]. *)
Definition displayed (message : json) : bool :=
  match message with
  | JObject members =>
      match lookup "forDisplay" members with
      | Some (JBool false) => false
      | _ => true
      end
  | _ => true
  end.

Lemma filterM_displayed messages :
  Forall (fun m => m <> JNull) messages ->
  filterM forDisplay_not_false messages = Ok (filter displayed messages).
Proof.
  induction 1 as [| m messages Hm _ IH]; [reflexivity |].
  cbn [filterM filter]. rewrite IH.
  destruct m; try congruence; reflexivity.
Qed.

(** C9.  On any log file: when [getMessages(id, true)] returns messages,
    [getMessages(id, false)] returns those of them whose [forDisplay] is
    not [false], in the same order (the messages are objects; on a line
    that holds [null] reading [forDisplay] throws).  And on the log of a
    session: whatever batches of messages were appended to it,
    [getMessages(id, true)] returns all of them in the order of their
    appending, and [getMessages(id, false)] returns, in the same order,
    those of them whose [forDisplay] is not [false].  The messages are
    any messages whose function calls have arguments that
    [JSON.stringify] writes in full ([messageWellFormed]). *)
Theorem getMessages_hidden_filter :
  (forall content messages,
     getMessages (Some content) true = Ok messages ->
     Forall (fun m => m <> JNull) messages ->
     getMessages (Some content) false = Ok (filter displayed messages))
  /\ (forall (first : list PersistentMessage)
             (batches : list (list PersistentMessage)),
        forallb messageWellFormed (first ++ List.concat batches) = true ->
        let file := fileAfter (map messageJson first)
                              (map (map messageJson) batches) in
        getMessages file true
        = Ok (map messageJson (first ++ List.concat batches))
        /\ getMessages file false
           = Ok (map messageJson
                   (filter shown (first ++ List.concat batches)))).
Proof.
  split.
  - intros content messages Hall Hobjects.
    rewrite getMessages_linesOf in *.
    destruct (mapM parseLine (linesOf content)) as [ms | e]; [| discriminate].
    cbn [bind] in *. injection Hall as ->.
    apply filterM_displayed, Hobjects.
  - intros first batches Hwf file. unfold file. rewrite fileAfter_text.
    pose proof (storable_messages _ Hwf) as Hok.
    rewrite <- concat_map, <- map_app.
    rewrite !getMessages_linesOf, (linesOf_linesText _ Hok),
      (mapM_parseLine _ Hok).
    simpl. split; [reflexivity | apply filterM_messageJson].
Qed.

(** C9 on a log of three messages appended in two batches, the second of
    them hidden. *)
Lemma getMessages_hidden_filter_witness :
  let first := [example_message "1" "hello"; hidden_message] in
  let batches := [[call_message]] in
  let file := fileAfter (map messageJson first)
                        (map (map messageJson) batches) in
  forallb messageWellFormed (first ++ List.concat batches) = true
  /\ getMessages file true
     = Ok (map messageJson
             [example_message "1" "hello"; hidden_message; call_message])
  /\ getMessages file false
     = Ok (map messageJson [example_message "1" "hello"; call_message]).
Proof.
  split; [reflexivity |].
  exact (proj2 getMessages_hidden_filter
           [example_message "1" "hello"; hidden_message]
           [[call_message]] eq_refl).
Defined.

End MessageLog.

(* ================================================================== *)
(** * Properties of the tool catalog (tool-computer/index.ts) *)
(* ================================================================== *)

Section Catalog.
Import Js ToolCatalog.

(** C8: the catalog declares five functions, [computer_click],
    [computer_type], [computer_drag_and_drop], [computer_key] and
    [computer_wait], and [getValidComputerTool] answers the name
    [computer_scroll] with the string [Tool does not exist:
    computer_scroll], whatever the arguments and the schema validator. *)
Theorem catalog_has_five_tools_and_no_scroll :
  map name getComputerFunctionDeclarations
  = ["computer_click"; "computer_type"; "computer_drag_and_drop";
     "computer_key"; "computer_wait"]
  /\ forall (validator : option json -> list (string * json) -> option string)
            (args : list (string * json)),
       getValidComputerTool validator "computer_scroll" args
       = Ok (inr "Tool does not exist: computer_scroll").
Proof.
  split; [reflexivity |]. intros validator args. reflexivity.
Qed.

End Catalog.

(* ================================================================== *)
(** * Properties of the agent (agent.ts) *)
(* ================================================================== *)

Section AgentRuns.
Import Js Json Shared AgentTypes ScreenTs Agent.
Local Open Scope list_scope.

Lemma extend_nil w : extend w [] = w.
Proof. destruct w. unfold extend. simpl. now rewrite app_nil_r. Qed.

Lemma extend_extend w xs ys : extend (extend w xs) ys = extend w (xs ++ ys).
Proof. unfold extend. simpl. now rewrite app_assoc. Qed.

Lemma emit_extend e w : emit e w = (Ok tt, extend w [e]).
Proof. reflexivity. Qed.

(** ** Rejected reviews (C6) *)

(** The function response forged for a rejected decision. *)
Definition rejectionPart (d : Decision) : Part :=
  functionResponsePart
    {| fr_id := fc_id (d_originalFunctionCall d);
       fr_name := fc_name (d_originalFunctionCall d);
       fr_response := error_ "Rejected by user" |}.

(** The tool message persisted for it: that part alone, hidden from the
    user's view. *)
Definition rejectionMessage (d : Decision) : AgentPersistMessage :=
  {| apm_role := tool; apm_parts := [OfPart (rejectionPart d)];
     apm_toolReview := None; apm_forDisplay := Some false |}.

Definition rejectedWithId (d : Decision) : Prop :=
  d_response d = reject_once /\ fc_id (d_functionCall d) <> EmptyString.

Lemma answerDecision_rejected env d w :
  rejectedWithId d ->
  answerDecision env d w
  = (Ok (rejectionPart d), extend w [Persisted (rejectionMessage d)]).
Proof.
  intros [Hchoice Hid]. unfold answerDecision. rewrite Hchoice.
  unfold bindM, lift, forgeToolResponse.
  destruct (fc_id (d_functionCall d)) as [| c rest] eqn:E; [congruence |].
  reflexivity.
Qed.

Lemma answerDecisions_rejected env decisions :
  Forall rejectedWithId decisions ->
  forall w,
    forEachM (answerDecision env) decisions w
    = (Ok (map rejectionPart decisions),
       extend w (map (fun d => Persisted (rejectionMessage d)) decisions)).
Proof.
  induction 1 as [| d decisions Hd _ IH]; intros w.
  - simpl. unfold ret. now rewrite extend_nil.
  - cbn [forEachM map]. unfold bindM at 1.
    rewrite (answerDecision_rejected env d w Hd).
    unfold bindM at 1. rewrite IH. unfold ret.
    rewrite extend_extend. reflexivity.
Qed.

Lemma forallb_isReject decisions :
  Forall rejectedWithId decisions -> forallb isReject decisions = true.
Proof.
  induction 1 as [| d decisions [Hchoice _] _ IH]; [reflexivity |].
  simpl. unfold isReject at 1. now rewrite Hchoice.
Qed.

(** C6 as stated, for one list of decisions: the run persists the
    rejections and sets the status [stagnant]. *)
Definition rejections_persisted (env : Env) (decisions : list Decision)
    (w : World) : Prop :=
  exists w',
    runAgent env [] (InputDecisions decisions) [] w = (Ok tt, w')
    /\ trace w'
       = trace w
         ++ map (fun d => Persisted (rejectionMessage d)) decisions
         ++ [StatusSet stagnant (Some "User rejected all tool calls.")].

Definition bare_env : Env :=
  {| hasComputerTool := true; allowedTools := [];
     SchemaValidator_validate := fun _ _ => None;
     executeToolCall :=
       fun _ => {| tcr_error := None; tcr_responseParts := [inl "done"] |};
     screenshotAction := fun _ => InlineImage "image/png" "pixels" 1024 768 |}.

Definition fresh_world (replies : list LlmReply) : World :=
  {| trace := []; groundingReplies := replies; clock := 0; screen := None |}.

(** A rejected review of a call whose id is the empty string. *)
Definition rejected_without_id : Decision :=
  {| d_functionCall :=
       {| fc_id := EmptyString; fc_name := ".computer";
          fc_args := [("action", JString "wait"); ("time", JNumber "1")] |};
     d_originalFunctionCall :=
       {| fc_id := EmptyString; fc_name := "computer_wait";
          fc_args := [("time", JNumber "1")] |};
     d_response := reject_once |}.

(** An environment whose registry has no tool [.computer]. *)
Definition no_tool_env : Env :=
  {| hasComputerTool := false; allowedTools := allowedTools bare_env;
     SchemaValidator_validate := SchemaValidator_validate bare_env;
     executeToolCall := executeToolCall bare_env;
     screenshotAction := screenshotAction bare_env |}.

Definition rejected_wait : Decision :=
  {| d_functionCall :=
       {| fc_id := "computer_wait-7-r7"; fc_name := ".computer";
          fc_args := [("action", JString "wait"); ("time", JNumber "1")] |};
     d_originalFunctionCall :=
       {| fc_id := "computer_wait-7-r7"; fc_name := "computer_wait";
          fc_args := [("time", JNumber "1")] |};
     d_response := reject_once |}.

(** C6, counterexample: for a rejected call whose id is the empty string
    [forgeToolResponse] throws before anything is persisted; the run is
    rejected with that error, no tool message is logged and no status is
    set.  Likewise, when the registry has no tool [.computer], the run is
    rejected before the decisions are looked at. *)
Lemma rejected_without_id_counterexample :
  runAgent bare_env [] (InputDecisions [rejected_without_id]) [] (fresh_world [])
  = (Throw (Error "Function call id is required in tool response"),
     fresh_world [])
  /\ ~ rejections_persisted bare_env [rejected_without_id] (fresh_world [])
  /\ runAgent no_tool_env [] (InputDecisions [rejected_wait]) [] (fresh_world [])
     = (Throw (Error "Core tool .computer not found in registry"),
        fresh_world [])
  /\ ~ rejections_persisted no_tool_env [rejected_wait] (fresh_world []).
Proof.
  split; [vm_compute; reflexivity |].
  split; [intros (w' & Hrun & _); vm_compute in Hrun; discriminate |].
  split; [vm_compute; reflexivity |].
  intros (w' & Hrun & _). vm_compute in Hrun. discriminate.
Qed.

(** C6, amended: when the tool [.computer] is registered and every
    decision is [reject_once] on a function call with a non-empty id,
    [runAgent] persists for each decision, in order, a tool message whose
    only part is a function response with the id and name of the
    decision's original call and the response
    [{error: "Rejected by user"}], then sets the status [stagnant] with
    [User rejected all tool calls.] and returns: nothing else is called
    (no screenshot, no model, no tool), and the rest of the world is as
    it was. *)
Theorem runAgent_all_rejected env historyMessages decisions planner w :
  hasComputerTool env = true ->
  Forall rejectedWithId decisions ->
  runAgent env historyMessages (InputDecisions decisions) planner w
  = (Ok tt,
     extend w
       (map (fun d => Persisted (rejectionMessage d)) decisions
        ++ [StatusSet stagnant (Some "User rejected all tool calls.")])).
Proof.
  intros Htool Hall. unfold runAgent. rewrite Htool. cbn [negb].
  unfold bindM at 1. unfold seedInput. unfold bindM at 1.
  rewrite (answerDecisions_rejected env decisions Hall w).
  rewrite (forallb_isReject decisions Hall).
  unfold bindM, setSessionStatus, ret. rewrite emit_extend, extend_extend.
  reflexivity.
Qed.

(** C6, the amended statement on one rejected [computer_wait]. *)
Lemma runAgent_all_rejected_witness :
  hasComputerTool bare_env = true
  /\ Forall rejectedWithId [rejected_wait]
  /\ runAgent bare_env [] (InputDecisions [rejected_wait]) [] (fresh_world [])
     = (Ok tt,
        extend (fresh_world [])
          [Persisted (rejectionMessage rejected_wait);
           StatusSet stagnant (Some "User rejected all tool calls.")]).
Proof.
  assert (H : Forall rejectedWithId [rejected_wait]).
  { constructor; [| constructor]. split; [reflexivity | discriminate]. }
  split; [reflexivity |]. split; [exact H |].
  exact (runAgent_all_rejected bare_env [] [rejected_wait] []
           (fresh_world []) eq_refl H).
Defined.

(** ** Replies without text or function calls (C1, C10) *)

(** A chunk that carries thought-flagged text at most: no function call,
    and no text that is not flagged as thought. *)
Definition thoughtOnlyChunk (c : Chunk) : Prop :=
  (chunk_functionCalls c = None \/ chunk_functionCalls c = Some [])
  /\ (getResponseText c = None \/ exists t, getResponseText c = Some (RThought t)).

Definition thoughtOnly (reply : LlmReply) : Prop :=
  failure reply = None /\ Forall thoughtOnlyChunk (chunks reply).

(** The fully empty response: a stream that yields nothing. *)
Definition silence : LlmReply := {| chunks := []; failure := None |}.

(** The deltas streamed for the thoughts of a reply. *)
Definition thoughtEvents (streamRole : Role) (responses : list Chunk) : list Event :=
  flat_map (fun c => match getResponseText c with
                     | Some (RThought t) =>
                         [Streamed {| sm_role := streamRole;
                                      sm_thought := Some t; sm_text := None |}]
                     | _ => []
                     end) responses.

Lemma readStream_thoughtOnly streamRole responses :
  Forall thoughtOnlyChunk responses ->
  forall thoughtAcc calls w,
  exists thoughtText,
    readStream streamRole responses thoughtAcc EmptyString calls w
    = (Ok (thoughtText, EmptyString, calls),
       extend w (thoughtEvents streamRole responses)).
Proof.
  induction 1 as [| c responses [Hcalls Htext] _ IH]; intros thoughtAcc calls w.
  - exists thoughtAcc. simpl. unfold ret. now rewrite extend_nil.
  - cbn [readStream thoughtEvents flat_map].
    assert (Hfc : forall w0,
               match chunk_functionCalls c with
               | Some fcs =>
                   bindM (forEachM strictFunctionCall fcs)
                         (fun news => ret (calls ++ news))
               | None => ret calls
               end w0 = (Ok calls, w0)).
    { intros w0. destruct Hcalls as [-> | ->]; [reflexivity |].
      cbn. unfold ret. now rewrite app_nil_r. }
    destruct Htext as [-> | [t ->]].
    + unfold bindM at 1. unfold ret at 1. cbn iota.
      unfold bindM at 1. rewrite Hfc.
      destruct (IH thoughtAcc calls w) as [th Hth].
      exists th. rewrite Hth. reflexivity.
    + unfold bindM at 1. unfold bindM at 1. unfold streamMessage.
      rewrite emit_extend. unfold ret at 1. cbn iota.
      unfold bindM at 1. rewrite Hfc.
      destruct (IH (thoughtAcc ++ t)%string calls
                   (extend w [Streamed {| sm_role := streamRole;
                                          sm_thought := Some t;
                                          sm_text := None |}]))
        as [th Hth].
      exists th. rewrite Hth, extend_extend. reflexivity.
Qed.

Lemma processStreamResponse_thoughtOnly streamRole reply forDisplay w :
  thoughtOnly reply ->
  exists thoughtText,
    processStreamResponse streamRole reply forDisplay w
    = (Ok (thoughtText, EmptyString, []),
       extend w (thoughtEvents streamRole (chunks reply))).
Proof.
  intros [Hfail Hchunks].
  destruct (readStream_thoughtOnly streamRole (chunks reply) Hchunks
              EmptyString [] w) as [th Hth].
  exists th. unfold processStreamResponse.
  unfold bindM at 1. rewrite Hth. rewrite Hfail. reflexivity.
Qed.

Lemma thoughtOnly_silence : thoughtOnly silence.
Proof. split; [reflexivity | constructor]. Qed.

Lemma planNextStep_thoughtOnly reply extraPrompt st w :
  thoughtOnly reply ->
  exists contents st',
    planNextStep (Some reply) extraPrompt st w
    = (Ok (false, st'),
       extend w (PlanRequested contents :: thoughtEvents model (chunks reply)))
    /\ planNextStep (Some silence) extraPrompt st w
       = (Ok (false, st'), extend w [PlanRequested contents])
    /\ history st' = contents
    /\ functionCalls st' = functionCalls st.
Proof.
  intros Hreply. unfold planNextStep.
  destruct (appendContent _ _) as [requestContents merged].
  eexists. eexists.
  unfold bindM at 1. rewrite emit_extend.
  unfold bindM at 1. unfold ret at 1.
  unfold bindM at 1.
  destruct (processStreamResponse_thoughtOnly model reply None
              (extend w [PlanRequested requestContents]) Hreply)
    as [th Hth].
  rewrite Hth. cbn [is_empty is_nil negb orb]. unfold ret at 1.
  rewrite extend_extend. split; [reflexivity |].
  unfold bindM at 1. rewrite emit_extend.
  unfold bindM at 1. unfold ret at 1.
  unfold bindM at 1.
  destruct (processStreamResponse_thoughtOnly model silence None
              (extend w [PlanRequested requestContents]) thoughtOnly_silence)
    as [th0 Hth0].
  rewrite Hth0. cbn [is_empty is_nil negb orb]. unfold ret at 1.
  rewrite extend_extend. cbn [thoughtEvents flat_map chunks silence].
  split; [reflexivity |]. split; reflexivity.
Qed.

(** After a first reply of thoughts only, the next thing a turn does is
    [planNextStep] with the extra prompt [continue]. *)
Lemma turns_retry_after_thoughtOnly
    env reply reply2 planner turnCount currentParts0 history0 w
    screenshot croppedScreenshotsData currentParts1 w1 :
  observe env (turnCount + 1) currentParts0 w
  = (Ok (screenshot, croppedScreenshotsData, currentParts1), w1) ->
  thoughtOnly reply ->
  exists st1 w2,
    planNextStep (Some reply) None
      {| currentParts := currentParts1; history := history0;
         shared := false; functionCalls := [] |} w1
    = (Ok (false, st1), w2)
    /\ turns env (reply :: reply2 :: planner) turnCount
         currentParts0 history0 w
       = bindM (planNextStep (Some reply2) (Some "continue") st1)
           (fun '(planned2, st2) =>
              bindM (if planned2 : bool then ret tt
                     else setSessionStatus error
                            "Model returned empty response even after retry.")
                (fun _ =>
                   dispatch env screenshot croppedScreenshotsData st2
                     (turns env planner (turnCount + 1)))) w2.
Proof.
  intros Hobs Hreply.
  destruct (planNextStep_thoughtOnly reply None
              {| currentParts := currentParts1; history := history0;
                 shared := false; functionCalls := [] |} w1 Hreply)
    as (contents & st1 & Hplan & _).
  exists st1. eexists. split; [exact Hplan |].
  cbn [turns]. unfold bindM at 1. rewrite Hobs.
  unfold bindM at 1. rewrite Hplan. reflexivity.
Qed.

(** C10: a planning stream that yields thought-flagged text only is an
    empty response.  First, at any call of [planNextStep]: it answers
    [false] and leaves the very state the fully empty stream leaves (the
    history ends with the user content just sent, no model content and no
    thought is added to it, the function calls are unchanged), and the
    only calls it makes besides the request are the thought deltas it
    streams: no message is persisted.  Second, in a turn: after such a
    first reply the next thing the turn does is [planNextStep] with the
    extra prompt [continue]. *)
Theorem thought_only_reply_is_empty_reply :
  (forall reply extraPrompt st w,
     thoughtOnly reply ->
     exists contents st',
       planNextStep (Some reply) extraPrompt st w
       = (Ok (false, st'),
          extend w (PlanRequested contents
                    :: thoughtEvents model (chunks reply)))
       /\ planNextStep (Some silence) extraPrompt st w
          = (Ok (false, st'), extend w [PlanRequested contents])
       /\ history st' = contents
       /\ functionCalls st' = functionCalls st)
  /\ (forall env reply reply2 planner turnCount currentParts0 history0 w
             screenshot croppedScreenshotsData currentParts1 w1,
        observe env (turnCount + 1) currentParts0 w
        = (Ok (screenshot, croppedScreenshotsData, currentParts1), w1) ->
        thoughtOnly reply ->
        exists st1 w2,
          planNextStep (Some reply) None
            {| currentParts := currentParts1; history := history0;
               shared := false; functionCalls := [] |} w1
          = (Ok (false, st1), w2)
          /\ turns env (reply :: reply2 :: planner) turnCount
               currentParts0 history0 w
             = bindM (planNextStep (Some reply2) (Some "continue") st1)
                 (fun '(planned2, st2) =>
                    bindM (if planned2 : bool then ret tt
                           else setSessionStatus error
                                  "Model returned empty response even after retry.")
                      (fun _ =>
                         dispatch env screenshot croppedScreenshotsData st2
                           (turns env planner (turnCount + 1)))) w2).
Proof.
  split.
  - intros reply extraPrompt st w Hreply.
    exact (planNextStep_thoughtOnly reply extraPrompt st w Hreply).
  - intros env reply reply2 planner turnCount currentParts0 history0 w
           screenshot croppedScreenshotsData currentParts1 w1 Hobs Hreply.
    exact (turns_retry_after_thoughtOnly env reply reply2 planner turnCount
             currentParts0 history0 w screenshot croppedScreenshotsData
             currentParts1 w1 Hobs Hreply).
Qed.

(** A reply made of one chunk of thought. *)
Definition pondering : LlmReply :=
  {| chunks := [{| chunk_parts := [{| cp_text := Some "Let me think.";
                                      cp_thought := true |}];
                   chunk_functionCalls := None |}];
     failure := None |}.

Lemma thoughtOnly_pondering : thoughtOnly pondering.
Proof.
  split; [reflexivity |]. constructor; [| constructor].
  split; [left; reflexivity | right; eexists; reflexivity].
Qed.

(** C10 on a reply of one thought, at the first plan of a run. *)
Lemma thought_only_reply_is_empty_reply_witness :
  thoughtOnly pondering
  /\ exists contents st',
       planNextStep (Some pondering) None
         {| currentParts := [textPart "hi"]; history := [];
            shared := false; functionCalls := [] |} (fresh_world [])
       = (Ok (false, st'),
          extend (fresh_world [])
            (PlanRequested contents :: thoughtEvents model (chunks pondering)))
       /\ planNextStep (Some silence) None
            {| currentParts := [textPart "hi"]; history := [];
               shared := false; functionCalls := [] |} (fresh_world [])
          = (Ok (false, st'), extend (fresh_world []) [PlanRequested contents])
       /\ history st' = contents
       /\ functionCalls st' = [].
Proof.
  split; [exact thoughtOnly_pondering |].
  exact (proj1 thought_only_reply_is_empty_reply pondering None
           {| currentParts := [textPart "hi"]; history := [];
              shared := false; functionCalls := [] |} (fresh_world [])
           thoughtOnly_pondering).
Defined.

(** ** The empty response after the retry (C1) *)

(** X2: in any turn, when the first plan and its retry are both empty
    (nothing but thoughts at most), the turn sets the status [error] and
    then, the list of function calls being empty, the status [stagnant]
    with [No more tool calls from model.], and ends the run: the loop is
    not left in between, whatever the history, the current parts and the
    number of the turn. *)
Lemma turns_after_two_empty_replies
    env reply1 reply2 planner turnCount currentParts0 history0 w
    screenshot croppedScreenshotsData currentParts1 w1 :
  observe env (turnCount + 1) currentParts0 w
  = (Ok (screenshot, croppedScreenshotsData, currentParts1), w1) ->
  thoughtOnly reply1 -> thoughtOnly reply2 ->
  exists calls,
    turns env (reply1 :: reply2 :: planner) turnCount currentParts0 history0 w
    = (Ok tt,
       extend w1
         (calls
          ++ [StatusSet error
                (Some "Model returned empty response even after retry.");
              StatusSet stagnant (Some "No more tool calls from model.")])).
Proof.
  intros Hobs H1 H2.
  destruct (turns_retry_after_thoughtOnly env reply1 reply2 planner
              turnCount currentParts0 history0 w screenshot
              croppedScreenshotsData currentParts1 w1 Hobs H1)
    as (st1 & w2 & Hplan1 & Hturns).
  destruct (planNextStep_thoughtOnly reply1 None
              {| currentParts := currentParts1; history := history0;
                 shared := false; functionCalls := [] |} w1 H1)
    as (contents1 & st1' & Hplan1' & _ & _ & Hcalls1).
  rewrite Hplan1 in Hplan1'. injection Hplan1' as Hst1 Hw2.
  destruct (planNextStep_thoughtOnly reply2 (Some "continue") st1 w2 H2)
    as (contents2 & st2 & Hplan2 & _ & _ & Hcalls2).
  exists ((PlanRequested contents1 :: thoughtEvents model (chunks reply1))
          ++ (PlanRequested contents2 :: thoughtEvents model (chunks reply2))).
  rewrite Hturns. unfold bindM at 1. rewrite Hplan2.
  unfold bindM at 1. unfold setSessionStatus at 1. rewrite emit_extend.
  unfold dispatch. rewrite Hcalls2, Hst1, Hcalls1. cbn [functionCalls].
  unfold setSessionStatus. rewrite emit_extend.
  rewrite Hw2, !extend_extend. rewrite <- !app_assoc. reflexivity.
Qed.

(** The first half of a first turn on the text [hi]. *)
Definition observed_hi
    : Result (Image * list (string * Part) * list Part) * World :=
  Eval vm_compute in observe bare_env 1 [textPart "hi"] (fresh_world []).

(** X2 on a first turn where the planner first thinks aloud and then, on
    the retry, says nothing. *)
Lemma turns_after_two_empty_replies_witness :
  thoughtOnly pondering /\ thoughtOnly silence
  /\ exists calls,
       turns bare_env [pondering; silence] 0 [textPart "hi"] [] (fresh_world [])
       = (Ok tt,
          extend (snd observed_hi)
            (calls
             ++ [StatusSet error
                   (Some "Model returned empty response even after retry.");
                 StatusSet stagnant (Some "No more tool calls from model.")])).
Proof.
  split; [exact thoughtOnly_pondering |].
  split; [exact thoughtOnly_silence |].
  exact (turns_after_two_empty_replies bare_env pondering silence [] 0
           [textPart "hi"] [] (fresh_world []) _ _ _ (snd observed_hi)
           (eq_refl : observe bare_env (0 + 1) [textPart "hi"] (fresh_world [])
                      = observed_hi)
           thoughtOnly_pondering thoughtOnly_silence).
Defined.

(** C1, the run of the code on its failing input: the user says [hi] and
    the planning model answers both the plan and the retry with nothing.
    The status transitions of the run are [running], then [error] with
    [Model returned empty response even after retry.], then [stagnant]
    with [No more tool calls from model.]: the error is not the last
    transition. *)
Theorem empty_retry_is_followed_by_stagnant :
  statusTransitions
    (trace (snd (runAgent bare_env [] (InputText "hi") [silence; silence]
                   (fresh_world []))))
  = [(running, Some "Turn 1");
     (error, Some "Model returned empty response even after retry.");
     (stagnant, Some "No more tool calls from model.")].
Proof. vm_compute. reflexivity. Qed.

(** ** Grounding failures (C7) *)

(** The coordinate the checks read in an element of [box_2d]: the integer
    [parseInt] finds at the head of its text, if it lies in [0, 1000]. *)
Definition coordinateOf (coord : json) : option Z :=
  match parseInt (toString coord) with
  | Some n => if ((0 <=? n) && (n <=? 1000))%Z then Some n else None
  | None => None
  end.

(** The boxes the checks accept: arrays of four elements with a
    coordinate each, [ymin] below [ymax] and [xmin] below [xmax]. *)
Definition acceptedBox (box2d : option json) : option Box :=
  match box2d with
  | Some (JArray [c1; c2; c3; c4]) =>
      match coordinateOf c1, coordinateOf c2, coordinateOf c3, coordinateOf c4 with
      | Some y0, Some x0, Some y1, Some x1 =>
          if ((y0 <? y1) && (x0 <? x1))%Z
          then Some {| ymin := y0; xmin := x0; ymax := y1; xmax := x1 |}
          else None
      | _, _, _, _ => None
      end
  | _ => None
  end.

(** An element as C7 reads the check: a number that is an integer of
    [0, 1000]. *)
Definition integerCoordinate (coord : json) : Prop :=
  exists n, (0 <= n <= 1000)%Z /\ coord = JNumber (numeral_of_Z n).

Lemma checkCoordinate_coordinateOf coord :
  match coordinateOf coord with
  | Some n => checkCoordinate coord = Ok n
  | None =>
      exists what, checkCoordinate coord = Throw (Error ("Invalid " ++ what)%string)
  end.
Proof.
  unfold coordinateOf, checkCoordinate.
  destruct (parseInt (toString coord)) as [n |].
  - destruct (Z.leb_spec 0 n), (Z.leb_spec n 1000); cbn [andb].
    + destruct (Z.ltb_spec n 0); [lia |].
      destruct (Z.gtb_spec n 1000); [lia |]. reflexivity.
    + destruct (Z.ltb_spec n 0); [lia |].
      destruct (Z.gtb_spec n 1000); [| lia]. eexists. reflexivity.
    + destruct (Z.ltb_spec n 0); [| lia]. eexists. reflexivity.
    + destruct (Z.ltb_spec n 0); [| lia]. eexists. reflexivity.
  - eexists. reflexivity.
Qed.

Lemma coordinateOf_integer_upto (k : nat) :
  forallb (fun i => match coordinateOf (JNumber (numeral_of_Z (Z.of_nat i))) with
                    | Some n => (n =? Z.of_nat i)%Z
                    | None => false
                    end) (seq 0 k) = true ->
  forall n, (0 <= n < Z.of_nat k)%Z ->
    coordinateOf (JNumber (numeral_of_Z n)) = Some n.
Proof.
  intros Hall n Hn. rewrite forallb_forall in Hall.
  specialize (Hall (Z.to_nat n)). rewrite Z2Nat.id in Hall by lia.
  assert (Hin : In (Z.to_nat n) (seq 0 k)) by (apply in_seq; lia).
  specialize (Hall Hin).
  destruct (coordinateOf (JNumber (numeral_of_Z n))) as [m |]; [| discriminate].
  apply Z.eqb_eq in Hall. now subst.
Qed.

(** An integer of [0, 1000] is read as itself. *)
Lemma coordinateOf_integer n :
  (0 <= n <= 1000)%Z -> coordinateOf (JNumber (numeral_of_Z n)) = Some n.
Proof.
  intros Hn. apply (coordinateOf_integer_upto 1001); [| lia].
  vm_compute. reflexivity.
Qed.

Lemma checkBox2d_acceptedBox box2d :
  match acceptedBox box2d with
  | Some b => checkBox2d box2d = Ok b
  | None =>
      exists what, checkBox2d box2d = Throw (Error ("Invalid " ++ what)%string)
  end.
Proof.
  destruct box2d as [[| | | | coords |] |];
    try (cbn; eexists; reflexivity).
  destruct coords as [| c1 [| c2 [| c3 [| c4 [| c5 rest]]]]];
    try (cbn [acceptedBox]; eexists; reflexivity).
  cbn [acceptedBox]. unfold checkBox2d.
  cbn [List.length Nat.eqb negb mapM].
  pose proof (checkCoordinate_coordinateOf c1) as H1.
  pose proof (checkCoordinate_coordinateOf c2) as H2.
  pose proof (checkCoordinate_coordinateOf c3) as H3.
  pose proof (checkCoordinate_coordinateOf c4) as H4.
  destruct (coordinateOf c1) as [y0 |];
    [rewrite H1 | destruct H1 as [m ->]; eexists; reflexivity].
  destruct (coordinateOf c2) as [x0 |];
    [rewrite H2 | destruct H2 as [m ->]; eexists; reflexivity].
  destruct (coordinateOf c3) as [y1 |];
    [rewrite H3 | destruct H3 as [m ->]; eexists; reflexivity].
  destruct (coordinateOf c4) as [x1 |];
    [rewrite H4 | destruct H4 as [m ->]; eexists; reflexivity].
  cbn [bind].
  destruct (Z.ltb_spec y0 y1), (Z.ltb_spec x0 x1); cbn [andb].
  - destruct (Z.geb_spec y0 y1); [lia |].
    destruct (Z.geb_spec x0 x1); [lia |]. reflexivity.
  - destruct (Z.geb_spec y0 y1); [lia |].
    destruct (Z.geb_spec x0 x1); [| lia]. eexists. reflexivity.
  - destruct (Z.geb_spec y0 y1); [| lia]. eexists. reflexivity.
  - destruct (Z.geb_spec y0 y1); [| lia]. eexists. reflexivity.
Qed.

(** The response forged for a call whose grounding failed. *)
Definition groundingErrorPart (fc : FunctionCall) (groundingError : string) : Part :=
  functionResponsePart
    {| fr_id := fc_id fc; fr_name := fc_name fc;
       fr_response := error_ ("Error during grounding: " ++ groundingError)%string |}.

(** The [box_2d] that [detectElement] reads in the text of a reply:
    [Some None] is [undefined], and [None] stands for a reply in which
    nothing is read, because it is empty or is not a JSON text, or because
    reading [box_2d] throws. *)
Definition box2dOfReply (outputText : string) : option (option json) :=
  if is_empty outputText then None else
  match JSON_parse outputText with
  | Some boundingBoxData =>
      match box_2d_of boundingBoxData with
      | Ok box2d => Some box2d
      | Throw _ => None
      end
  | None => None
  end.

Lemma boundingBoxOfOutput_read outputText box2d :
  box2dOfReply outputText = Some box2d ->
  boundingBoxOfOutput outputText = checkBox2d box2d.
Proof.
  unfold box2dOfReply, boundingBoxOfOutput.
  destruct (is_empty outputText); [discriminate |].
  destruct (JSON_parse outputText) as [data |]; [| discriminate].
  destruct (box_2d_of data) as [found | e]; [| discriminate].
  intros H. injection H as <-. reflexivity.
Qed.

Lemma boundingBoxOfOutput_unread outputText :
  box2dOfReply outputText = None ->
  exists e,
    boundingBoxOfOutput outputText = Throw e
    /\ (is_empty outputText = true /\ e = Error "No response text"
        \/ JSON_parse outputText = None /\ exn_name e = "SyntaxError"
        \/ exn_name e = "TypeError").
Proof.
  unfold box2dOfReply, boundingBoxOfOutput.
  destruct (is_empty outputText); [intros _; eexists; split; eauto |].
  destruct (JSON_parse outputText) as [data |];
    [| intros _; eexists; split; eauto ].
  cbn [bind].
  destruct data as [| b | numeral | s | [| [| b | numeral | s | l | l] items]
                    | members];
    cbn; intros H; try discriminate; eexists; split; eauto.
Qed.

(** The replies in which no [box_2d] is read, and one in which it is
    read as [undefined]. *)
Lemma replies_without_box :
  boundingBoxOfOutput EmptyString = Throw (Error "No response text")
  /\ boundingBoxOfOutput "box" = Throw (SyntaxError "Unexpected token in JSON")
  /\ boundingBoxOfOutput "null"
     = Throw (TypeError "Cannot read properties of null (reading 'box_2d')")
  /\ boundingBoxOfOutput "[]"
     = Throw (TypeError
                "Cannot read properties of undefined (reading 'box_2d')")
  /\ boundingBoxOfOutput "[null]"
     = Throw (TypeError "Cannot read properties of null (reading 'box_2d')")
  /\ boundingBoxOfOutput "{}"
     = Throw (Error ("Invalid box_2d format: expected array of 4 numbers, "
                     ++ "got undefined")).
Proof. repeat split; vm_compute; reflexivity. Qed.

(** The reply [{"box_2d": [items]}]. *)
Definition boxReply (items : string) : string :=
  "{" ++ str1 quote ++ "box_2d" ++ str1 quote ++ ": [" ++ items ++ "]}".

(** The numbers of a reply are read as the doubles they are: [2e3] is
    2000 and is refused, [1e3] is 1000, and a number of twenty-two digits
    prints as [1e+21], in which [parseInt] reads 1. *)
Lemma literals_are_read_as_doubles :
  boundingBoxOfOutput (boxReply "0, 0, 2e3, 5")
  = Throw (Error "Invalid coordinate value: 2000 (must be 0-1000)")
  /\ boundingBoxOfOutput (boxReply "0, 0, 1e3, 1e3")
     = Ok {| ymin := 0; xmin := 0; ymax := 1000; xmax := 1000 |}
  /\ boundingBoxOfOutput (boxReply "0, 0, 1000000000000000000000, 5")
     = Ok {| ymin := 0; xmin := 0; ymax := 1; xmax := 5 |}.
Proof. repeat split; vm_compute; reflexivity. Qed.

(** C7, amended.  [detectElement] returns the box when the reply is a
    JSON text in which a [box_2d] is read that is an array of four
    elements in each of which [parseInt(String(element))] reads an integer
    of [0, 1000] (as it does in an integer of that range, and as it also
    does in a number with a fraction, by dropping the fraction) with
    [ymin < ymax] and [xmin < xmax]; for any other [box_2d] that is read,
    [undefined] included, it throws an error whose message starts with
    [Invalid]; and when none is read it throws [No response text] for an
    empty reply, a [SyntaxError] for a reply that is not a JSON text, and
    a [TypeError] otherwise.  An error thrown while detecting, or while
    reading the image part of the tile, makes [detectAndTransform] return
    [Failed to detect element: ...]; and when the grounding of a computer
    tool call with a non-empty id returns an error string, the agent adds
    to the tool responses a function response with the call's id and name
    and the error [Error during grounding: ...], and goes on with the
    remaining calls of the turn. *)
Theorem grounding_failures_are_forged_responses :
  (forall outputText box2d,
     box2dOfReply outputText = Some box2d ->
     match acceptedBox box2d with
     | Some b => boundingBoxOfOutput outputText = Ok b
     | None =>
         exists what,
           boundingBoxOfOutput outputText
           = Throw (Error ("Invalid " ++ what)%string)
     end)
  /\ (forall outputText,
        box2dOfReply outputText = None ->
        exists e,
          boundingBoxOfOutput outputText = Throw e
          /\ (is_empty outputText = true /\ e = Error "No response text"
              \/ JSON_parse outputText = None /\ exn_name e = "SyntaxError"
              \/ exn_name e = "TypeError"))
  /\ (forall n, (0 <= n <= 1000)%Z ->
        coordinateOf (JNumber (numeral_of_Z n)) = Some n)
  /\ (forall imageId croppedScreenshotParts detect imagePart e w w',
        atLeast imageId (List.length croppedScreenshotParts) = false ->
        imagePartAt croppedScreenshotParts imageId = Ok imagePart ->
        detect imagePart w = (Throw e, w') ->
        detectAndTransform imageId croppedScreenshotParts detect w
        = (Ok (inr ("Failed to detect element: " ++ Exn_toString e)%string), w'))
  /\ (forall imageId croppedScreenshotParts detect e w,
        atLeast imageId (List.length croppedScreenshotParts) = false ->
        imagePartAt croppedScreenshotParts imageId = Throw e ->
        detectAndTransform imageId croppedScreenshotParts detect w
        = (Ok (inr ("Failed to detect element: " ++ Exn_toString e)%string), w))
  /\ (forall env screenshot croppedScreenshotsData acc fc rest groundable
             groundingError w w',
        startsWith "computer_" (fc_name fc) = true ->
        fc_id fc <> EmptyString ->
        ToolCatalog.getValidComputerTool (SchemaValidator_validate env)
          (fc_name fc) (fc_args fc) = Ok (inl groundable) ->
        ground screenshot (map snd croppedScreenshotsData) detectElement
          (fc_args fc) groundable w = (Ok (inr groundingError), w') ->
        processFunctionCalls env screenshot croppedScreenshotsData acc
          (fc :: rest) w
        = processFunctionCalls env screenshot croppedScreenshotsData
            {| toolResponseParts :=
                 toolResponseParts acc ++ [groundingErrorPart fc groundingError];
               isPending := isPending acc;
               toolReviewMessages := toolReviewMessages acc;
               delayedFunctionCalls := delayedFunctionCalls acc |}
            rest w').
Proof.
  split.
  { intros outputText box2d Hread.
    rewrite (boundingBoxOfOutput_read _ _ Hread).
    exact (checkBox2d_acceptedBox box2d). }
  split; [exact boundingBoxOfOutput_unread |].
  split; [exact coordinateOf_integer |].
  split; [| split].
  - intros imageId croppedScreenshotParts detect imagePart e w w'
           Hlt Hat Hdetect.
    unfold detectAndTransform. rewrite Hlt.
    unfold bindM at 1. unfold tryCatch. unfold bindM at 1.
    unfold lift at 1. rewrite Hat. unfold bindM at 1.
    rewrite Hdetect. reflexivity.
  - intros imageId croppedScreenshotParts detect e w Hlt Hat.
    unfold detectAndTransform. rewrite Hlt.
    unfold bindM at 1. unfold tryCatch. unfold bindM at 1.
    unfold lift at 1. rewrite Hat. reflexivity.
  - intros env screenshot croppedScreenshotsData acc fc rest groundable
           groundingError w w' Hname Hid Hvalid Hground.
    cbn [processFunctionCalls]. unfold bindM at 1.
    unfold processFunctionCall. rewrite Hname.
    unfold bindM at 1. unfold lift at 1. rewrite Hvalid.
    unfold bindM at 1. rewrite Hground.
    unfold bindM at 1. unfold lift, forgeToolResponse.
    destruct (fc_id fc) as [| c id] eqn:E; [congruence |].
    cbn [is_empty]. unfold ret, groundingErrorPart. rewrite E. reflexivity.
Qed.

(** A reply of the grounding model made of one chunk of text. *)
Definition textReply (t : string) : LlmReply :=
  {| chunks := [{| chunk_parts := [{| cp_text := Some t; cp_thought := false |}];
                   chunk_functionCalls := None |}];
     failure := None |}.

(** The reply [{"box_2d": [10, 10, 5, 20]}], whose [ymin] is above its
    [ymax]. *)
Definition inverted_box_text : string := boxReply "10, 10, 5, 20".

Definition inverted_box_reply : LlmReply := textReply inverted_box_text.

Definition click_file_menu : FunctionCall :=
  {| fc_id := "call-1"; fc_name := "computer_click";
     fc_args := [("image_id", JNumber "0");
                 ("element_description", JString "File menu")] |}.

Definition wait_two_seconds : FunctionCall :=
  {| fc_id := "call-2"; fc_name := "computer_wait";
     fc_args := [("time", JNumber "2")] |}.

Definition no_responses : Dispatch :=
  {| toolResponseParts := []; isPending := false;
     toolReviewMessages := []; delayedFunctionCalls := [] |}.

(** The screenshot of 1024 x 768 pixels that [bare_env] takes, and its
    two tiles with their file names. *)
Definition screenshot_1024 : Image :=
  {| buffer := "pixels";
     image_resolution := {| width := 1024; height := 768 |};
     image_mimeType := "image/png" |}.

Definition tiles_1024 : list (string * Part) :=
  [("2_screenshot_vc0.png",
    inlineDataPart {| data := "pixels#0"; mimeType := "image/png" |});
   ("3_screenshot_vc1.png",
    inlineDataPart {| data := "pixels#1"; mimeType := "image/png" |})].

(** The world after the first half of the first turn, when the grounding
    model is about to answer with the inverted box; and the world after
    the grounding of the click. *)
Definition world_observed : World :=
  Eval vm_compute in
    snd (observe bare_env 1 [] (fresh_world [inverted_box_reply])).

Definition world_grounded : World :=
  Eval vm_compute in
    snd (ground screenshot_1024 (map snd tiles_1024) detectElement
           (fc_args click_file_menu) ToolCatalog.ComputerClick world_observed).

Definition inverted_box_error : string :=
  "Failed to detect element: Error: Invalid bounding box: ymin(10) >= ymax(5) or xmin(10) >= xmax(20)".

Lemma ground_inverted_box :
  ground screenshot_1024 (map snd tiles_1024) detectElement
    (fc_args click_file_menu) ToolCatalog.ComputerClick world_observed
  = (Ok (inr inverted_box_error), world_grounded).
Proof. vm_compute. reflexivity. Qed.

(** The reply [{"box_2d": [10.5, 10, 20, 20]}] of the grounding model. *)
Definition fractional_reply : string := boxReply "10.5, 10, 20, 20".

(** The click of [click_file_menu] as the planner sends it with an empty
    string for its id. *)
Definition click_without_id : FunctionCall :=
  {| fc_id := EmptyString; fc_name := "computer_click";
     fc_args := fc_args click_file_menu |}.

(** C7, counterexample: the first element of [[10.5, 10, 20, 20]] is not
    an integer, and [detectElement] raises no error: [parseInt] reads 10
    in it and the box is returned.  And when the grounding fails for a
    call whose id is the empty string, no response is forged and the
    remaining calls are not processed: [forgeToolResponse] throws. *)
Lemma fractional_coordinate_counterexample :
  JSON_parse fractional_reply
  = Some (JObject [("box_2d", JArray [JNumber "10.5"; JNumber "10";
                                      JNumber "20"; JNumber "20"])])
  /\ ~ integerCoordinate (JNumber "10.5")
  /\ boundingBoxOfOutput fractional_reply
     = Ok {| ymin := 10; xmin := 10; ymax := 20; xmax := 20 |}
  /\ ground screenshot_1024 (map snd tiles_1024) detectElement
       (fc_args click_without_id) ToolCatalog.ComputerClick world_observed
     = (Ok (inr inverted_box_error), world_grounded)
  /\ processFunctionCalls bare_env screenshot_1024 tiles_1024
       no_responses [click_without_id; wait_two_seconds] world_observed
     = (Throw (Error "Function call id is required in tool response"),
        world_grounded).
Proof.
  split; [vm_compute; reflexivity |].
  split; [| split; [| split]; vm_compute; reflexivity].
  intros (n & Hn & Heq).
  pose proof (coordinateOf_integer n Hn) as Hc. rewrite <- Heq in Hc.
  vm_compute in Hc. injection Hc as <-. vm_compute in Heq. discriminate.
Qed.

(** C7, the amended statement on a turn whose screenshot is 1024 x 768
    and whose calls are a click, for which the grounding model answers
    with the inverted box, and a wait. *)
Lemma grounding_failures_are_forged_responses_witness :
  (box2dOfReply inverted_box_text
   = Some (Some (JArray [JNumber "10"; JNumber "10"; JNumber "5"; JNumber "20"]))
   /\ exists what,
        boundingBoxOfOutput inverted_box_text
        = Throw (Error ("Invalid " ++ what)%string))
  /\ (box2dOfReply "null" = None
      /\ exists e,
           boundingBoxOfOutput "null" = Throw e
           /\ (is_empty "null" = true /\ e = Error "No response text"
               \/ JSON_parse "null" = None /\ exn_name e = "SyntaxError"
               \/ exn_name e = "TypeError"))
  /\ coordinateOf (JNumber (numeral_of_Z 1000)) = Some 1000%Z
  /\ detectAndTransform (Some (JNumber "0")) (map snd tiles_1024)
       (fun imagePart => detectElement imagePart "Click on: File menu")
       world_observed
     = (Ok (inr inverted_box_error), world_grounded)
  /\ detectAndTransform (Some (JNumber "1.5")) (map snd tiles_1024)
       (fun imagePart => detectElement imagePart "Click on: File menu")
       world_observed
     = (Ok (inr ("Failed to detect element: TypeError: "
                 ++ "Cannot read properties of undefined "
                 ++ "(reading 'imagePart')")%string),
        world_observed)
  /\ (exists currentParts,
        observe bare_env 1 [] (fresh_world [inverted_box_reply])
        = (Ok (screenshot_1024, tiles_1024, currentParts), world_observed))
  /\ startsWith "computer_" (fc_name click_file_menu) = true
  /\ fc_id click_file_menu <> EmptyString
  /\ ToolCatalog.getValidComputerTool (SchemaValidator_validate bare_env)
       (fc_name click_file_menu) (fc_args click_file_menu)
     = Ok (inl ToolCatalog.ComputerClick)
  /\ ground screenshot_1024 (map snd tiles_1024) detectElement
       (fc_args click_file_menu) ToolCatalog.ComputerClick world_observed
     = (Ok (inr inverted_box_error), world_grounded)
  /\ processFunctionCalls bare_env screenshot_1024 tiles_1024
       no_responses [click_file_menu; wait_two_seconds] world_observed
     = processFunctionCalls bare_env screenshot_1024 tiles_1024
         {| toolResponseParts :=
              [groundingErrorPart click_file_menu inverted_box_error];
            isPending := false; toolReviewMessages := [];
            delayedFunctionCalls := [] |}
         [wait_two_seconds] world_grounded.
Proof.
  split.
  { split; [vm_compute; reflexivity |].
    exact (proj1 grounding_failures_are_forged_responses inverted_box_text
             (Some (JArray [JNumber "10"; JNumber "10"; JNumber "5";
                            JNumber "20"]))
             ltac:(vm_compute; reflexivity)). }
  split.
  { split; [vm_compute; reflexivity |].
    exact (proj1 (proj2 grounding_failures_are_forged_responses) "null"
             ltac:(vm_compute; reflexivity)). }
  split.
  { exact (proj1 (proj2 (proj2 grounding_failures_are_forged_responses))
             1000%Z ltac:(lia)). }
  split.
  { exact (proj1 (proj2 (proj2 (proj2
             grounding_failures_are_forged_responses)))
             (Some (JNumber "0")) (map snd tiles_1024)
             (fun imagePart => detectElement imagePart "Click on: File menu")
             (Some (inlineDataPart
                      {| data := "pixels#0"; mimeType := "image/png" |}))
             (Error ("Invalid bounding box: ymin(10) >= ymax(5) "
                     ++ "or xmin(10) >= xmax(20)"))
             world_observed world_grounded
             ltac:(vm_compute; reflexivity) ltac:(vm_compute; reflexivity)
             ltac:(vm_compute; reflexivity)). }
  split.
  { exact (proj1 (proj2 (proj2 (proj2 (proj2
             grounding_failures_are_forged_responses))))
             (Some (JNumber "1.5")) (map snd tiles_1024)
             (fun imagePart => detectElement imagePart "Click on: File menu")
             (TypeError
                "Cannot read properties of undefined (reading 'imagePart')")
             world_observed
             ltac:(vm_compute; reflexivity) ltac:(vm_compute; reflexivity)). }
  split; [eexists; vm_compute; reflexivity |].
  split; [vm_compute; reflexivity |].
  split; [discriminate |].
  split; [vm_compute; reflexivity |].
  split; [exact ground_inverted_box |].
  refine (proj2 (proj2 (proj2 (proj2 (proj2
            grounding_failures_are_forged_responses))))
            bare_env screenshot_1024 tiles_1024 no_responses click_file_menu
            [wait_two_seconds] ToolCatalog.ComputerClick inverted_box_error
            world_observed world_grounded _ _ _ ground_inverted_box).
  - vm_compute; reflexivity.
  - discriminate.
  - vm_compute; reflexivity.
Defined.

(** ** Thoughts in the contents sent to the planning model (C2) *)

Lemma mapM_In {A B} (f : A -> Result B) xs ys x :
  mapM f xs = Ok ys -> In x xs -> exists y, f x = Ok y /\ In y ys.
Proof.
  revert ys. induction xs as [| a xs IH]; intros ys Hmap Hin; [destruct Hin |].
  cbn [mapM] in Hmap. destruct (f a) as [b |] eqn:Ea; [| discriminate].
  cbn [bind] in Hmap. destruct (mapM f xs) as [bs |]; [| discriminate].
  injection Hmap as <-. destruct Hin as [-> | Hin].
  - exists b. split; [exact Ea | now left].
  - destruct (IH bs eq_refl Hin) as (y & Hy & Hiny).
    exists y. split; [exact Hy | now right].
Qed.

(** X3: every thought block of a logged message that is not for display
    only comes back from [recoverHistory] as a part flagged as thought, in
    the history handed to [runAgent]. *)
Lemma getHistoryMessages_keeps_thoughts
    getImage sessionId persistentMessages recovered message t :
  Interface.getHistoryMessages getImage sessionId persistentMessages
  = Ok recovered ->
  In message persistentMessages ->
  pm_forDisplay message <> Some true ->
  In (BThought t) (pm_content message) ->
  exists content,
    In content recovered /\ In (thoughtPart t) (parts content).
Proof.
  intros Hrec Hin Hshown Hblock. unfold Interface.getHistoryMessages in Hrec.
  assert (Hkept :
            In message
               (filter (fun m => match pm_forDisplay m with
                                 | Some true => false
                                 | _ => true
                                 end) persistentMessages)).
  { apply filter_In. split; [exact Hin |].
    destruct (pm_forDisplay message) as [[] |]; congruence. }
  destruct (mapM_In _ _ _ _ Hrec Hkept) as (content & Hcontent & Hinc).
  exists content. split; [exact Hinc |].
  destruct (mapM (fun block =>
                    Interface.persistentContentBlockToPart getImage block sessionId)
                 (pm_content message)) as [ps |] eqn:Eps; [| discriminate].
  destruct (mapM_In _ _ _ _ Eps Hblock) as (p & Hp & Hinp).
  cbn in Hp. injection Hp as <-.
  cbn [bind] in Hcontent. injection Hcontent as <-. exact Hinp.
Qed.

(** The history recovered from a log of one model message with a thought
    and a function call. *)
Definition recovered_call_message : Result (list Content) :=
  Eval vm_compute in
    Interface.getHistoryMessages (fun _ _ => Ok "bytes") "s1" [call_message].

(** X3 on that log. *)
Lemma getHistoryMessages_keeps_thoughts_witness :
  exists recovered,
    recovered_call_message = Ok recovered
    /\ pm_forDisplay call_message <> Some true
    /\ In (BThought "wait for the page") (pm_content call_message)
    /\ exists content,
         In content recovered
         /\ In (thoughtPart "wait for the page") (parts content).
Proof.
  eexists. split; [reflexivity |].
  split; [discriminate |]. split; [now left |].
  refine (getHistoryMessages_keeps_thoughts (fun _ _ => Ok "bytes") "s1"
            [call_message] _ call_message "wait for the page"
            (eq_refl : Interface.getHistoryMessages (fun _ _ => Ok "bytes") "s1"
                         [call_message] = recovered_call_message) _ _ _).
  - now left.
  - discriminate.
  - now left.
Defined.

(** The log a run leaves: the messages it persisted, converted as
    [persistMessage] converts them, numbered in order. *)
Fixpoint logOf (sessionId : string) (n : N) (events : list Event)
    : list PersistentMessage :=
  match events with
  | [] => []
  | Persisted m :: rest =>
      match Interface.toPersistentMessage sessionId (decimal n) (decimal n) m with
      | Ok pm => pm :: logOf sessionId (n + 1) rest
      | Throw _ => logOf sessionId n rest
      end
  | _ :: rest => logOf sessionId n rest
  end.

(** Whether a call is a planning request with a thought part in it. *)
Definition sendsThought (e : Event) : bool :=
  match e with
  | PlanRequested contents =>
      existsb (fun content => existsb thought (parts content)) contents
  | _ => false
  end.

(** The planner thinks aloud, then asks for a click. *)
Definition click_plan : LlmReply :=
  {| chunks :=
       [{| chunk_parts := [{| cp_text := Some "I will click the menu.";
                              cp_thought := true |}];
           chunk_functionCalls := None |};
        {| chunk_parts := [];
           chunk_functionCalls :=
             Some [{| raw_id := Some "call-1"; raw_name := "computer_click";
                      raw_args := [("image_id", JNumber "0");
                                   ("element_description",
                                    JString "File menu")] |}] |}];
     failure := None |}.

Definition file_menu_box_reply : LlmReply :=
  textReply ("{" ++ str1 quote ++ "box_2d" ++ str1 quote
             ++ ": [100, 100, 200, 200]}")%string.

(** First run: the user asks, the planner answers [click_plan], the click
    is grounded and the turn is suspended for review. *)
Definition first_run : World :=
  snd (runAgent bare_env [] (InputText "Open the file menu") [click_plan]
         (fresh_world [file_menu_box_reply])).

(** The log of session [s1] after it, and after the user accepted the
    review. *)
Definition first_log : list PersistentMessage :=
  logOf "s1" 0 (trace first_run).

Definition accepted_log : list PersistentMessage :=
  first_log
  ++ [{| pm_id := "accepted"; pm_role := user; pm_content := [];
         pm_toolReview :=
           Some (Response {| resp_reviewId := "call-1";
                             resp_choice := accept_once |});
         pm_forDisplay := Some true; pm_timestamp := "accepted" |}].

(** Second run: the history is recovered from the log, the accepted call
    is executed, and the planner is asked for the next step. *)
Definition second_run : Result (Result unit * World) :=
  bind (Interface.getHistoryMessages (fun _ _ => Ok "bytes") "s1" accepted_log)
    (fun historyMessages =>
       Ok (runAgent bare_env historyMessages
             (InputDecisions
                (map (fun r => {| d_functionCall := req_functionCall r;
                                  d_originalFunctionCall :=
                                    req_originalFunctionCall r;
                                  d_response := accept_once |})
                     (fst (Interface.recoverToolReviews accepted_log))))
             [silence; silence] (fresh_world []))).

(** C2, the run of the code on its failing input.  The first run persists
    the planner's thought in its model message; [recoverHistory] turns
    that block into a part flagged as thought; and the request the second
    run sends to the planning model carries this part. *)
Theorem recovered_thought_is_sent_to_planner :
  existsb (fun message =>
             existsb (fun block => match block with
                                   | BThought _ => true
                                   | _ => false
                                   end) (pm_content message)) first_log
  = true
  /\ match Interface.getHistoryMessages (fun _ _ => Ok "bytes") "s1" accepted_log with
     | Ok historyMessages =>
         existsb (fun content =>
                    existsb (fun p =>
                               thought p
                               && match text p with
                                  | Some t => String.eqb t "I will click the menu."
                                  | None => false
                                  end) (parts content)) historyMessages
     | Throw _ => false
     end = true
  /\ match second_run with
     | Ok (Ok tt, w) => existsb sendsThought (trace w)
     | _ => false
     end = true.
Proof.
  split; [vm_compute; reflexivity |].
  split; vm_compute; reflexivity.
Qed.

(** ** What [planNextStep] adds to the history *)

(** The parts of all the contents of a history. *)
Definition partsOf (h : list Content) : list Part := flat_map parts h.

Lemma partsOf_app a b : partsOf (a ++ b) = partsOf a ++ partsOf b.
Proof. apply flat_map_app. Qed.

Lemma rev_cons_inv {A} (h : list A) x earlier :
  List.rev h = x :: earlier -> h = List.rev earlier ++ [x].
Proof.
  intros E. apply (f_equal (@List.rev A)) in E.
  rewrite rev_involutive in E. exact E.
Qed.

Lemma partsOf_appendContent h content :
  partsOf (fst (appendContent h content)) = partsOf h ++ parts content.
Proof.
  unfold appendContent.
  destruct (List.rev h) as [| lastMessage earlier] eqn:E.
  - cbn [fst]. rewrite partsOf_app. unfold partsOf at 2. simpl.
    now rewrite app_nil_r.
  - apply rev_cons_inv in E. subst h.
    destruct (sameRole (role lastMessage) (role content)); cbn [fst];
      rewrite !partsOf_app; unfold partsOf; simpl; rewrite !app_nil_r.
    + now rewrite app_assoc.
    + reflexivity.
Qed.

Lemma partsOf_replaceLastParts h ps p :
  In p (partsOf (replaceLastParts h ps)) -> In p (partsOf h) \/ In p ps.
Proof.
  unfold replaceLastParts.
  destruct (List.rev h) as [| lastMessage earlier] eqn:E; [intros [] |].
  apply rev_cons_inv in E. subst h. rewrite !partsOf_app.
  intros H. apply in_app_or in H. destruct H as [H | H].
  - left. apply in_or_app. now left.
  - right. unfold partsOf in H. simpl in H. now rewrite app_nil_r in H.
Qed.

(** X1: [planNextStep] adds no thought to the in-memory history.  Every
    part flagged as thought that the history holds after the call was in
    the history, or among the current parts, before it: the model content
    appended after a plan is made of the output text and the function
    calls only, and the thoughts of the reply are streamed, not kept. *)
Theorem planNextStep_adds_no_thought
    reply extraPrompt st planned st' w w' p :
  planNextStep reply extraPrompt st w = (Ok (planned, st'), w') ->
  In p (partsOf (history st')) -> thought p = true ->
  In p (partsOf (history st)) \/ In p (currentParts st).
Proof.
  unfold planNextStep.
  set (userParts :=
         if truthy extraPrompt
         then currentParts st
              ++ [textPart (match extraPrompt with
                            | Some t => t
                            | None => EmptyString
                            end)]
         else currentParts st).
  set (history0 :=
         if truthy extraPrompt && shared st
         then replaceLastParts (history st) userParts
         else history st).
  assert (Huser : forall q, In q userParts -> thought q = true ->
                            In q (currentParts st)).
  { intros q Hq Ht. unfold userParts in Hq.
    destruct (truthy extraPrompt); [| exact Hq].
    apply in_app_or in Hq. destruct Hq as [Hq | [<- | []]]; [exact Hq |].
    discriminate. }
  assert (Hh0 : forall q, In q (partsOf history0) -> thought q = true ->
                          In q (partsOf (history st)) \/ In q (currentParts st)).
  { intros q Hq Ht. unfold history0 in Hq.
    destruct (truthy extraPrompt && shared st); [| now left].
    apply partsOf_replaceLastParts in Hq. destruct Hq as [Hq | Hq]; auto. }
  pose proof (partsOf_appendContent history0
                {| role := roleUser; parts := userParts |}) as Hreq.
  destruct (appendContent history0 {| role := roleUser; parts := userParts |})
    as [requestContents merged].
  cbn [fst parts] in Hreq.
  assert (Hrc : forall q, In q (partsOf requestContents) -> thought q = true ->
                          In q (partsOf (history st)) \/ In q (currentParts st)).
  { intros q Hq Ht. rewrite Hreq in Hq. apply in_app_or in Hq.
    destruct Hq as [Hq | Hq]; auto. }
  unfold bindM at 1. rewrite emit_extend.
  unfold bindM at 1.
  destruct reply as [r |]; [| unfold throw; discriminate].
  unfold ret at 1. unfold bindM at 1.
  destruct (processStreamResponse model r None _)
    as [[[[thoughtText outputText] calls] | e] w1]; [| discriminate].
  destruct (negb (is_empty outputText) || negb (is_nil calls));
    unfold ret; intros Hrun Hin Hthought;
    injection Hrun as _ <- _; cbn [history] in Hin.
  - rewrite partsOf_appendContent in Hin. cbn [parts] in Hin.
    apply in_app_or in Hin. destruct Hin as [Hin | Hin]; [auto |].
    exfalso. apply in_app_or in Hin. destruct Hin as [Hin | Hin].
    + destruct (negb (is_empty outputText)); [| destruct Hin].
      destruct Hin as [<- | []]. discriminate.
    + apply in_map_iff in Hin. destruct Hin as (fc & <- & _). discriminate.
  - auto.
Qed.

(** The state of a resumed run whose recovered history holds a thought,
    and what [planNextStep] makes of it when the planner answers
    [click_plan]. *)
Definition resumed_state : PlanState :=
  {| currentParts := [textPart "go on"];
     history := [{| role := roleModel;
                    parts := [thoughtPart "I will click the menu."] |}];
     shared := false; functionCalls := [] |}.

Definition resumed_plan : Result (bool * PlanState) * World :=
  Eval vm_compute in
    planNextStep (Some click_plan) None resumed_state (fresh_world []).

(** X1 on [resumed_state]: the thought the history holds after the plan is
    the recovered one, not the one of the reply. *)
Lemma planNextStep_adds_no_thought_witness :
  exists planned st' w',
    resumed_plan = (Ok (planned, st'), w')
    /\ existsb (fun p => match text p with
                         | Some t => String.eqb t "I will click the menu."
                         | None => false
                         end) (partsOf (history st')) = true
    /\ (In (thoughtPart "I will click the menu.") (partsOf (history resumed_state))
        \/ In (thoughtPart "I will click the menu.") (currentParts resumed_state)).
Proof.
  eexists _, _, _. split; [reflexivity |]. split; [reflexivity |].
  refine (planNextStep_adds_no_thought (Some click_plan) None resumed_state
            _ _ (fresh_world []) _ (thoughtPart "I will click the menu.")
            (eq_refl : planNextStep (Some click_plan) None resumed_state
                         (fresh_world []) = resumed_plan) _ eq_refl).
  simpl. auto.
Defined.

End AgentRuns.

(* ================================================================== *)
(** * More on the tiling and the de-normalisation (screen.ts) *)
(* ================================================================== *)

Section ScreenGeometry.
Import ScreenTs.
Local Open Scope list_scope.
Local Open Scope Z_scope.

Lemma Math_round_half_le s : 1 <= s -> Math_round_half s <= s.
Proof.
  intros Hs. unfold Math_round_half.
  pose proof (Z.div_mod (s + 1) 2 ltac:(lia)).
  pose proof (Z.mod_pos_bound (s + 1) 2 ltac:(lia)). lia.
Qed.

(** The offsets along the long axis: each leaves room for a tile, and
    the tiles that start at them leave no position of the axis out. *)
Lemma axisOffsets_cover side limit :
  0 < side -> side <= limit ->
  exists offsets,
    axisOffsets side limit = Some offsets
    /\ (forall o, In o offsets -> 0 <= o /\ o + side <= limit)
    /\ (forall x, 0 <= x < limit ->
          exists o, In o offsets /\ o <= x < o + side).
Proof.
  intros Hside Hlimit.
  destruct (Z.eq_dec side limit) as [-> | Hne].
  - exists [0]. split; [| split].
    + unfold axisOffsets.
      destruct (Z.to_nat limit) as [| fuel]; cbn [cropLoop];
        (destruct (Z.ltb_spec (Math_round_half limit + limit) limit) as [Hlt | _];
         [pose proof (Math_round_half_bounds limit ltac:(lia)); lia |]);
        unfold capPoints; cbn [last];
        rewrite Z.sub_diag; reflexivity.
    + intros o [<- | []]. lia.
    + intros x Hx. exists 0. split; [now left | lia].
  - destruct (axisOffsets_closed side limit Hside ltac:(lia)) as (Hoff & Hlo & Hhi).
    destruct (Math_round_half_bounds side ltac:(lia)) as [Hstep _].
    pose proof (Math_round_half_le side ltac:(lia)) as Hle.
    set (step := Math_round_half side) in *.
    set (n := roundsFrom step side limit step) in *.
    exists (stepped 0 step (S n) ++ [limit - side]).
    split; [exact Hoff |]. split.
    + intros o Hin. destruct (In_nth_error _ _ Hin) as (i & Hi).
      destruct (nth_error_offsets _ _ _ _ _ Hi) as [(Hin' & ->) | (_ & ->)].
      * assert (Z.of_nat i * step <= Z.of_nat n * step)
          by (apply Z.mul_le_mono_nonneg_r; lia).
        assert (0 <= Z.of_nat i * step) by (apply Z.mul_nonneg_nonneg; lia).
        lia.
      * lia.
    + intros x Hx. destruct (Z_le_gt_dec (limit - side) x) as [Hcap | Hin].
      * exists (limit - side). split; [| lia].
        apply in_or_app. right. now left.
      * pose proof (Z.div_mod x step ltac:(lia)) as Hdiv.
        pose proof (Z.mod_pos_bound x step ltac:(lia)) as Hmod.
        assert (Hq0 : 0 <= x / step) by (apply Z.div_pos; lia).
        assert (Hqn : x / step <= Z.of_nat n).
        { destruct (Z_le_gt_dec (x / step) (Z.of_nat n)) as [H | H]; [exact H |].
          assert ((Z.of_nat n + 1) * step <= (x / step) * step)
            by (apply Z.mul_le_mono_nonneg_r; lia).
          lia. }
        exists (x / step * step). split.
        -- apply in_or_app. left.
           apply (nth_error_In _ (Z.to_nat (x / step))).
           rewrite nth_error_stepped by lia.
           rewrite Z2Nat.id by lia. f_equal.
        -- lia.
Qed.

(** What [setCropConfiguration] builds for a screenshot with at least one
    pixel each way. *)
Lemma newScreen_tiles w h :
  0 < w -> 0 < h ->
  exists scr,
    newScreen {| width := w; height := h |} = Some scr
    /\ resolution scr = {| width := w; height := h |}
    /\ cropSquareSideLength scr = Z.min w h
    /\ (forall p, In p (squareStartingPoints scr) ->
          0 <= cx p /\ 0 <= cy p
          /\ cx p + cropSquareSideLength scr <= w
          /\ cy p + cropSquareSideLength scr <= h)
    /\ (forall x y, 0 <= x < w -> 0 <= y < h ->
          exists p, In p (squareStartingPoints scr)
                    /\ cx p <= x < cx p + cropSquareSideLength scr
                    /\ cy p <= y < cy p + cropSquareSideLength scr).
Proof.
  intros Hw Hh. unfold newScreen. cbn [width height].
  destruct (Z.ltb_spec h w) as [Hwide | Htall].
  - rewrite Z.min_r by lia.
    destruct (axisOffsets_cover h w Hh ltac:(lia)) as (offs & -> & Hfit & Hcover).
    eexists. split; [reflexivity |].
    cbn [resolution cropSquareSideLength squareStartingPoints].
    split; [reflexivity |]. split; [reflexivity |]. split.
    + intros p Hp. apply in_map_iff in Hp. destruct Hp as (o & <- & Ho).
      cbn [cx cy]. pose proof (Hfit o Ho). lia.
    + intros x y Hx Hy. destruct (Hcover x Hx) as (o & Ho & Hox).
      exists {| cx := o; cy := 0 |}. split; [| cbn [cx cy]; lia].
      apply in_map_iff. now exists o.
  - rewrite Z.min_l by lia.
    destruct (axisOffsets_cover w h Hw ltac:(lia)) as (offs & -> & Hfit & Hcover).
    eexists. split; [reflexivity |].
    cbn [resolution cropSquareSideLength squareStartingPoints].
    split; [reflexivity |]. split; [reflexivity |]. split.
    + intros p Hp. apply in_map_iff in Hp. destruct Hp as (o & <- & Ho).
      cbn [cx cy]. pose proof (Hfit o Ho). lia.
    + intros x y Hx Hy. destruct (Hcover y Hy) as (o & Ho & Hoy).
      exists {| cx := 0; cy := o |}. split; [| cbn [cx cy]; lia].
      apply in_map_iff. now exists o.
Qed.

(** X4: for a screenshot of any shape with at least one pixel each way
    (wide, tall or square), [setCropConfiguration] ends, the side of the
    tiles is the shorter dimension, every tile lies inside the screenshot
    and every pixel of the screenshot lies in some tile. *)
Theorem tiles_cover_the_screenshot (w h : Z) :
  0 < w -> 0 < h ->
  exists scr,
    newScreen {| width := w; height := h |} = Some scr
    /\ cropSquareSideLength scr = Z.min w h
    /\ (forall p, In p (squareStartingPoints scr) ->
          0 <= cx p /\ 0 <= cy p
          /\ cx p + cropSquareSideLength scr <= w
          /\ cy p + cropSquareSideLength scr <= h)
    /\ (forall x y, 0 <= x < w -> 0 <= y < h ->
          exists p, In p (squareStartingPoints scr)
                    /\ cx p <= x < cx p + cropSquareSideLength scr
                    /\ cy p <= y < cy p + cropSquareSideLength scr).
Proof.
  intros Hw Hh.
  destruct (newScreen_tiles w h Hw Hh) as (scr & Hscr & _ & Hside & Hfit & Hcover).
  exists scr. auto.
Qed.

(** X4 on a tall screenshot of 1080 x 1920 pixels. *)
Lemma tiles_cover_the_screenshot_witness :
  (0 < 1080 /\ 0 < 1920)
  /\ exists scr,
       newScreen {| width := 1080; height := 1920 |} = Some scr
       /\ cropSquareSideLength scr = Z.min 1080 1920
       /\ (forall p, In p (squareStartingPoints scr) ->
             0 <= cx p /\ 0 <= cy p
             /\ cx p + cropSquareSideLength scr <= 1080
             /\ cy p + cropSquareSideLength scr <= 1920)
       /\ (forall x y, 0 <= x < 1080 -> 0 <= y < 1920 ->
             exists p, In p (squareStartingPoints scr)
                       /\ cx p <= x < cx p + cropSquareSideLength scr
                       /\ cy p <= y < cy p + cropSquareSideLength scr).
Proof.
  split; [lia |].
  apply (tiles_cover_the_screenshot 1080 1920); lia.
Defined.

Lemma nearest_range side c :
  0 <= side -> 0 <= c <= 1000 -> 0 <= nearest side c <= side.
Proof.
  intros Hside Hc. pose proof (nearest_bounds side c) as [H1 H2].
  assert (0 <= c * side) by (apply Z.mul_nonneg_nonneg; lia).
  assert (c * side <= 1000 * side) by (apply Z.mul_le_mono_nonneg_r; lia).
  lia.
Qed.

Lemma nearest_monotone side c d :
  0 <= side -> c <= d -> nearest side c <= nearest side d.
Proof.
  intros Hside Hcd. unfold nearest. apply Z.div_le_mono; [lia |].
  assert (c * side <= d * side) by (apply Z.mul_le_mono_nonneg_r; lia).
  lia.
Qed.

(** X5: the point a grounded action is sent to lies on the screen.  For
    the screen of a screenshot with at least one pixel each way, on a tile
    side where the doubles round exactly, every tile of the screen and
    every box inside [0, 1000] with [xmin < xmax] and [ymin < ymax]:
    [toScreenCoordinate] returns a point of that tile, edges included,
    hence a point within the width and the height of the screenshot. *)
Theorem grounded_point_is_on_screen
    (w h : Z) (scr : Screen) (i : nat) (b : Box) (startPoint : Coordinate) :
  0 < w -> 0 < h ->
  newScreen {| width := w; height := h |} = Some scr ->
  roundsExactly (cropSquareSideLength scr) = true ->
  nth_error (squareStartingPoints scr) i = Some startPoint ->
  0 <= xmin b -> xmin b < xmax b -> xmax b <= 1000 ->
  0 <= ymin b -> ymin b < ymax b -> ymax b <= 1000 ->
  exists point,
    toScreenCoordinate scr i (OfBox b) = Some point
    /\ cx startPoint <= cx point <= cx startPoint + cropSquareSideLength scr
    /\ cy startPoint <= cy point <= cy startPoint + cropSquareSideLength scr
    /\ 0 <= cx point <= w /\ 0 <= cy point <= h.
Proof.
  intros Hw Hh Hscr Hexact Hstart Hx0 Hx Hx1 Hy0 Hy Hy1.
  destruct (newScreen_tiles w h Hw Hh) as (scr' & Hscr' & _ & Hside & Hfit & _).
  rewrite Hscr in Hscr'. injection Hscr' as <-.
  pose proof (Hfit startPoint (nth_error_In _ _ Hstart)) as Hin.
  unfold toScreenCoordinate. rewrite Hstart. cbn [getBoxCenter cx cy].
  set (s := cropSquareSideLength scr) in *.
  assert (Hs : 0 <= s) by lia.
  rewrite !(unnormalize_nearest s) by
    (try exact Hexact; apply midpoint_in_range; assumption).
  eexists. split; [reflexivity |]. cbn [cx cy].
  pose proof (nearest_range s ((xmin b + xmax b) / 2) Hs
                (midpoint_in_range _ _ Hx0 Hx Hx1)).
  pose proof (nearest_range s ((ymin b + ymax b) / 2) Hs
                (midpoint_in_range _ _ Hy0 Hy Hy1)).
  lia.
Qed.

(** X5 on tile 1 of a 1024 x 768 screenshot. *)
Lemma grounded_point_is_on_screen_witness :
  let scr := {| resolution := {| width := 1024; height := 768 |};
                cropDirection := vertical;
                cropSquareSideLength := 768;
                squareStartingPoints := [{| cx := 0; cy := 0 |};
                                         {| cx := 256; cy := 0 |}] |} in
  let b := {| ymin := 100; xmin := 900; ymax := 200; xmax := 1000 |} in
  newScreen {| width := 1024; height := 768 |} = Some scr
  /\ exists point,
       toScreenCoordinate scr 1 (OfBox b) = Some point
       /\ 256 <= cx point <= 256 + 768
       /\ 0 <= cy point <= 0 + 768
       /\ 0 <= cx point <= 1024 /\ 0 <= cy point <= 768.
Proof.
  split; [vm_compute; reflexivity |].
  refine (grounded_point_is_on_screen 1024 768
            {| resolution := {| width := 1024; height := 768 |};
               cropDirection := vertical;
               cropSquareSideLength := 768;
               squareStartingPoints := [{| cx := 0; cy := 0 |};
                                        {| cx := 256; cy := 0 |}] |}
            1 {| ymin := 100; xmin := 900; ymax := 200; xmax := 1000 |}
            {| cx := 256; cy := 0 |} _ _ _ roundsExactly_768 eq_refl
            _ _ _ _ _ _);
    cbn [xmin xmax ymin ymax]; try lia.
  vm_compute. reflexivity.
Defined.

(** X6: the point that is clicked lies in the rectangle that is shown for
    review.  On a tile side where the doubles round exactly, for every
    tile and every box inside [0, 1000] with [xmin < xmax] and
    [ymin < ymax], the rectangle of [toScreenRectangle] (the one
    [highlightBox] draws) has a width and a height that are not negative,
    and the point of [toScreenCoordinate] lies within it, edges
    included. *)
Theorem grounded_point_is_in_highlighted_rectangle
    (scr : Screen) (i : nat) (b : Box) (startPoint : Coordinate) :
  nth_error (squareStartingPoints scr) i = Some startPoint ->
  0 <= cropSquareSideLength scr ->
  roundsExactly (cropSquareSideLength scr) = true ->
  0 <= xmin b -> xmin b < xmax b -> xmax b <= 1000 ->
  0 <= ymin b -> ymin b < ymax b -> ymax b <= 1000 ->
  exists point rect,
    toScreenCoordinate scr i (OfBox b) = Some point
    /\ toScreenRectangle scr i b = Some rect
    /\ 0 <= rectWidth rect /\ 0 <= rectHeight rect
    /\ left rect <= cx point <= left rect + rectWidth rect
    /\ top rect <= cy point <= top rect + rectHeight rect.
Proof.
  intros Hstart Hside Hexact Hx0 Hx Hx1 Hy0 Hy Hy1.
  unfold toScreenRectangle, toScreenCoordinate. rewrite Hstart.
  cbn [getBoxCenter cx cy].
  set (s := cropSquareSideLength scr) in *.
  pose proof (midpoint_in_range _ _ Hx0 Hx Hx1) as Hmx.
  pose proof (midpoint_in_range _ _ Hy0 Hy Hy1) as Hmy.
  rewrite !(unnormalize_nearest s) by (try exact Hexact; try assumption; lia).
  eexists. eexists. split; [reflexivity |]. split; [reflexivity |].
  cbn [left top rectWidth rectHeight cx cy].
  pose proof (Z.div_mod (xmin b + xmax b) 2 ltac:(lia)).
  pose proof (Z.mod_pos_bound (xmin b + xmax b) 2 ltac:(lia)).
  pose proof (Z.div_mod (ymin b + ymax b) 2 ltac:(lia)).
  pose proof (Z.mod_pos_bound (ymin b + ymax b) 2 ltac:(lia)).
  pose proof (nearest_monotone s (xmin b) ((xmin b + xmax b) / 2) Hside ltac:(lia)).
  pose proof (nearest_monotone s ((xmin b + xmax b) / 2) (xmax b) Hside ltac:(lia)).
  pose proof (nearest_monotone s (ymin b) ((ymin b + ymax b) / 2) Hside ltac:(lia)).
  pose proof (nearest_monotone s ((ymin b + ymax b) / 2) (ymax b) Hside ltac:(lia)).
  lia.
Qed.

(** X6 on tile 1 of a 1024 x 768 screenshot. *)
Lemma grounded_point_is_in_highlighted_rectangle_witness :
  let scr := {| resolution := {| width := 1024; height := 768 |};
                cropDirection := vertical;
                cropSquareSideLength := 768;
                squareStartingPoints := [{| cx := 0; cy := 0 |};
                                         {| cx := 256; cy := 0 |}] |} in
  let b := {| ymin := 100; xmin := 900; ymax := 200; xmax := 1000 |} in
  exists point rect,
    toScreenCoordinate scr 1 (OfBox b) = Some point
    /\ toScreenRectangle scr 1 b = Some rect
    /\ 0 <= rectWidth rect /\ 0 <= rectHeight rect
    /\ left rect <= cx point <= left rect + rectWidth rect
    /\ top rect <= cy point <= top rect + rectHeight rect.
Proof.
  refine (grounded_point_is_in_highlighted_rectangle
            {| resolution := {| width := 1024; height := 768 |};
               cropDirection := vertical;
               cropSquareSideLength := 768;
               squareStartingPoints := [{| cx := 0; cy := 0 |};
                                        {| cx := 256; cy := 0 |}] |}
            1 {| ymin := 100; xmin := 900; ymax := 200; xmax := 1000 |}
            {| cx := 256; cy := 0 |} eq_refl _ roundsExactly_768
            _ _ _ _ _ _);
    cbn [cropSquareSideLength xmin xmax ymin ymax]; lia.
Defined.

End ScreenGeometry.

(* ================================================================== *)
(** * The context manager (agent.ts) *)
(* ================================================================== *)

Section ContextManagerInvariant.
Import Js Shared Agent.
Local Open Scope list_scope.

(** No two neighbours of a history have the same role. *)
Fixpoint alternates (h : list Content) : bool :=
  match h with
  | a :: (b :: _) as rest => negb (sameRole (role a) (role b)) && alternates rest
  | _ => true
  end.

Lemma sameRole_refl r : sameRole r r = true.
Proof. destruct r; reflexivity. Qed.

Lemma sameRole_eq a b : sameRole a b = true -> a = b.
Proof. destruct a, b; simpl; congruence. Qed.

Lemma sameRole_sym a b : sameRole a b = sameRole b a.
Proof. destruct a, b; reflexivity. Qed.

Lemma mergeFrom_head current rest :
  exists ps t, mergeFrom current rest = {| role := role current; parts := ps |} :: t.
Proof.
  revert current. induction rest as [| next rest IH]; intros current.
  - exists (parts current), []. destruct current. reflexivity.
  - cbn [mergeFrom]. destruct (sameRole (role next) (role current)).
    + destruct (IH {| role := role current;
                      parts := parts current ++ parts next |}) as (ps & t & ->).
      now exists ps, t.
    + exists (parts current), (mergeFrom next rest). destruct current. reflexivity.
Qed.

Lemma mergeFrom_alternates current rest :
  alternates (mergeFrom current rest) = true.
Proof.
  revert current. induction rest as [| next rest IH]; intros current.
  - reflexivity.
  - cbn [mergeFrom]. destruct (sameRole (role next) (role current)) eqn:E.
    + apply IH.
    + pose proof (IH next) as Hnext.
      destruct (mergeFrom_head next rest) as (ps & t & Hhead).
      rewrite Hhead in *. cbn [alternates role].
      rewrite sameRole_sym, E. exact Hnext.
Qed.

Lemma mergeFrom_parts current rest :
  partsOf (mergeFrom current rest) = parts current ++ partsOf rest.
Proof.
  revert current. induction rest as [| next rest IH]; intros current.
  - unfold partsOf. simpl. reflexivity.
  - cbn [mergeFrom]. destruct (sameRole (role next) (role current)).
    + rewrite IH. cbn [parts]. unfold partsOf. simpl.
      now rewrite app_assoc.
    + unfold partsOf in *. simpl. now rewrite IH.
Qed.

Lemma alternates_snoc_same l a a' :
  role a' = role a -> alternates (l ++ [a]) = true -> alternates (l ++ [a']) = true.
Proof.
  intros Hrole. induction l as [| x l IH]; [reflexivity |].
  destruct l as [| y l].
  - cbn. rewrite Hrole. auto.
  - change ((x :: y :: l) ++ [a]) with (x :: (y :: l) ++ [a]).
    change ((x :: y :: l) ++ [a']) with (x :: (y :: l) ++ [a']).
    change ((y :: l) ++ [a]) with (y :: l ++ [a]) in *.
    change ((y :: l) ++ [a']) with (y :: l ++ [a']) in *.
    cbn [alternates]. intros H. apply andb_true_iff in H.
    destruct H as [-> H]. cbn [andb]. apply IH. exact H.
Qed.

Lemma alternates_snoc_other l a c :
  sameRole (role a) (role c) = false ->
  alternates (l ++ [a]) = true -> alternates ((l ++ [a]) ++ [c]) = true.
Proof.
  intros Hrole. induction l as [| x l IH].
  - cbn. now rewrite Hrole.
  - destruct l as [| y l].
    + cbn [app alternates]. rewrite Hrole. cbn [negb andb].
      rewrite !andb_true_r. auto.
    + change (((x :: y :: l) ++ [a]) ++ [c])
        with (x :: y :: (l ++ [a]) ++ [c]).
      change ((x :: y :: l) ++ [a]) with (x :: y :: l ++ [a]).
      change (((y :: l) ++ [a]) ++ [c]) with (y :: (l ++ [a]) ++ [c]) in IH.
      change ((y :: l) ++ [a]) with (y :: l ++ [a]) in IH.
      cbn [alternates]. intros H. apply andb_true_iff in H.
      destruct H as [-> H]. cbn [andb]. apply IH. exact H.
Qed.

Lemma appendContent_alternates h content :
  alternates h = true -> alternates (fst (appendContent h content)) = true.
Proof.
  intros Halt. unfold appendContent.
  destruct (List.rev h) as [| lastMessage earlier] eqn:E.
  - apply (f_equal (@List.rev Content)) in E. rewrite rev_involutive in E.
    subst h. reflexivity.
  - apply rev_cons_inv in E. subst h.
    destruct (sameRole (role lastMessage) (role content)) eqn:Hrole; cbn [fst].
    + apply (alternates_snoc_same _ lastMessage); [reflexivity | exact Halt].
    + apply alternates_snoc_other; assumption.
Qed.

(** X7: the history of the context manager alternates in role and loses
    nothing.  After [new ContextManager(initialHistory)] no two
    neighbouring contents have the same role, and the parts of the history
    are those of the initial history in their order; [appendContent]
    keeps the alternation and adds the parts of the content at the end,
    whether it merges the content into the last entry or pushes it. *)
Theorem context_manager_history_alternates :
  (forall initialHistory,
     alternates (mergeAdjacentMessages initialHistory) = true
     /\ partsOf (mergeAdjacentMessages initialHistory) = partsOf initialHistory)
  /\ (forall h content,
        alternates h = true ->
        alternates (fst (appendContent h content)) = true
        /\ partsOf (fst (appendContent h content)) = partsOf h ++ parts content).
Proof.
  split.
  - intros [| first rest]; [split; reflexivity |].
    cbn [mergeAdjacentMessages]. split.
    + apply mergeFrom_alternates.
    + apply mergeFrom_parts.
  - intros h content Halt. split.
    + apply appendContent_alternates, Halt.
    + apply partsOf_appendContent.
Qed.

(** X7 on a recovered history of two user messages and a model message,
    to which a user content is appended. *)
Lemma context_manager_history_alternates_witness :
  let recovered :=
    [{| role := roleUser; parts := [textPart "hi"] |};
     {| role := roleUser; parts := [textPart "Screenshot at 0:"] |};
     {| role := roleModel; parts := [textPart "Done."] |}] in
  let h := mergeAdjacentMessages recovered in
  let content := {| role := roleUser; parts := [textPart "thanks"] |} in
  alternates h = true
  /\ alternates (fst (appendContent h content)) = true
  /\ partsOf (fst (appendContent h content)) = partsOf h ++ parts content.
Proof.
  split; [reflexivity |].
  exact (proj2 context_manager_history_alternates
           (mergeAdjacentMessages
              [{| role := roleUser; parts := [textPart "hi"] |};
               {| role := roleUser; parts := [textPart "Screenshot at 0:"] |};
               {| role := roleModel; parts := [textPart "Done."] |}])
           {| role := roleUser; parts := [textPart "thanks"] |} eq_refl).
Defined.

End ContextManagerInvariant.

(* ================================================================== *)
(** * Blocks, parts and the recovery of reviews (interface.ts) *)
(* ================================================================== *)

Section BlocksAndParts.
Import Js Json Shared AgentTypes Interface.
Local Open Scope list_scope.
Local Open Scope string_scope.

(** The blocks [partToPersistentContentBlock] can produce: a thought or a
    text that is not empty, a function call, a function response. *)
Definition storedBlock (block : PersistentMessageContentBlock) : bool :=
  match block with
  | BThought t | BText t => negb (is_empty t)
  | BImage _ => false
  | BFunctionCall _ | BFunctionResponse _ => true
  end.

(** X8: blocks and parts convert back and forth.  Every block that
    [partToPersistentContentBlock] produces from a part is a thought or a
    text that is not empty, a function call or a function response; every
    such block is turned by [persistentContentBlockToPart] into a part
    that converts back to the same block, whatever the session; and the
    part of any other block (an empty thought or text, an image) is one
    that [partToPersistentContentBlock] throws on. *)
Theorem block_part_round_trip :
  (forall part block,
     partToPersistentContentBlock part = Ok block -> storedBlock block = true)
  /\ (forall getImage sessionId block,
        storedBlock block = true ->
        exists part,
          persistentContentBlockToPart getImage block sessionId = Ok part
          /\ partToPersistentContentBlock part = Ok block)
  /\ (forall getImage sessionId block part,
        storedBlock block = false ->
        persistentContentBlockToPart getImage block sessionId = Ok part ->
        exists e, partToPersistentContentBlock part = Throw e).
Proof.
  split; [| split].
  - intros part block. unfold partToPersistentContentBlock.
    destruct (thought part).
    + destruct (functionCall part); [discriminate |].
      destruct (text part) as [[| c t] |]; cbn; try discriminate.
      intros H. injection H as <-. reflexivity.
    + destruct (text part) as [[| c t] |]; cbn.
      * destruct (functionCall part), (functionResponse part);
          intros H; try discriminate; injection H as <-; reflexivity.
      * destruct (functionCall part); [discriminate |].
        intros H. injection H as <-. reflexivity.
      * destruct (functionCall part), (functionResponse part);
          intros H; try discriminate; injection H as <-; reflexivity.
  - intros getImage sessionId block Hstored.
    destruct block as [t | t | fc | img | fr]; cbn in Hstored; try discriminate.
    + exists (thoughtPart t). split; [reflexivity |].
      destruct t; [discriminate | reflexivity].
    + exists (textPart t). split; [reflexivity |].
      destruct t; [discriminate | reflexivity].
    + exists (functionCallPart fc). split; reflexivity.
    + exists (functionResponsePart fr). split; reflexivity.
  - intros getImage sessionId block part Hstored.
    destruct block as [t | t | fc | img | fr]; cbn in Hstored; try discriminate.
    + destruct t; [| discriminate]. cbn. intros H. injection H as <-.
      eexists. reflexivity.
    + destruct t; [| discriminate]. cbn. intros H. injection H as <-.
      eexists. reflexivity.
    + cbn. destruct (startsWith "internal://" (src img)); [| discriminate].
      destruct (split "/" (slice 11 (src img))) as [| sid rest]; [discriminate |].
      destruct (negb (sid =? sessionId)); [discriminate |].
      destruct rest as [| fileName rest]; [discriminate |].
      destruct (getImage sid fileName) as [bytes | e]; [| discriminate].
      cbn. intros H. injection H as <-. eexists. reflexivity.
Qed.

(** X8 on a text block. *)
Lemma block_part_round_trip_witness :
  storedBlock (BText "hello") = true
  /\ exists part,
       persistentContentBlockToPart (fun _ _ => Ok "bytes") (BText "hello") "s1"
       = Ok part
       /\ partToPersistentContentBlock part = Ok (BText "hello").
Proof.
  split; [reflexivity |].
  exact (proj1 (proj2 block_part_round_trip)
           (fun _ _ => Ok "bytes") "s1" (BText "hello") eq_refl).
Defined.

Lemma substring_all s : substring 0 (length s) s = s.
Proof. induction s as [| c s IH]; [reflexivity |]. simpl. now rewrite IH. Qed.

Lemma slice_internal rest : slice 11 ("internal://" ++ rest) = rest.
Proof. unfold slice. simpl. rewrite Nat.sub_0_r. apply substring_all. Qed.

Lemma startsWith_internal rest :
  startsWith "internal://" ("internal://" ++ rest) = true.
Proof. unfold startsWith. destruct rest; reflexivity. Qed.

Lemma image_block_read getImage sessionId fileName session :
  has "/" sessionId = false -> has "/" fileName = false ->
  persistentContentBlockToPart getImage
    (BImage {| src := "internal://" ++ sessionId ++ "/" ++ fileName |}) session
  = if negb (sessionId =? session) then
      Throw (Error ("Image session ID does not match: "
                    ++ sessionId ++ " !== " ++ session))
    else
      bind (getImage sessionId fileName)
        (fun bytes => Ok (inlineDataPart {| data := bytes;
                                            mimeType := "image/png" |})).
Proof.
  intros Hsid Hfile.
  assert (Hsplit : split "/" (sessionId ++ "/" ++ fileName)
                   = [sessionId; fileName]).
  { change (sessionId ++ "/" ++ fileName)
      with (sessionId ++ String "/" fileName).
    rewrite split_app, (split_without _ _ Hsid), (split_without _ _ Hfile).
    reflexivity. }
  unfold persistentContentBlockToPart. cbn [src].
  rewrite startsWith_internal, slice_internal, Hsplit. reflexivity.
Qed.

(** X9: an image saved in a session is read back from that session, and
    from no other.  For a session id and a file name without a slash, the
    block that [persistMessage] writes for the image file is turned by
    [persistentContentBlockToPart], in the same session, into the inline
    data that [getImage] returns for that session and that file (or its
    error); in any other session the conversion throws
    [Image session ID does not match]. *)
Theorem saved_image_is_read_from_its_session
    (getImage : string -> string -> Result string)
    (sessionId id timestamp fileName : string) (message : AgentPersistMessage)
    (persisted : PersistentMessage) :
  has "/" sessionId = false -> has "/" fileName = false ->
  toPersistentMessage sessionId id timestamp message = Ok persisted ->
  In (OfImageFile fileName) (apm_parts message) ->
  exists block,
    In block (pm_content persisted)
    /\ block = BImage {| src := "internal://" ++ sessionId ++ "/" ++ fileName |}
    /\ persistentContentBlockToPart getImage block sessionId
       = bind (getImage sessionId fileName)
           (fun bytes => Ok (inlineDataPart {| data := bytes;
                                               mimeType := "image/png" |}))
    /\ (forall other,
          other <> sessionId ->
          persistentContentBlockToPart getImage block other
          = Throw (Error ("Image session ID does not match: "
                          ++ sessionId ++ " !== " ++ other))).
Proof.
  intros Hsid Hfile Hpersist Hin. unfold toPersistentMessage in Hpersist.
  destruct (mapM _ (apm_parts message)) as [content |] eqn:Hcontent;
    [| discriminate].
  cbn [bind] in Hpersist. injection Hpersist as <-. cbn [pm_content].
  destruct (mapM_In _ _ _ _ Hcontent Hin) as (block & Hblock & Hinb).
  exists (BImage {| src := "internal://" ++ sessionId ++ "/" ++ fileName |}).
  split; [injection Hblock as <-; exact Hinb |].
  split; [reflexivity |]. split.
  - rewrite (image_block_read _ _ _ _ Hsid Hfile), String.eqb_refl.
    reflexivity.
  - intros other Hother. rewrite (image_block_read _ _ _ _ Hsid Hfile).
    destruct (String.eqb_spec sessionId other) as [-> | _]; [congruence |].
    reflexivity.
Qed.

(** The message of a screenshot, and what is logged for it. *)
Definition screenshot_message : AgentPersistMessage :=
  {| apm_role := workflow;
     apm_parts := [OfPart (textPart "Screenshot at 0:");
                   OfImageFile "1_screenshot.png"];
     apm_toolReview := None; apm_forDisplay := Some true |}.

Definition screenshot_logged : PersistentMessage :=
  {| pm_id := "7"; pm_role := workflow;
     pm_content := [BText "Screenshot at 0:";
                    BImage {| src := "internal://s1/1_screenshot.png" |}];
     pm_toolReview := None; pm_forDisplay := Some true;
     pm_timestamp := "t7" |}.

(** X9 on the message of a screenshot. *)
Lemma saved_image_is_read_from_its_session_witness :
  toPersistentMessage "s1" "7" "t7" screenshot_message = Ok screenshot_logged
  /\ exists block,
       In block (pm_content screenshot_logged)
       /\ block = BImage {| src := "internal://s1/1_screenshot.png" |}
       /\ persistentContentBlockToPart (fun _ _ => Ok "bytes") block "s1"
          = Ok (inlineDataPart {| data := "bytes"; mimeType := "image/png" |})
       /\ (forall other,
             other <> "s1" ->
             persistentContentBlockToPart (fun _ _ => Ok "bytes") block other
             = Throw (Error ("Image session ID does not match: "
                             ++ "s1" ++ " !== " ++ other))).
Proof.
  split; [reflexivity |].
  refine (saved_image_is_read_from_its_session (fun _ _ => Ok "bytes")
            "s1" "7" "t7" "1_screenshot.png" screenshot_message
            screenshot_logged eq_refl eq_refl eq_refl _).
  right. now left.
Defined.

(** The messages the backward scan of [recoverHistory] passes over: tool
    messages, and messages that carry a review. *)
Definition passedOver (m : PersistentMessage) : bool :=
  match pm_role m with
  | tool => true
  | _ => match pm_toolReview m with
         | Some _ => true
         | None => false
         end
  end.

Definition requestsOf (messages : list PersistentMessage) : list ToolReviewRequest :=
  flat_map (fun m => match pm_role m with
                     | tool => []
                     | _ => match pm_toolReview m with
                            | Some (Request r) => [r]
                            | _ => []
                            end
                     end) messages.

Definition responsesOf (messages : list PersistentMessage)
    : list ToolReviewResponse :=
  flat_map (fun m => match pm_role m with
                     | tool => []
                     | _ => match pm_toolReview m with
                            | Some (Response r) => [r]
                            | _ => []
                            end
                     end) messages.

Lemma scanToolReviews_tail tail :
  forallb passedOver tail = true ->
  forall rest requests responses,
    scanToolReviews (List.rev tail ++ rest) requests responses
    = scanToolReviews rest (requestsOf tail ++ requests)
        (responsesOf tail ++ responses).
Proof.
  induction tail as [| m tail IH]; intros Hall rest requests responses;
    [reflexivity |].
  cbn [forallb] in Hall. apply andb_true_iff in Hall. destruct Hall as [Hm Htail].
  cbn [List.rev]. rewrite <- app_assoc. cbn [app].
  rewrite (IH Htail). cbn [scanToolReviews].
  unfold requestsOf, responsesOf, passedOver in *. cbn [flat_map].
  destruct (pm_role m); try reflexivity;
    destruct (pm_toolReview m) as [[r | r] |]; try discriminate; reflexivity.
Qed.

(** X10: the reviews that [recoverHistory] finds are those logged after
    the last ordinary message.  When the log ends with messages that are
    tool messages or carry a review, preceded by a message that is
    neither (or by nothing), the requests and the responses returned are
    those of these last messages that are not tool messages, in the order
    of the log; nothing before them is looked at. *)
Theorem recoverToolReviews_reads_the_last_reviews :
  (forall earlier stop tail,
     passedOver stop = false -> forallb passedOver tail = true ->
     recoverToolReviews (earlier ++ stop :: tail)
     = (requestsOf tail, responsesOf tail))
  /\ (forall tail,
        forallb passedOver tail = true ->
        recoverToolReviews tail = (requestsOf tail, responsesOf tail)).
Proof.
  split.
  - intros earlier stop tail Hstop Htail. unfold recoverToolReviews.
    rewrite rev_app_distr. cbn [List.rev]. rewrite <- app_assoc. cbn [app].
    rewrite (scanToolReviews_tail tail Htail). cbn [scanToolReviews].
    unfold passedOver in Hstop. rewrite !app_nil_r.
    destruct (pm_role stop); try discriminate;
      destruct (pm_toolReview stop); try discriminate; reflexivity.
  - intros tail Htail. unfold recoverToolReviews.
    rewrite <- (app_nil_r (List.rev tail)).
    rewrite (scanToolReviews_tail tail Htail). cbn [scanToolReviews].
    now rewrite !app_nil_r.
Qed.

(** A log that ends with the reviews of a turn of two calls: the first
    was accepted for the session before, the second waits for review. *)
Definition click_request : ToolReviewRequest :=
  {| req_reviewId := "call-1";
     req_functionCall :=
       {| fc_id := "call-1"; fc_name := ".computer";
          fc_args := [("action", JString "click")] |};
     req_originalFunctionCall :=
       {| fc_id := "call-1"; fc_name := "computer_click";
          fc_args := [("image_id", JNumber "0")] |} |}.

Definition wait_request : ToolReviewRequest :=
  {| req_reviewId := "call-2";
     req_functionCall :=
       {| fc_id := "call-2"; fc_name := ".computer";
          fc_args := [("action", JString "wait"); ("time", JNumber "2")] |};
     req_originalFunctionCall :=
       {| fc_id := "call-2"; fc_name := "computer_wait";
          fc_args := [("time", JNumber "2")] |} |}.

Definition review_message (id : string) (review : ToolReview) (r : Role)
    : PersistentMessage :=
  {| pm_id := id; pm_role := r; pm_content := [];
     pm_toolReview := Some review; pm_forDisplay := Some true;
     pm_timestamp := id |}.

Definition reviews_tail : list PersistentMessage :=
  [review_message "4" (Request click_request) workflow;
   review_message "5"
     (Response {| resp_reviewId := "call-1"; resp_choice := accept_session |})
     user;
   review_message "6" (Request wait_request) workflow].

Definition reviews_log : list PersistentMessage :=
  [example_message "1" "hello"; call_message] ++ reviews_tail.

(** X10 on [reviews_log]. *)
Lemma recoverToolReviews_reads_the_last_reviews_witness :
  passedOver call_message = false
  /\ forallb passedOver reviews_tail = true
  /\ recoverToolReviews reviews_log
     = ([click_request; wait_request],
        [{| resp_reviewId := "call-1"; resp_choice := accept_session |}]).
Proof.
  split; [reflexivity |]. split; [reflexivity |].
  exact (proj1 recoverToolReviews_reads_the_last_reviews
           [example_message "1" "hello"] call_message reviews_tail
           eq_refl eq_refl).
Defined.

End BlocksAndParts.

(* ================================================================== *)
(** * interface.ts: what [runComputerUseAgent] does before the agent runs *)
(* ================================================================== *)

Module Entry.
Import Js Shared AgentTypes Interface.

(** What [runComputerUseAgent] reads and writes of the session before it
    calls [runAgent]: the message log, and the [acceptedTools] of the
    metadata ([None] when the member is absent). *)
Record Store := {
  log : list PersistentMessage;
  acceptedTools : option (list string)
}.

(** How the gate ends: the function returns without running the agent,
    or [runAgent] is called with an input and the accepted tools. *)
Inductive Admission :=
| Returned
| Started (agentInput : AgentInput) (sessionAcceptedTools : list string).

(** The message [persistMessage] logs for a review response. *)
Definition responseMessage (now : string) (input : ToolReviewResponse)
    : PersistentMessage :=
  {| pm_id := now; pm_role := user; pm_content := [];
     pm_toolReview := Some (Response input); pm_forDisplay := Some true;
     pm_timestamp := now |}.

(** The callback of [toolReviewRequests.map]: the decision for a request
    and, for [accept_session], the name pushed on
    [newSessionAcceptedTools]. *)
Definition processRequest (sessionAcceptedTools : list string)
    (toolReviewResponses : list ToolReviewResponse)
    (request : ToolReviewRequest) : Result (Decision * list string) :=
  match find (fun response =>
                String.eqb (resp_reviewId response) (req_reviewId request))
             toolReviewResponses with
  | None =>
      Throw (Error ("Can not find the corresponding tool review response "
                    ++ "for reviewId: " ++ req_reviewId request))
  | Some response =>
      let decision :=
        {| d_functionCall := req_functionCall request;
           d_originalFunctionCall := req_originalFunctionCall request;
           d_response := resp_choice response |} in
      match resp_choice response with
      | accept_session =>
          if existsb (String.eqb (fc_name (req_originalFunctionCall request)))
                     sessionAcceptedTools
          then Throw (Error ("Function "
                             ++ fc_name (req_originalFunctionCall request)
                             ++ " is already accepted in this session"))
          else Ok (decision, [fc_name (req_originalFunctionCall request)])
      | _ => Ok (decision, [])
      end
  end.

(** [runComputerUseAgent] up to the call of [runAgent].  [now] is the
    clock reading that names the logged response.  The store is the one
    left behind, also when the function throws. *)
Definition checkInput (now : string) (store : Store)
    (input : string + ToolReviewResponse) : Result Admission * Store :=
  let (toolReviewRequests, toolReviewResponses) :=
    recoverToolReviews (log store) in
  let sessionAcceptedTools :=
    match acceptedTools store with
    | Some tools => tools
    | None => []
    end in
  match input with
  | inr review =>
      match find (fun r => String.eqb (req_reviewId r) (resp_reviewId review))
                 toolReviewRequests with
      | None =>
          (Throw (Error ("Can not find the corresponding tool review request "
                         ++ "for reviewId: " ++ resp_reviewId review)), store)
      | Some _ =>
          match find (fun r =>
                        String.eqb (resp_reviewId r) (resp_reviewId review))
                     toolReviewResponses with
          | Some _ =>
              (Throw (Error ("The tool review response for reviewId: "
                             ++ resp_reviewId review ++ " already exists")),
               store)
          | None =>
              let responses := (toolReviewResponses ++ [review])%list in
              let logged :=
                {| log := (log store ++ [responseMessage now review])%list;
                   acceptedTools := acceptedTools store |} in
              if (List.length responses <? List.length toolReviewRequests)%nat
              then (Ok Returned, logged)
              else
                match mapM (processRequest sessionAcceptedTools responses)
                           toolReviewRequests with
                | Throw e => (Throw e, logged)
                | Ok processed =>
                    let newSessionAcceptedTools :=
                      List.concat (map snd processed) in
                    let tools :=
                      (sessionAcceptedTools ++ newSessionAcceptedTools)%list in
                    (Ok (Started (InputDecisions (map fst processed)) tools),
                     match newSessionAcceptedTools with
                     | [] => logged
                     | _ :: _ =>
                         {| log := log logged; acceptedTools := Some tools |}
                     end)
                end
          end
      end
  | inl text =>
      if (List.length toolReviewResponses <? List.length toolReviewRequests)%nat
      then (Throw (Error "Input is not allowed when there are pending tool review requests"),
            store)
      else (Ok (Started (InputText text) sessionAcceptedTools), store)
  end.

End Entry.

(* ================================================================== *)
(** * Properties of the gate before the agent (interface.ts) *)
(* ================================================================== *)

Section Admission.
Import Js Shared AgentTypes Interface Entry.
Local Open Scope list_scope.
Local Open Scope string_scope.

(** The reviews recovered from the log of a store, and its accepted
    tools. *)
Definition pendingRequests (store : Store) : list ToolReviewRequest :=
  fst (recoverToolReviews (log store)).

Definition givenResponses (store : Store) : list ToolReviewResponse :=
  snd (recoverToolReviews (log store)).

Definition sessionTools (store : Store) : list string :=
  match acceptedTools store with
  | Some tools => tools
  | None => []
  end.

Definition requested (store : Store) (reviewId : string) : bool :=
  existsb (fun r => String.eqb (req_reviewId r) reviewId) (pendingRequests store).

Definition answered (store : Store) (reviewId : string) : bool :=
  existsb (fun r => String.eqb (resp_reviewId r) reviewId) (givenResponses store).

Lemma find_existsb {A} (f : A -> bool) (l : list A) :
  existsb f l = match find f l with Some _ => true | None => false end.
Proof.
  induction l as [| x l IH]; [reflexivity |].
  simpl. destruct (f x); [reflexivity | exact IH].
Qed.


Lemma checkInput_unfold now store input :
  checkInput now store input
  = let toolReviewRequests := pendingRequests store in
    let toolReviewResponses := givenResponses store in
    match input with
    | inr review =>
        match find (fun r => String.eqb (req_reviewId r) (resp_reviewId review))
                   toolReviewRequests with
        | None =>
            (Throw (Error ("Can not find the corresponding tool review request "
                           ++ "for reviewId: " ++ resp_reviewId review)), store)
        | Some _ =>
            match find (fun r =>
                          String.eqb (resp_reviewId r) (resp_reviewId review))
                       toolReviewResponses with
            | Some _ =>
                (Throw (Error ("The tool review response for reviewId: "
                               ++ resp_reviewId review ++ " already exists")),
                 store)
            | None =>
                let responses := (toolReviewResponses ++ [review])%list in
                let logged :=
                  {| log := (log store ++ [responseMessage now review])%list;
                     acceptedTools := acceptedTools store |} in
                if (List.length responses <? List.length toolReviewRequests)%nat
                then (Ok Returned, logged)
                else
                  match mapM (processRequest (sessionTools store) responses)
                             toolReviewRequests with
                  | Throw e => (Throw e, logged)
                  | Ok processed =>
                      let newSessionAcceptedTools :=
                        List.concat (map snd processed) in
                      let tools :=
                        (sessionTools store ++ newSessionAcceptedTools)%list in
                      (Ok (Started (InputDecisions (map fst processed)) tools),
                       match newSessionAcceptedTools with
                       | [] => logged
                       | _ :: _ =>
                           {| log := log logged; acceptedTools := Some tools |}
                       end)
                  end
            end
        end
    | inl text =>
        if (List.length toolReviewResponses <? List.length toolReviewRequests)%nat
        then (Throw (Error "Input is not allowed when there are pending tool review requests"),
              store)
        else (Ok (Started (InputText text) (sessionTools store)), store)
    end.
Proof.
  unfold checkInput, pendingRequests, givenResponses, sessionTools.
  destruct (recoverToolReviews (log store)) as [requests responses].
  reflexivity.
Qed.

(** X11: the inputs [runComputerUseAgent] refuses leave the session as it
    was.  A text, while fewer responses than requests are recovered from
    the log, is refused with [Input is not allowed when there are pending
    tool review requests]; a review response whose id is the id of no
    recovered request, or of a recovered response, is refused with the
    error that says so; in each case nothing is logged, the accepted
    tools are unchanged and the agent is not run. *)
Theorem refused_input_leaves_the_session_unchanged (now : string) (store : Store) :
  (forall text,
     (List.length (givenResponses store)
      < List.length (pendingRequests store))%nat ->
     checkInput now store (inl text)
     = (Throw (Error "Input is not allowed when there are pending tool review requests"),
        store))
  /\ (forall review,
        requested store (resp_reviewId review) = false ->
        checkInput now store (inr review)
        = (Throw (Error ("Can not find the corresponding tool review request "
                         ++ "for reviewId: " ++ resp_reviewId review)), store))
  /\ (forall review,
        requested store (resp_reviewId review) = true ->
        answered store (resp_reviewId review) = true ->
        checkInput now store (inr review)
        = (Throw (Error ("The tool review response for reviewId: "
                         ++ resp_reviewId review ++ " already exists")), store)).
Proof.
  split; [| split].
  - intros text Hpending. rewrite checkInput_unfold. cbv zeta.
    destruct (Nat.ltb_spec (List.length (givenResponses store))
                (List.length (pendingRequests store))); [reflexivity | lia].
  - intros review Hreq. rewrite checkInput_unfold. cbv zeta.
    unfold requested in Hreq. rewrite find_existsb in Hreq.
    destruct (find _ (pendingRequests store)); [discriminate | reflexivity].
  - intros review Hreq Hans. rewrite checkInput_unfold. cbv zeta.
    unfold requested in Hreq. rewrite find_existsb in Hreq.
    unfold answered in Hans. rewrite find_existsb in Hans.
    destruct (find _ (pendingRequests store)); [| discriminate].
    destruct (find _ (givenResponses store)); [reflexivity | discriminate].
Qed.

Lemma mapM_Forall2 {A B} (f : A -> Result B) xs ys :
  mapM f xs = Ok ys -> Forall2 (fun x y => f x = Ok y) xs ys.
Proof.
  revert ys. induction xs as [| x xs IH]; intros ys H.
  - injection H as <-. constructor.
  - cbn [mapM] in H. destruct (f x) as [y |] eqn:Ex; [| discriminate].
    cbn [bind] in H. destruct (mapM f xs) as [ys' |]; [| discriminate].
    injection H as <-. constructor; auto.
Qed.

(** The names accepted for the session among decisions. *)
Definition acceptedForSession (decisions : list Decision) : list string :=
  flat_map (fun d => match d_response d with
                     | accept_session => [fc_name (d_originalFunctionCall d)]
                     | _ => []
                     end) decisions.

Lemma processed_names tools responses requests processed :
  Forall2 (fun request p => processRequest tools responses request = Ok p)
          requests processed ->
  List.concat (map snd processed) = acceptedForSession (map fst processed).
Proof.
  induction 1 as [| request p requests processed Hp _ IH]; [reflexivity |].
  cbn [map List.concat acceptedForSession flat_map].
  fold (acceptedForSession (map fst processed)). rewrite IH. f_equal.
  unfold processRequest in Hp.
  destruct (find _ responses) as [response |]; [| discriminate].
  destruct (resp_choice response).
  - destruct (existsb _ tools); [discriminate |].
    injection Hp as <-. reflexivity.
  - injection Hp as <-. reflexivity.
  - injection Hp as <-. reflexivity.
Qed.

Lemma checkInput_started
    (now : string) (store store' : Store) (review : ToolReviewResponse)
    (agentInput : AgentInput) (tools : list string) :
  checkInput now store (inr review) = (Ok (Started agentInput tools), store') ->
  exists decisions,
    agentInput = InputDecisions decisions
    /\ Forall2
         (fun request d =>
            d_functionCall d = req_functionCall request
            /\ d_originalFunctionCall d = req_originalFunctionCall request
            /\ exists response,
                 find (fun r => String.eqb (resp_reviewId r)
                                           (req_reviewId request))
                      (givenResponses store ++ [review])%list = Some response
                 /\ d_response d = resp_choice response)
         (pendingRequests store) decisions
    /\ log store' = (log store ++ [responseMessage now review])%list
    /\ tools = (sessionTools store ++ acceptedForSession decisions)%list
    /\ acceptedTools store'
       = match acceptedForSession decisions with
         | [] => acceptedTools store
         | _ :: _ => Some tools
         end.
Proof.
  rewrite checkInput_unfold. cbv zeta.
  destruct (find _ (pendingRequests store)); [| discriminate].
  destruct (find _ (givenResponses store)); [discriminate |].
  destruct (_ <? _)%nat; [discriminate |].
  destruct (mapM _ (pendingRequests store)) as [processed |] eqn:Hmap;
    [| discriminate].
  intros H. injection H as <- <- <-.
  apply mapM_Forall2 in Hmap.
  pose proof (processed_names _ _ _ _ Hmap) as Hnames.
  exists (map fst processed). split; [reflexivity |]. split.
  - clear Hnames. induction Hmap as [| request p requests processed Hp _ IH];
      [constructor |].
    cbn [map]. constructor; [| exact IH].
    unfold processRequest in Hp.
    destruct (find _ (givenResponses store ++ [review])%list) as [response |];
      [| discriminate].
    assert (Hfst : fst p = {| d_functionCall := req_functionCall request;
                              d_originalFunctionCall :=
                                req_originalFunctionCall request;
                              d_response := resp_choice response |}).
    { destruct (resp_choice response);
        [destruct (existsb _ (sessionTools store)); [discriminate |] | |];
        injection Hp as <-; reflexivity. }
    rewrite Hfst. cbn [d_functionCall d_originalFunctionCall d_response].
    split; [reflexivity |]. split; [reflexivity |].
    exists response. split; reflexivity.
  - rewrite Hnames.
    destruct (acceptedForSession (map fst processed)); repeat split; reflexivity.
Qed.

(** X12: the decisions [runAgent] is started with answer the recovered
    requests one for one.  When a review response makes
    [runComputerUseAgent] run the agent, the response was logged first;
    the input is a list of decisions, one for each recovered request in
    the order of the requests, with the function call and the original
    function call of the request and the choice of the first response
    (among the recovered ones and the new one) that carries its review
    id; and the accepted tools handed to the agent, and stored when any
    was added, are those of the session followed by the original names of
    the calls accepted for the session. *)
Theorem started_decisions_answer_the_requests
    (now : string) (store store' : Store) (review : ToolReviewResponse)
    (agentInput : AgentInput) (tools : list string) :
  checkInput now store (inr review) = (Ok (Started agentInput tools), store') ->
  exists decisions,
    agentInput = InputDecisions decisions
    /\ Forall2
         (fun request d =>
            d_functionCall d = req_functionCall request
            /\ d_originalFunctionCall d = req_originalFunctionCall request
            /\ exists response,
                 find (fun r => String.eqb (resp_reviewId r)
                                           (req_reviewId request))
                      (givenResponses store ++ [review])%list = Some response
                 /\ d_response d = resp_choice response)
         (pendingRequests store) decisions
    /\ log store' = (log store ++ [responseMessage now review])%list
    /\ tools = (sessionTools store ++ acceptedForSession decisions)%list
    /\ acceptedTools store'
       = match acceptedForSession decisions with
         | [] => acceptedTools store
         | _ :: _ => Some tools
         end.
Proof.
  exact (checkInput_started now store store' review agentInput tools).
Qed.

End Admission.

(* ================================================================== *)
(** * Rounds of review (agent.ts and interface.ts together) *)
(* ================================================================== *)

Section ReviewRounds.
Import Js Json Shared AgentTypes Interface Entry Agent.
Local Open Scope list_scope.
Local Open Scope string_scope.

(** The session after [first_run]: the click of the planner waits for
    review. *)
Definition pending_log : list PersistentMessage :=
  Eval vm_compute in first_log.

Definition store_pending : Store :=
  {| log := pending_log; acceptedTools := None |}.

(** The same session after the user accepted the click once. *)
Definition answered_log : list PersistentMessage :=
  Eval vm_compute in accepted_log.

Definition store_accepted : Store :=
  {| log := answered_log; acceptedTools := None |}.

Definition accept_click_for_session : ToolReviewResponse :=
  {| resp_reviewId := "call-1"; resp_choice := accept_session |}.

(** X11 on these sessions: a text and a response to a review that was not
    requested, while the click waits; a second response to the click. *)
Lemma refused_input_leaves_the_session_unchanged_witness :
  (List.length (givenResponses store_pending)
   < List.length (pendingRequests store_pending))%nat
  /\ checkInput "9" store_pending (inl "go on")
     = (Throw (Error "Input is not allowed when there are pending tool review requests"),
        store_pending)
  /\ requested store_pending "call-7" = false
  /\ checkInput "9" store_pending
       (inr {| resp_reviewId := "call-7"; resp_choice := accept_once |})
     = (Throw (Error ("Can not find the corresponding tool review request "
                      ++ "for reviewId: " ++ "call-7")), store_pending)
  /\ answered store_accepted "call-1" = true
  /\ checkInput "9" store_accepted (inr accept_click_for_session)
     = (Throw (Error ("The tool review response for reviewId: "
                      ++ "call-1" ++ " already exists")), store_accepted).
Proof.
  assert (Hpending : (List.length (givenResponses store_pending)
                      < List.length (pendingRequests store_pending))%nat)
    by (vm_compute; lia).
  split; [exact Hpending |].
  split; [exact (proj1 (refused_input_leaves_the_session_unchanged
                          "9" store_pending) "go on" Hpending) |].
  split; [reflexivity |].
  split; [exact (proj1 (proj2 (refused_input_leaves_the_session_unchanged
                                 "9" store_pending))
                   {| resp_reviewId := "call-7"; resp_choice := accept_once |}
                   eq_refl) |].
  split; [reflexivity |].
  exact (proj2 (proj2 (refused_input_leaves_the_session_unchanged
                         "9" store_accepted))
           accept_click_for_session eq_refl eq_refl).
Defined.

(** What the gate answers when the click is accepted for the session. *)
Definition click_admission : Result Admission * Store :=
  Eval vm_compute in checkInput "9" store_pending (inr accept_click_for_session).

(** X12 on the pending session: the click is accepted for the session. *)
Lemma started_decisions_answer_the_requests_witness :
  exists agentInput tools store',
    click_admission = (Ok (Started agentInput tools), store')
    /\ exists decisions,
         agentInput = InputDecisions decisions
         /\ Forall2
              (fun request d =>
                 d_functionCall d = req_functionCall request
                 /\ d_originalFunctionCall d = req_originalFunctionCall request
                 /\ exists response,
                      find (fun r => String.eqb (resp_reviewId r)
                                                (req_reviewId request))
                           (givenResponses store_pending
                            ++ [accept_click_for_session])%list
                      = Some response
                      /\ d_response d = resp_choice response)
              (pendingRequests store_pending) decisions
         /\ log store'
            = (log store_pending
               ++ [responseMessage "9" accept_click_for_session])%list
         /\ tools = (sessionTools store_pending
                     ++ acceptedForSession decisions)%list
         /\ acceptedTools store'
            = match acceptedForSession decisions with
              | [] => acceptedTools store_pending
              | _ :: _ => Some tools
              end.
Proof.
  eexists _, _, _. split; [reflexivity |].
  exact (started_decisions_answer_the_requests "9" store_pending _
           accept_click_for_session _ _
           (eq_refl : checkInput "9" store_pending (inr accept_click_for_session)
                      = click_admission)).
Defined.









End ReviewRounds.

(* ================================================================== *)
(** * What a run may call (agent.ts) *)
(* ================================================================== *)

Section AgentCalls.
Import Js Json Shared AgentTypes ScreenTs Agent.
Local Open Scope list_scope.

(** Events other than the execution of a tool, the request of a plan
    and a change of status. *)
Definition plain (e : Event) : bool :=
  match e with
  | ToolExecuted _ | PlanRequested _ | StatusSet _ _ => false
  | _ => true
  end.

(** [Emits P c]: whatever the world, and whether [c] returns or throws,
    the calls it makes are added at the end of the trace, and each of them
    satisfies [P]. *)
Definition EmitsAt (P : Event -> Prop) {A} (c : M A) (w : World) : Prop :=
  exists events, trace (snd (c w)) = trace w ++ events /\ Forall P events.

Definition Emits (P : Event -> Prop) {A} (c : M A) : Prop :=
  forall w, EmitsAt P c w.

Lemma bindM_Ok {A B} (c : M A) (k : A -> M B) w b w2 :
  bindM c k w = (Ok b, w2) ->
  exists a w1, c w = (Ok a, w1) /\ k a w1 = (Ok b, w2).
Proof.
  unfold bindM. destruct (c w) as [[a | e] w1]; intros H.
  - now exists a, w1.
  - discriminate H.
Qed.

Lemma ret_Ok {A} (a b : A) w w1 : ret a w = (Ok b, w1) -> a = b /\ w = w1.
Proof. unfold ret. intros H. now injection H as -> ->. Qed.

Lemma lift_Ok {A} (r : Result A) b w w1 :
  lift r w = (Ok b, w1) -> r = Ok b /\ w = w1.
Proof. unfold lift. intros H. now injection H as -> ->. Qed.

Lemma throw_Ok {A} (e : Exn) (b : A) w w1 : throw e w = (Ok b, w1) -> False.
Proof. unfold throw. intros H. discriminate H. Qed.

(** Follows the run recorded in [H], which returns, through the
    branches it takes. *)
Ltac follow H :=
  repeat
    (cbv zeta in H;
     first
       [ apply bindM_Ok in H as (? & ? & ? & H)
       | apply ret_Ok in H as [H ?]
       | apply lift_Ok in H as [H ?]
       | apply throw_Ok in H; destruct H
       | match type of H with
         | (match ?x with _ => _ end) _ = _ => destruct x eqn:?
         | (let (_, _) := ?x in _) _ = _ => destruct x
         end ]).

Section Rules.

Variable P : Event -> Prop.
Hypothesis P_plain : forall e, plain e = true -> P e.

Lemma Emits_silent {A} (c : M A) :
  (forall w, trace (snd (c w)) = trace w) -> Emits P c.
Proof.
  intros H w. exists []. rewrite app_nil_r. split; [apply H | constructor].
Qed.

Lemma Emits_ret {A} (a : A) : Emits P (ret a).
Proof. now apply Emits_silent. Qed.

Lemma Emits_throw {A} (e : Exn) : Emits P (@throw A e).
Proof. now apply Emits_silent. Qed.

Lemma Emits_lift {A} (r : Result A) : Emits P (lift r).
Proof. now apply Emits_silent. Qed.

Lemma Emits_tick : Emits P tick.
Proof. now apply Emits_silent. Qed.

Lemma Emits_setScreen scr : Emits P (setScreen scr).
Proof. now apply Emits_silent. Qed.

Lemma Emits_getScreen : Emits P getScreen.
Proof.
  apply Emits_silent. intros w. unfold getScreen. now destruct (screen w).
Qed.

Lemma Emits_nextGroundingReply : Emits P nextGroundingReply.
Proof.
  apply Emits_silent. intros w. unfold nextGroundingReply.
  now destruct (groundingReplies w).
Qed.

Lemma Emits_emit e : P e -> Emits P (emit e).
Proof.
  intros He w. exists [e]. split; [reflexivity |]. now constructor.
Qed.

Lemma EmitsAt_bind {A B} (c : M A) (k : A -> M B) w :
  EmitsAt P c w ->
  (forall a w1, c w = (Ok a, w1) -> EmitsAt P (k a) w1) ->
  EmitsAt P (bindM c k) w.
Proof.
  intros (ev1 & Ht1 & Hp1) Hk. unfold EmitsAt, bindM.
  destruct (c w) as [[a | e] w1] eqn:Ec; cbn [snd] in Ht1.
  - destruct (Hk a w1 eq_refl) as (ev2 & Ht2 & Hp2).
    exists (ev1 ++ ev2). split.
    + rewrite Ht2, Ht1. now rewrite app_assoc.
    + apply Forall_app. now split.
  - exists ev1. now split.
Qed.

Lemma Emits_bind {A B} (c : M A) (k : A -> M B) :
  Emits P c ->
  (forall w a w1, c w = (Ok a, w1) -> Emits P (k a)) ->
  Emits P (bindM c k).
Proof.
  intros Hc Hk w. apply EmitsAt_bind; [apply Hc |].
  intros a w1 Ec. now apply (Hk w a w1 Ec).
Qed.

Lemma Emits_tryCatch {A} (c : M A) (handler : Exn -> M A) :
  Emits P c -> (forall e, Emits P (handler e)) -> Emits P (tryCatch c handler).
Proof.
  intros Hc Hh w. destruct (Hc w) as (ev1 & Ht1 & Hp1).
  unfold EmitsAt, tryCatch.
  destruct (c w) as [[a | e] w1]; cbn [snd] in Ht1.
  - exists ev1. now split.
  - destruct (Hh e w1) as (ev2 & Ht2 & Hp2).
    exists (ev1 ++ ev2). split.
    + rewrite Ht2, Ht1. now rewrite app_assoc.
    + apply Forall_app. now split.
Qed.

Lemma Emits_forEachM {A B} (f : A -> M B) (xs : list A) :
  (forall x, In x xs -> Emits P (f x)) -> Emits P (forEachM f xs).
Proof.
  induction xs as [| x xs IH]; intros Hf; cbn [forEachM].
  - apply Emits_ret.
  - apply Emits_bind; [apply Hf; now left |]. intros _ y _ _.
    apply Emits_bind; [apply IH; intros z Hz; apply Hf; now right |].
    intros _ ys _ _. apply Emits_ret.
Qed.

(** One step of the proof that a computation emits: what is known of it,
    the rule for its head, or a case analysis on what it branches on. *)
Ltac emits_step :=
  first
    [ assumption
    | match goal with
      | H : (forall _, _) |- Emits _ _ => solve [apply H; intros; emits_step]
      end
    | apply Emits_ret | apply Emits_throw | apply Emits_lift
    | apply Emits_tick | apply Emits_getScreen | apply Emits_setScreen
    | apply Emits_nextGroundingReply
    | apply Emits_emit; apply P_plain; reflexivity
    | apply Emits_bind; [| intros ? ? ? ?]
    | apply Emits_tryCatch; [| intros ?]
    | match goal with
      | |- Emits _ (match ?x with _ => _ end) => destruct x
      | |- Emits _ (let (_, _) := ?x in _) => destruct x
      end ].

Ltac emits := repeat emits_step.

Lemma Emits_setSessionStatus status message :
  P (StatusSet status (Some message)) ->
  Emits P (setSessionStatus status message).
Proof. intros H. now apply Emits_emit. Qed.

Lemma Emits_streamMessage m : Emits P (streamMessage m).
Proof. unfold streamMessage. emits. Qed.

Lemma Emits_saveImage pixels nameSuffix : Emits P (saveImage pixels nameSuffix).
Proof. unfold saveImage. emits. Qed.

Lemma Emits_persistMessage message : Emits P (persistMessage message).
Proof. unfold persistMessage. emits. Qed.

Lemma Emits_strictFunctionCall fc : Emits P (strictFunctionCall fc).
Proof. unfold strictFunctionCall. emits. Qed.

Lemma Emits_readStream streamRole responses :
  forall thoughtAcc outputAcc calls,
    Emits P (readStream streamRole responses thoughtAcc outputAcc calls).
Proof.
  induction responses as [| resp rest IH]; intros thoughtAcc outputAcc calls;
    cbn [readStream].
  - apply Emits_ret.
  - apply Emits_bind.
    + destruct (getResponseText resp) as [[t | t] |];
        pose proof Emits_streamMessage; emits.
    + intros _ [thoughtAcc' outputAcc'] _ _. apply Emits_bind.
      * destruct (chunk_functionCalls resp); [| apply Emits_ret].
        apply Emits_bind; [| intros; apply Emits_ret].
        apply Emits_forEachM. intros; apply Emits_strictFunctionCall.
      * intros. apply IH.
Qed.

Lemma Emits_processStreamResponse streamRole reply forDisplay :
  Emits P (processStreamResponse streamRole reply forDisplay).
Proof.
  unfold processStreamResponse.
  apply Emits_bind; [apply Emits_readStream |].
  intros _ [[thoughtText outputText] calls] _ _.
  pose proof Emits_persistMessage. emits.
Qed.

Lemma Emits_detectElement imagePart elementDescription :
  Emits P (detectElement imagePart elementDescription).
Proof.
  unfold detectElement. pose proof Emits_processStreamResponse. emits.
Qed.

Lemma Emits_takeScreenshot result : Emits P (takeScreenshot result).
Proof. unfold takeScreenshot. emits. Qed.

Lemma Emits_cropScreenshot screenshot : Emits P (cropScreenshot screenshot).
Proof. unfold cropScreenshot. emits. Qed.

Lemma Emits_highlightBox image indexAndBox :
  Emits P (highlightBox image indexAndBox).
Proof. unfold highlightBox. emits. Qed.

Lemma Emits_highlightConnectedBoxes image starting ending :
  Emits P (highlightConnectedBoxes image starting ending).
Proof. unfold highlightConnectedBoxes. emits. Qed.

Lemma Emits_annotatedPart annotated :
  Emits P annotated -> Emits P (annotatedPart annotated).
Proof.
  intros H. unfold annotatedPart. pose proof Emits_saveImage. emits.
Qed.

Lemma Emits_detectAndTransform imageId croppedScreenshotParts detect :
  (forall imagePart, Emits P (detect imagePart)) ->
  Emits P (detectAndTransform imageId croppedScreenshotParts detect).
Proof. intros H. unfold detectAndTransform. emits. Qed.

(** ** Grounding *)

Section Grounding.

Variable screenshot : Image.
Variable croppedScreenshotParts : list Part.
Variable detect : option Part -> string -> M Box.
Variable args : list (string * json).
Hypothesis Emits_detect :
  forall imagePart description, Emits P (detect imagePart description).

(** What a grounded call is: a call of [.computer], and a description
    that emits as the rest does. *)
Definition grounded_ok (g : GroundedToolCall) : Prop :=
  fst (value g) = ".computer" /\ Emits P (getDescription g).

Lemma Emits_groundOptionalTarget prompt :
  Emits P (groundOptionalTarget croppedScreenshotParts detect args prompt).
Proof.
  unfold groundOptionalTarget. pose proof Emits_detectAndTransform. emits.
Qed.

Lemma Emits_ground groundableTool :
  Emits P (ground screenshot croppedScreenshotParts detect args groundableTool).
Proof.
  pose proof Emits_detectAndTransform. pose proof Emits_groundOptionalTarget.
  destruct groundableTool; cbn [ground];
    unfold groundClick, groundType, groundDragAndDrop, groundKey, groundWait,
      groundScroll; emits.
Qed.

Lemma ground_grounded_ok groundableTool w g w1 :
  ground screenshot croppedScreenshotParts detect args groundableTool w
  = (Ok (inl g), w1) ->
  grounded_ok g.
Proof.
  pose proof Emits_highlightBox. pose proof Emits_highlightConnectedBoxes.
  pose proof Emits_annotatedPart.
  destruct groundableTool; cbn [ground];
    unfold groundClick, groundType, groundDragAndDrop, groundKey, groundWait,
      groundScroll;
    intros Hrun; follow Hrun; try discriminate Hrun;
    injection Hrun as <-;
    (split; [reflexivity |]); cbn [getDescription]; emits.
Qed.

End Grounding.

(** ** The calls of a turn *)

Section Run.

Variable env : Env.

Lemma Emits_executeToolGetPart functionCall originalFunctionCall :
  P (ToolExecuted functionCall) ->
  Emits P (executeToolGetPart env functionCall originalFunctionCall).
Proof.
  intros H. unfold executeToolGetPart.
  apply Emits_bind; [now apply Emits_emit |]. intros _ _ _ _. emits.
Qed.

Lemma Emits_executeDelayed calls :
  (forall call, In call calls -> P (ToolExecuted (fst call))) ->
  Emits P (executeDelayed env calls).
Proof.
  intros H. unfold executeDelayed. apply Emits_bind.
  - apply Emits_forEachM. intros call Hin. now apply Emits_emit, H.
  - intros. emits.
Qed.

Lemma Emits_answerDecision d :
  (isReject d = false -> P (ToolExecuted (d_functionCall d))) ->
  Emits P (answerDecision env d).
Proof.
  intros H. pose proof Emits_persistMessage.
  unfold answerDecision, isReject in *.
  destruct (d_response d).
  3: emits.
  all: apply Emits_bind;
    [apply Emits_executeToolGetPart; now apply H | intros; emits].
Qed.

Lemma Emits_seedInput input :
  (forall decisions d,
     input = InputDecisions decisions -> In d decisions ->
     isReject d = false -> P (ToolExecuted (d_functionCall d))) ->
  P (StatusSet stagnant (Some "User rejected all tool calls.")) ->
  Emits P (seedInput env input).
Proof.
  intros Hd Hs. pose proof Emits_persistMessage.
  destruct input as [str | decisions]; cbn [seedInput]; [emits |].
  apply Emits_bind.
  - apply Emits_forEachM. intros d Hin. apply Emits_answerDecision.
    now apply (Hd decisions).
  - intros. destruct (forallb isReject decisions); [| emits].
    apply Emits_bind; [now apply Emits_setSessionStatus | intros; emits].
Qed.

(** The contents [planNextStep] sends to the planning model. *)
Definition requestContents (extraPrompt : option string) (st : PlanState)
    : list Content :=
  let pushed := truthy extraPrompt in
  let userParts :=
    if pushed
    then currentParts st
         ++ [textPart (match extraPrompt with
                       | Some t => t
                       | None => EmptyString
                       end)]
    else currentParts st in
  let history0 :=
    if pushed && shared st then replaceLastParts (history st) userParts
    else history st in
  fst (appendContent history0 {| role := roleUser; parts := userParts |}).

Lemma Emits_planNextStep reply extraPrompt st :
  P (PlanRequested (requestContents extraPrompt st)) ->
  Emits P (planNextStep reply extraPrompt st).
Proof.
  intros Hp. unfold planNextStep. unfold requestContents in Hp.
  pose proof Emits_processStreamResponse.
  destruct (appendContent _ _) as [contents merged]. cbn [fst] in Hp.
  apply Emits_bind; [apply Emits_emit, Hp |]. intros _ _ _ _. emits.
Qed.

Section Calls.

Variable calls : list FunctionCall.

(** A call of the model that names no computer tool. *)
Definition direct (fc : FunctionCall) : Prop :=
  In fc calls /\ startsWith "computer_" (fc_name fc) = false.

(** The [.computer] call grounded from a call of the model to a computer
    tool that the session has accepted. *)
Definition autoAccepted (fc : FunctionCall) : Prop :=
  exists original,
    In original calls /\
    startsWith "computer_" (fc_name original) = true /\
    existsb (String.eqb (fc_name original)) (allowedTools env) = true /\
    fc_id fc = fc_id original /\
    fc_name fc = ".computer".

Definition delayed_ok (acc : Dispatch) : Prop :=
  Forall (fun call => autoAccepted (fst call)) (delayedFunctionCalls acc).

Hypothesis P_direct : forall fc, direct fc -> P (ToolExecuted fc).

Lemma Emits_processFunctionCall screenshot croppedScreenshotsData acc fc :
  In fc calls ->
  Emits P (processFunctionCall env screenshot croppedScreenshotsData acc fc).
Proof.
  intros Hin. unfold processFunctionCall.
  destruct (startsWith "computer_" (fc_name fc)) eqn:Hname.
  - apply Emits_bind; [apply Emits_lift |].
    intros _ [groundable | validationError] _ _; [| emits].
    apply Emits_bind; [apply Emits_ground, Emits_detectElement |].
    intros w [grounded | groundingError] w1 Hrun; [| emits].
    apply ground_grounded_ok in Hrun as [_ Hdescription].
    emits.
  - apply Emits_bind; [| intros; emits].
    apply Emits_executeToolGetPart, P_direct. now split.
Qed.

Lemma processFunctionCall_delayed screenshot croppedScreenshotsData
    acc fc w acc' w1 :
  processFunctionCall env screenshot croppedScreenshotsData acc fc w
  = (Ok acc', w1) ->
  In fc calls -> delayed_ok acc -> delayed_ok acc'.
Proof.
  unfold processFunctionCall, delayed_ok. intros Hrun Hin Hacc.
  destruct (startsWith "computer_" (fc_name fc)) eqn:Hname.
  - follow Hrun; subst acc'; cbn [delayedFunctionCalls]; try exact Hacc.
    apply Forall_app. split; [exact Hacc |]. constructor; [| constructor].
    cbn [fst]. exists fc. repeat split; try assumption.
    cbn [fc_name].
    match goal with
    | Hg : ground _ _ _ _ _ _ = (Ok (inl _), _) |- _ =>
        apply ground_grounded_ok in Hg as [Hvalue _]; exact Hvalue
    end.
  - follow Hrun. subst acc'. exact Hacc.
Qed.

Lemma Emits_processFunctionCalls screenshot croppedScreenshotsData fcs :
  (forall fc, In fc fcs -> In fc calls) ->
  forall acc,
    Emits P (processFunctionCalls env screenshot croppedScreenshotsData acc fcs).
Proof.
  induction fcs as [| fc rest IH]; intros Hsub acc; cbn [processFunctionCalls].
  - apply Emits_ret.
  - apply Emits_bind.
    + apply Emits_processFunctionCall, Hsub. now left.
    + intros. apply IH. intros fc' Hin. apply Hsub. now right.
Qed.

Lemma processFunctionCalls_delayed screenshot croppedScreenshotsData fcs :
  (forall fc, In fc fcs -> In fc calls) ->
  forall acc w acc' w1,
    processFunctionCalls env screenshot croppedScreenshotsData acc fcs w
    = (Ok acc', w1) ->
    delayed_ok acc -> delayed_ok acc'.
Proof.
  induction fcs as [| fc rest IH]; intros Hsub acc w acc' w1 Hrun Hacc;
    cbn [processFunctionCalls] in Hrun.
  - apply ret_Ok in Hrun as [<- _]. exact Hacc.
  - apply bindM_Ok in Hrun as (acc1 & w2 & Hfirst & Hrest).
    eapply IH; [| exact Hrest |].
    + intros fc' Hin. apply Hsub. now right.
    + eapply processFunctionCall_delayed; [exact Hfirst | | exact Hacc].
      apply Hsub. now left.
Qed.

End Calls.

Lemma EmitsAt_dispatch screenshot croppedScreenshotsData st continue w :
  (forall fc, direct (functionCalls st) fc -> P (ToolExecuted fc)) ->
  P (StatusSet stagnant (Some "No more tool calls from model.")) ->
  (forall acc w1,
     processFunctionCalls env screenshot croppedScreenshotsData
       {| toolResponseParts := []; isPending := false;
          toolReviewMessages := []; delayedFunctionCalls := [] |}
       (functionCalls st) w = (Ok acc, w1) ->
     if isPending acc
     then P (StatusSet pending (Some "Tool call pending."))
     else (forall fc, autoAccepted (functionCalls st) fc -> P (ToolExecuted fc))
          /\ (forall currentParts,
                Emits P (continue currentParts (history st)))) ->
  EmitsAt P (dispatch env screenshot croppedScreenshotsData st continue) w.
Proof.
  intros Hd Hs Hk. unfold dispatch.
  destruct (functionCalls st) as [| fc0 rest] eqn:Hcalls.
  - now apply Emits_setSessionStatus.
  - rewrite <- Hcalls in *. apply EmitsAt_bind.
    + apply Emits_processFunctionCalls with (calls := functionCalls st); auto.
    + intros acc w1 Hrun. specialize (Hk acc w1 Hrun).
      assert (Hinv : delayed_ok (functionCalls st) acc).
      { eapply processFunctionCalls_delayed; [| exact Hrun | constructor].
        auto. }
      clear Hrun. revert w1.
      change (Emits P
        ((if negb (is_nil (toolResponseParts acc))
          then persistMessage
                 {| apm_role := tool;
                    apm_parts := map OfPart (toolResponseParts acc);
                    apm_toolReview := None; apm_forDisplay := None |}
          else ret tt) ;;
         _ <- forEachM persistMessage (toolReviewMessages acc) ;;
         (if isPending acc
          then setSessionStatus pending "Tool call pending."
          else
            delayedToolResponseParts <-
              executeDelayed env (delayedFunctionCalls acc) ;;
            persistMessage
              {| apm_role := tool;
                 apm_parts := map OfPart delayedToolResponseParts;
                 apm_toolReview := None; apm_forDisplay := None |} ;;
            continue (toolResponseParts acc ++ delayedToolResponseParts)
              (history st)))%agent).
      pose proof Emits_persistMessage as Hpersist.
      apply Emits_bind; [destruct (negb _); emits |]. intros _ _ _ _.
      apply Emits_bind;
        [apply Emits_forEachM; intros; apply Hpersist |]. intros _ _ _ _.
      destruct (isPending acc).
      * now apply Emits_setSessionStatus.
      * destruct Hk as [Hauto Hcontinue]. apply Emits_bind.
        -- apply Emits_executeDelayed. intros call Hin. apply Hauto.
           unfold delayed_ok in Hinv. rewrite Forall_forall in Hinv.
           now apply Hinv.
        -- intros. emits.
Qed.

(** What the history of the context manager keeps, and what a request to
    the planning model adds to it: no two neighbours have the same role,
    and the last content is the user's. *)
Definition endsWithUser (contents : list Content) : Prop :=
  exists earlier ps, contents = earlier ++ [{| role := roleUser; parts := ps |}].

Lemma replaceLastParts_alternates h ps :
  alternates h = true -> alternates (replaceLastParts h ps) = true.
Proof.
  intros Halt. unfold replaceLastParts.
  destruct (List.rev h) as [| lastMessage earlier] eqn:E; [reflexivity |].
  apply rev_cons_inv in E. subst h.
  now apply (alternates_snoc_same _ lastMessage).
Qed.

Lemma appendContent_endsWithUser h ps :
  endsWithUser (fst (appendContent h {| role := roleUser; parts := ps |})).
Proof.
  unfold appendContent. cbn [role parts].
  destruct (List.rev h) as [| lastMessage earlier] eqn:E.
  - now exists h, ps.
  - destruct (sameRole (role lastMessage) roleUser) eqn:Hrole; cbn [fst].
    + apply sameRole_eq in Hrole. rewrite Hrole.
      now exists (List.rev earlier), (parts lastMessage ++ ps).
    + now exists h, ps.
Qed.

Lemma requestContents_alternates extraPrompt st :
  alternates (history st) = true ->
  alternates (requestContents extraPrompt st) = true.
Proof.
  intros Halt. unfold requestContents. apply appendContent_alternates.
  destruct (truthy extraPrompt && shared st); [| exact Halt].
  now apply replaceLastParts_alternates.
Qed.

Lemma requestContents_endsWithUser extraPrompt st :
  endsWithUser (requestContents extraPrompt st).
Proof. unfold requestContents. apply appendContent_endsWithUser. Qed.

Lemma planNextStep_history reply extraPrompt st w planned st' w1 :
  planNextStep reply extraPrompt st w = (Ok (planned, st'), w1) ->
  alternates (history st) = true -> alternates (history st') = true.
Proof.
  intros Hrun Halt.
  pose proof (requestContents_alternates extraPrompt st Halt) as Hrequest.
  unfold planNextStep in Hrun. unfold requestContents in Hrequest.
  destruct (appendContent _ _) as [contents merged]. cbn [fst] in Hrequest.
  follow Hrun; injection Hrun as _ <-; cbn [history]; [| exact Hrequest].
  now apply appendContent_alternates.
Qed.

Hypothesis P_status : forall status message, P (StatusSet status message).
Hypothesis P_plan :
  forall contents,
    alternates contents = true -> endsWithUser contents ->
    P (PlanRequested contents).
Hypothesis P_other :
  forall fc, startsWith "computer_" (fc_name fc) = false -> P (ToolExecuted fc).

Lemma Emits_planNextStep_alternating reply extraPrompt st :
  alternates (history st) = true ->
  Emits P (planNextStep reply extraPrompt st).
Proof.
  intros Halt. apply Emits_planNextStep, P_plan.
  - now apply requestContents_alternates.
  - apply requestContents_endsWithUser.
Qed.

Lemma Emits_dispatch screenshot croppedScreenshotsData st continue :
  (forall currentParts, Emits P (continue currentParts (history st))) ->
  Emits P (dispatch env screenshot croppedScreenshotsData st continue).
Proof.
  intros Hcontinue w. apply EmitsAt_dispatch.
  - intros fc [_ Hname]. now apply P_other.
  - apply P_status.
  - intros acc w1 _. destruct (isPending acc); [apply P_status |].
    split; [| exact Hcontinue].
    intros fc (original & _ & _ & _ & _ & Hname). apply P_other.
    now rewrite Hname.
Qed.

Lemma Emits_observe turnCount currentParts0 :
  Emits P (observe env turnCount currentParts0).
Proof.
  unfold observe. pose proof Emits_persistMessage. pose proof Emits_saveImage.
  pose proof Emits_takeScreenshot. pose proof Emits_cropScreenshot.
  apply Emits_bind; [apply Emits_setSessionStatus, P_status |].
  intros _ _ _ _.
  apply Emits_bind; [apply Emits_emit, P_plain; reflexivity |].
  intros _ _ _ _.
  do 5 (apply Emits_bind; [emits | intros ? ? ? ?]).
  apply Emits_bind; [apply Emits_forEachM; intros; emits | intros; emits].
Qed.

Lemma Emits_turns_upto (n : nat) :
  forall planner, (List.length planner <= n)%nat ->
  forall turnCount currentParts0 history0,
    alternates history0 = true ->
    Emits P (turns env planner turnCount currentParts0 history0).
Proof.
  pose proof Emits_planNextStep_alternating as Hplan.
  induction n as [| n IH];
    intros planner Hlen turnCount currentParts0 history0 Halt.
  - destruct planner; [| cbn in Hlen; lia]. cbn [turns].
    apply Emits_bind; [apply Emits_observe |].
    intros _ [[screenshot data] parts1] _ _.
    apply Emits_bind; [now apply Hplan | intros; emits].
  - destruct planner as [| reply1 planner1]; cbn [turns];
      (apply Emits_bind; [apply Emits_observe |]);
      intros _ [[screenshot data] parts1] _ _.
    + apply Emits_bind; [now apply Hplan | intros; emits].
    + cbn [List.length] in Hlen.
      apply Emits_bind; [now apply Hplan |].
      intros w1 [planned st1] w2 Hrun1.
      apply planNextStep_history in Hrun1; [| exact Halt].
      destruct planned.
      * apply Emits_dispatch. intros. apply IH; [lia | exact Hrun1].
      * destruct planner1 as [| reply2 planner2].
        -- apply Emits_bind; [now apply Hplan | intros; emits].
        -- cbn [List.length] in Hlen.
           apply Emits_bind; [now apply Hplan |].
           intros w3 [planned2 st2] w4 Hrun2.
           apply planNextStep_history in Hrun2; [| exact Hrun1].
           apply Emits_bind.
           ++ destruct planned2; [emits |].
              apply Emits_setSessionStatus, P_status.
           ++ intros. apply Emits_dispatch. intros.
              apply IH; [lia | exact Hrun2].
Qed.

Lemma mergeAdjacentMessages_alternates messages :
  alternates (mergeAdjacentMessages messages) = true.
Proof.
  destruct messages as [| first rest]; [reflexivity |].
  apply mergeFrom_alternates.
Qed.

Lemma Emits_turns planner turnCount currentParts0 historyMessages :
  Emits P (turns env planner turnCount currentParts0
             (mergeAdjacentMessages historyMessages)).
Proof.
  apply (Emits_turns_upto (List.length planner)); [lia |].
  apply mergeAdjacentMessages_alternates.
Qed.

Lemma Emits_runAgent historyMessages input planner :
  (forall decisions d,
     input = InputDecisions decisions -> In d decisions ->
     isReject d = false -> P (ToolExecuted (d_functionCall d))) ->
  Emits P (runAgent env historyMessages input planner).
Proof.
  intros Hd. unfold runAgent. destruct (negb (hasComputerTool env)); [emits |].
  apply Emits_bind; [apply Emits_seedInput; [exact Hd | apply P_status] |].
  intros _ [currentParts0 |] _ _; [| emits].
  apply Emits_tryCatch; [apply Emits_turns |].
  intros e. apply Emits_setSessionStatus, P_status.
Qed.

End Run.

End Rules.

(** ** What a turn and a run pass to [executeToolCall] *)

Lemma In_Forall {A} (Q : A -> Prop) xs x : Forall Q xs -> In x xs -> Q x.
Proof. intros H. rewrite Forall_forall in H. apply H. Qed.

(** X14: in the part of a turn that follows planning, every call passed to
    [executeToolCall] is a call of the model that names no computer tool,
    or the [.computer] call grounded from a call to a computer tool that
    the session has accepted; and when the turn ends pending, only calls
    of the first kind were executed. *)
Theorem pending_turn_executes_no_computer_call
    env screenshot croppedScreenshotsData st w :
  exists events,
    trace (snd (dispatch env screenshot croppedScreenshotsData st
                  (fun _ _ => ret tt) w))
    = trace w ++ events /\
    (forall fc, In (ToolExecuted fc) events ->
       direct (functionCalls st) fc \/ autoAccepted env (functionCalls st) fc) /\
    (In (StatusSet pending (Some "Tool call pending.")) events ->
     forall fc, In (ToolExecuted fc) events -> direct (functionCalls st) fc).
Proof.
  set (calls := functionCalls st).
  set (run := processFunctionCalls env screenshot croppedScreenshotsData
                {| toolResponseParts := []; isPending := false;
                   toolReviewMessages := []; delayedFunctionCalls := [] |}
                calls w).
  set (paused := match fst run with
                 | Ok acc => isPending acc
                 | Throw _ => true
                 end).
  set (P := fun e =>
              match e with
              | ToolExecuted fc =>
                  if paused then direct calls fc
                  else direct calls fc \/ autoAccepted env calls fc
              | StatusSet status _ => if paused then True else status <> pending
              | _ => True
              end).
  assert (P_plain : forall e, plain e = true -> P e).
  { intros [] H; try discriminate H; exact I. }
  destruct (EmitsAt_dispatch P P_plain env screenshot croppedScreenshotsData st
              (fun _ _ => ret tt) w) as (events & Ht & Hall).
  - intros fc Hfc. unfold P. destruct paused; auto.
  - unfold P. destruct paused; [exact I | discriminate].
  - intros acc w1 Hrun. fold calls in Hrun. fold run in Hrun.
    assert (Hpaused : paused = isPending acc)
      by (unfold paused; now rewrite Hrun).
    destruct (isPending acc).
    + unfold P. now rewrite Hpaused.
    + split; [| intros; now apply Emits_ret].
      intros fc Hfc. unfold P. rewrite Hpaused. now right.
  - exists events. split; [exact Ht |]. split.
    + intros fc Hin. apply (In_Forall _ _ _ Hall) in Hin. unfold P in Hin.
      destruct paused; auto.
    + intros Hpending fc Hin.
      apply (In_Forall _ _ _ Hall) in Hpending, Hin. unfold P in *.
      destruct paused; [exact Hin | now contradict Hpending].
Qed.

(** X15: a run never passes to [executeToolCall] a call that names a
    computer tool, unless the call is an accepted decision of its input:
    the calls of the model to the computer tools reach it grounded, as
    calls of [.computer], or not at all. *)
Theorem run_executes_no_computer_tool_by_name
    env historyMessages input planner w :
  exists events,
    trace (snd (runAgent env historyMessages input planner w))
    = trace w ++ events /\
    forall fc, In (ToolExecuted fc) events ->
      startsWith "computer_" (fc_name fc) = false \/
      exists decisions d,
        input = InputDecisions decisions /\ In d decisions /\
        isReject d = false /\ fc = d_functionCall d.
Proof.
  set (P := fun e =>
              match e with
              | ToolExecuted fc =>
                  startsWith "computer_" (fc_name fc) = false \/
                  exists decisions d,
                    input = InputDecisions decisions /\ In d decisions /\
                    isReject d = false /\ fc = d_functionCall d
              | _ => True
              end).
  destruct (Emits_runAgent P) with (env := env)
    (historyMessages := historyMessages) (input := input) (planner := planner)
    (w := w) as (events & Ht & Hall).
  - intros [] H; try discriminate H; exact I.
  - intros; exact I.
  - intros; exact I.
  - intros fc Hname. now left.
  - intros decisions d Hinput Hin Hd. right. now exists decisions, d.
  - exists events. split; [exact Ht |].
    intros fc Hin. exact (In_Forall _ _ _ Hall Hin).
Qed.

(** ** The status a run leaves *)

Section FinalStatus.

Variable env : Env.

(** A computation that only adds to the trace. *)
Definition Grows {A} (c : M A) : Prop := Emits (fun _ => True) c.

(** The calls end with a change of status to something else than
    [running]. *)
Definition endsSettled (events : list Event) : Prop :=
  exists before status message,
    events = before ++ [StatusSet status (Some message)] /\
    status <> running.

(** [Settles c]: [c] adds to the trace, and when it returns the last call
    it made has set a status that is not [running]. *)
Definition Settles (c : M unit) : Prop :=
  forall w, exists events,
    trace (snd (c w)) = trace w ++ events /\
    (forall w1, c w = (Ok tt, w1) -> endsSettled events).

Lemma Settles_bind {A} (c : M A) (k : A -> M unit) :
  Grows c -> (forall a, Settles (k a)) -> Settles (bindM c k).
Proof.
  intros Hc Hk w. destruct (Hc w) as (ev1 & Ht1 & _). unfold bindM.
  destruct (c w) as [[a | e] w1]; cbn [snd] in Ht1.
  - destruct (Hk a w1) as (ev2 & Ht2 & Hend). exists (ev1 ++ ev2). split.
    + rewrite Ht2, Ht1. now rewrite app_assoc.
    + intros w2 Hrun. destruct (Hend w2 Hrun) as (before & s & m & -> & Hs).
      exists (ev1 ++ before), s, m. split; [now rewrite app_assoc | exact Hs].
  - exists ev1. split; [exact Ht1 |]. intros w2 Hrun. discriminate Hrun.
Qed.

Lemma Settles_throws {A} (c : M A) (k : A -> M unit) :
  Grows c -> (forall w a w1, c w <> (Ok a, w1)) -> Settles (bindM c k).
Proof.
  intros Hc Hthrows w. destruct (Hc w) as (ev1 & Ht1 & _). unfold bindM.
  destruct (c w) as [[a | e] w1] eqn:Hrun; cbn [snd] in Ht1.
  - now destruct (Hthrows w a w1).
  - exists ev1. split; [exact Ht1 |]. intros w2 H. discriminate H.
Qed.

Lemma Settles_setSessionStatus status message :
  status <> running -> Settles (setSessionStatus status message).
Proof.
  intros Hs w. exists [StatusSet status (Some message)].
  split; [reflexivity |]. intros _ _. now exists [], status, message.
Qed.

Lemma plain_True : forall e, plain e = true -> (fun _ : Event => True) e.
Proof. intros; exact I. Qed.

Lemma planNextStep_without_reply extraPrompt st w a w1 :
  planNextStep None extraPrompt st w <> (Ok a, w1).
Proof.
  unfold planNextStep. destruct (appendContent _ _) as [requestContents merged].
  unfold bindM, emit, throw. intros H. discriminate H.
Qed.

Lemma Grows_planNextStep reply extraPrompt st :
  Grows (planNextStep reply extraPrompt st).
Proof. apply Emits_planNextStep; [apply plain_True | exact I]. Qed.

Lemma Grows_observe turnCount currentParts0 :
  Grows (observe env turnCount currentParts0).
Proof. apply Emits_observe; [apply plain_True | intros; exact I]. Qed.

Lemma Grows_persistMessage message : Grows (persistMessage message).
Proof. apply Emits_persistMessage, plain_True. Qed.

Lemma Settles_dispatch screenshot croppedScreenshotsData st continue :
  (forall currentParts history, Settles (continue currentParts history)) ->
  Settles (dispatch env screenshot croppedScreenshotsData st continue).
Proof.
  intros Hcontinue. unfold dispatch.
  destruct (functionCalls st) as [| fc0 rest] eqn:Hcalls.
  - now apply Settles_setSessionStatus.
  - apply Settles_bind.
    + apply Emits_processFunctionCalls with (calls := fc0 :: rest);
        [apply plain_True | intros; exact I | auto].
    + intros acc. apply Settles_bind.
      { destruct (negb _); [apply Grows_persistMessage |].
        apply Emits_ret. }
      intros _. apply Settles_bind.
      { apply Emits_forEachM. intros. apply Grows_persistMessage. }
      intros _. destruct (isPending acc).
      * now apply Settles_setSessionStatus.
      * apply Settles_bind.
        { apply Emits_executeDelayed; first [apply plain_True | intros; exact I]. }
        intros parts. apply Settles_bind; [apply Grows_persistMessage |].
        intros _. apply Hcontinue.
Qed.

Lemma Settles_turns_upto (n : nat) :
  forall planner, (List.length planner <= n)%nat ->
  forall turnCount currentParts0 history0,
    Settles (turns env planner turnCount currentParts0 history0).
Proof.
  induction n as [| n IH]; intros planner Hlen turnCount currentParts0 history0.
  - destruct planner; [| cbn in Hlen; lia]. cbn [turns].
    apply Settles_bind; [apply Grows_observe |].
    intros [[screenshot data] parts1].
    apply Settles_throws;
      [apply Grows_planNextStep | apply planNextStep_without_reply].
  - destruct planner as [| reply1 planner1]; cbn [turns];
      (apply Settles_bind; [apply Grows_observe |]);
      intros [[screenshot data] parts1].
    + apply Settles_throws;
        [apply Grows_planNextStep | apply planNextStep_without_reply].
    + cbn [List.length] in Hlen.
      apply Settles_bind; [apply Grows_planNextStep |].
      intros [[|] st1].
      * apply Settles_dispatch. intros. apply IH. lia.
      * destruct planner1 as [| reply2 planner2].
        -- apply Settles_throws;
             [apply Grows_planNextStep | apply planNextStep_without_reply].
        -- cbn [List.length] in Hlen.
           apply Settles_bind; [apply Grows_planNextStep |].
           intros [planned2 st2].
           apply Settles_bind.
           ++ destruct planned2; [apply Emits_ret |].
              now apply Emits_setSessionStatus.
           ++ intros _. apply Settles_dispatch. intros. apply IH. lia.
Qed.

Lemma seedInput_returns_at_once input w w1 :
  seedInput env input w = (Ok None, w1) ->
  exists before,
    trace w1
    = trace w ++ before
      ++ [StatusSet stagnant (Some "User rejected all tool calls.")].
Proof.
  destruct input as [str | decisions]; cbn [seedInput]; intros Hrun.
  - follow Hrun. discriminate Hrun.
  - apply bindM_Ok in Hrun as (parts & w2 & Hfirst & Hrun).
    assert (Hgrows : Grows (forEachM (answerDecision env) decisions)).
    { apply Emits_forEachM. intros d _.
      apply Emits_answerDecision; [apply plain_True | intros; exact I]. }
    destruct (Hgrows w) as (before & Ht & _). rewrite Hfirst in Ht.
    cbn [snd] in Ht. exists before.
    destruct (forallb isReject decisions).
    + apply bindM_Ok in Hrun as ([] & w3 & Hstatus & Hrun).
      apply ret_Ok in Hrun as [_ <-].
      unfold setSessionStatus, emit in Hstatus. injection Hstatus as <-.
      cbn [trace]. rewrite Ht. now rewrite app_assoc.
    + apply ret_Ok in Hrun as [Hrun _]. discriminate Hrun.
Qed.

End FinalStatus.

Lemma runAgent_settles env historyMessages input planner w :
  hasComputerTool env = true ->
  match seedInput env input w with
  | (Throw e, w1) =>
      runAgent env historyMessages input planner w = (Throw e, w1)
  | (Ok _, _) =>
      exists w2 before status message,
        runAgent env historyMessages input planner w = (Ok tt, w2) /\
        trace w2 = trace w ++ before ++ [StatusSet status (Some message)] /\
        status <> running
  end.
Proof.
  intros Htool. unfold runAgent. rewrite Htool. cbn [negb]. unfold bindM.
  destruct (seedInput env input w) as [[[currentParts0 |] | e] w1] eqn:Hseed;
    [| | reflexivity].
  - assert (Hgrows : Grows (seedInput env input)).
    { apply Emits_seedInput; [apply plain_True | intros; exact I | exact I]. }
    destruct (Hgrows w) as (ev0 & Ht0 & _). rewrite Hseed in Ht0.
    cbn [snd] in Ht0.
    destruct (Settles_turns_upto env (List.length planner) planner (le_n _)
                0%N currentParts0 (mergeAdjacentMessages historyMessages) w1)
      as (ev1 & Ht1 & Hend).
    unfold tryCatch.
    destruct (turns env planner 0 currentParts0
                (mergeAdjacentMessages historyMessages) w1)
      as [[[] | e] w2] eqn:Hturns; cbn [snd] in Ht1.
    + destruct (Hend w2 eq_refl) as (before & status & message & -> & Hs).
      exists w2, (ev0 ++ before), status, message.
      split; [reflexivity |]. split; [| exact Hs].
      rewrite Ht1, Ht0. now rewrite <- !app_assoc.
    + eexists _, (ev0 ++ ev1), error, (exn_message e).
      split; [reflexivity |]. split; [| discriminate].
      cbn [trace]. rewrite Ht1, Ht0. now rewrite <- !app_assoc.
  - apply seedInput_returns_at_once in Hseed as (before & Ht).
    exists w1, before, stagnant, "User rejected all tool calls.".
    split; [reflexivity |]. split; [exact Ht | discriminate].
Qed.

(** The last statement of [runComputerUseAgent] (interface.ts): [runAgent]
    is awaited, and what it throws is reported as the status [error]. *)
Definition runAgentReported (env : Env) (historyMessages : list Content)
    (input : AgentInput) (planner : list LlmReply) : M unit :=
  tryCatch (runAgent env historyMessages input planner)
    (fun e => setSessionStatus error (exn_message e)).

(** X16: once [runComputerUseAgent] has started the agent, and for every
    finite list of replies of the planning model (its next call fails),
    the run returns, and the last call it has made set the status of the
    session to [pending], [stagnant] or [error]: the session is never
    left [running], whatever the models answer and whatever is thrown. *)
Theorem run_never_leaves_the_session_running
    env historyMessages input planner w :
  exists w2 before status message,
    runAgentReported env historyMessages input planner w = (Ok tt, w2) /\
    trace w2 = trace w ++ before ++ [StatusSet status (Some message)] /\
    status <> running.
Proof.
  unfold runAgentReported, tryCatch.
  destruct (hasComputerTool env) eqn:Htool.
  - pose proof (runAgent_settles env historyMessages input planner w Htool)
      as Hrun.
    assert (Hgrows : Grows (seedInput env input)).
    { apply Emits_seedInput; [apply plain_True | intros; exact I | exact I]. }
    destruct (Hgrows w) as (ev0 & Ht0 & _).
    destruct (seedInput env input w) as [[seeded | e] w1].
    + destruct Hrun as (w2 & before & status & message & -> & Ht & Hs).
      now exists w2, before, status, message.
    + rewrite Hrun. cbn [snd] in Ht0.
      eexists _, ev0, error, (exn_message e).
      split; [reflexivity |]. split; [| discriminate].
      cbn [trace]. now rewrite Ht0, <- app_assoc.
  - unfold runAgent. rewrite Htool. cbn [negb].
    eexists _, [], error, _. split; [reflexivity |].
    split; [reflexivity | discriminate].
Qed.

(** X17: every request that a run sends to the planning model has
    contents in which no two neighbours have the same role, and which end
    with a content of the user, whatever the recovered history is. *)
Theorem plan_requests_alternate env historyMessages input planner w :
  exists events,
    trace (snd (runAgent env historyMessages input planner w))
    = trace w ++ events /\
    forall contents, In (PlanRequested contents) events ->
      alternates contents = true /\
      exists earlier ps,
        contents = earlier ++ [{| role := roleUser; parts := ps |}].
Proof.
  set (P := fun e =>
              match e with
              | PlanRequested contents =>
                  alternates contents = true /\ endsWithUser contents
              | _ => True
              end).
  destruct (Emits_runAgent P) with (env := env)
    (historyMessages := historyMessages) (input := input) (planner := planner)
    (w := w) as (events & Ht & Hall).
  - intros [] H; try discriminate H; exact I.
  - intros; exact I.
  - intros contents Halt Hlast. now split.
  - intros; exact I.
  - intros; exact I.
  - exists events. split; [exact Ht |].
    intros contents Hin. exact (In_Forall _ _ _ Hall Hin).
Qed.

(** X18: an empty text input is refused before anything is done with it.
    No message is persisted, no screenshot is taken and no model is asked:
    the only call of the run sets the status [error], with the message of
    [partToPersistentContentBlock]. *)
Theorem empty_text_input_ends_in_error env historyMessages planner w :
  hasComputerTool env = true ->
  runAgentReported env historyMessages (InputText "") planner w
  = (Ok tt,
     extend w
       [StatusSet error
          (Some "Either thought, text, or functionCall must be included")]).
Proof.
  intros Htool. unfold runAgentReported, runAgent. rewrite Htool. reflexivity.
Qed.

(** X18 on a registry that has the tool, with a planner ready to answer. *)
Lemma empty_text_input_ends_in_error_witness :
  hasComputerTool bare_env = true
  /\ runAgentReported bare_env [] (InputText "") [click_plan]
       (fresh_world [file_menu_box_reply])
     = (Ok tt,
        extend (fresh_world [file_menu_box_reply])
          [StatusSet error
             (Some "Either thought, text, or functionCall must be included")]).
Proof.
  split; [reflexivity |].
  exact (empty_text_input_ends_in_error bare_env [] [click_plan]
           (fresh_world [file_menu_box_reply]) eq_refl).
Defined.

(** ** What is streamed, stored and executed *)

Section Streams.
Local Open Scope agent_scope.

Definition joined (texts : list string) : string :=
  fold_right String.append EmptyString texts.

Lemma joined_app a b : joined (a ++ b) = (joined a ++ joined b)%string.
Proof.
  induction a as [| t a IH]; [reflexivity |].
  cbn [app joined fold_right]. fold (joined (a ++ b)). fold (joined a).
  now rewrite IH, append_assoc.
Qed.

(** The deltas of text and of thought among the calls made, and the
    messages handed to [persistMessage]. *)
Definition textsStreamed (events : list Event) : list string :=
  flat_map (fun e => match e with
                     | Streamed {| sm_text := Some t |} => [t]
                     | _ => []
                     end) events.

Definition thoughtsStreamed (events : list Event) : list string :=
  flat_map (fun e => match e with
                     | Streamed {| sm_thought := Some t |} => [t]
                     | _ => []
                     end) events.

Definition persistedOf (events : list Event) : list AgentPersistMessage :=
  flat_map (fun e => match e with
                     | Persisted m => [m]
                     | _ => []
                     end) events.

Definition executedOf (events : list Event) : list FunctionCall :=
  flat_map (fun e => match e with
                     | ToolExecuted fc => [fc]
                     | _ => []
                     end) events.

(** The function calls of the chunks of a stream, in order. *)
Definition rawCalls (responses : list Chunk) : list RawFunctionCall :=
  flat_map (fun c => match chunk_functionCalls c with
                     | Some fcs => fcs
                     | None => []
                     end) responses.

(** A streamed call with its id filled in. *)
Definition filled (raw : RawFunctionCall) (fc : FunctionCall) : Prop :=
  fc_name fc = raw_name raw /\ fc_args fc = raw_args raw
  /\ (forall id, raw_id raw = Some id -> fc_id fc = id).

Lemma strictFunctionCalls_filled fcs :
  forall w, exists news w1,
    forEachM strictFunctionCall fcs w = (Ok news, w1)
    /\ trace w1 = trace w /\ Forall2 filled fcs news.
Proof.
  induction fcs as [| fc fcs IH]; intros w; cbn [forEachM].
  - exists [], w. repeat split; constructor.
  - unfold bindM at 1.
    assert (Hfc : exists new w0,
               strictFunctionCall fc w = (Ok new, w0)
               /\ trace w0 = trace w /\ filled fc new).
    { unfold strictFunctionCall, filled.
      destruct (raw_id fc) as [id |]; eexists; eexists;
        (split; [reflexivity |]); (split; [reflexivity |]);
        cbn [fc_name fc_args fc_id]; repeat split; congruence. }
    destruct Hfc as (new & w0 & -> & Ht0 & Hnew).
    destruct (IH w0) as (news & w1 & Hrun & Ht1 & Hnews).
    unfold bindM. rewrite Hrun. exists (new :: news), w1.
    split; [reflexivity |]. split; [congruence | now constructor].
Qed.

Lemma readStream_streams streamRole responses :
  forall thoughtAcc outputAcc calls w,
  exists news w1 events,
    readStream streamRole responses thoughtAcc outputAcc calls w
    = (Ok ((thoughtAcc ++ joined (thoughtsStreamed events))%string,
           (outputAcc ++ joined (textsStreamed events))%string,
           calls ++ news), w1)
    /\ trace w1 = trace w ++ events
    /\ persistedOf events = [] /\ executedOf events = []
    /\ Forall2 filled (rawCalls responses) news.
Proof.
  induction responses as [| resp rest IH];
    intros thoughtAcc outputAcc calls w; cbn [readStream].
  - exists [], w, []. cbn. rewrite !append_empty_r, !app_nil_r.
    repeat split; constructor.
  - unfold bindM at 1.
    assert (Htext : exists thoughtAcc' outputAcc' w0 ev0,
               match getResponseText resp with
               | Some (RThought t) =>
                   streamMessage {| sm_role := streamRole; sm_thought := Some t;
                                    sm_text := None |} ;;
                   ret ((thoughtAcc ++ t)%string, outputAcc)
               | Some (RText t) =>
                   streamMessage {| sm_role := streamRole; sm_thought := None;
                                    sm_text := Some t |} ;;
                   ret (thoughtAcc, (outputAcc ++ t)%string)
               | None => ret (thoughtAcc, outputAcc)
               end w = (Ok (thoughtAcc', outputAcc'), w0)
               /\ trace w0 = trace w ++ ev0
               /\ thoughtAcc' = (thoughtAcc ++ joined (thoughtsStreamed ev0))%string
               /\ outputAcc' = (outputAcc ++ joined (textsStreamed ev0))%string
               /\ persistedOf ev0 = [] /\ executedOf ev0 = []).
    { destruct (getResponseText resp) as [[t | t] |].
      - eexists _, _, _, [_]. split; [reflexivity |]. split; [reflexivity |].
        cbn. now rewrite !append_empty_r.
      - eexists _, _, _, [_]. split; [reflexivity |]. split; [reflexivity |].
        cbn. now rewrite !append_empty_r.
      - eexists _, _, _, []. split; [reflexivity |].
        cbn. now rewrite !append_empty_r, app_nil_r. }
    destruct Htext as (thoughtAcc' & outputAcc' & w0 & ev0 & -> & Ht0
                       & -> & -> & Hp0 & Hx0).
    cbn iota. unfold bindM at 1.
    assert (Hcalls : exists added w2,
               match chunk_functionCalls resp with
               | Some fcs =>
                   news <- forEachM strictFunctionCall fcs ;;
                   ret (calls ++ news)
               | None => ret calls
               end w0 = (Ok (calls ++ added), w2)
               /\ trace w2 = trace w0
               /\ Forall2 filled
                    match chunk_functionCalls resp with
                    | Some fcs => fcs
                    | None => []
                    end added).
    { destruct (chunk_functionCalls resp) as [fcs |].
      - destruct (strictFunctionCalls_filled fcs w0)
          as (news & w2 & Hrun & Ht2 & Hnews).
        exists news, w2. unfold bindM. rewrite Hrun. now repeat split.
      - exists [], w0. rewrite app_nil_r. repeat split. constructor. }
    destruct Hcalls as (added & w2 & -> & Ht2 & Hadded).
    destruct (IH (thoughtAcc ++ joined (thoughtsStreamed ev0))%string
                 (outputAcc ++ joined (textsStreamed ev0))%string
                 (calls ++ added) w2)
      as (news & w1 & events & Hrun & Ht1 & Hp1 & Hx1 & Hnews).
    exists (added ++ news), w1, (ev0 ++ events). rewrite Hrun.
    unfold thoughtsStreamed, textsStreamed, persistedOf, executedOf in *.
    rewrite !flat_map_app, !joined_app, !append_assoc, <- !app_assoc.
    rewrite Hp0, Hp1, Hx0, Hx1.
    split; [reflexivity |].
    split; [now rewrite Ht1, Ht2, Ht0, <- app_assoc |].
    split; [reflexivity |]. split; [reflexivity |].
    cbn [rawCalls flat_map]. now apply Forall2_app.
Qed.

(** The message [processStreamResponse] persists for what it has read. *)
Definition streamedMessage (streamRole : Role) (forDisplay : option bool)
    (thoughtText outputText : string) (calls : list FunctionCall)
    : AgentPersistMessage :=
  {| apm_role := streamRole;
     apm_parts :=
       (if negb (is_empty thoughtText)
        then [OfPart (thoughtPart thoughtText)] else [])
       ++ (if negb (is_empty outputText)
           then [OfPart (textPart outputText)] else [])
       ++ map (fun fc => OfPart (functionCallPart fc)) calls;
     apm_toolReview := None;
     apm_forDisplay := forDisplay |}.

Lemma persistMessage_streamedMessage streamRole forDisplay
    thoughtText outputText calls w :
  persistMessage
    (streamedMessage streamRole forDisplay thoughtText outputText calls) w
  = (Ok tt,
     extend w [Persisted (streamedMessage streamRole forDisplay
                            thoughtText outputText calls)]).
Proof.
  unfold persistMessage, bindM, lift.
  assert (Hparts : exists units,
             mapM (fun part =>
                     match part with
                     | OfImageFile _ => Ok tt
                     | OfPart p =>
                         bind (Interface.partToPersistentContentBlock p)
                           (fun _ => Ok tt)
                     end)
               (apm_parts (streamedMessage streamRole forDisplay
                             thoughtText outputText calls)) = Ok units).
  { cbn [streamedMessage apm_parts]. rewrite !mapM_app.
    assert (Hcalls : exists units,
               mapM (fun part =>
                       match part with
                       | OfImageFile _ => Ok tt
                       | OfPart p =>
                           bind (Interface.partToPersistentContentBlock p)
                             (fun _ => Ok tt)
                       end)
                 (map (fun fc => OfPart (functionCallPart fc)) calls)
               = Ok units).
    { induction calls as [| fc calls [units IH]]; [now exists [] |].
      cbn [map mapM]. rewrite IH. now eexists. }
    destruct Hcalls as [units ->].
    destruct thoughtText, outputText; cbn; now eexists. }
  destruct Hparts as [units ->]. reflexivity.
Qed.

(** X19: what is streamed is what is returned and stored.  When the
    stream of a reply does not fail, [processStreamResponse] returns; the
    thought and the output it returns are the deltas of thought and of
    text it has streamed, joined in order; the calls it returns are the
    calls of the chunks, in order, each with its name, its arguments and
    its id when it has one; and it persists nothing when the output is
    empty and there is no call, and otherwise one message, after the last
    delta, made of the thought and the output that are not empty and of
    the calls.  It executes no tool. *)
Theorem streamed_reply_is_returned_and_stored
    streamRole reply forDisplay w :
  failure reply = None ->
  exists thoughtText outputText calls w1 streamed,
    processStreamResponse streamRole reply forDisplay w
    = (Ok (thoughtText, outputText, calls), w1)
    /\ thoughtText = joined (thoughtsStreamed streamed)
    /\ outputText = joined (textsStreamed streamed)
    /\ Forall2 filled (rawCalls (chunks reply)) calls
    /\ persistedOf streamed = [] /\ executedOf streamed = []
    /\ trace w1
       = trace w ++ streamed
         ++ (if negb (is_empty outputText) || negb (is_nil calls)
             then [Persisted (streamedMessage streamRole forDisplay
                                thoughtText outputText calls)]
             else []).
Proof.
  intros Hfail.
  destruct (readStream_streams streamRole (chunks reply)
              EmptyString EmptyString [] w)
    as (calls & w0 & streamed & Hrun & Ht & Hp & Hx & Hcalls).
  cbn [String.append app] in Hrun.
  unfold processStreamResponse. unfold bindM at 1. rewrite Hrun, Hfail.
  cbn iota. unfold bindM at 1. unfold ret at 1. cbn iota.
  set (thoughtText := joined (thoughtsStreamed streamed)).
  set (outputText := joined (textsStreamed streamed)).
  fold (streamedMessage streamRole forDisplay thoughtText outputText calls).
  unfold bindM.
  destruct (negb (is_empty outputText) || negb (is_nil calls)) eqn:Hcontent.
  - rewrite persistMessage_streamedMessage.
    eexists thoughtText, outputText, calls, _, streamed.
    split; [reflexivity |]. repeat (split; [easy |]).
    rewrite Hcontent. cbn [extend trace]. now rewrite Ht, <- app_assoc.
  - eexists thoughtText, outputText, calls, _, streamed.
    split; [reflexivity |]. repeat (split; [easy |]).
    rewrite Hcontent. now rewrite Ht, app_nil_r.
Qed.

(** X19 on the plan that thinks aloud and then calls the click. *)
Lemma streamed_reply_is_returned_and_stored_witness :
  failure click_plan = None
  /\ exists thoughtText outputText calls w1 streamed,
       processStreamResponse model click_plan None (fresh_world [])
       = (Ok (thoughtText, outputText, calls), w1)
       /\ thoughtText = joined (thoughtsStreamed streamed)
       /\ outputText = joined (textsStreamed streamed)
       /\ Forall2 filled (rawCalls (chunks click_plan)) calls
       /\ persistedOf streamed = [] /\ executedOf streamed = []
       /\ trace w1
          = trace (fresh_world []) ++ streamed
            ++ (if negb (is_empty outputText) || negb (is_nil calls)
                then [Persisted (streamedMessage model None
                                   thoughtText outputText calls)]
                else []).
Proof.
  split; [reflexivity |].
  exact (streamed_reply_is_returned_and_stored model click_plan None
           (fresh_world []) eq_refl).
Defined.

(** ** The decisions of the user *)

Variable env : Env.

Definition accepted (d : Decision) : bool := negb (isReject d).

Lemma persistMessage_executes message w :
  exists events,
    trace (snd (persistMessage message w)) = trace w ++ events
    /\ executedOf events = [].
Proof.
  unfold persistMessage, bindM, lift. destruct (mapM _ _).
  - now exists [Persisted message].
  - exists []. now rewrite app_nil_r.
Qed.

Lemma executeToolGetPart_executes functionCall originalFunctionCall w :
  trace (snd (executeToolGetPart env functionCall originalFunctionCall w))
  = trace w ++ [ToolExecuted functionCall].
Proof.
  unfold executeToolGetPart, bindM, emit, lift. reflexivity.
Qed.

Lemma answerDecision_executes d w :
  exists events,
    trace (snd (answerDecision env d w)) = trace w ++ events
    /\ executedOf events = if accepted d then [d_functionCall d] else [].
Proof.
  assert (Haccepted :
            forall forDisplay, exists events,
              trace (snd ((toolResultPart <-
                             executeToolGetPart env (d_functionCall d)
                               (Some (d_originalFunctionCall d)) ;;
                           persistMessage
                             {| apm_role := tool;
                                apm_parts := [OfPart toolResultPart];
                                apm_toolReview := None;
                                apm_forDisplay := forDisplay |} ;;
                           ret toolResultPart) w))
              = trace w ++ events
              /\ executedOf events = [d_functionCall d]).
  { intros forDisplay. unfold bindM at 1.
    pose proof (executeToolGetPart_executes (d_functionCall d)
                  (Some (d_originalFunctionCall d)) w) as Ht.
    destruct (executeToolGetPart env _ _ w) as [[part | e] w0];
      cbn [snd] in Ht.
    - unfold bindM, ret.
      destruct (persistMessage_executes
                  {| apm_role := tool; apm_parts := [OfPart part];
                     apm_toolReview := None; apm_forDisplay := forDisplay |}
                  w0) as (ev & Hev & Hx).
      destruct (persistMessage _ w0) as [[[] | e] w1]; cbn [snd] in *;
        exists (ToolExecuted (d_functionCall d) :: ev);
        (split; [now rewrite Hev, Ht, <- app_assoc |]);
        unfold executedOf in *; cbn [flat_map app]; now rewrite Hx.
    - now exists [ToolExecuted (d_functionCall d)]. }
  unfold answerDecision, accepted, isReject.
  destruct (d_response d); cbn [negb]; try apply Haccepted.
  unfold bindM at 1. unfold lift.
  destruct (forgeToolResponse _ _ _) as [part | e].
  - unfold bindM, ret.
    destruct (persistMessage_executes
                {| apm_role := tool; apm_parts := [OfPart part];
                   apm_toolReview := None; apm_forDisplay := Some false |} w)
      as (ev & Hev & Hx).
    destruct (persistMessage _ w) as [[[] | e] w1]; now exists ev.
  - exists []. now rewrite app_nil_r.
Qed.

Lemma answerDecisions_execute decisions :
  forall w, exists events n,
    trace (snd (forEachM (answerDecision env) decisions w)) = trace w ++ events
    /\ executedOf events
       = map d_functionCall (filter accepted (firstn n decisions))
    /\ (forall parts w1,
          forEachM (answerDecision env) decisions w = (Ok parts, w1) ->
          executedOf events = map d_functionCall (filter accepted decisions)).
Proof.
  induction decisions as [| d decisions IH]; intros w; cbn [forEachM].
  - exists [], 0%nat. rewrite app_nil_r. now repeat split.
  - destruct (answerDecision_executes d w) as (ev1 & Ht1 & Hx1).
    unfold bindM, ret.
    destruct (answerDecision env d w) as [[part | e] w0]; cbn [snd] in Ht1.
    + destruct (IH w0) as (ev2 & n & Ht2 & Hx2 & Hall).
      assert (Hexecuted : forall m,
                 executedOf ev2 = map d_functionCall (filter accepted m) ->
                 executedOf (ev1 ++ ev2)
                 = map d_functionCall (filter accepted (d :: m))).
      { intros m Hm. unfold executedOf in *. rewrite flat_map_app, Hx1, Hm.
        cbn [filter]. now destruct (accepted d). }
      destruct (forEachM (answerDecision env) decisions w0)
        as [[parts | e] w1]; cbv beta iota; cbn [snd] in *.
      * exists (ev1 ++ ev2), (S n).
        split; [now rewrite Ht2, Ht1, app_assoc |].
        split; [now apply Hexecuted |].
        intros _ _ _. apply Hexecuted. now apply (Hall parts w1).
      * exists (ev1 ++ ev2), (S n).
        split; [now rewrite Ht2, Ht1, app_assoc |].
        split; [now apply Hexecuted |]. intros ? ? H. discriminate H.
    + exists ev1, 1%nat. split; [exact Ht1 |]. split.
      * rewrite Hx1. cbn [firstn filter]. now destruct (accepted d).
      * intros ? ? H. discriminate H.
Qed.

Lemma seedInput_executes decisions w :
  exists events n,
    trace (snd (seedInput env (InputDecisions decisions) w))
    = trace w ++ events
    /\ executedOf events
       = map d_functionCall (filter accepted (firstn n decisions))
    /\ (forall seeded w1,
          seedInput env (InputDecisions decisions) w = (Ok seeded, w1) ->
          executedOf events = map d_functionCall (filter accepted decisions)).
Proof.
  cbn [seedInput]. unfold bindM at 1 3.
  destruct (answerDecisions_execute decisions w) as (ev & n & Ht & Hx & Hall).
  destruct (forEachM (answerDecision env) decisions w)
    as [[parts | e] w0]; cbn [snd] in Ht.
  - specialize (Hall parts w0 eq_refl).
    destruct (forallb isReject decisions).
    + exists (ev ++ [StatusSet stagnant (Some "User rejected all tool calls.")]),
        (List.length decisions).
      rewrite firstn_all. split; [cbn; now rewrite Ht, app_assoc |].
      unfold executedOf in *. rewrite flat_map_app, Hall. cbn.
      rewrite app_nil_r. split; [reflexivity | intros; reflexivity].
    + exists ev, (List.length decisions). rewrite firstn_all.
      split; [exact Ht |]. split; [exact Hall | intros; exact Hall].
  - exists ev, n. split; [exact Ht |]. split; [exact Hx |].
    intros ? ? H. discriminate H.
Qed.

(** X20: the decisions of the user are followed.  Of the decisions a run
    is started with, the calls passed to [executeToolCall] before the
    first turn are those of the decisions that are not rejections, each
    once and in the order of the decisions, up to the decision at which
    something is thrown if any: a rejected call is never executed, and
    when the statements on the input return, every accepted call was. *)
Theorem accepted_decisions_are_executed_in_order decisions w :
  exists events n,
    trace (snd (seedInput env (InputDecisions decisions) w))
    = trace w ++ events
    /\ executedOf events
       = map d_functionCall (filter accepted (firstn n decisions))
    /\ (forall seeded w1,
          seedInput env (InputDecisions decisions) w = (Ok seeded, w1) ->
          executedOf events = map d_functionCall (filter accepted decisions)).
Proof.
  exact (seedInput_executes decisions w).
Qed.

End Streams.

(** ** Every call is accounted for *)

Section Accounts.

Variable env : Env.

(** A function response that answers a call: it carries its id and its
    name. *)
Definition answers (fc : FunctionCall) (part : Part) : Prop :=
  exists response,
    part = functionResponsePart
             {| fr_id := fc_id fc; fr_name := fc_name fc;
                fr_response := response |}.

(** A review request for a call: it keeps the call as the original one,
    is filed under its id, and proposes a [.computer] call of that id. *)
Definition asksReviewOf (fc : FunctionCall) (request : ToolReviewRequest)
    : Prop :=
  req_originalFunctionCall request = fc
  /\ req_reviewId request = fc_id fc
  /\ fc_id (req_functionCall request) = fc_id fc
  /\ fc_name (req_functionCall request) = ".computer".

(** The review requests among the messages of a turn. *)
Definition reviewRequests (messages : list AgentPersistMessage)
    : list ToolReviewRequest :=
  flat_map (fun m => match apm_toolReview m with
                     | Some (Request r) => [r]
                     | _ => []
                     end) messages.

(** The elements of a list whose flag is [b]. *)
Fixpoint select {A} (b : bool) (flags : list bool) (xs : list A) : list A :=
  match flags, xs with
  | flag :: flags', x :: xs' =>
      if Bool.eqb flag b then x :: select b flags' xs' else select b flags' xs'
  | _, _ => []
  end.

Lemma forgeToolResponse_answers response fc part :
  forgeToolResponse response fc (Some fc) = Ok part -> answers fc part.
Proof.
  unfold forgeToolResponse. destruct (is_empty (fc_id fc)); [discriminate |].
  intros H. injection H as <-. now exists response.
Qed.

Lemma executeToolGetPart_answers functionCall fc w part w1 :
  executeToolGetPart env functionCall (Some fc) w = (Ok part, w1) ->
  exists response,
    part = functionResponsePart
             {| fr_id := fc_id fc; fr_name := fc_name fc;
                fr_response := response |}.
Proof.
  unfold executeToolGetPart. intros Hrun.
  apply bindM_Ok in Hrun as ([] & w2 & _ & Hrun).
  apply lift_Ok in Hrun as [Hrun _]. unfold toolResponsePart in Hrun.
  match type of Hrun with
  | bind ?r _ = _ => destruct r as [response | e]; [| discriminate]
  end.
  cbn [bind] in Hrun. unfold forgeToolResponse in Hrun.
  destruct (is_empty (fc_id functionCall)); [discriminate |].
  injection Hrun as <-. now exists response.
Qed.

(** What one round of the loop over the calls adds. *)
Definition accounted (acc acc' : Dispatch) (fc : FunctionCall)
    (reviewed : bool) : Prop :=
  if reviewed then
    toolResponseParts acc' = toolResponseParts acc
    /\ exists request,
         reviewRequests (toolReviewMessages acc')
         = reviewRequests (toolReviewMessages acc) ++ [request]
         /\ asksReviewOf fc request
         /\ ((isPending acc' = true
              /\ delayedFunctionCalls acc' = delayedFunctionCalls acc)
             \/ (isPending acc' = isPending acc
                 /\ delayedFunctionCalls acc'
                    = delayedFunctionCalls acc
                      ++ [(req_functionCall request, fc)]))
  else
    isPending acc' = isPending acc
    /\ delayedFunctionCalls acc' = delayedFunctionCalls acc
    /\ reviewRequests (toolReviewMessages acc')
       = reviewRequests (toolReviewMessages acc)
    /\ exists part,
         toolResponseParts acc' = toolResponseParts acc ++ [part]
         /\ answers fc part.

Lemma processFunctionCall_accounted screenshot croppedScreenshotsData
    acc fc w acc' w1 :
  processFunctionCall env screenshot croppedScreenshotsData acc fc w
  = (Ok acc', w1) ->
  exists reviewed, accounted acc acc' fc reviewed.
Proof.
  unfold processFunctionCall. intros Hrun.
  assert (Hanswered :
            forall part,
              answers fc part ->
              accounted acc
                {| toolResponseParts := toolResponseParts acc ++ [part];
                   isPending := isPending acc;
                   toolReviewMessages := toolReviewMessages acc;
                   delayedFunctionCalls := delayedFunctionCalls acc |}
                fc false).
  { intros part Hpart. cbn. repeat split. now exists part. }
  destruct (startsWith "computer_" (fc_name fc)) eqn:Hname.
  - follow Hrun; subst acc';
      repeat match goal with
             | H : lift _ _ = (Ok _, _) |- _ => apply lift_Ok in H as [H _]
             end;
      try (exists false; apply Hanswered;
           eapply forgeToolResponse_answers; eassumption).
    + exists true. cbn [accounted toolResponseParts toolReviewMessages
                        isPending delayedFunctionCalls].
      split; [reflexivity |]. eexists. split.
      * unfold reviewRequests. rewrite flat_map_app. cbn. reflexivity.
      * split; [| right; split; reflexivity].
        repeat split.
        match goal with
        | Hg : ground _ _ _ _ _ _ = (Ok (inl _), _) |- _ =>
            apply (ground_grounded_ok (fun _ => True) plain_True) in Hg
              as [Hvalue _];
              exact Hvalue
        end.
    + exists true. cbn [accounted toolResponseParts toolReviewMessages
                        isPending delayedFunctionCalls].
      split; [reflexivity |]. eexists. split.
      * unfold reviewRequests. rewrite flat_map_app. cbn. reflexivity.
      * split; [| left; split; reflexivity].
        repeat split.
        match goal with
        | Hg : ground _ _ _ _ _ _ = (Ok (inl _), _) |- _ =>
            apply (ground_grounded_ok (fun _ => True) plain_True) in Hg
              as [Hvalue _];
              exact Hvalue
        end.
  - apply bindM_Ok in Hrun as (part & w2 & Hpart & Hrun).
    apply ret_Ok in Hrun as [<- _]. exists false. apply Hanswered.
    exact (executeToolGetPart_answers _ _ _ _ _ Hpart).
Qed.

Lemma processFunctionCalls_accounted screenshot croppedScreenshotsData calls :
  forall acc w acc' w1,
    processFunctionCalls env screenshot croppedScreenshotsData acc calls w
    = (Ok acc', w1) ->
    exists reviewed parts requests delayed,
      List.length reviewed = List.length calls
      /\ toolResponseParts acc' = toolResponseParts acc ++ parts
      /\ Forall2 answers (select false reviewed calls) parts
      /\ reviewRequests (toolReviewMessages acc')
         = reviewRequests (toolReviewMessages acc) ++ requests
      /\ Forall2 asksReviewOf (select true reviewed calls) requests
      /\ (isPending acc' = false ->
          isPending acc = false
          /\ delayedFunctionCalls acc' = delayedFunctionCalls acc ++ delayed
          /\ delayed = combine (map req_functionCall requests)
                         (select true reviewed calls)).
Proof.
  induction calls as [| fc calls IH]; intros acc w acc' w1 Hrun;
    cbn [processFunctionCalls] in Hrun.
  - apply ret_Ok in Hrun as [<- _]. exists [], [], [], [].
    rewrite !app_nil_r. cbn [select List.length map combine].
    repeat split; first [apply Forall2_nil | assumption | reflexivity].
  - apply bindM_Ok in Hrun as (acc1 & w2 & Hfirst & Hrest).
    destruct (processFunctionCall_accounted _ _ _ _ _ _ _ Hfirst)
      as [reviewed0 Hfc].
    destruct (IH _ _ _ _ Hrest)
      as (reviewed & parts & requests & delayed & Hlen & Hparts & Hanswers
          & Hrequests & Hasks & Hdelayed).
    destruct reviewed0; cbn [accounted] in Hfc.
    + destruct Hfc as (Hsame & request & Hrequest & Hask & Hcases).
      exists (true :: reviewed), parts, (request :: requests),
        ((req_functionCall request, fc) :: delayed).
      cbn [List.length select Bool.eqb map combine].
      split; [now rewrite Hlen |]. split; [now rewrite Hparts, Hsame |].
      split; [exact Hanswers |].
      split; [now rewrite Hrequests, Hrequest, <- app_assoc |].
      split; [now constructor |].
      intros Hfree. destruct (Hdelayed Hfree) as (Hfree1 & Hd & Hcombine).
      destruct Hcases as [[Hpending _] | [Hpending Hd1]]; [congruence |].
      split; [congruence |].
      split; [now rewrite Hd, Hd1, <- app_assoc | now rewrite Hcombine].
    + destruct Hfc as (Hpending & Hd1 & Hrequest & part & Hpart & Hanswer).
      exists (false :: reviewed), (part :: parts), requests, delayed.
      cbn [List.length select Bool.eqb].
      split; [now rewrite Hlen |].
      split; [now rewrite Hparts, Hpart, <- app_assoc |].
      split; [now constructor |].
      split; [now rewrite Hrequests, Hrequest |].
      split; [exact Hasks |].
      intros Hfree. destruct (Hdelayed Hfree) as (Hfree1 & Hd & Hcombine).
      split; [congruence |]. split; [congruence | exact Hcombine].
Qed.

End Accounts.

(** X23: no call of the model is dropped.  When the loop over the
    function calls of a turn returns, each call was either answered (the
    tool responses are function responses that carry, in the order of the
    calls, the id and the name of the calls that are not under review)
    or put up for review (the review requests keep, in the order of the
    calls, the remaining calls as original calls, are filed under their
    ids and propose [.computer] calls of the same ids); and when the turn
    is not pending, the calls delayed for execution are exactly the
    proposed calls of these requests, each with its original call. *)
Theorem every_call_is_answered_or_reviewed
    env screenshot croppedScreenshotsData calls w acc w1 :
  processFunctionCalls env screenshot croppedScreenshotsData
    {| toolResponseParts := []; isPending := false;
       toolReviewMessages := []; delayedFunctionCalls := [] |} calls w
  = (Ok acc, w1) ->
  exists reviewed,
    List.length reviewed = List.length calls
    /\ Forall2 answers (select false reviewed calls) (toolResponseParts acc)
    /\ Forall2 asksReviewOf (select true reviewed calls)
         (reviewRequests (toolReviewMessages acc))
    /\ (isPending acc = false ->
        delayedFunctionCalls acc
        = combine (map req_functionCall
                     (reviewRequests (toolReviewMessages acc)))
                  (select true reviewed calls)).
Proof.
  intros Hrun.
  destruct (processFunctionCalls_accounted _ _ _ _ _ _ _ _ Hrun)
    as (reviewed & parts & requests & delayed & Hlen & Hparts & Hanswers
        & Hrequests & Hasks & Hdelayed).
  cbn [toolResponseParts toolReviewMessages delayedFunctionCalls
       reviewRequests flat_map app] in *.
  subst. exists reviewed. repeat (split; [assumption |]).
  intros Hfree. destruct (Hdelayed Hfree) as (_ & -> & ->). reflexivity.
Qed.

(** A turn of two calls: a shell command, executed at once, and a wait,
    put up for review. *)
Definition list_files : FunctionCall :=
  {| fc_id := "call-0"; fc_name := "run_shell_command";
     fc_args := [("command", JString "ls")] |}.

Definition two_calls_run : Result Dispatch * World :=
  Eval vm_compute in
    processFunctionCalls bare_env screenshot_1024 tiles_1024
      {| toolResponseParts := []; isPending := false;
         toolReviewMessages := []; delayedFunctionCalls := [] |}
      [list_files; wait_two_seconds] world_observed.

Definition two_calls_result : Dispatch :=
  Eval vm_compute in
    match fst two_calls_run with
    | Ok acc => acc
    | Throw _ => {| toolResponseParts := []; isPending := false;
                    toolReviewMessages := []; delayedFunctionCalls := [] |}
    end.

(** X23 on that turn. *)
Lemma every_call_is_answered_or_reviewed_witness :
  processFunctionCalls bare_env screenshot_1024 tiles_1024
    {| toolResponseParts := []; isPending := false;
       toolReviewMessages := []; delayedFunctionCalls := [] |}
    [list_files; wait_two_seconds] world_observed
  = (Ok two_calls_result, snd two_calls_run)
  /\ List.length (toolResponseParts two_calls_result) = 1%nat
  /\ isPending two_calls_result = true
  /\ exists reviewed,
       List.length reviewed = List.length [list_files; wait_two_seconds]
       /\ Forall2 answers (select false reviewed [list_files; wait_two_seconds])
            (toolResponseParts two_calls_result)
       /\ Forall2 asksReviewOf
            (select true reviewed [list_files; wait_two_seconds])
            (reviewRequests (toolReviewMessages two_calls_result))
       /\ (isPending two_calls_result = false ->
           delayedFunctionCalls two_calls_result
           = combine (map req_functionCall
                        (reviewRequests (toolReviewMessages two_calls_result)))
                     (select true reviewed [list_files; wait_two_seconds])).
Proof.
  assert (Hrun : processFunctionCalls bare_env screenshot_1024 tiles_1024
                   {| toolResponseParts := []; isPending := false;
                      toolReviewMessages := []; delayedFunctionCalls := [] |}
                   [list_files; wait_two_seconds] world_observed
                 = (Ok two_calls_result, snd two_calls_run))
    by (vm_compute; reflexivity).
  split; [exact Hrun |]. split; [reflexivity |]. split; [reflexivity |].
  exact (every_call_is_answered_or_reviewed bare_env screenshot_1024 tiles_1024
           [list_files; wait_two_seconds] world_observed two_calls_result
           (snd two_calls_run) Hrun).
Defined.

(** ** From the review to the execution *)

Section ReviewsCarriedOut.
Import Interface Entry.

Variable env : Env.

(** The choice of the user for a request: that of the first response
    with its review id; [approved] when it is not a rejection. *)
Definition approved (responses : list ToolReviewResponse)
    (request : ToolReviewRequest) : bool :=
  match find (fun r => String.eqb (resp_reviewId r) (req_reviewId request))
             responses with
  | Some response =>
      match resp_choice response with
      | reject_once => false
      | _ => true
      end
  | None => false
  end.

Lemma approved_calls responses requests decisions :
  Forall2
    (fun request d =>
       d_functionCall d = req_functionCall request
       /\ d_originalFunctionCall d = req_originalFunctionCall request
       /\ exists response,
            find (fun r => String.eqb (resp_reviewId r) (req_reviewId request))
                 responses = Some response
            /\ d_response d = resp_choice response)
    requests decisions ->
  forall n,
    map d_functionCall (filter accepted (firstn n decisions))
    = map req_functionCall (filter (approved responses) (firstn n requests)).
Proof.
  induction 1 as [| request d requests decisions Hd _ IH]; intros n.
  - now rewrite !firstn_nil.
  - destruct n as [| n]; [reflexivity |]. cbn [firstn filter].
    destruct Hd as (Hcall & _ & response & Hfind & Hchoice).
    assert (Hsame : accepted d = approved responses request).
    { unfold accepted, isReject, approved. rewrite Hfind, Hchoice.
      now destruct (resp_choice response). }
    rewrite Hsame. destruct (approved responses request); cbn [map];
      now rewrite IH, ?Hcall.
Qed.

(** X24: what the user approves is what is executed.  When a review
    response makes [runComputerUseAgent] run the agent, the calls that
    the agent passes to [executeToolCall] before its first turn are the
    calls proposed by the recovered requests ([functionCall], the
    grounded call that was shown) whose first response is not a
    rejection, each once and in the order of the requests, up to the one
    at which something is thrown if any: the call of a rejected request
    is never executed, and when the statements on the input return, the
    call of every approved request was. *)
Theorem approved_reviews_execute_the_proposed_calls
    now store store' review agentInput tools w :
  checkInput now store (inr review) = (Ok (Started agentInput tools), store') ->
  exists events n,
    trace (snd (seedInput env agentInput w)) = trace w ++ events
    /\ executedOf events
       = map req_functionCall
           (filter (approved (givenResponses store ++ [review]))
                   (firstn n (pendingRequests store)))
    /\ (forall seeded w1,
          seedInput env agentInput w = (Ok seeded, w1) ->
          executedOf events
          = map req_functionCall
              (filter (approved (givenResponses store ++ [review]))
                      (pendingRequests store))).
Proof.
  intros Hstarted.
  destruct (checkInput_started _ _ _ _ _ _ Hstarted)
    as (decisions & -> & Hdecisions & _).
  destruct (seedInput_executes env decisions w) as (events & n & Ht & Hn & Hall).
  exists events, n. split; [exact Ht |]. split.
  - rewrite Hn. now apply approved_calls.
  - intros seeded w1 Hrun. rewrite (Hall seeded w1 Hrun).
    pose proof (approved_calls _ _ _ Hdecisions (List.length decisions)) as H.
    rewrite firstn_all in H. rewrite <- (Forall2_length Hdecisions) in H.
    rewrite firstn_all in H. exact H.
Qed.

End ReviewsCarriedOut.

Section ReviewsCarriedOutExample.

Import Interface Entry.

(** X24 on the pending session: the click that was shown is accepted for
    the session, and executed when the agent starts. *)
Lemma approved_reviews_execute_the_proposed_calls_witness :
  exists agentInput tools store',
    click_admission = (Ok (Started agentInput tools), store')
    /\ exists events n,
         trace (snd (seedInput bare_env agentInput (fresh_world [])))
         = trace (fresh_world []) ++ events
         /\ executedOf events
            = map req_functionCall
                (filter (approved (givenResponses store_pending
                                   ++ [accept_click_for_session]))
                        (firstn n (pendingRequests store_pending)))
         /\ (forall seeded w1,
               seedInput bare_env agentInput (fresh_world [])
               = (Ok seeded, w1) ->
               executedOf events
               = map req_functionCall
                   (filter (approved (givenResponses store_pending
                                      ++ [accept_click_for_session]))
                           (pendingRequests store_pending))).
Proof.
  eexists _, _, _. split; [reflexivity |].
  exact (approved_reviews_execute_the_proposed_calls bare_env "9"
           store_pending _ accept_click_for_session _ _ (fresh_world [])
           (eq_refl : checkInput "9" store_pending
                        (inr accept_click_for_session)
                      = click_admission)).
Defined.

End ReviewsCarriedOutExample.

End AgentCalls.

(* ================================================================== *)
(** * The metadata of a session (repository/session.ts) *)
(* ================================================================== *)

Module SessionFiles.
Import Js Json Shared.
Local Open Scope nat_scope.
Local Open Scope string_scope.

(** The indentation of [JSON.stringify(value, null, 2)] at a depth. *)
Fixpoint indentation (depth : nat) : string :=
  match depth with
  | O => EmptyString
  | S d => "  " ++ indentation d
  end.

(** [JSON.stringify(v, null, 2)] at a depth: an array or an object that
    is not empty has each item or member on a line of its own, and a
    space follows the colon of a member. *)
Fixpoint JSON_stringify_2 (depth : nat) (v : json) {struct v} : string :=
  let line := str1 newline ++ indentation (S depth) in
  match v with
  | JArray ((_ :: _) as items) =>
      "[" ++ line
      ++ join ("," ++ line) (map (JSON_stringify_2 (S depth)) items)
      ++ str1 newline ++ indentation depth ++ "]"
  | JObject ((_ :: _) as members) =>
      "{" ++ line
      ++ join ("," ++ line)
           (map (fun m => quoted (fst m) ++ ": "
                          ++ JSON_stringify_2 (S depth) (snd m)) members)
      ++ str1 newline ++ indentation depth ++ "}"
  | _ => JSON_stringify v
  end.

End SessionFiles.

Section PrettyRoundTrip.
Import Js Json SessionFiles.
Local Open Scope nat_scope.
Local Open Scope string_scope.

(** What follows a value in an indented text: nothing, a comma, a closing
    bracket, or white space. *)
Definition follows (rest : string) : Prop :=
  match rest with
  | EmptyString => True
  | String c _ => terminator c = true \/ is_ws c = true
  end.

Lemma follows_cases c :
  terminator c = true \/ is_ws c = true ->
  is_digit c = false /\ Ascii.eqb c "." = false /\ Ascii.eqb c "e" = false
  /\ Ascii.eqb c "E" = false.
Proof.
  destruct c as [[|] [|] [|] [|] [|] [|] [|] [|]];
    ((repeat split; reflexivity)
     || (intros [H | H]; vm_compute in H; discriminate)).
Qed.

Lemma take_digits_follows s rest :
  follows rest ->
  take_digits (s ++ rest) = (fst (take_digits s), snd (take_digits s) ++ rest).
Proof.
  intros Hrest. induction s as [| c s IH]; simpl.
  - destruct rest as [| d rest]; [reflexivity |].
    simpl. destruct (follows_cases d Hrest) as [-> _]. reflexivity.
  - destruct (is_digit c); [| reflexivity].
    rewrite IH. destruct (take_digits s). reflexivity.
Qed.

Lemma parse_fraction_follows s rest frac r :
  follows rest ->
  parse_fraction s = Some (frac, r) ->
  parse_fraction (s ++ rest) = Some (frac, r ++ rest).
Proof.
  intros Hrest. destruct s as [| c s]; simpl.
  - intros H. injection H as <- <-.
    destruct rest as [| d rest]; [reflexivity |].
    simpl. destruct (follows_cases d Hrest) as (_ & -> & _). reflexivity.
  - destruct (Ascii.eqb c ".").
    + rewrite (take_digits_follows s rest Hrest).
      destruct (take_digits s) as [ds r0]. simpl.
      destruct (is_empty ds); [discriminate |].
      intros H. injection H as <- <-. reflexivity.
    + intros H. injection H as <- <-. reflexivity.
Qed.

Lemma parse_exponent_follows s rest ex r :
  follows rest ->
  parse_exponent s = Some (ex, r) ->
  parse_exponent (s ++ rest) = Some (ex, r ++ rest).
Proof.
  intros Hrest. destruct s as [| c s]; simpl.
  - intros H. injection H as <- <-.
    destruct rest as [| d rest]; [reflexivity |].
    simpl. destruct (follows_cases d Hrest) as (_ & _ & -> & ->).
    reflexivity.
  - destruct (Ascii.eqb c "e" || Ascii.eqb c "E").
    + destruct s as [| d s]; [simpl; discriminate |].
      simpl. destruct (Ascii.eqb d "+" || Ascii.eqb d "-").
      * rewrite (take_digits_follows s rest Hrest).
        destruct (take_digits s) as [ds r0]. simpl.
        destruct (is_empty ds); [discriminate |].
        intros H. injection H as <- <-. reflexivity.
      * change (String d (s ++ rest)) with (String d s ++ rest).
        rewrite (take_digits_follows (String d s) rest Hrest).
        destruct (take_digits (String d s)) as [ds r0]. simpl.
        destruct (is_empty ds); [discriminate |].
        intros H. injection H as <- <-. reflexivity.
    + intros H. injection H as <- <-. reflexivity.
Qed.

Lemma parse_number_follows s rest lexeme r :
  follows rest ->
  parse_number s = Some (lexeme, r) ->
  parse_number (s ++ rest) = Some (lexeme, r ++ rest).
Proof.
  intros Hrest. unfold parse_number.
  assert (Hgen : forall sign s1,
             (let (int, s2) := take_digits s1 in
              if negb (integer_part_ok int) then None
              else match parse_fraction s2 with
                   | None => None
                   | Some (frac, s3) =>
                       match parse_exponent s3 with
                       | None => None
                       | Some (ex, s4) => Some (sign ++ int ++ frac ++ ex, s4)
                       end
                   end) = Some (lexeme, r) ->
             (let (int, s2) := take_digits (s1 ++ rest) in
              if negb (integer_part_ok int) then None
              else match parse_fraction s2 with
                   | None => None
                   | Some (frac, s3) =>
                       match parse_exponent s3 with
                       | None => None
                       | Some (ex, s4) => Some (sign ++ int ++ frac ++ ex, s4)
                       end
                   end) = Some (lexeme, r ++ rest)).
  { intros sign s1. rewrite (take_digits_follows s1 rest Hrest).
    destruct (take_digits s1) as [int s2]. simpl fst. simpl snd.
    destruct (negb (integer_part_ok int)); [discriminate |].
    destruct (parse_fraction s2) as [[frac s3] |] eqn:Ef; [| discriminate].
    rewrite (parse_fraction_follows _ _ _ _ Hrest Ef).
    destruct (parse_exponent s3) as [[ex s4] |] eqn:Ee; [| discriminate].
    rewrite (parse_exponent_follows _ _ _ _ Hrest Ee).
    intros H. injection H as <- <-. reflexivity. }
  destruct s as [| c s].
  - simpl. discriminate.
  - cbn [append]. destruct (Ascii.eqb c "-").
    + apply Hgen.
    + apply (Hgen EmptyString (String c s)).
Qed.

(** ** White space *)

Lemma skip_ws_indentation depth s :
  skip_ws (indentation depth ++ s) = skip_ws s.
Proof. induction depth as [| d IH]; [reflexivity | exact IH]. Qed.

Lemma skip_ws_line depth s :
  skip_ws (str1 newline ++ indentation depth ++ s) = skip_ws s.
Proof. exact (skip_ws_indentation depth s). Qed.

Lemma parse_value_line fuel depth s :
  parse_value fuel (str1 newline ++ indentation depth ++ s)
  = parse_value fuel s.
Proof.
  destruct fuel as [| fuel]; [reflexivity |].
  cbn [parse_value]. now rewrite skip_ws_line.
Qed.

Lemma parse_value_space fuel s :
  parse_value fuel (String " " s) = parse_value fuel s.
Proof. destruct fuel as [| fuel]; reflexivity. Qed.

Lemma parse_items_line fuel depth s :
  parse_items fuel (str1 newline ++ indentation depth ++ s)
  = parse_items fuel s.
Proof.
  destruct fuel as [| fuel]; [reflexivity |].
  cbn [parse_items]. now rewrite parse_value_line.
Qed.

(** ** Values *)

Definition member_text_2 (depth : nat) (m : string * json) : string :=
  quoted (fst m) ++ ": " ++ JSON_stringify_2 depth (snd m).

Definition separator (depth : nat) : string :=
  "," ++ str1 newline ++ indentation depth.

Lemma JSON_stringify_2_array depth x items :
  JSON_stringify_2 depth (JArray (x :: items))
  = String "["
      (str1 newline ++ indentation (S depth)
       ++ join (separator (S depth))
            (map (JSON_stringify_2 (S depth)) (x :: items))
       ++ str1 newline ++ indentation depth ++ "]").
Proof. reflexivity. Qed.

Lemma JSON_stringify_2_object depth m members :
  JSON_stringify_2 depth (JObject (m :: members))
  = String "{"
      (str1 newline ++ indentation (S depth)
       ++ join (separator (S depth))
            (map (member_text_2 (S depth)) (m :: members))
       ++ str1 newline ++ indentation depth ++ "}").
Proof. reflexivity. Qed.

Lemma stringify_2_head depth v :
  wellFormed v = true ->
  exists c t, JSON_stringify_2 depth v = String c t /\ opens c = true.
Proof.
  destruct v as [| b | numeral | s | [| x items] | [| m members]];
    try apply (stringify_head _).
  - intros _. rewrite JSON_stringify_2_array. now eexists _, _.
  - intros _. rewrite JSON_stringify_2_object. now eexists _, _.
Qed.

(** [reads_back_2 v]: with enough fuel, the parser reads the indented
    text of [v], at any depth, back as [v] and stops at what follows. *)
Definition reads_back_2 (v : json) : Prop :=
  forall depth fuel rest,
    weight v <= fuel -> follows rest ->
    parse_value fuel (JSON_stringify_2 depth v ++ rest) = Some (v, rest).

Lemma follows_line depth rest :
  follows (str1 newline ++ indentation depth ++ rest).
Proof. right. reflexivity. Qed.

Lemma follows_separator depth rest : follows (separator depth ++ rest).
Proof. left. reflexivity. Qed.

Lemma parse_items_stringify_2 (items : list json) :
  Forall reads_back_2 items -> items <> [] ->
  forall depth fuel rest,
    weights items <= fuel ->
    parse_items fuel
      (join (separator (S depth)) (map (JSON_stringify_2 (S depth)) items)
       ++ str1 newline ++ indentation depth ++ String "]" rest)
    = Some (items, rest).
Proof.
  induction 1 as [| x t Hx Ht IH]; [congruence |].
  intros _ depth fuel rest Hfuel. unfold weights in Hfuel.
  cbn [fold_right] in Hfuel. fold (weights t) in Hfuel.
  destruct fuel as [| fuel]; [lia |].
  destruct t as [| y t].
  - cbn [map].
    change (join (separator (S depth)) [JSON_stringify_2 (S depth) x])
      with (JSON_stringify_2 (S depth) x).
    cbn [parse_items].
    rewrite (Hx (S depth) fuel); [| lia | apply follows_line].
    rewrite skip_ws_line. reflexivity.
  - cbn [map]. rewrite join_cons_cons, !append_assoc.
    cbn [parse_items].
    rewrite (Hx (S depth) fuel); [| lia | apply follows_separator].
    unfold separator at 1. rewrite !append_assoc.
    change (skip_ws ("," ++ ?r)) with (String "," r).
    cbn iota. change (Ascii.eqb "," ",") with true. cbn iota.
    rewrite parse_items_line.
    change (JSON_stringify_2 (S depth) y :: map (JSON_stringify_2 (S depth)) t)
      with (map (JSON_stringify_2 (S depth)) (y :: t)).
    rewrite IH; [reflexivity | discriminate | lia].
Qed.

Lemma member_text_2_head depth m rest :
  exists text,
    member_text_2 depth m ++ rest = String quote text
    /\ parse_string_tail text
       = Some (fst m,
               String ":" (String " " (JSON_stringify_2 depth (snd m) ++ rest))).
Proof.
  exists (escape (fst m)
          ++ String quote
               (String ":" (String " " (JSON_stringify_2 depth (snd m) ++ rest)))).
  split; [| apply parse_string_tail_escape].
  unfold member_text_2, quoted, str1. cbn [append].
  rewrite !append_assoc. reflexivity.
Qed.

Lemma members_2_head depth (members : list (string * json)) (rest : string) :
  members <> [] ->
  exists t,
    join (separator depth) (map (member_text_2 depth) members) ++ rest
    = String quote t.
Proof.
  destruct members as [| x l]; [congruence |]. intros _.
  destruct l as [| y l]; cbn [map].
  - change (join (separator depth) [member_text_2 depth x])
      with (member_text_2 depth x).
    destruct (member_text_2_head depth x rest) as (text & -> & _). now eexists.
  - rewrite join_cons_cons, !append_assoc.
    destruct (member_text_2_head depth x
                (separator depth
                 ++ join (separator depth)
                      (member_text_2 depth y :: map (member_text_2 depth) l)
                 ++ rest))
      as (text & -> & _).
    now eexists.
Qed.

Lemma items_2_head depth (items : list json) (rest : string) :
  forallb wellFormed items = true -> items <> [] ->
  exists c t,
    join (separator depth) (map (JSON_stringify_2 depth) items) ++ rest
    = String c t
    /\ opens c = true.
Proof.
  destruct items as [| x l]; [congruence |]. intros Hwf _.
  simpl in Hwf. apply andb_true_iff in Hwf. destruct Hwf as [Hx _].
  destruct (stringify_2_head depth x Hx) as (c & t & Hc & Hopen).
  destruct l as [| y l]; cbn [map].
  - change (join (separator depth) [JSON_stringify_2 depth x])
      with (JSON_stringify_2 depth x).
    rewrite Hc. now eexists _, _.
  - rewrite join_cons_cons, Hc. now eexists _, _.
Qed.

Lemma parse_members_stringify_2 (members : list (string * json)) :
  Forall (fun m => reads_back_2 (snd m)) members -> members <> [] ->
  forall depth fuel rest,
    member_weights members <= fuel ->
    parse_members fuel
      (join (separator (S depth)) (map (member_text_2 (S depth)) members)
       ++ str1 newline ++ indentation depth ++ String "}" rest)
    = Some (members, rest).
Proof.
  induction 1 as [| [k v] t Hx Ht IH]; [congruence |].
  intros _ depth fuel rest Hfuel.
  unfold member_weights in Hfuel. cbn [fold_right] in Hfuel.
  fold (member_weights t) in Hfuel. cbn [snd] in Hx, Hfuel.
  destruct fuel as [| fuel]; [lia |].
  destruct t as [| y t].
  - cbn [map].
    change (join (separator (S depth)) [member_text_2 (S depth) (k, v)])
      with (member_text_2 (S depth) (k, v)).
    destruct (member_text_2_head (S depth) (k, v)
                (str1 newline ++ indentation depth ++ String "}" rest))
      as (text & -> & Htext).
    cbn [parse_members]. change (Ascii.eqb quote quote) with true. cbn iota.
    rewrite Htext. cbn [fst snd].
    match goal with
    | |- context [skip_ws (String ":" ?r)] =>
        change (skip_ws (String ":" r)) with (String ":" r)
    end.
    cbn iota. change (Ascii.eqb ":" ":") with true. cbn iota.
    rewrite parse_value_space.
    rewrite (Hx (S depth) fuel); [| lia | apply follows_line].
    rewrite skip_ws_line. reflexivity.
  - cbn [map]. rewrite join_cons_cons, !append_assoc.
    destruct (member_text_2_head (S depth) (k, v)
                (separator (S depth)
                 ++ join (separator (S depth))
                      (member_text_2 (S depth) y
                       :: map (member_text_2 (S depth)) t)
                 ++ str1 newline ++ indentation depth ++ String "}" rest))
      as (text & -> & Htext).
    cbn [parse_members]. change (Ascii.eqb quote quote) with true. cbn iota.
    rewrite Htext. cbn [fst snd].
    match goal with
    | |- context [skip_ws (String ":" ?r)] =>
        change (skip_ws (String ":" r)) with (String ":" r)
    end.
    cbn iota. change (Ascii.eqb ":" ":") with true. cbn iota.
    rewrite parse_value_space.
    rewrite (Hx (S depth) fuel); [| lia | apply follows_separator].
    unfold separator at 1. rewrite !append_assoc.
    match goal with
    | |- context [skip_ws ("," ++ ?r)] =>
        change (skip_ws ("," ++ r)) with (String "," r)
    end.
    cbn iota. change (Ascii.eqb "," ",") with true. cbn iota.
    rewrite skip_ws_line.
    change (member_text_2 (S depth) y :: map (member_text_2 (S depth)) t)
      with (map (member_text_2 (S depth)) (y :: t)).
    destruct (members_2_head (S depth) (y :: t)
                (str1 newline ++ indentation depth ++ String "}" rest))
      as (text' & Hhead); [discriminate |].
    rewrite Hhead.
    change (skip_ws (String quote text')) with (String quote text').
    rewrite <- Hhead.
    rewrite IH; [reflexivity | discriminate | lia].
Qed.

(** The parser reads the indented text of a well-formed value back. *)
Lemma parse_value_stringify_2 (v : json) :
  wellFormed v = true -> reads_back_2 v.
Proof.
  induction v as [| b | numeral | s | items IH | members IH]
    using json_induction; intros Hwf depth fuel rest Hfuel Hrest;
    (destruct fuel as [| fuel]; [simpl in Hfuel; lia |]).
  - reflexivity.
  - destruct b; reflexivity.
  - destruct (wellFormed_number numeral Hwf) as (Hok & Htext & Hread).
    cbn [JSON_stringify_2 JSON_stringify]. rewrite Htext.
    clear Hwf Htext. rename Hok into Hwf.
    pose proof (parse_number_follows numeral rest numeral EmptyString Hrest
                  (numeral_ok_parse numeral Hwf)) as Hnum.
    destruct (numeral_ok_head numeral Hwf) as (c & t & -> & Hc).
    destruct (number_branch c Hc) as (Hws & H1 & H2 & H3 & H4 & H5 & H6).
    cbn [append] in *. cbn [parse_value].
    rewrite (skip_ws_head _ _ Hws), H1, H2, H3, H4, H5, H6, Hnum, Hread.
    reflexivity.
  - cbn [JSON_stringify_2 JSON_stringify].
    destruct (parse_string_tail_quoted s rest) as (text & -> & Htext).
    cbn [parse_value]. change (skip_ws (String quote text)) with (String quote text).
    cbv beta iota. change (Ascii.eqb quote "{") with false.
    change (Ascii.eqb quote "[") with false.
    change (Ascii.eqb quote quote) with true. cbv beta iota.
    rewrite Htext. reflexivity.
  - cbn [wellFormed] in Hwf.
    pose proof (Forall_forallb _ _ _ IH Hwf) as Hitems.
    destruct items as [| x items]; [reflexivity |].
    assert (Hne : x :: items <> []) by discriminate.
    rewrite JSON_stringify_2_array. cbn [append]. rewrite !append_assoc.
    change ("]" ++ rest) with (String "]" rest).
    destruct (items_2_head (S depth) (x :: items)
                (str1 newline ++ indentation depth ++ String "]" rest) Hwf Hne)
      as (c & t & Hc & Hopen).
    cbn [parse_value].
    change (skip_ws (String "[" ?r)) with (String "[" r).
    cbv beta iota. change (Ascii.eqb "[" "{") with false.
    change (Ascii.eqb "[" "[") with true. cbv beta iota.
    rewrite skip_ws_line, Hc.
    rewrite (skip_ws_head _ _ (opens_not_ws c Hopen)).
    destruct (opens_not_closing c Hopen) as [-> _].
    rewrite parse_items_line, <- Hc.
    rewrite parse_items_stringify_2; [reflexivity | assumption | assumption |].
    cbn [weight] in Hfuel. fold (weights (x :: items)) in Hfuel. lia.
  - cbn [wellFormed] in Hwf. apply andb_true_iff in Hwf as [Hkeys Hwf].
    pose proof (Forall_forallb (fun m => wellFormed (snd m)) _ _ IH Hwf)
      as Hmembers.
    destruct members as [| m members]; [reflexivity |].
    assert (Hne : m :: members <> []) by discriminate.
    rewrite JSON_stringify_2_object. cbn [append]. rewrite !append_assoc.
    change ("}" ++ rest) with (String "}" rest).
    destruct (members_2_head (S depth) (m :: members)
                (str1 newline ++ indentation depth ++ String "}" rest) Hne)
      as (t & Ht).
    cbn [parse_value].
    change (skip_ws (String "{" ?r)) with (String "{" r).
    cbv beta iota. change (Ascii.eqb "{" "{") with true. cbv beta iota.
    rewrite skip_ws_line, Ht.
    change (skip_ws (String quote t)) with (String quote t).
    cbv beta iota. change (Ascii.eqb quote "}") with false. cbv beta iota.
    rewrite <- Ht.
    rewrite parse_members_stringify_2;
      [now rewrite (definedInOrder_listed _ Hkeys) | assumption | assumption |].
    cbn [weight] in Hfuel. fold (member_weights (m :: members)) in Hfuel. lia.
Qed.

(** ** The fuel [JSON_parse] provides is enough *)

Lemma weights_bound_join {A} (weigh : A -> nat) (print : A -> string)
    (sep : string) (items : list A) :
  1 <= length sep ->
  Forall (fun v => weigh v <= 2 * length (print v)) items ->
  fold_right (fun item acc => S (weigh item + acc)) 0 items
  <= 2 * length (join sep (map print items)) + 2.
Proof.
  intros Hsep. induction 1 as [| x t Hx _ IH]; [simpl; lia |].
  cbn [fold_right]. destruct t as [| y t]; cbn [map].
  - change (join sep [print x]) with (print x). simpl fold_right. lia.
  - rewrite length_join_cons_cons. cbn [map] in IH. lia.
Qed.

Lemma length_separator depth : 1 <= length (separator depth).
Proof. unfold separator. rewrite length_append. simpl. lia. Qed.

Lemma weight_bound_2 (v : json) :
  wellFormed v = true ->
  forall depth, weight v <= 2 * length (JSON_stringify_2 depth v).
Proof.
  induction v as [| b | numeral | s | items IH | members IH]
    using json_induction; intros Hwf depth.
  - simpl. lia.
  - destruct b; simpl; lia.
  - destruct (wellFormed_number numeral Hwf) as (Hok & Htext & _).
    cbn [JSON_stringify_2 JSON_stringify]. rewrite Htext.
    destruct (numeral_ok_head numeral Hok) as (c & t & -> & _). simpl. lia.
  - simpl. lia.
  - cbn [wellFormed] in Hwf. destruct items as [| x items]; [simpl; lia |].
    assert (Hitems : Forall (fun v => weight v
                                       <= 2 * length (JSON_stringify_2 (S depth) v))
                       (x :: items)).
    { pose proof (Forall_forallb _ _ _ IH Hwf) as H.
      eapply Forall_impl; [| exact H]. intros v Hv. apply Hv. }
    pose proof (weights_bound_join weight (JSON_stringify_2 (S depth))
                  (separator (S depth)) (x :: items)
                  (length_separator (S depth)) Hitems) as H.
    rewrite JSON_stringify_2_array. cbn [weight].
    cbn [length]. rewrite !length_append.
    change (length (str1 newline)) with 1. lia.
  - cbn [wellFormed] in Hwf. apply andb_true_iff in Hwf as [Hkeys Hwf].
    destruct members as [| m members]; [simpl; lia |].
    assert (Hmembers : Forall (fun m => weight (snd m)
                                         <= 2 * length (member_text_2 (S depth) m))
                         (m :: members)).
    { pose proof (Forall_forallb (fun m => wellFormed (snd m)) _ _ IH Hwf) as H.
      eapply Forall_impl; [| exact H]. intros m0 Hm. cbn beta in Hm.
      specialize (Hm (S depth)). unfold member_text_2.
      rewrite !length_append. lia. }
    pose proof (weights_bound_join (fun m => weight (snd m))
                  (member_text_2 (S depth)) (separator (S depth))
                  (m :: members) (length_separator (S depth)) Hmembers) as H.
    rewrite JSON_stringify_2_object. cbn [weight].
    cbn [length]. rewrite !length_append.
    change (length (str1 newline)) with 1. lia.
Qed.

(** [JSON.parse(JSON.stringify(v, null, 2))] is [v]. *)
Lemma JSON_parse_stringify_2 (v : json) :
  wellFormed v = true -> JSON_parse (JSON_stringify_2 0 v) = Some v.
Proof.
  intros Hwf. unfold JSON_parse.
  pose proof (parse_value_stringify_2 v Hwf 0
                (2 * length (JSON_stringify_2 0 v) + 2) EmptyString) as H.
  rewrite append_empty_r in H. rewrite H; [reflexivity | | exact I].
  pose proof (weight_bound_2 v Hwf 0). lia.
Qed.

End PrettyRoundTrip.

Module SessionRepository.
Import Js Json Shared SessionFiles.
Local Open Scope string_scope.

(** [SessionMetadata] (shared/src/types.ts). *)
Record SessionMetadata := {
  id : string;
  name : option string;
  model : string;
  status : SessionStatus;
  statusMessage : option string;
  acceptedTools : option (list string)
}.

Definition statusName (s : SessionStatus) : string :=
  match s with
  | running => "running"
  | pending => "pending"
  | stagnant => "stagnant"
  | error => "error"
  end.

(** An object in memory: its properties in the order the engine lists
    them; a property may hold [undefined]. *)
Definition JsObject : Type := list (string * option json).

(** [o[key]]: [None] when [o] has no such property. *)
Fixpoint property (key : string) (o : JsObject) : option (option json) :=
  match o with
  | [] => None
  | (k, v) :: rest =>
      match property key rest with
      | Some v' => Some v'
      | None => if String.eqb k key then Some v else None
      end
  end.

(** The definition of a property: the value of an existing property is
    replaced where the property stands; a new property comes after the
    others, or among the array indices when its key is one. *)
Definition setProperty (key : string) (v : option json) (o : JsObject) : JsObject :=
  defineProperty key v o.

(** [{...target, ...source}]: the properties of [source] are defined on
    [target] one after the other. *)
Definition assign (target source : JsObject) : JsObject :=
  fold_left (fun o p => setProperty (fst p) (snd p) o) source target.

(** What [JSON.stringify] keeps of an object: the properties that are not
    [undefined]. *)
Fixpoint definedMembers (o : JsObject) : list (string * json) :=
  match o with
  | [] => []
  | (k, Some v) :: rest => (k, v) :: definedMembers rest
  | (_, None) :: rest => definedMembers rest
  end.

(** The object that [JSON.parse] builds from the members of a text. *)
Definition objectOf (members : list (string * json)) : JsObject :=
  assign [] (map (fun m => (fst m, Some (snd m))) members).

(** The object of a [SessionMetadata], as the session manager writes it. *)
Definition metadataObject (m : SessionMetadata) : JsObject :=
  [("id", Some (JString (id m)));
   ("name", option_map JString (name m));
   ("model", Some (JString (model m)));
   ("status", Some (JString (statusName (status m))));
   ("statusMessage", option_map JString (statusMessage m));
   ("acceptedTools",
    option_map (fun tools => JArray (map JString tools)) (acceptedTools m))].

Definition metadataJson (m : SessionMetadata) : json :=
  JObject (definedMembers (metadataObject m)).

(** The files [metadata.json] under the base directory, by the name of
    the directory of the session, which is the id of the session. *)
Definition Files : Type := string -> option string.

Definition writeFile (files : Files) (sessionId content : string) : Files :=
  fun s => if String.eqb s sessionId then Some content else files s.

(** [createSession(metadata)]. *)
Definition createSession (files : Files) (metadata : SessionMetadata) : Files :=
  writeFile files (id metadata) (JSON_stringify_2 0 (metadataJson metadata)).

(** [getSession(sessionId)]. *)
Definition getSession (files : Files) (sessionId : string) : Result json :=
  match files sessionId with
  | None => Throw (Error "ENOENT: no such file or directory")
  | Some content =>
      match JSON_parse content with
      | Some metadata => Ok metadata
      | None => Throw (SyntaxError "Unexpected token in JSON")
      end
  end.

Section Spread.

(** The own properties of a string, its code units by index; nothing
    below depends on them. *)
Variable stringProperties : string -> JsObject.

(** [{...v}] for a value that [JSON.parse] returns. *)
Definition spread (v : json) : JsObject :=
  match v with
  | JObject members => objectOf members
  | JArray items =>
      map (fun entry => (decimal (N.of_nat (fst entry)), Some (snd entry)))
          (combine (seq 0 (List.length items)) items)
  | JString s => stringProperties s
  | _ => []
  end.

(** [v.id]. *)
Definition idOf (v : json) : Result (option json) :=
  match v with
  | JNull => Throw (TypeError "Cannot read properties of null (reading 'id')")
  | JObject members => Ok (lookup "id" members)
  | _ => Ok None
  end.

(** [updateSession(sessionId, updates)]. *)
Definition updateSession (files : Files) (sessionId : string)
    (updates : JsObject) : Result Files :=
  bind (getSession files sessionId) (fun existingMetadata =>
    bind (idOf existingMetadata) (fun existingId =>
      let updatedMetadata :=
        assign (assign (spread existingMetadata) updates)
               [("id", existingId)] in
      Ok (writeFile files sessionId
            (JSON_stringify_2 0 (JObject (definedMembers updatedMetadata)))))).

(** [setSessionStatus] of [runComputerUseAgent] (interface.ts), without
    the event it emits. *)
Definition setSessionStatus (files : Files) (sessionId : string)
    (newStatus : SessionStatus) (message : option string) : Result Files :=
  updateSession files sessionId
    [("status", Some (JString (statusName newStatus)));
     ("statusMessage", option_map JString message)].

End Spread.

End SessionRepository.

Section SessionProperties.
Import Js Json Shared SessionFiles SessionRepository.
Local Open Scope string_scope.
Local Open Scope list_scope.

Definition keys (o : JsObject) : list string := map fst o.

Lemma property_absent key o : ~ In key (keys o) -> property key o = None.
Proof.
  induction o as [| [k v] o IH]; [reflexivity |]. cbn. intros Hin.
  rewrite IH by tauto. destruct (String.eqb_spec k key); [| reflexivity].
  tauto.
Qed.

Lemma existsb_keys key o :
  existsb (String.eqb key) (keys o) = true <-> In key (keys o).
Proof.
  rewrite existsb_exists. split.
  - intros (k & Hin & Heq). apply String.eqb_eq in Heq. now subst.
  - intros Hin. exists key. split; [exact Hin | apply String.eqb_refl].
Qed.

Lemma keys_replaceProperty key (v : option json) o :
  keys (replaceProperty key v o) = keys o.
Proof.
  induction o as [| [k v'] o IH]; [reflexivity |]. cbn [replaceProperty].
  destruct (String.eqb k key); [reflexivity |].
  unfold keys in *. cbn [map fst]. now rewrite IH.
Qed.

Lemma keys_insertProperty key (v : option json) o k :
  In k (keys (insertProperty key v o)) <-> k = key \/ In k (keys o).
Proof.
  induction o as [| [k0 v'] o IH]; cbn [insertProperty].
  - cbn. intuition.
  - destruct (comesBefore key k0).
    + cbn. intuition.
    + unfold keys in *. cbn [map fst In]. rewrite IH. intuition.
Qed.

Lemma NoDup_insertProperty key (v : option json) o :
  ~ In key (keys o) -> NoDup (keys o) -> NoDup (keys (insertProperty key v o)).
Proof.
  induction o as [| [k0 v'] o IH]; intros Hnew Hnd; cbn [insertProperty].
  - repeat constructor. intros [].
  - destruct (comesBefore key k0).
    + constructor; assumption.
    + inversion Hnd as [| ? ? Hk Hnd']; subst.
      unfold keys in *. cbn [map fst] in *. constructor.
      * fold (keys (insertProperty key v o)). rewrite keys_insertProperty.
        intros [-> | Hin]; [apply Hnew; now left | now apply Hk].
      * apply IH; [| assumption]. intros Hin. apply Hnew. now right.
Qed.

Lemma NoDup_setProperty key v o :
  NoDup (keys o) -> NoDup (keys (setProperty key v o)).
Proof.
  intros Hnd. unfold setProperty, defineProperty. fold (keys o).
  destruct (existsb (String.eqb key) (keys o)) eqn:E.
  - now rewrite keys_replaceProperty.
  - apply NoDup_insertProperty; [| exact Hnd].
    intros Hin. apply existsb_keys in Hin. congruence.
Qed.

Lemma property_replaceProperty key key' v o :
  NoDup (keys o) -> In key' (keys o) ->
  property key (replaceProperty key' v o)
  = if String.eqb key' key then Some v else property key o.
Proof.
  induction o as [| [k v'] o IH]; intros Hnd Hin; [destruct Hin |].
  inversion Hnd as [| ? ? Hk Hnd']; subst. cbn [replaceProperty].
  destruct (String.eqb_spec k key') as [-> | Hne]; cbn [property].
  - destruct (String.eqb_spec key' key) as [-> | Hne'].
    + now rewrite (property_absent key o Hk).
    + reflexivity.
  - destruct Hin as [Heq | Hin]; [cbn in Heq; congruence |].
    rewrite IH by assumption.
    destruct (String.eqb_spec key' key) as [-> | Hne']; reflexivity.
Qed.

Lemma property_insertProperty key key' v o :
  ~ In key' (keys o) ->
  property key (insertProperty key' v o)
  = if String.eqb key' key then Some v else property key o.
Proof.
  induction o as [| [k v'] o IH]; intros Hnew.
  - cbn. now destruct (String.eqb key' key).
  - cbn [insertProperty]. destruct (comesBefore key' k).
    + set (o' := (k, v') :: o) in *. cbn [property].
      destruct (String.eqb_spec key' key) as [<- | Hne].
      * now rewrite (property_absent key' o' Hnew).
      * now destruct (property key o').
    + cbn [property]. rewrite IH by (intros Hin; apply Hnew; now right).
      destruct (String.eqb_spec key' key) as [<- | Hne]; [| reflexivity].
      destruct (String.eqb_spec k key') as [-> | Hk]; [| reflexivity].
      exfalso. apply Hnew. now left.
Qed.

Lemma property_setProperty key key' v o :
  NoDup (keys o) ->
  property key (setProperty key' v o)
  = if String.eqb key' key then Some v else property key o.
Proof.
  intros Hnd. unfold setProperty, defineProperty. fold (keys o).
  destruct (existsb (String.eqb key') (keys o)) eqn:E.
  - apply property_replaceProperty; [exact Hnd | now apply existsb_keys].
  - apply property_insertProperty.
    intros Hin. apply existsb_keys in Hin. congruence.
Qed.

(** ** The order of the properties *)

Lemma comesBefore_asym a b : comesBefore a b = true -> comesBefore b a = false.
Proof.
  unfold comesBefore.
  destruct (arrayIndex a) as [i |], (arrayIndex b) as [j |];
    try discriminate; try reflexivity.
  intros H. apply N.ltb_lt in H. apply N.ltb_ge. lia.
Qed.

Lemma comesBefore_trans a b c :
  comesBefore a b = true -> comesBefore b c = true -> comesBefore a c = true.
Proof.
  unfold comesBefore.
  destruct (arrayIndex a) as [i |], (arrayIndex b) as [j |],
           (arrayIndex c) as [k |]; try discriminate; try reflexivity.
  intros H1 H2. apply N.ltb_lt in H1, H2. apply N.ltb_lt. lia.
Qed.

(** [mayFollow k k']: [k'] may be listed after [k]. *)
Definition mayFollow (k k' : string) : bool :=
  negb (String.eqb k' k) && negb (comesBefore k' k).

Lemma listedInOrder_cons k ks :
  listedInOrder (k :: ks) = forallb (mayFollow k) ks && listedInOrder ks.
Proof. reflexivity. Qed.

Definition Listed (o : JsObject) : Prop := listedInOrder (keys o) = true.

Lemma Listed_NoDup o : Listed o -> NoDup (keys o).
Proof.
  unfold Listed. induction o as [| [k v] o IH]; [constructor |].
  unfold keys in *. cbn [map fst]. rewrite listedInOrder_cons.
  intros H. apply andb_true_iff in H as [Hk Ho]. constructor; [| auto].
  intros Hin. rewrite forallb_forall in Hk. specialize (Hk k Hin).
  unfold mayFollow in Hk. now rewrite String.eqb_refl in Hk.
Qed.

Lemma Listed_insertProperty key v o :
  ~ In key (keys o) -> Listed o -> Listed (insertProperty key v o).
Proof.
  unfold Listed.
  induction o as [| [k v'] o IH]; intros Hnew Ho; [reflexivity |].
  unfold keys in *. cbn [map fst] in Ho, Hnew. rewrite listedInOrder_cons in Ho.
  apply andb_true_iff in Ho as [Hk Ho]. cbn [insertProperty].
  destruct (comesBefore key k) eqn:Hbefore.
  - cbn [map fst]. rewrite !listedInOrder_cons, Hk, Ho, !andb_true_r.
    cbn [forallb]. apply andb_true_iff. split.
    + unfold mayFollow. rewrite (comesBefore_asym _ _ Hbefore), andb_true_r.
      apply negb_true_iff. destruct (String.eqb_spec k key); [| reflexivity].
      exfalso. apply Hnew. now left.
    + rewrite forallb_forall in Hk |- *. intros k' Hin.
      specialize (Hk k' Hin). unfold mayFollow in *.
      apply andb_true_iff in Hk as [_ Hk]. apply negb_true_iff in Hk.
      apply andb_true_iff. split.
      * apply negb_true_iff. destruct (String.eqb_spec k' key); [| reflexivity].
        exfalso. apply Hnew. right. now subst.
      * apply negb_true_iff. destruct (comesBefore k' key) eqn:E; [| reflexivity].
        now rewrite (comesBefore_trans _ _ _ E Hbefore) in Hk.
  - cbn [map fst]. rewrite listedInOrder_cons. apply andb_true_iff. split.
    + rewrite forallb_forall in Hk |- *. intros k' Hin.
      fold (keys (insertProperty key v o)) in Hin.
      apply keys_insertProperty in Hin as [-> | Hin]; [| now apply Hk].
      unfold mayFollow. rewrite Hbefore, andb_true_r.
      apply negb_true_iff. destruct (String.eqb_spec key k); [| reflexivity].
      exfalso. apply Hnew. now left.
    + apply IH; [| exact Ho]. intros Hin. apply Hnew. now right.
Qed.

Lemma Listed_setProperty key v o : Listed o -> Listed (setProperty key v o).
Proof.
  intros Ho. unfold setProperty, defineProperty. fold (keys o).
  destruct (existsb (String.eqb key) (keys o)) eqn:E.
  - unfold Listed. now rewrite keys_replaceProperty.
  - apply Listed_insertProperty; [| exact Ho].
    intros Hin. apply existsb_keys in Hin. congruence.
Qed.

Lemma Listed_assign target source :
  Listed target -> Listed (assign target source).
Proof.
  unfold assign. revert target.
  induction source as [| [k v] source IH]; intros target Ht; [exact Ht |].
  cbn [fold_left fst snd]. apply IH. now apply Listed_setProperty.
Qed.

Lemma forallb_definedMembers (f : string -> bool) o :
  forallb f (keys o) = true -> forallb f (map fst (definedMembers o)) = true.
Proof.
  induction o as [| [k [v |]] o IH]; [reflexivity | |];
    unfold keys in *; cbn [map fst forallb definedMembers]; intros H;
    apply andb_true_iff in H as [Hk Ho]; [| now apply IH].
  now rewrite Hk, IH.
Qed.

Lemma listed_definedMembers o :
  Listed o -> listedInOrder (map fst (definedMembers o)) = true.
Proof.
  unfold Listed. induction o as [| [k [v |]] o IH]; [reflexivity | |];
    unfold keys in *; cbn [map fst definedMembers];
    rewrite listedInOrder_cons; intros H;
    apply andb_true_iff in H as [Hk Ho]; [| now apply IH].
  rewrite listedInOrder_cons, (IH Ho), andb_true_r.
  now apply (forallb_definedMembers (mayFollow k)).
Qed.

Lemma NoDup_assign target source :
  NoDup (keys target) -> NoDup (keys (assign target source)).
Proof.
  unfold assign. revert target.
  induction source as [| [k v] source IH]; intros target Hnd; [exact Hnd |].
  cbn [fold_left fst snd]. apply IH. now apply NoDup_setProperty.
Qed.

Lemma property_assign key target source :
  NoDup (keys target) ->
  property key (assign target source)
  = match property key source with
    | Some v => Some v
    | None => property key target
    end.
Proof.
  unfold assign. revert target.
  induction source as [| [k v] source IH]; intros target Hnd; [reflexivity |].
  cbn [fold_left fst snd property].
  rewrite IH by now apply NoDup_setProperty.
  destruct (property key source); [reflexivity |].
  rewrite property_setProperty by assumption.
  now destruct (String.eqb k key).
Qed.

Lemma lookup_definedMembers key o :
  NoDup (keys o) ->
  lookup key (definedMembers o)
  = match property key o with
    | Some (Some v) => Some v
    | _ => None
    end.
Proof.
  induction o as [| [k [v |]] o IH]; intros Hnd; [reflexivity | |];
    inversion Hnd as [| ? ? Hk Hnd']; subst;
    cbn [definedMembers lookup property].
  - rewrite IH by assumption.
    destruct (String.eqb_spec k key) as [-> | Hne].
    + now rewrite (property_absent key o Hk).
    + now destruct (property key o) as [[x |] |].
  - rewrite IH by assumption.
    destruct (String.eqb_spec k key) as [-> | Hne].
    + now rewrite (property_absent key o Hk).
    + now destruct (property key o) as [[x |] |].
Qed.

Lemma property_lifted key members :
  property key (map (fun m => (fst m, Some (snd m))) members)
  = option_map Some (lookup key members).
Proof.
  induction members as [| [k v] members IH]; [reflexivity |].
  cbn [map property lookup fst snd]. rewrite IH.
  destruct (lookup key members); [reflexivity |].
  now destruct (String.eqb k key).
Qed.

Lemma property_objectOf key members :
  property key (objectOf members) = option_map Some (lookup key members).
Proof.
  unfold objectOf. rewrite property_assign by constructor.
  rewrite property_lifted. now destruct (lookup key members).
Qed.

(** The values of an object that [JSON.stringify] writes are well
    formed. *)
Definition storableObject (o : JsObject) : Prop :=
  Forall (fun p => match snd p with
                   | Some v => wellFormed v = true
                   | None => True
                   end) o.

Lemma storable_setProperty key v o :
  storableObject o ->
  match v with Some x => wellFormed x = true | None => True end ->
  storableObject (setProperty key v o).
Proof.
  intros Ho Hv. unfold setProperty, defineProperty.
  destruct (existsb _ _).
  - induction Ho as [| [k v'] o Hk Ho IH]; cbn [replaceProperty].
    + constructor.
    + destruct (String.eqb k key); constructor; assumption.
  - induction Ho as [| [k v'] o Hk Ho IH]; cbn [insertProperty].
    + now repeat constructor.
    + destruct (comesBefore key k); repeat constructor; assumption.
Qed.

Lemma storable_assign target source :
  storableObject target -> storableObject source ->
  storableObject (assign target source).
Proof.
  unfold assign. intros Ht Hs. revert target Ht.
  induction Hs as [| [k v] source Hp Hs IH]; intros target Ht; [exact Ht |].
  cbn [fold_left fst snd]. apply IH. now apply storable_setProperty.
Qed.

Lemma wellFormed_definedMembers o :
  Listed o -> storableObject o ->
  wellFormed (JObject (definedMembers o)) = true.
Proof.
  intros Hlisted. cbn [wellFormed].
  rewrite (listed_definedMembers o Hlisted), andb_true_l.
  induction 1 as [| [k [v |]] o Hp Ho IH];
    cbn [definedMembers forallb snd]; [reflexivity | | ].
  - cbn [snd] in Hp. rewrite Hp. apply IH.
    apply Listed_NoDup in Hlisted as Hnd.
    unfold Listed, keys in *. cbn [map fst] in Hlisted.
    rewrite listedInOrder_cons in Hlisted.
    now apply andb_true_iff in Hlisted as [_ Hlisted].
  - apply IH. unfold Listed, keys in *. cbn [map fst] in Hlisted.
    rewrite listedInOrder_cons in Hlisted.
    now apply andb_true_iff in Hlisted as [_ Hlisted].
Qed.

Lemma storable_lifted members :
  forallb (fun m => wellFormed (snd m)) members = true ->
  storableObject (map (fun m => (fst m, Some (snd m))) members).
Proof.
  induction members as [| [k v] members IH]; cbn [forallb map].
  - constructor.
  - intros H. apply andb_true_iff in H. destruct H as [Hv H].
    constructor; [exact Hv | now apply IH].
Qed.

Lemma lookup_wellFormed key members v :
  forallb (fun m => wellFormed (snd m)) members = true ->
  lookup key members = Some v -> wellFormed v = true.
Proof.
  induction members as [| [k x] members IH]; [discriminate |].
  cbn [forallb lookup snd]. intros H. apply andb_true_iff in H.
  destruct H as [Hx H]. destruct (lookup key members) as [y |].
  - intros Hy. injection Hy as <-. now apply IH.
  - destruct (String.eqb k key); [| discriminate].
    intros Hy. now injection Hy as <-.
Qed.

Lemma getSession_writeFile files sessionId v :
  wellFormed v = true ->
  getSession (writeFile files sessionId (JSON_stringify_2 0 v)) sessionId = Ok v
  /\ forall other,
       other <> sessionId ->
       getSession (writeFile files sessionId (JSON_stringify_2 0 v)) other
       = getSession files other.
Proof.
  intros Hwf. unfold getSession, writeFile. split.
  - rewrite String.eqb_refl. now rewrite (JSON_parse_stringify_2 v Hwf).
  - intros other Hother.
    now destruct (String.eqb_spec other sessionId).
Qed.

Lemma storable_metadataObject m : storableObject (metadataObject m).
Proof.
  unfold metadataObject, storableObject.
  repeat constructor; cbn [snd].
  - now destruct (name m).
  - now destruct (statusMessage m).
  - destruct (acceptedTools m) as [tools |]; [| exact I].
    cbn [option_map wellFormed]. induction tools; [reflexivity | assumption].
Qed.

(** X21: a session that is created is read back.  After
    [createSession(metadata)], [getSession] of the id of the metadata
    returns an object with the members of the metadata that are defined
    ([id], [model] and [status] always; [name], [statusMessage] and
    [acceptedTools] when given), whatever was there before; and the
    metadata of every other session is what it was. *)
Theorem created_session_is_read_back files metadata :
  getSession (createSession files metadata) (id metadata)
  = Ok (metadataJson metadata)
  /\ lookup "id" (definedMembers (metadataObject metadata))
     = Some (JString (id metadata))
  /\ lookup "model" (definedMembers (metadataObject metadata))
     = Some (JString (model metadata))
  /\ lookup "status" (definedMembers (metadataObject metadata))
     = Some (JString (statusName (status metadata)))
  /\ lookup "name" (definedMembers (metadataObject metadata))
     = option_map JString (name metadata)
  /\ lookup "statusMessage" (definedMembers (metadataObject metadata))
     = option_map JString (statusMessage metadata)
  /\ lookup "acceptedTools" (definedMembers (metadataObject metadata))
     = option_map (fun tools => JArray (map JString tools))
         (acceptedTools metadata)
  /\ forall other,
       other <> id metadata ->
       getSession (createSession files metadata) other = getSession files other.
Proof.
  unfold createSession.
  destruct (getSession_writeFile files (id metadata) (metadataJson metadata))
    as [Hread Hother].
  { apply wellFormed_definedMembers;
      [reflexivity | apply storable_metadataObject]. }
  split; [exact Hread |]. unfold metadataObject.
  destruct (name metadata), (statusMessage metadata), (acceptedTools metadata);
    repeat (split; [reflexivity |]); exact Hother.
Qed.

(** What [createSession] writes is written in full. *)
Lemma wellFormed_metadataJson metadata :
  wellFormed (metadataJson metadata) = true.
Proof.
  apply wellFormed_definedMembers;
    [reflexivity | apply storable_metadataObject].
Qed.

Section Updates.

Variable stringProperties : string -> JsObject.

(** X22: [updateSession] changes what it is given and nothing else.  When
    the stored metadata of a session is an object that [JSON.stringify]
    writes in full (its numbers are finite and none is the negative
    zero), and so are the values of the updates, the update succeeds;
    afterwards [getSession] returns an object in which [id] is as before,
    whatever the updates say; every other key of the updates has the
    value of the updates, or is absent when the update gives
    [undefined]; every other key is as before; the object is again one
    that is written in full; and the metadata of every other session is
    what it was. *)
Theorem updateSession_changes_the_updates_only
    files sessionId members (updates : JsObject) :
  getSession files sessionId = Ok (JObject members) ->
  wellFormed (JObject members) = true ->
  storableObject updates ->
  exists files' members',
    updateSession stringProperties files sessionId updates = Ok files'
    /\ getSession files' sessionId = Ok (JObject members')
    /\ wellFormed (JObject members') = true
    /\ (forall key,
          lookup key members'
          = if String.eqb key "id" then lookup "id" members
            else match property key updates with
                 | Some v => v
                 | None => lookup key members
                 end)
    /\ (forall other,
          other <> sessionId ->
          getSession files' other = getSession files other).
Proof.
  intros Hread Hwf Hupdates.
  unfold updateSession. rewrite Hread.
  cbn [bind idOf spread]. cbn [wellFormed] in Hwf.
  apply andb_true_iff in Hwf as [_ Hwf].
  set (updated := assign (assign (objectOf members) updates)
                    [("id", lookup "id" members)]).
  assert (Hdistinct : NoDup (keys (assign (objectOf members) updates))).
  { apply NoDup_assign. unfold objectOf. apply NoDup_assign. constructor. }
  assert (Hstorable : storableObject updated).
  { unfold updated, objectOf. repeat apply storable_assign;
      try assumption; try constructor.
    - now apply storable_lifted.
    - cbn [snd]. destruct (lookup "id" members) as [v |] eqn:Hid; [| exact I].
      exact (lookup_wellFormed _ _ _ Hwf Hid).
    - constructor. }
  assert (Hlisted : Listed updated).
  { unfold updated, objectOf. repeat apply Listed_assign. reflexivity. }
  destruct (getSession_writeFile files sessionId
              (JObject (definedMembers updated))
              (wellFormed_definedMembers _ Hlisted Hstorable))
    as [Hback Hother].
  eexists _, (definedMembers updated).
  split; [reflexivity |]. split; [exact Hback |].
  split; [exact (wellFormed_definedMembers _ Hlisted Hstorable) |].
  split; [| exact Hother].
  intros key. rewrite lookup_definedMembers by now apply NoDup_assign.
  unfold updated. rewrite property_assign by assumption.
  cbn [property]. rewrite (String.eqb_sym "id" key).
  destruct (String.eqb key "id").
  - now destruct (lookup "id" members).
  - rewrite property_assign
      by (unfold objectOf; apply NoDup_assign; constructor).
    destruct (property key updates) as [[v |] |]; try reflexivity.
    rewrite property_objectOf. now destruct (lookup key members).
Qed.

End Updates.

(** A session with an accepted tool, and the update [setSessionStatus]
    makes when a turn is suspended. *)
Definition demo_metadata : SessionMetadata :=
  {| id := "s1"; name := Some "demo"; model := "gemini-2.5-pro";
     status := running; statusMessage := Some "Turn 1";
     acceptedTools := Some ["computer_click"] |}.

Definition demo_files : Files := createSession (fun _ => None) demo_metadata.

Definition demo_members : list (string * json) :=
  definedMembers (metadataObject demo_metadata).

Definition pending_update : JsObject :=
  [("status", Some (JString "pending"));
   ("statusMessage", Some (JString "Tool call pending."))].

(** X22 on that session: the status and its message change, the accepted
    tools and the rest stay. *)
Lemma updateSession_changes_the_updates_only_witness :
  getSession demo_files "s1" = Ok (JObject demo_members)
  /\ wellFormed (JObject demo_members) = true
  /\ storableObject pending_update
  /\ bind (setSessionStatus (fun _ => []) demo_files "s1" pending
             (Some "Tool call pending."))
          (fun files' => getSession files' "s1")
     = Ok (JObject [("id", JString "s1"); ("name", JString "demo");
                    ("model", JString "gemini-2.5-pro");
                    ("status", JString "pending");
                    ("statusMessage", JString "Tool call pending.");
                    ("acceptedTools", JArray [JString "computer_click"])])
  /\ exists files' members',
       updateSession (fun _ => []) demo_files "s1" pending_update = Ok files'
       /\ getSession files' "s1" = Ok (JObject members')
       /\ wellFormed (JObject members') = true
       /\ (forall key,
             lookup key members'
             = if String.eqb key "id" then lookup "id" demo_members
               else match property key pending_update with
                    | Some v => v
                    | None => lookup key demo_members
                    end)
       /\ (forall other,
             other <> "s1" ->
             getSession files' other = getSession demo_files other).
Proof.
  assert (Hread : getSession demo_files "s1" = Ok (JObject demo_members))
    by (vm_compute; reflexivity).
  assert (Hwf : wellFormed (JObject demo_members) = true)
    by (vm_compute; reflexivity).
  assert (Hupdates : storableObject pending_update)
    by (repeat constructor).
  split; [exact Hread |]. split; [exact Hwf |]. split; [exact Hupdates |].
  split; [vm_compute; reflexivity |].
  exact (updateSession_changes_the_updates_only (fun _ => []) demo_files "s1"
           demo_members pending_update Hread Hwf Hupdates).
Defined.

End SessionProperties.
